(* ===== verification/_CoqProject ===== *)
-Q . S2P
Prelude.v
Bytes.v
GoText.v
GoNet.v
GoJson.v
GoCrypto.v
GoTime.v
GoEncoding.v
GoUrl.v
GoRunes.v
GoNetip.v
Ssrf.v
GoHttp.v
Uuid.v
Types.v
OAuthTypes.v
Request.v
Roles.v
AuditChain.v
Store.v
StoreUsers.v
StoreTokens.v
StoreWorkspaces.v
StoreScim.v
StoreOAuth.v
StorePages.v
Commit.v
StoreSystem.v
Scenario.v
StoreChain.v
StoreOutcomes.v
StoreMonotone.v
StoreGuards.v
StoreRevocation.v
Tokens.v
Events.v
Manager.v
ManagerGates.v
Config.v
ManagerSession.v
ManagerPAT.v
ManagerPassword.v
ManagerAdmin.v
ManagerEmail.v
ManagerInvite.v
ManagerSeal.v
ManagerFactor.v
ManagerPasskey.v
ManagerSSO.v
ManagerScim.v
OAuthPolicy.v
ManagerOAuth.v
ManagerOAuthTokens.v
ManagerOAuthAdmin.v
OAuthHttp.v
OAuthFetcher.v
ManagerListings.v
ManagerScenario.v
ManagerTrace.v
OAuthScenario.v
ManagerSystem.v
ManagerSafety.v
ManagerAuth.v
ManagerFlows.v
ManagerFederated.v
ManagerOAuthSafety.v
OAuthHttpSafety.v
ManagerQuiet.v
ManagerGated.v
ManagerOAuthLive.v
ManagerExport.v
ManagerKeys.v
ManagerContinuation.v
ManagerScimRoles.v
ManagerFindings.v
