(* ===== verification/Prelude.v ===== *)
(** * Credbound: a verification development

    Credbound is an authentication and authorization library for Go: accounts
    and passwords, sessions, personal access tokens, second factors,
    workspaces with roles, directory provisioning, an OAuth server, and a
    hash-chained audit trail.  A host calls the methods of a [Manager]; the
    manager checks the caller, mints identifiers and secrets, and calls a
    store, whose every mutation is one atomic commit that carries its audit
    event and runs the host's transaction hooks.  This development models the
    in-memory store ([src/memory]), the manager ([src/*.go]) and the OAuth
    endpoints ([src/oauthhttp]) as executable definitions and proves what they
    promise, separately and together.

    ** The files

    - [Prelude]: errors and [errors.Is], the state-and-error monad [M] with
      its weakest preconditions [wp], record update, lemmas on maps and lists.
    - [Bytes], [GoText], [GoNet], [GoJson], [GoCrypto], [GoTime],
      [GoEncoding], [GoUrl], [GoRunes], [GoNetip], [GoHttp]: what the sources
      use of the Go standard library: byte strings, hexadecimal and base64,
      SHA-256, HMAC and AES-GCM, UTF-8, [strings] and [unicode], [net/mail] and
      [net/netip] addresses, RFC 3339 times, [encoding/json], [net/url], query
      strings, media types and forms.
    - [Request] (request.go, requesthttp.go, errors_http.go): the client address
      and user agent of a request.  [Ssrf] (internal/ssrf/ssrf.go): the
      addresses that may be dialed.
    - [Uuid] (internal/uuid/uuid.go, uuid.go): identifiers.
    - [Types], [OAuthTypes] (types.go, oauth_types.go): the records; the zero
      value of a struct [T] is [T_zero], a nil pointer is [None].
    - [Roles] (workspace_roles.go): compilation of the role catalogue.
    - [AuditChain] (audit.go): encoding, hash and verification of the trail.
    - [Store], [StoreUsers], [StoreTokens], [StoreWorkspaces], [StoreScim],
      [StoreOAuth], [StorePages] (memory/store.go, memory/scim.go,
      memory/oauth.go): the state of the store and one definition per operation
      and listing, under the source's name; a name already taken carries a final
      underscore.
    - [Commit]: reasoning principles for the commit protocol.
    - [StoreSystem]: the mutations as data, steps and traces of the store.
    - [Scenario]: a small deployment used by the witnesses.
    - [StoreChain], [StoreOutcomes], [StoreMonotone], [StoreGuards],
      [StoreRevocation]: theorems about traces of the store.
    - [Tokens] (pat.go, email.go): shapes of the tokens, scopes, pages.
    - [Events] (events.go): event names, hook payloads, order of the hooks.
    - [Manager], [ManagerGates], [Config], [ManagerSession], [ManagerPAT],
      [ManagerPassword], [ManagerAdmin], [ManagerListings] (config.go,
      internal.go, auth.go, rbac.go, admin.go, lifecycle.go, session.go, pat.go,
      revocation.go, client_audit.go, audit.go, export.go): the manager; the
      method [X] is [Manager_X].
    - [ManagerEmail] (email.go, reset.go, magiclink.go), [ManagerInvite]
      (invitation.go, signup.go, domain.go), [ManagerSeal] (the sealed
      continuations of internal.go and sso.go), [ManagerFactor] (totp.go,
      emailotp.go), [ManagerPasskey] (passkey.go), [ManagerSSO] (sso.go),
      [ManagerScim] (scim.go): the other flows of the manager.
    - [OAuthPolicy], [ManagerOAuth], [ManagerOAuthTokens], [ManagerOAuthAdmin]
      (oauth.go, oauth_tokens.go, oauth_events.go, oauth_admin.go): the OAuth
      server of the manager.
    - [OAuthHttp], [OAuthFetcher] (oauthhttp/handler.go, oauthhttp/fetcher.go):
      its endpoints and the download of client metadata.
    - [ManagerTrace]: what a method may do to the world, and proof rules.
    - [ManagerScenario], [OAuthScenario]: a configured manager, a bootstrapped
      service and an authorization up to its tokens.
    - [ManagerSystem], [ManagerSafety], [ManagerAuth], [ManagerFlows],
      [ManagerFederated], [ManagerOAuthSafety], [OAuthHttpSafety],
      [ManagerQuiet], [ManagerGated], [ManagerOAuthLive], [ManagerExport],
      [ManagerKeys], [ManagerContinuation], [ManagerScimRoles]: theorems about the
      manager and the endpoints.
    - [ManagerFindings]: behaviours that the documentation excludes.

    ** State and steps

    [Store] has the maps of [memory.Store]; an operation is a function
    [Store -> result A * Store] that runs atomically, as it does under the
    mutex.  The world of a manager holds a store, the state of the identifier
    generator and the emitted events.  Between any two steps of a method
    (calls of the store, draws of randomness, readings of the clock) other
    goroutines may run any operations of the store; clock, entropy,
    cancellation and interference are functions of a step counter, so the
    theorems hold for every behaviour of the environment.

    ** What the theorems show

    - The audit chain of every reachable store verifies from every earlier
      checkpoint; a commit appends exactly its event or changes nothing;
      tampering needs a SHA-256 collision.
    - Rows that are revoked, used or closed stay so; ceremonies, codes,
      invitations and TOTP steps are spent at most once; disabling an account
      revokes all its credentials and changes no row of another account; the
      counter of failed logins counts the committed failures; the last root administrator
      and the last administrator of a workspace cannot be lost by single
      changes; following the cursors of a listing yields every row once.
    - The catalogue grants exactly the inherited roles and permissions, and
      compilation accepts exactly the acyclic configurations.
    - The manager refines the store: every method, under every interference,
      moves the store along its own operations.  Session tokens, personal
      access tokens, passwords, emailed links and codes, second factors,
      passkeys and single sign-on authenticate only against live rows during
      the call; every request meets the demand it is classified under, and the
      reads change nothing but the trail; authorization decides its specification;
      issued tokens round-trip; sealed continuations open to what was sealed;
      directory roles follow the priorities; a data export is complete over its sections
      and holds no secret; key rotation loses no credential; what [New] accepts is well
      formed; minted identifiers increase.
    - A consent delegates only what its user holds; a code, a refresh token and
      client credentials buy only the tokens they stand for; a bearer token is
      accepted exactly while its grant and all it depends on stand.  The HTTP
      endpoints inherit this for the requests read from the wire, and redirect
      to registered URIs only.
    - A client cannot choose the address it is audited under; the outbound
      policy admits exactly the addresses outside three lists of ranges.

    ** Bounds

    Integers of Go are unbounded [Z] with [wrap64] where the source can
    overflow (audit sequence, counters).  Times are nanoseconds in [Z].
    Recursions on fuel are given the length of their input, which decreases at
    each call; JSON is read with two turns per byte and Go's nesting limit; the
    retry loop of the password sign-in has the source's bound, and loops the
    source does not bound run for 2^256 rounds, beyond any list of rows that
    identifiers can tell apart.

    ** Not modelled

    The PostgreSQL store and the generated queries (their behaviour is that of
    SQL in the database), the SCIM endpoints, the adapters for identity
    providers, SAML, GitHub, WebAuthn, TOTP, Argon2id and signing keys, which are
    built on third-party packages or the network, and test support.  Password
    hashing, TOTP validation, WebAuthn, identity providers, DNS and the HTTP
    transport are ports: parameters of the model.  The body of an HTTP answer is
    the value that is encoded.  Observers and listeners cannot affect the
    manager and are dropped. *)
From stdpp Require Import base gmap sets list strings numbers sorting.
From Stdlib Require Import ZArith Lia.

Declare Scope credbound_scope.
Delimit Scope credbound_scope with cb.
Open Scope credbound_scope.

(** ** Errors (src/errors.go)

    A Go [error] is compared with [errors.Is] against the sentinels; what is
    kept of it is therefore the chain of wrappings down to a sentinel, a
    [*ValidationError] or an error of another package. *)
Inductive Sentinel :=
| ErrInvalidCredentials | ErrUnauthorized | ErrForbidden | ErrStepUpRequired
| ErrConflict | ErrNotFound | ErrInvalidInput | ErrExpired | ErrLocked
| ErrSSORequired | ErrDomainVerification | ErrNoPasskey | ErrPasskeyCloneDetected
| ErrAuditUnavailable | ErrAuditCompromised | ErrTransactionRejected | ErrNotSupported
| ErrContextCanceled | ErrDeadlineExceeded.

#[export] Instance Sentinel_eq_dec : EqDecision Sentinel.
Proof. solve_decision. Defined.

Inductive error :=
| Sent (s : Sentinel)
| ValidationError (Field Rule Message : string)
| Wrapped (s : string) (e : error)
| Opaque (s : string).

Coercion Sent : Sentinel >-> error.

#[export] Instance error_eq_dec : EqDecision error.
Proof. solve_decision. Defined.

(** [errors.Is], following [Unwrap]; a [*ValidationError] unwraps to
    [ErrInvalidInput]. *)
Fixpoint errors_Is (e : error) (s : Sentinel) : bool :=
  match e with
  | Sent s' => bool_decide (s' = s)
  | ValidationError _ _ _ => bool_decide (ErrInvalidInput = s)
  | Wrapped _ e' => errors_Is e' s
  | Opaque _ => false
  end.

(** ** Results and the state-and-error monad

    A Go method that mutates its receiver and returns [(T, error)] is a
    function of the state; as in Go, the state reached so far is kept when an
    error is returned. *)
Inductive result (A : Type) :=
| Ok (a : A)
| Error (e : error).
Arguments Ok {A} a.
Arguments Error {A} e.

Definition is_ok {A} (r : result A) : bool :=
  match r with Ok _ => true | Error _ => false end.

Definition M (S A : Type) : Type := S → result A * S.

#[export] Instance M_ret {S} : MRet (M S) := λ A a s, (Ok a, s).
#[export] Instance M_bind {S} : MBind (M S) := λ A B k m s,
  match m s with
  | (Ok a, s') => k a s'
  | (Error e, s') => (Error e, s')
  end.

Section monad_operations.
Context {S : Type}.

Definition get : M S S := λ s, (Ok s, s).
Definition gets {A} (f : S → A) : M S A := λ s, (Ok (f s), s).
Definition modify (f : S → S) : M S unit := λ s, (Ok tt, f s).
Definition throw {A} (e : error) : M S A := λ s, (Error e, s).

(** [if b { return err }] *)
Definition throw_if (b : bool) (e : error) : M S unit :=
  if b then throw e else mret tt.

(** [v, ok := lookup; if !ok { return err }] *)
Definition ok_or {A} (o : option A) (e : error) : M S A :=
  match o with Some a => mret a | None => throw e end.

(** [v, err := f()] followed by an inspection of [err]. *)
Definition attempt {A} (m : M S A) : M S (result A) := λ s, (Ok (m s).1, (m s).2).

(** A value that is already a result. *)
Definition lift_result {A} (r : result A) : M S A :=
  match r with Ok a => mret a | Error e => throw e end.

End monad_operations.

(** ** Weakest preconditions *)
Section wp.
Context {S : Type}.

Definition wp {A} (m : M S A) (Q : result A → S → Prop) (s : S) : Prop :=
  Q (m s).1 (m s).2.

(** A run is its answer and the state it leaves. *)
Lemma run_split {A} (m : M S A) s r : (m s).1 = r → m s = (r, (m s).2).
Proof. intros <-. by destruct (m s). Qed.

Lemma wp_eq {A} (m : M S A) s r s' : wp m (λ r1 s1, r1 = r ∧ s1 = s') s → m s = (r, s').
Proof. unfold wp. destruct (m s) as [r1 s1]. by intros [<- <-]. Qed.

Lemma wp_run {A} (m : M S A) Q s r s' : wp m Q s → m s = (r, s') → Q r s'.
Proof. unfold wp. intros H E. by rewrite E in H. Qed.

Lemma wp_intro {A} (m : M S A) (Q : result A → S → Prop) s :
  (∀ r s', m s = (r, s') → Q r s') → wp m Q s.
Proof. unfold wp. destruct (m s) as [r s']. auto. Qed.

Lemma wp_mono {A} (m : M S A) (Q Q' : result A → S → Prop) s :
  wp m Q s → (∀ r s', Q r s' → Q' r s') → wp m Q' s.
Proof. unfold wp. auto. Qed.

Lemma wp_ret {A} (a : A) Q (s : S) : Q (Ok a) s → wp (mret a) Q s.
Proof. done. Qed.

Lemma wp_bind {A B} (m : M S A) (k : A → M S B) Q s :
  wp m (λ r s', match r with Ok a => wp (k a) Q s' | Error e => Q (Error e) s' end) s →
  wp (m ≫= k) Q s.
Proof. unfold wp, mbind, M_bind. by destruct (m s) as [[] ?]. Qed.

Lemma wp_get Q (s : S) : Q (Ok s) s → wp get Q s.
Proof. done. Qed.

Lemma wp_gets {A} (f : S → A) Q (s : S) : Q (Ok (f s)) s → wp (gets f) Q s.
Proof. done. Qed.

Lemma wp_modify (f : S → S) Q s : Q (Ok tt) (f s) → wp (modify f) Q s.
Proof. done. Qed.

Lemma wp_throw {A} e (Q : result A → S → Prop) s : Q (Error e) s → wp (throw e) Q s.
Proof. done. Qed.

Lemma wp_throw_if b e Q (s : S) :
  (b = true → Q (Error e) s) → (b = false → Q (Ok tt) s) → wp (throw_if b e) Q s.
Proof. destruct b; intros H1 H2; [by apply wp_throw, H1|by apply wp_ret, H2]. Qed.

Lemma wp_ok_or {A} (o : option A) e Q (s : S) :
  (o = None → Q (Error e) s) → (∀ a, o = Some a → Q (Ok a) s) → wp (ok_or o e) Q s.
Proof. destruct o; intros H1 H2; [by apply wp_ret, H2|by apply wp_throw, H1]. Qed.

Lemma wp_attempt {A} (m : M S A) (Q : result (result A) → S → Prop) s :
  wp m (λ r s', Q (Ok r) s') s → wp (attempt m) Q s.
Proof. done. Qed.

Lemma wp_lift_result {A} (r : result A) (Q : result A → S → Prop) s :
  Q r s → wp (lift_result r) Q s.
Proof. by destruct r. Qed.

(** Read-only computations leave the state untouched whatever they answer. *)
Definition ReadOnly {A} (m : M S A) : Prop := ∀ s, (m s).2 = s.

Lemma ReadOnly_ret {A} (a : A) : ReadOnly (mret a).
Proof. done. Qed.
Lemma ReadOnly_get : ReadOnly get.
Proof. done. Qed.
Lemma ReadOnly_gets {A} (f : S → A) : ReadOnly (gets f).
Proof. done. Qed.
Lemma ReadOnly_throw {A} e : ReadOnly (throw e : M S A).
Proof. done. Qed.
Lemma ReadOnly_throw_if b e : ReadOnly (throw_if b e).
Proof. by destruct b. Qed.
Lemma ReadOnly_ok_or {A} (o : option A) e : ReadOnly (ok_or o e).
Proof. by destruct o. Qed.
Lemma ReadOnly_attempt {A} (m : M S A) : ReadOnly m → ReadOnly (attempt m).
Proof. intros H s. apply H. Qed.
Lemma ReadOnly_lift_result {A} (r : result A) : ReadOnly (lift_result r).
Proof. by destruct r. Qed.
Lemma ReadOnly_bind {A B} (m : M S A) (k : A → M S B) :
  ReadOnly m → (∀ a, ReadOnly (k a)) → ReadOnly (m ≫= k).
Proof.
  intros Hm Hk s. specialize (Hm s). unfold mbind, M_bind.
  destruct (m s) as [[a|e] s']; simpl in *; subst; [apply Hk|done].
Qed.

End wp.

(** ** Loops

    [for { ... }] with a round that either continues in a new state or leaves
    the loop.  The number of rounds is counted in binary, so that the bound can
    be beyond any number of rounds a run takes; [wp_loop] shows it is never
    reached when a measure below it decreases. *)
Section loops.
Context {S A B : Type} (body : A → M S (A + B)).

Fixpoint iterate (n : positive) (a : A) : M S (A + B) :=
  let again f (r : A + B) : M S (A + B) := match r with inl a => f a | inr b => mret (inr b) end in
  match n with
  | xH => body a
  | xO n => iterate n a ≫= again (iterate n)
  | xI n => body a ≫= again (λ a, iterate n a ≫= again (iterate n))
  end.

Definition rounds : positive := Eval compute in (2 ^ 256)%positive.
Definition loop (a : A) : M S B :=
  r ← iterate rounds a;
  match r with
  | inr b => mret b
  | inl _ => throw (Opaque "the loop went on")
  end.

Context (I : A → S → Prop) (μ : A → Z) (Q : result B → S → Prop).
Hypothesis round : ∀ a s, I a s →
  wp (body a) (λ r s', match r with
    | Ok (inl a') => I a' s' ∧ (0 ≤ μ a' < μ a)%Z
    | Ok (inr b) => Q (Ok b) s'
    | Error e => Q (Error e) s'
    end) s.

Let after (a : A) (n : positive) (r : result (A + B)) (s : S) : Prop :=
  match r with
  | Ok (inl a') => I a' s ∧ (0 ≤ μ a' ∧ μ a' + Zpos n ≤ μ a)%Z
  | Ok (inr b) => Q (Ok b) s
  | Error e => Q (Error e) s
  end.

Lemma wp_again a n k f r s :
  (∀ a s, I a s → wp (f a) (after a k) s) → after a n r s →
  match r with
  | Ok x => wp (match x with inl a => f a | inr b => mret (inr b) end) (after a (n + k)) s
  | Error e => after a (n + k) (Error e) s
  end.
Proof.
  intros Hf. destruct r as [[a'|b]|e]; [|done..]. intros (HI & Hm). eapply wp_mono; [by apply Hf|].
  intros [[a2|b]|e] s' H; [|done..]. destruct H as [? ?]. split; [done|]. lia.
Qed.

Lemma wp_iterate n a s : I a s → wp (iterate n a) (after a n) s.
Proof.
  revert a s. induction n as [n IH|n IH|]; intros a s Ha.
  - apply wp_bind. eapply wp_mono; [by apply round|]. intros r s' Hr.
    replace (after a n~1) with (after a (1 + (n + n))) by (f_equal; lia).
    apply (wp_again a 1 (n + n) (λ a, iterate n a ≫= λ r, match r with inl a => iterate n a | inr b => mret (inr b) end)).
    + intros a1 s1 H1. apply wp_bind. eapply wp_mono; [by apply IH|]. intros r1 s2 Hr1.
      by apply (wp_again a1 n n).
    + destruct r as [[]|]; [|done..]. destruct Hr. split; [done|lia].
  - replace (after a n~0) with (after a (n + n)) by (f_equal; lia).
    apply wp_bind. eapply wp_mono; [by apply IH|]. intros r s' Hr. by apply (wp_again a n n).
  - eapply wp_mono; [by apply round|]. intros [[]|] s' Hr; [|done..]. destruct Hr. split; [done|lia].
Qed.

Lemma wp_loop a s : I a s → (μ a < Zpos rounds)%Z → wp (loop a) Q s.
Proof.
  intros Ha Hm. apply wp_bind. eapply wp_mono; [by apply (wp_iterate rounds)|].
  intros [[a'|b]|e] s' H; [|done..]. destruct H as [_ H]. lia.
Qed.
End loops.

Create HintDb cb_readonly.
#[export] Hint Resolve ReadOnly_ret ReadOnly_get ReadOnly_gets ReadOnly_throw
  ReadOnly_throw_if ReadOnly_ok_or ReadOnly_lift_result : cb_readonly.

Ltac readonly :=
  repeat match goal with
  | |- ReadOnly (_ ≫= _) => apply ReadOnly_bind; [|intros ?]
  | |- ReadOnly (match ?x with _ => _ end) => destruct x
  | |- ReadOnly (attempt _) => apply ReadOnly_attempt
  | |- ReadOnly _ => solve [eauto with cb_readonly]
  end.

(** One step of symbolic execution of a monadic program under [wp]. *)
Ltac wp_step :=
  lazymatch goal with
  | |- wp (_ ≫= _) _ _ => apply wp_bind
  | |- wp (mret _) _ _ => apply wp_ret
  | |- wp get _ _ => apply wp_get
  | |- wp (gets _) _ _ => apply wp_gets
  | |- wp (modify _) _ _ => apply wp_modify
  | |- wp (throw _) _ _ => apply wp_throw
  | |- wp (attempt _) _ _ => apply wp_attempt
  | |- wp (lift_result _) _ _ => apply wp_lift_result
  | |- wp (throw_if _ _) _ _ =>
      let H := fresh "Hguard" in apply wp_throw_if; intros H
  | |- wp (ok_or _ _) _ _ =>
      let H := fresh "Hlookup" in let a := fresh "v" in
      apply wp_ok_or; [intros H|intros a H]
  | |- wp (if ?b then _ else _) _ _ => let H := fresh "Hcase" in destruct b eqn:H
  | |- wp (match ?x with _ => _ end) _ _ => let H := fresh "Hcase" in destruct x eqn:H
  end.
Ltac wp_steps := repeat (wp_step; cbv beta iota).

(** ** Record update

    Go assigns struct fields in place; [x <| f := v |>] is the record [x]
    with field [f] replaced.  A record type lists its fields once, in its
    [Settable] instance; the [Setter] of a field is found from it. *)
Class Settable (R : Type) := eta_record : R → R.
Class Setter {R T : Type} (p : R → T) := set_field : (T → T) → R → R.
Arguments set_field {R T} p {_} f r /.

Ltac solve_setter :=
  lazymatch goal with
  | |- @Setter ?R ?T ?p =>
    let inst := eval hnf in (@eta_record R _) in
    lazymatch inst with
    | (λ r : R, @?body r) =>
      let g := constr:(λ (f : T → T) (r : R),
        ltac:(let b := eval cbv beta in (body r) in
              let h := eval pattern (p r) in b in
              lazymatch h with
              | ?k _ => let t := eval cbv beta in (k (f (p r))) in exact t
              end)) in
      exact g
    end
  end.

#[export] Hint Extern 10 (Setter _) => solve_setter : typeclass_instances.

#[warnings="-postfix-notation-not-level-1"]
Notation "x <| p := v |>" := (set_field p (λ _, v) x)
  (at level 12, left associativity, p constr, v at level 200) : credbound_scope.
#[warnings="-postfix-notation-not-level-1"]
Notation "x <| p ::= f |>" := (set_field p f x)
  (at level 12, left associativity, p constr, f at level 200) : credbound_scope.

(** ** Machine integers and time

    [int64] arithmetic wraps; [time.Time] is a number of nanoseconds since the
    Unix epoch, unbounded, with Go's zero time at January 1, year 1; a
    [time.Duration] is an [int64] number of nanoseconds, and [Time.Sub]
    saturates at its bounds. *)
Definition int64_min : Z := - 2 ^ 63.
Definition int64_max : Z := 2 ^ 63 - 1.
Definition wrap64 (z : Z) : Z := (z + 2 ^ 63) mod 2 ^ 64 - 2 ^ 63.

Definition zero_time : Z := -62135596800 * 10 ^ 9.
Definition Time_IsZero (t : Z) : bool := bool_decide (t = zero_time).
Definition Time_Before (t u : Z) : bool := bool_decide (t < u)%Z.
Definition Time_After (t u : Z) : bool := bool_decide (u < t)%Z.
Definition Time_Sub (t u : Z) : Z := Z.max int64_min (Z.min int64_max (t - u)).
Definition UnixMilli (t : Z) : Z := t / 10 ^ 6.
Definition UnixMicro (t : Z) : Z := t / 10 ^ 3.
Definition UnixNano (t : Z) : Z := wrap64 t.
Definition Time_Truncate (t d : Z) : Z := t - (t - zero_time) mod d.

Lemma wrap64_id z : (int64_min ≤ z ≤ int64_max)%Z → wrap64 z = z.
Proof. unfold wrap64, int64_min, int64_max. intros. rewrite Z.mod_small; lia. Qed.

Lemma Time_Truncate_micro t : UnixMicro (Time_Truncate t 1000) = UnixMicro t.
Proof.
  unfold UnixMicro, Time_Truncate, zero_time. change (10 ^ 3)%Z with 1000%Z.
  replace (t - _ * 10 ^ 9)%Z with (t + 62135596800 * 10 ^ 6 * 1000)%Z by lia.
  rewrite Z.mod_add by lia.
  pose proof (Z.div_mod t 1000 ltac:(lia)).
  replace (t - t mod 1000)%Z with (t / 1000 * 1000)%Z by lia.
  by rewrite Z.div_mul.
Qed.

(** ** Maps *)
Section maps.
Context `{Countable K} {A : Type}.
Implicit Types m : gmap K A.

(** [for k, v := range m { if p(k, v) { found = true } }] *)
Definition map_existsb (p : K → A → bool) (m : gmap K A) : bool :=
  existsb (λ kv, p kv.1 kv.2) (map_to_list m).

(** The number of entries a counting loop counts. *)
Definition map_countb (p : K → A → bool) (m : gmap K A) : nat :=
  size (filter (λ kv, p kv.1 kv.2 = true) m).

(** A loop that returns the first entry satisfying a condition; Go's iteration
    order is unspecified, this one is that of [map_to_list]. *)
Definition map_find (p : K → A → bool) (m : gmap K A) : option (K * A) :=
  list_find (λ kv, p kv.1 kv.2 = true) (map_to_list m) ≫= λ x, Some x.2.

Lemma map_existsb_true p m :
  map_existsb p m = true ↔ ∃ k v, m !! k = Some v ∧ p k v = true.
Proof.
  unfold map_existsb. rewrite existsb_exists. split.
  - intros ([k v] & Hin & Hp). apply list_elem_of_In, elem_of_map_to_list in Hin. eauto.
  - intros (k & v & Hin & Hp). exists (k, v).
    split; [by apply list_elem_of_In, elem_of_map_to_list|done].
Qed.

Lemma map_existsb_false p m :
  map_existsb p m = false ↔ ∀ k v, m !! k = Some v → p k v = false.
Proof.
  rewrite <- not_true_iff_false, map_existsb_true. split.
  - intros Hn k v Hk. destruct (p k v) eqn:?; [|done]. naive_solver.
  - intros Hall (k & v & Hk & Hp). rewrite Hall in Hp; done.
Qed.

Lemma map_find_Some p m k v : map_find p m = Some (k, v) → m !! k = Some v ∧ p k v = true.
Proof.
  unfold map_find. destruct (list_find _ _) as [[i x]|] eqn:Hf; [|done].
  simpl. intros [= ->]. apply list_find_Some in Hf as (Hl & Hp & _).
  split; [|done]. by apply elem_of_map_to_list, list_elem_of_lookup; eauto.
Qed.

Lemma map_find_None p m : map_find p m = None → ∀ k v, m !! k = Some v → p k v = false.
Proof.
  unfold map_find. destruct (list_find _ _) eqn:Hf; [done|].
  intros _ k v Hk. apply list_find_None in Hf.
  rewrite Forall_forall in Hf. specialize (Hf (k, v)).
  rewrite elem_of_map_to_list in Hf. specialize (Hf Hk). simpl in Hf.
  by destruct (p k v).
Qed.

(** When one entry at most satisfies the condition, the iteration order does
    not matter. *)
Lemma map_find_unique p m k v :
  m !! k = Some v → p k v = true →
  (∀ k' v', m !! k' = Some v' → p k' v' = true → k' = k) →
  map_find p m = Some (k, v).
Proof.
  intros Hk Hp Hu. destruct (map_find p m) as [[k' v']|] eqn:Hf.
  - apply map_find_Some in Hf as [Hk' Hp']. pose proof (Hu k' v' Hk' Hp'). subst. congruence.
  - by rewrite (map_find_None _ _ Hf k v) in Hp.
Qed.

Lemma map_countb_pos p m k v : m !! k = Some v → p k v = true → 1 ≤ map_countb p m.
Proof.
  intros Hk Hp. unfold map_countb.
  assert (size (filter (λ kv, p kv.1 kv.2 = true) m) ≠ 0); [|lia].
  apply (map_size_ne_0_lookup_2 _ k). exists v. by apply map_lookup_filter_Some.
Qed.

Lemma map_countb_gt_1 p m k v :
  m !! k = Some v → p k v = true → 1 < map_countb p m →
  ∃ k' v', k' ≠ k ∧ m !! k' = Some v' ∧ p k' v' = true.
Proof.
  intros Hk Hp Hgt. unfold map_countb in Hgt.
  set (f := filter (λ kv, p kv.1 kv.2 = true) m) in *.
  assert (f !! k = Some v) as Hf by (by apply map_lookup_filter_Some).
  assert (size (delete k f) ≠ 0) as Hne by (rewrite map_size_delete, Hf; lia).
  apply map_size_ne_0_lookup_1 in Hne as (k' & v' & Hk').
  apply lookup_delete_Some in Hk' as [Hne Hk'].
  apply map_lookup_filter_Some in Hk' as [Hk' Hp']. eauto.
Qed.

End maps.

(** ** Tactics *)

(** Case analysis on a boolean guard of the source. *)
Ltac bool_cases :=
  repeat match goal with
  | H : _ && _ = true |- _ => apply andb_true_iff in H as [? ?]
  | H : _ || _ = false |- _ => apply orb_false_iff in H as [? ?]
  | H : negb _ = true |- _ => apply negb_true_iff in H
  | H : negb _ = false |- _ => apply negb_false_iff in H
  | H : bool_decide _ = true |- _ => apply bool_decide_eq_true in H
  | H : bool_decide _ = false |- _ => apply bool_decide_eq_false in H
  end.

(** The head constant of an application. *)
Ltac get_head t :=
  lazymatch t with
  | ?f _ => get_head f
  | _ => t
  end.
