(* ===== verification/Bytes.v ===== *)
(** * Strings and byte slices

    Go's [string] and [[]byte] are both sequences of bytes and both are
    [string] here.  The file models what the sources use of the standard
    library: encoding/hex, encoding/base64 (RawURLEncoding), strconv, and
    crypto/sha256 with crypto/hmac. *)
From stdpp Require Import base list strings numbers pretty.
From Stdlib Require Import ZArith Lia Ascii.
From S2P Require Import Prelude.

(** ** Bytes *)
Definition byte_Z (a : ascii) : Z := Z.of_N (N_of_ascii a).
Definition Z_byte (z : Z) : ascii := ascii_of_N (Z.to_N (z mod 256)).

Lemma byte_Z_bound a : (0 ≤ byte_Z a < 256)%Z.
Proof. unfold byte_Z. pose proof (N_ascii_bounded a). lia. Qed.

Lemma Z_byte_Z a : Z_byte (byte_Z a) = a.
Proof.
  unfold Z_byte. rewrite Z.mod_small by apply byte_Z_bound.
  unfold byte_Z. rewrite N2Z.id. apply ascii_N_embedding.
Qed.

Lemma byte_Z_byte z : byte_Z (Z_byte z) = (z mod 256)%Z.
Proof.
  unfold byte_Z, Z_byte. pose proof (Z.mod_pos_bound z 256 ltac:(lia)).
  rewrite N_ascii_embedding by lia. lia.
Qed.

#[export] Instance byte_Z_inj : Inj (=) (=) byte_Z.
Proof. intros a b Hab. by rewrite <- (Z_byte_Z a), Hab, Z_byte_Z. Qed.

Definition bytes_of (s : string) : list ascii := String.list_ascii_of_string s.
Definition of_bytes (l : list ascii) : string := String.string_of_list_ascii l.
Definition str_len (s : string) : nat := String.length s.

Lemma of_bytes_of s : of_bytes (bytes_of s) = s.
Proof. apply String.string_of_list_ascii_of_string. Qed.
Lemma bytes_of_of l : bytes_of (of_bytes l) = l.
Proof. apply String.list_ascii_of_string_of_list_ascii. Qed.
Lemma bytes_of_app s t : bytes_of (s +:+ t) = bytes_of s ++ bytes_of t.
Proof. induction s as [|a s IH]; [done|]. simpl. by rewrite IH. Qed.
Lemma bytes_of_cons a s : bytes_of (String a s) = a :: bytes_of s.
Proof. done. Qed.
Lemma of_bytes_app k l : of_bytes (k ++ l) = of_bytes k +:+ of_bytes l.
Proof. induction k as [|a k IH]; [done|]. simpl. by rewrite IH. Qed.
Lemma bytes_of_length s : length (bytes_of s) = str_len s.
Proof. induction s as [|a s IH]; [done|]. simpl. by rewrite IH. Qed.
#[export] Instance bytes_of_inj : Inj (=) (=) bytes_of.
Proof. intros s t Hst. by rewrite <- (of_bytes_of s), Hst, of_bytes_of. Qed.
#[export] Instance of_bytes_inj : Inj (=) (=) of_bytes.
Proof. intros s t Hst. by rewrite <- (bytes_of_of s), Hst, bytes_of_of. Qed.

Lemma str_len_app s t : str_len (s +:+ t) = str_len s + str_len t.
Proof. by rewrite <- !bytes_of_length, bytes_of_app, length_app. Qed.

(** Strings of equal length split uniquely. *)
Lemma app_inj_len s1 s2 t1 t2 :
  str_len s1 = str_len s2 → s1 +:+ t1 = s2 +:+ t2 → s1 = s2 ∧ t1 = t2.
Proof.
  intros Hl He. apply (f_equal bytes_of) in He. rewrite !bytes_of_app in He.
  apply app_inj_1 in He as [H1 H2]; [|by rewrite !bytes_of_length].
  by split; apply (inj bytes_of).
Qed.

Lemma app_inj_l s t1 t2 : s +:+ t1 = s +:+ t2 → t1 = t2.
Proof. intros H. by apply app_inj_len in H as [_ ?]. Qed.

(** The prefix of [n] bytes and what follows it. *)
Definition str_take (n : nat) (s : string) : string := of_bytes (take n (bytes_of s)).
Definition str_drop (n : nat) (s : string) : string := of_bytes (drop n (bytes_of s)).
Definition str_slice (i j : nat) (s : string) : string := str_take (j - i) (str_drop i s).

(** [s[i]], for an index the caller has checked. *)
Definition str_nth (s : string) (i : nat) : ascii := nth i (bytes_of s) Ascii.zero.

Lemma list_filter_Forall {A} (P : A → Prop) `{∀ x, Decision (P x)} l :
  Forall P l → base.filter P l = l.
Proof. induction 1; [done|]. rewrite filter_cons_True by done. by f_equal. Qed.

(** ** encoding/hex *)
Definition hex_digit (n : nat) : ascii :=
  nth n (bytes_of "0123456789abcdef") "0"%char.

Definition hex_value (a : ascii) : option nat :=
  let n := nat_of_ascii a in
  if bool_decide (48 ≤ n ≤ 57) then Some (n - 48)
  else if bool_decide (97 ≤ n ≤ 102) then Some (n - 87)
  else if bool_decide (65 ≤ n ≤ 70) then Some (n - 55)
  else None.

Definition hex_hi (a : ascii) : ascii := hex_digit (nat_of_ascii a / 16).
Definition hex_lo (a : ascii) : ascii := hex_digit (nat_of_ascii a mod 16).

Fixpoint hex_Encode (s : string) : string :=
  match s with
  | EmptyString => EmptyString
  | String a s' => String (hex_hi a) (String (hex_lo a) (hex_Encode s'))
  end.

(** [hex.Decode] fails on a byte that is no digit and on an odd length. *)
Fixpoint hex_Decode (s : string) : option string :=
  match s with
  | EmptyString => Some EmptyString
  | String h (String l s') =>
      i ← hex_value h; j ← hex_value l; r ← hex_Decode s';
      Some (String (ascii_of_nat (16 * i + j)) r)
  | String _ EmptyString => None
  end.

Lemma hex_value_pair a :
  hex_value (hex_hi a) = Some (nat_of_ascii a / 16) ∧
  hex_value (hex_lo a) = Some (nat_of_ascii a mod 16).
Proof. by destruct a as [[] [] [] [] [] [] [] []]; vm_compute. Qed.

Lemma hex_Decode_cons a s :
  hex_Decode (String (hex_hi a) (String (hex_lo a) s)) = String a <$> hex_Decode s.
Proof.
  cbn [hex_Decode]. destruct (hex_value_pair a) as [-> ->]. cbn [mbind option_bind].
  rewrite <- Nat.div_mod_eq, ascii_nat_embedding. by destruct (hex_Decode s).
Qed.

Lemma hex_Decode_Encode s : hex_Decode (hex_Encode s) = Some s.
Proof.
  induction s as [|a s IH]; [done|]. cbn [hex_Encode].
  by rewrite hex_Decode_cons, IH.
Qed.

Lemma hex_Encode_len s : str_len (hex_Encode s) = 2 * str_len s.
Proof. unfold str_len. induction s as [|a s IH]; [done|]. cbn [hex_Encode String.length]. lia. Qed.

#[export] Instance hex_Encode_inj : Inj (=) (=) hex_Encode.
Proof.
  intros s t Hst. apply (f_equal hex_Decode) in Hst.
  rewrite !hex_Decode_Encode in Hst. congruence.
Qed.

(** ASCII lower case, as the letters of a hexadecimal rendering need it. *)
Definition ascii_lower (a : ascii) : ascii :=
  let n := nat_of_ascii a in
  if bool_decide (65 ≤ n ≤ 90) then ascii_of_nat (n + 32) else a.
Definition str_lower (s : string) : string := of_bytes (ascii_lower <$> bytes_of s).

Lemma hex_pair_decode h l i j :
  hex_value h = Some i → hex_value l = Some j →
  hex_hi (ascii_of_nat (16 * i + j)) = ascii_lower h ∧
  hex_lo (ascii_of_nat (16 * i + j)) = ascii_lower l.
Proof.
  assert (∀ a n, hex_value a = Some n → n < 16 ∧ hex_digit n = ascii_lower a) as Hv.
  { intros a n. destruct a as [[] [] [] [] [] [] [] []]; vm_compute;
      intros [= <-]; split; first [reflexivity|lia]. }
  intros [Hi Hh]%Hv [Hj Hl]%Hv. unfold hex_hi, hex_lo.
  rewrite nat_ascii_embedding by lia.
  replace ((16 * i + j) / 16) with i by
    (rewrite Nat.mul_comm, Nat.div_add_l, Nat.div_small by lia; lia).
  replace ((16 * i + j) mod 16) with j by
    (rewrite Nat.add_comm, Nat.mul_comm, Nat.Div0.mod_add, Nat.mod_small; lia).
  done.
Qed.

(** Decoding is inverse to encoding up to the case of the digits. *)
Lemma hex_Encode_Decode s r : hex_Decode s = Some r → hex_Encode r = str_lower s.
Proof.
  assert (∀ n s r, str_len s ≤ n → hex_Decode s = Some r → hex_Encode r = str_lower s)
    as Hn; [|by eauto].
  clear s r. induction n as [|n IH]; intros s r Hlen Hd.
  { destruct s; simpl in *; [by simplify_eq/=|unfold str_len in *; simpl in *; lia]. }
  destruct s as [|h [|l s]]; simpl in Hd; [by simplify_eq/=|done|].
  destruct (hex_value h) as [i|] eqn:Hi; [|done]. simpl in Hd.
  destruct (hex_value l) as [j|] eqn:Hj; [|done]. simpl in Hd.
  destruct (hex_Decode s) as [r'|] eqn:Hs; simplify_eq/=.
  destruct (hex_pair_decode _ _ _ _ Hi Hj) as [H1 H2]. simpl in H1, H2.
  rewrite H1, H2. unfold str_lower; simpl. do 2 f_equal.
  apply IH; [unfold str_len in *; simpl in *; lia|done].
Qed.

(** ** encoding/base64, RawURLEncoding *)
Definition base64_alphabet : list ascii :=
  Eval vm_compute in
  bytes_of "ABCDEFGHIJKLMNOPQRSTUVWXYZabcdefghijklmnopqrstuvwxyz0123456789-_".

Definition base64_digit (n : Z) : ascii := nth (Z.to_nat n) base64_alphabet "A"%char.

Definition base64_value (a : ascii) : option Z :=
  (λ x, Z.of_nat x.1) <$> list_find (λ b, b = a) base64_alphabet.

Fixpoint base64_encode_bytes (l : list Z) : list Z :=
  match l with
  | [] => []
  | [a] => [a / 4; a mod 4 * 16]
  | [a; b] => [a / 4; a mod 4 * 16 + b / 16; b mod 16 * 4]
  | a :: b :: c :: l' =>
      a / 4 :: a mod 4 * 16 + b / 16 :: b mod 16 * 4 + c / 64 :: c mod 64
      :: base64_encode_bytes l'
  end%Z.

(** Go's decoder is lenient about the bits a final partial group leaves over. *)
Fixpoint base64_decode_digits (l : list Z) : option (list Z) :=
  match l with
  | [] => Some []
  | [_] => None
  | [a; b] => Some [a * 4 + b / 16]
  | [a; b; c] => Some [a * 4 + b / 16; b mod 16 * 16 + c / 4]
  | a :: b :: c :: d :: l' =>
      r ← base64_decode_digits l';
      Some (a * 4 + b / 16 :: b mod 16 * 16 + c / 4 :: c mod 4 * 64 + d :: r)
  end%Z.

Definition base64_RawURL_EncodeToString (s : string) : string :=
  of_bytes (base64_digit <$> base64_encode_bytes (byte_Z <$> bytes_of s)).

(** [DecodeString] skips carriage returns and newlines. *)
Definition base64_RawURL_DecodeString (s : string) : option string :=
  let skip a := bool_decide (a = "010"%char ∨ a = "013"%char) in
  d ← mapM base64_value (base.filter (λ a, skip a = false) (bytes_of s));
  r ← base64_decode_digits d;
  Some (of_bytes (Z_byte <$> r)).

Lemma base64_value_digit n :
  (0 ≤ n < 64)%Z →
  base64_value (base64_digit n) = Some n ∧
  base64_digit n ≠ "010"%char ∧ base64_digit n ≠ "013"%char.
Proof.
  intros Hn. rewrite <- (Z2Nat.id n) by lia.
  assert (Z.to_nat n < 64) as Hm by lia. revert Hm. generalize (Z.to_nat n) as m. clear.
  intros m Hm. do 64 (destruct m as [|m]; [by vm_compute|]). lia.
Qed.

Lemma base64_encode_range l :
  Forall (λ z, 0 ≤ z < 256)%Z l → Forall (λ z, 0 ≤ z < 64)%Z (base64_encode_bytes l).
Proof.
  assert (∀ n l, length l ≤ n → Forall (λ z, 0 ≤ z < 256)%Z l →
    Forall (λ z, 0 ≤ z < 64)%Z (base64_encode_bytes l)) as Hn; [|by eauto].
  clear l. induction n as [|n IH]; intros l Hlen Hl.
  { destruct l; [constructor|simpl in *; lia]. }
  destruct l as [|a [|b [|c l]]]; cbn [base64_encode_bytes]; [by apply Forall_nil|..];
    rewrite ?Forall_cons_iff in *; destruct_and!.
  1,2: repeat split; try (by apply Forall_nil); Z.div_mod_to_equations; lia.
  repeat split; try (Z.div_mod_to_equations; lia).
  apply IH; [simpl in *; lia|done].
Qed.

Lemma base64_decode_encode_bytes l :
  Forall (λ z, 0 ≤ z < 256)%Z l → base64_decode_digits (base64_encode_bytes l) = Some l.
Proof.
  assert (∀ n l, length l ≤ n → Forall (λ z, 0 ≤ z < 256)%Z l →
    base64_decode_digits (base64_encode_bytes l) = Some l) as Hn; [|by eauto].
  clear l. induction n as [|n IH]; intros l Hlen Hl.
  { destruct l; [done|simpl in *; lia]. }
  destruct l as [|a [|b [|c l]]]; cbn [base64_encode_bytes base64_decode_digits];
    [done|..]; rewrite ?Forall_cons_iff in *; destruct_and!.
  3: rewrite IH by (simpl in *; first [lia|done]); cbn [mbind option_bind].
  all: repeat f_equal; Z.div_mod_to_equations; lia.
Qed.

(** Round trip of the unpadded URL alphabet. *)
Lemma base64_Decode_Encode s :
  base64_RawURL_DecodeString (base64_RawURL_EncodeToString s) = Some s.
Proof.
  unfold base64_RawURL_DecodeString, base64_RawURL_EncodeToString. rewrite bytes_of_of.
  assert (Forall (λ z, 0 ≤ z < 256)%Z (byte_Z <$> bytes_of s)) as Hb.
  { apply Forall_fmap, Forall_true. apply byte_Z_bound. }
  pose proof (base64_encode_range _ Hb) as Hr.
  pose proof (base64_decode_encode_bytes _ Hb) as Hd.
  revert Hr Hd. generalize (base64_encode_bytes (byte_Z <$> bytes_of s)) as d.
  intros d Hr Hd.
  rewrite list_filter_Forall.
  2: { apply Forall_fmap. eapply Forall_impl; [exact Hr|]. intros z Hz.
       destruct (base64_value_digit z Hz) as (_ & ? & ?).
       by apply bool_decide_eq_false; intros []. }
  assert (mapM base64_value (base64_digit <$> d) = Some d) as ->.
  { clear Hd. induction Hr as [|z d Hz Hr IH]; [done|].
    change (mapM base64_value (base64_digit z :: (base64_digit <$> d)) = Some (z :: d)).
    cbn [mapM]. destruct (base64_value_digit z Hz) as [-> _].
    cbn [mbind option_bind]. by rewrite IH. }
  simpl. rewrite Hd. simpl. f_equal. rewrite <- (of_bytes_of s) at 2. f_equal.
  rewrite <- list_fmap_compose. rewrite <- (list_fmap_id (bytes_of s)) at 2.
  apply list_fmap_ext. intros. apply Z_byte_Z.
Qed.

(** ** strconv: decimal rendering *)
Definition FormatInt (z : Z) : string := pretty z.
Definition Itoa (n : nat) : string := pretty (Z.of_nat n).

#[export] Instance FormatInt_inj : Inj (=) (=) FormatInt.
Proof. apply _. Qed.
#[export] Instance Itoa_inj : Inj (=) (=) Itoa.
Proof. intros m n Hmn. unfold Itoa in Hmn. apply (inj pretty) in Hmn. lia. Qed.

Definition is_digit (a : ascii) : bool := bool_decide (48 ≤ nat_of_ascii a ≤ 57).

Lemma pretty_N_go_digits n s :
  Forall (λ a, is_digit a = true) (bytes_of s) →
  Forall (λ a, is_digit a = true) (bytes_of (pretty_N_go n s)).
Proof.
  revert s. induction (N.lt_wf_0 n) as [n _ IH]; intros s Hs.
  destruct (decide (n = 0)%N) as [->|Hn]; [by rewrite pretty_N_go_0|].
  rewrite pretty_N_go_step by lia.
  apply IH; [apply N.div_lt; lia|].
  constructor; [|done]. unfold pretty_N_char.
  by repeat case_match.
Qed.

Lemma Itoa_digits n : Forall (λ a, is_digit a = true) (bytes_of (Itoa n)).
Proof.
  unfold Itoa, pretty, pretty_Z. destruct n as [|n]; simpl; [by repeat constructor|].
  change (Forall (λ a, is_digit a = true) (bytes_of (pretty_N_go (N.pos (Pos.of_succ_nat n)) EmptyString))).
  by apply pretty_N_go_digits, Forall_nil.
Qed.

(** ** crypto/sha256 (FIPS 180-4) *)
Module Sha256.

Definition w32 (z : Z) : Z := z mod 2 ^ 32.
Definition add32 (a b : Z) : Z := w32 (a + b).
Definition rotr (n x : Z) : Z := Z.lor (Z.shiftr x n) (w32 (Z.shiftl x (32 - n))).
Definition ch (x y z : Z) : Z := Z.lxor (Z.land x y) (Z.land (Z.lxor x (2 ^ 32 - 1)) z).
Definition maj (x y z : Z) : Z := Z.lxor (Z.land x y) (Z.lxor (Z.land x z) (Z.land y z)).
Definition bsig0 (x : Z) : Z := Z.lxor (rotr 2 x) (Z.lxor (rotr 13 x) (rotr 22 x)).
Definition bsig1 (x : Z) : Z := Z.lxor (rotr 6 x) (Z.lxor (rotr 11 x) (rotr 25 x)).
Definition ssig0 (x : Z) : Z := Z.lxor (rotr 7 x) (Z.lxor (rotr 18 x) (Z.shiftr x 3)).
Definition ssig1 (x : Z) : Z := Z.lxor (rotr 17 x) (Z.lxor (rotr 19 x) (Z.shiftr x 10)).

(** The constants are the first 32 bits of the fractional parts of the square
    roots of the first 8 primes and of the cube roots of the first 64. *)
Definition is_prime (n : nat) : bool :=
  bool_decide (2 ≤ n) && forallb (λ d, negb (bool_decide (n mod d = 0))) (seq 2 (n - 2)).
Definition primes (n : nat) : list Z := Z.of_nat <$> take n (List.filter is_prime (seq 2 400)).

(** The greatest [x] below [2 ^ length bits] with [x ^ 3 ≤ n], by bits. *)
Fixpoint cbrt (n x : Z) (bits : nat) : Z :=
  match bits with
  | O => x
  | S b =>
      let y := (x + 2 ^ Z.of_nat b)%Z in
      cbrt n (if bool_decide (y * y * y ≤ n)%Z then y else x) b
  end.

Definition K : list Z :=
  Eval vm_compute in (λ p, w32 (cbrt (p * 2 ^ 96) 0 40)) <$> primes 64.
Definition H0 : list Z :=
  Eval vm_compute in (λ p, w32 (Z.sqrt (p * 2 ^ 64))) <$> primes 8.

(** The message schedule, kept as the sliding window of the last 16 words. *)
Definition next_word (w : list Z) : Z :=
  add32 (add32 (ssig1 (nth 14 w 0%Z)) (nth 9 w 0%Z)) (add32 (ssig0 (nth 1 w 0%Z)) (nth 0 w 0%Z)).

Definition round (st : list Z) (k w : Z) : list Z :=
  match st with
  | [a; b; c; d; e; f; g; h] =>
      let t1 := add32 (add32 h (bsig1 e)) (add32 (ch e f g) (add32 k w)) in
      let t2 := add32 (bsig0 a) (maj a b c) in
      [add32 t1 t2; a; b; c; add32 d t1; e; f; g]
  | _ => st
  end.

Fixpoint rounds (ks : list Z) (w st : list Z) : list Z :=
  match ks with
  | [] => st
  | k :: ks' => rounds ks' (drop 1 w ++ [next_word w]) (round st k (nth 0 w 0%Z))
  end.

Definition compress (h w : list Z) : list Z := zip_with add32 h (rounds K w h).

Fixpoint words (l : list Z) : list Z :=
  match l with
  | a :: b :: c :: d :: l' => (a * 2 ^ 24 + b * 2 ^ 16 + c * 2 ^ 8 + d)%Z :: words l'
  | _ => []
  end.

(** Big-endian rendering of [z] on [n] bytes. *)
Fixpoint be_bytes (n : nat) (z : Z) : list Z :=
  match n with
  | O => []
  | S n' => be_bytes n' (z / 256) ++ [(z mod 256)%Z]
  end.

Definition pad (l : list Z) : list Z :=
  let n := Z.of_nat (length l) in
  l ++ [128%Z] ++ replicate (Z.to_nat ((55 - n) mod 64)) 0%Z ++ be_bytes 8 (8 * n).

Fixpoint blocks (n : nat) (h w : list Z) : list Z :=
  match n with
  | O => h
  | S n' => blocks n' (compress h (take 16 w)) (drop 16 w)
  end.

Definition hash_bytes (l : list Z) : list Z :=
  let w := words (pad l) in
  mjoin (be_bytes 4 <$> blocks (length w / 16) H0 w).

End Sha256.

Definition sha256_Sum (s : string) : string :=
  of_bytes (Z_byte <$> Sha256.hash_bytes (byte_Z <$> bytes_of s)).

(** ** crypto/hmac over SHA-256 *)
Definition xor_pad (c : Z) (key : list Z) : list Z := (λ b, Z.lxor b c) <$> key.

Definition hmac_sha256 (key value : string) : string :=
  let k := byte_Z <$> bytes_of key in
  let k := if bool_decide (64 < length k) then Sha256.hash_bytes k else k in
  let k := k ++ replicate (64 - length k) 0%Z in
  let inner := Sha256.hash_bytes (xor_pad 0x36 k ++ (byte_Z <$> bytes_of value)) in
  of_bytes (Z_byte <$> Sha256.hash_bytes (xor_pad 0x5c k ++ inner)).

(** Test vectors: FIPS 180-4 and RFC 4231. *)
Lemma sha256_abc :
  hex_Encode (sha256_Sum "abc") =
  "ba7816bf8f01cfea414140de5dae2223b00361a396177a9cb410ff61f20015ad".
Proof. vm_compute. reflexivity. Qed.

Lemma sha256_two_blocks :
  hex_Encode (sha256_Sum "abcdbcdecdefdefgefghfghighijhijkijkljklmklmnlmnomnopnopq") =
  "248d6a61d20638b8e5c026930c3e6039a33ce45964ff2167f6ecedd419db06c1".
Proof. vm_compute. reflexivity. Qed.

Lemma hmac_rfc4231_case2 :
  hex_Encode (hmac_sha256 "Jefe" "what do ya want for nothing?") =
  "5bdcc146bf60754e6a042426089575c75a003f089d2739839dec58b964ec3843".
Proof. vm_compute. reflexivity. Qed.

Lemma be_bytes_length n z : length (Sha256.be_bytes n z) = n.
Proof.
  revert z. induction n as [|n IH]; intros z; [done|].
  simpl. rewrite length_app, IH. simpl. lia.
Qed.

Lemma rounds_length ks w st : length (Sha256.rounds ks w st) = length st.
Proof.
  revert w st. induction ks as [|k ks IH]; intros w st; [done|]. simpl. rewrite IH.
  unfold Sha256.round. by repeat case_match.
Qed.

Lemma blocks_length n h w : length (Sha256.blocks n h w) = length h.
Proof.
  revert h w. induction n as [|n IH]; intros h w; [done|]. simpl. rewrite IH.
  unfold Sha256.compress. rewrite length_zip_with, rounds_length. lia.
Qed.

Lemma hash_bytes_length l : length (Sha256.hash_bytes l) = 32.
Proof.
  unfold Sha256.hash_bytes. transitivity (4 * length Sha256.H0); [|done].
  generalize (Sha256.words (Sha256.pad l)) as w. intros w.
  rewrite <- (blocks_length (length w / 16) Sha256.H0 w).
  generalize (Sha256.blocks (length w / 16) Sha256.H0 w) as h.
  induction h as [|x h IH]; [done|].
  change (mjoin (Sha256.be_bytes 4 <$> x :: h))
    with (Sha256.be_bytes 4 x ++ mjoin (Sha256.be_bytes 4 <$> h)).
  rewrite length_app, be_bytes_length, IH. simpl. lia.
Qed.

(** SHA-256 and HMAC-SHA-256 digests are 32 bytes. *)
Lemma sha256_Sum_len s : str_len (sha256_Sum s) = 32.
Proof.
  unfold sha256_Sum. by rewrite <- bytes_of_length, bytes_of_of, length_fmap, hash_bytes_length.
Qed.

Lemma hmac_sha256_len k s : str_len (hmac_sha256 k s) = 32.
Proof.
  unfold hmac_sha256. by rewrite <- bytes_of_length, bytes_of_of, length_fmap, hash_bytes_length.
Qed.

#[global] Opaque sha256_Sum hmac_sha256.
