(* ===== verification/GoText.v ===== *)
(** * Text operations of the Go standard library

    What the sources use of [unicode/utf8], [strings] and [slices]: decoding
    of UTF-8 with Go's treatment of invalid bytes, trimming of Unicode white
    space, splitting, and searching.  Strings are byte sequences. *)
From stdpp Require Import base gmap list strings numbers.
From Stdlib Require Import ZArith Lia Ascii.
From S2P Require Import Prelude Bytes.

(** ** UTF-8 *)
Definition RuneError : Z := 0xFFFD.
Definition in_range (lo hi b : Z) : bool := bool_decide (lo ≤ b ≤ hi)%Z.
Definition is_cont : Z → bool := in_range 0x80 0xBF.

(** [utf8.DecodeRune]: the first rune and its width; an invalid sequence is
    [RuneError] of width one. *)
Definition DecodeRune (l : list Z) : option (Z * nat) :=
  match l with
  | [] => None
  | b0 :: l' =>
      if in_range 0 0x7F b0 then Some (b0, 1)
      else
        let second lo hi b := in_range lo hi b in
        if in_range 0xC2 0xDF b0 then
          match l' with
          | b1 :: _ =>
              if is_cont b1 then Some (Z.lor (Z.shiftl (Z.land b0 0x1F) 6) (Z.land b1 0x3F), 2)
              else Some (RuneError, 1)
          | _ => Some (RuneError, 1)
          end
        else if in_range 0xE0 0xEF b0 then
          match l' with
          | b1 :: b2 :: _ =>
              if second (if bool_decide (b0 = 0xE0) then 0xA0 else 0x80)%Z
                        (if bool_decide (b0 = 0xED) then 0x9F else 0xBF)%Z b1 && is_cont b2
              then Some (Z.lor (Z.shiftl (Z.land b0 0x0F) 12)
                           (Z.lor (Z.shiftl (Z.land b1 0x3F) 6) (Z.land b2 0x3F)), 3)
              else Some (RuneError, 1)
          | _ => Some (RuneError, 1)
          end
        else if in_range 0xF0 0xF4 b0 then
          match l' with
          | b1 :: b2 :: b3 :: _ =>
              if second (if bool_decide (b0 = 0xF0) then 0x90 else 0x80)%Z
                        (if bool_decide (b0 = 0xF4) then 0x8F else 0xBF)%Z b1 &&
                 is_cont b2 && is_cont b3
              then Some (Z.lor (Z.shiftl (Z.land b0 0x07) 18)
                           (Z.lor (Z.shiftl (Z.land b1 0x3F) 12)
                              (Z.lor (Z.shiftl (Z.land b2 0x3F) 6) (Z.land b3 0x3F))), 4)
              else Some (RuneError, 1)
          | _ => Some (RuneError, 1)
          end
        else Some (RuneError, 1)
  end.

(** The runes of a byte sequence with their widths.  Every rune is at least
    one byte wide, so the length of the sequence is enough fuel. *)
Fixpoint decode_runes (fuel : nat) (l : list Z) : list (Z * nat) :=
  match fuel with
  | O => []
  | S fuel =>
      match DecodeRune l with
      | None => []
      | Some (r, n) => (r, n) :: decode_runes fuel (drop n l)
      end
  end.

Definition string_Z (s : string) : list Z := byte_Z <$> bytes_of s.
Definition Z_string (l : list Z) : string := of_bytes (Z_byte <$> l).

(** [[]rune(s)] *)
Definition runes (s : string) : list Z :=
  (decode_runes (length (string_Z s)) (string_Z s)).*1.

(** Every byte belongs to the ASCII range. *)
Definition is_ascii_string (s : string) : bool := forallb (in_range 0 0x7F) (string_Z s).

Lemma DecodeRune_width l r n : DecodeRune l = Some (r, n) → 1 ≤ n ≤ length l.
Proof.
  unfold DecodeRune. intros H.
  repeat (case_match; simplify_eq; simpl in *; try lia).
Qed.

(** A rune is an ASCII byte or consumes none. *)
Lemma DecodeRune_bytes l r n :
  DecodeRune l = Some (r, n) →
  (∃ l', l = r :: l' ∧ n = 1) ∨ Forall (λ b, in_range 0 0x7F b = false) (take n l).
Proof.
  assert (∀ lo hi b, (0x7F < lo)%Z → in_range lo hi b = true → in_range 0 0x7F b = false) as Hhigh.
  { intros lo hi b Hlo H. unfold in_range in *. bool_cases. apply bool_decide_false. lia. }
  destruct l as [|b0 l]; [done|]. cbn [DecodeRune].
  destruct (in_range 0 0x7F b0) eqn:Hb; [intros [= <- <-]; eauto|].
  intros H. right. unfold is_cont in H.
  repeat case_match; injection H as <- <-; cbn [take]; bool_cases;
    repeat constructor; first [assumption|eapply Hhigh; [|eassumption]; by repeat case_bool_decide].
Qed.

Lemma decode_runes_ascii_byte fuel l b :
  length l ≤ fuel → in_range 0 0x7F b = true → b ∈ l → b ∈ (decode_runes fuel l).*1.
Proof.
  intros Hl Hb. revert l Hl. induction fuel as [|fuel IH]; intros l Hl Hin.
  - destruct l; [set_solver|simpl in *; lia].
  - cbn [decode_runes]. destruct (DecodeRune l) as [[r n]|] eqn:Hd.
    + pose proof (DecodeRune_width _ _ _ Hd) as Hw. cbn [fmap list_fmap fst].
      destruct (DecodeRune_bytes _ _ _ Hd) as [(l' & -> & ->)|Hhigh].
      * apply elem_of_cons in Hin as [->|Hin]; [left|right]. apply (IH l'); [simpl in *; lia|done].
      * right. apply IH; [rewrite length_drop; lia|].
        rewrite <- (take_drop n l) in Hin. apply elem_of_app in Hin as [Hin|]; [|done].
        rewrite Forall_forall in Hhigh. by rewrite (Hhigh b (proj1 (list_elem_of_In _ _) Hin)) in Hb.
    + destruct l as [|c l]; [set_solver|]. exfalso. revert Hd. unfold DecodeRune.
      repeat case_match; done.
Qed.

Lemma decode_runes_widths fuel l :
  length l ≤ fuel → sum_list (decode_runes fuel l).*2 = length l.
Proof.
  revert l. induction fuel as [|fuel IH]; intros l Hl; [destruct l; simpl in *; lia|].
  cbn [decode_runes]. destruct (DecodeRune l) as [[r n]|] eqn:Hd.
  - pose proof (DecodeRune_width _ _ _ Hd). cbn [fmap list_fmap snd sum_list_with].
    rewrite IH, ?length_drop by (rewrite length_drop; lia). unfold id. lia.
  - destruct l as [|b l]; [done|]. exfalso. revert Hd. unfold DecodeRune.
    repeat case_match; done.
Qed.

Lemma decode_runes_ascii l :
  forallb (in_range 0 0x7F) l = true → decode_runes (length l) l = (λ b, (b, 1)) <$> l.
Proof.
  induction l as [|b l IH]; [done|]. cbn [forallb length decode_runes DecodeRune].
  intros [Hb Hl]%andb_true_iff. rewrite Hb. cbn [fmap list_fmap drop].
  by rewrite <- IH.
Qed.

(** On ASCII text the runes are the bytes. *)
Lemma runes_ascii s : is_ascii_string s = true → runes s = string_Z s.
Proof.
  intros H. unfold runes. rewrite decode_runes_ascii by done.
  rewrite <- list_fmap_compose. apply list_fmap_id.
Qed.

(** ** strings.TrimSpace

    The encodings of the runes [unicode.IsSpace] accepts. *)
Definition space_encodings : list (list Z) :=
  [[0x09]; [0x0A]; [0x0B]; [0x0C]; [0x0D]; [0x20]; [0xC2; 0x85]; [0xC2; 0xA0];
   [0xE1; 0x9A; 0x80];
   [0xE2; 0x80; 0x80]; [0xE2; 0x80; 0x81]; [0xE2; 0x80; 0x82]; [0xE2; 0x80; 0x83];
   [0xE2; 0x80; 0x84]; [0xE2; 0x80; 0x85]; [0xE2; 0x80; 0x86]; [0xE2; 0x80; 0x87];
   [0xE2; 0x80; 0x88]; [0xE2; 0x80; 0x89]; [0xE2; 0x80; 0x8A];
   [0xE2; 0x80; 0xA8]; [0xE2; 0x80; 0xA9]; [0xE2; 0x80; 0xAF]; [0xE2; 0x81; 0x9F];
   [0xE3; 0x80; 0x80]]%Z.

Fixpoint trim_prefixes (encodings : list (list Z)) (fuel : nat) (l : list Z) : list Z :=
  match fuel with
  | O => l
  | S fuel =>
      match list_find (λ e, take (length e) l = e) encodings with
      | Some (_, e) => trim_prefixes encodings fuel (drop (length e) l)
      | None => l
      end
  end.

Definition trim_left (l : list Z) : list Z := trim_prefixes space_encodings (length l) l.
(** Trimming on the right is trimming the reversed bytes of the reversed
    encodings: UTF-8 is self-synchronizing, so a suffix that spells a space
    is the last rune. *)
Definition trim_right (l : list Z) : list Z :=
  reverse (trim_prefixes (reverse <$> space_encodings) (length l) (reverse l)).
Definition TrimSpace (s : string) : string := Z_string (trim_right (trim_left (string_Z s))).

Lemma Z_string_Z s : Z_string (string_Z s) = s.
Proof.
  unfold Z_string, string_Z. rewrite <- list_fmap_compose.
  rewrite <- (of_bytes_of s) at 2. f_equal. etrans; [|apply list_fmap_id].
  apply list_fmap_ext. intros ? x _. apply Z_byte_Z.
Qed.

(** Text whose bytes are ASCII and not white space is left alone. *)
Definition is_graphic (b : Z) : bool := in_range 0x21 0x7E b.

Definition starts_blank (e : list Z) : bool :=
  match e with b :: _ => negb (is_graphic b) | [] => false end.

Lemma trim_prefixes_graphic encodings fuel l :
  forallb starts_blank encodings = true →
  forallb is_graphic l = true → trim_prefixes encodings fuel l = l.
Proof.
  intros He Hl. destruct fuel as [|fuel]; [done|]. cbn [trim_prefixes].
  destruct (list_find _ _) as [[i e]|] eqn:Hf; [|done]. exfalso.
  apply list_find_Some in Hf as (Hi & Ht & _).
  rewrite forallb_forall in He. specialize (He e (proj1 (list_elem_of_In _ _) (list_elem_of_lookup_2 _ _ _ Hi))).
  destruct e as [|b e]; [done|]. destruct l as [|c l]; [done|].
  cbn in Ht, Hl, He. injection Ht as -> _. by destruct (is_graphic b).
Qed.

Lemma TrimSpace_graphic s : forallb is_graphic (string_Z s) = true → TrimSpace s = s.
Proof.
  intros H. unfold TrimSpace, trim_left, trim_right.
  rewrite (trim_prefixes_graphic space_encodings) by (done || reflexivity).
  rewrite trim_prefixes_graphic; [|reflexivity|].
  - by rewrite reverse_involutive, Z_string_Z.
  - rewrite forallb_forall in H |- *. intros b Hb. apply H.
    apply list_elem_of_In, elem_of_reverse. by apply list_elem_of_In.
Qed.

(** ** strings.SplitN, Contains, LastIndexByte *)

(** The text up to the first separator and the text after it. *)
Fixpoint cut_at (sep : ascii) (s : string) : option (string * string) :=
  match s with
  | EmptyString => None
  | String a s' =>
      if bool_decide (a = sep) then Some (EmptyString, s')
      else (λ '(l, r), (String a l, r)) <$> cut_at sep s'
  end.

(** [strings.SplitN(s, sep, n)] for a one-byte separator. *)
Fixpoint SplitN (s : string) (sep : ascii) (n : nat) : list string :=
  match n with
  | O => []
  | S O => [s]
  | S n' =>
      match cut_at sep s with
      | Some (l, r) => l :: SplitN r sep n'
      | None => [s]
      end
  end.

Definition contains_byte (a : ascii) (s : string) : bool :=
  existsb (λ b, bool_decide (b = a)) (bytes_of s).

(** The text after the last occurrence of a byte, if there is one. *)
Fixpoint after_last (a : ascii) (s : string) : option string :=
  match s with
  | EmptyString => None
  | String b s' =>
      match after_last a s' with
      | Some r => Some r
      | None => if bool_decide (b = a) then Some s' else None
      end
  end.

Lemma cut_at_app sep l r :
  contains_byte sep l = false → cut_at sep (l +:+ String sep r) = Some (l, r).
Proof.
  unfold contains_byte. induction l as [|a l IH]; intros H.
  - change (cut_at sep (String sep r) = Some (EmptyString, r)). cbn [cut_at]. by rewrite bool_decide_true.
  - cbn in H. apply orb_false_iff in H as [Ha Hl].
    change (String a l +:+ String sep r) with (String a (l +:+ String sep r)).
    cbn [cut_at]. rewrite Ha, IH by done. done.
Qed.

Lemma cut_at_inv sep s l r :
  cut_at sep s = Some (l, r) → s = l +:+ String sep r ∧ contains_byte sep l = false.
Proof.
  revert l r. induction s as [|a s IH]; intros l r; [done|]. cbn [cut_at].
  case_bool_decide as Ha.
  - intros [= <- <-]. by subst.
  - destruct (cut_at sep s) as [[l' r']|] eqn:Hc; [|done]. intros [= <- <-].
    destruct (IH _ _ eq_refl) as [-> Hl]. split; [done|].
    unfold contains_byte in *. cbn -[bool_decide]. by rewrite bool_decide_false.
Qed.

(** Three parts separated by the first two separators. *)
Lemma SplitN_3 sep a b c :
  contains_byte sep a = false → contains_byte sep b = false →
  SplitN (a +:+ String sep (b +:+ String sep c)) sep 3 = [a; b; c].
Proof. intros Ha Hb. cbn [SplitN]. by rewrite cut_at_app, cut_at_app. Qed.

Lemma SplitN_3_inv sep s a b c :
  SplitN s sep 3 = [a; b; c] →
  s = a +:+ String sep (b +:+ String sep c) ∧
  contains_byte sep a = false ∧ contains_byte sep b = false.
Proof.
  cbn [SplitN]. destruct (cut_at sep s) as [[l r]|] eqn:H1; [|done].
  destruct (cut_at sep r) as [[l' r']|] eqn:H2; [|done].
  intros [= -> -> ->]. apply cut_at_inv in H1 as [-> ?], H2 as [-> ?]. done.
Qed.

Lemma contains_byte_cons a b s :
  contains_byte a (String b s) = bool_decide (b = a) || contains_byte a s.
Proof. done. Qed.

Lemma contains_byte_app a s t :
  contains_byte a (s +:+ t) = contains_byte a s || contains_byte a t.
Proof. unfold contains_byte. by rewrite bytes_of_app, existsb_app. Qed.

(** ** slices.Sort on strings, without duplicates *)
Fixpoint dedup (seen l : list string) : list string :=
  match l with
  | [] => []
  | a :: l' => if bool_decide (a ∈ seen) then dedup seen l' else a :: dedup (a :: seen) l'
  end.

Lemma elem_of_dedup seen l x : x ∈ dedup seen l ↔ x ∈ l ∧ x ∉ seen.
Proof.
  revert seen. induction l as [|a l IH]; intros seen; cbn [dedup].
  - set_solver.
  - case_bool_decide; [rewrite IH; set_solver|]. rewrite elem_of_cons, IH.
    destruct (decide (x = a)); set_solver.
Qed.

Lemma NoDup_dedup seen l : NoDup (dedup seen l).
Proof.
  revert seen. induction l as [|a l IH]; intros seen; cbn [dedup]; [constructor|].
  case_bool_decide; [done|]. constructor; [|done]. rewrite elem_of_dedup. set_solver.
Qed.
