(* ===== verification/GoNet.v ===== *)
(** * Addresses: net.ParseIP and mail.ParseAddress

    What the sources use of the standard library's address parsers: whether
    [net.ParseIP] recognizes a text, and whether [mail.ParseAddress] reads a
    text as the bare address it spells. *)
From stdpp Require Import base gmap list strings numbers.
From Stdlib Require Import ZArith Lia Ascii.
From S2P Require Import Prelude Bytes GoText.

Definition dot : ascii := "."%char.
Definition colon : ascii := ":"%char.

(** [strings.Split] on a one-byte separator. *)
Fixpoint Split (sep : ascii) (s : string) : list string :=
  match s with
  | EmptyString => [EmptyString]
  | String a s' =>
      match Split sep s' with
      | [] => []
      | p :: ps => if bool_decide (a = sep) then EmptyString :: p :: ps else String a p :: ps
      end
  end.

(** ** IPv4

    A decimal octet without leading zero. *)
Fixpoint decimal_value (acc : Z) (s : string) : option Z :=
  match s with
  | EmptyString => Some acc
  | String a s' =>
      if is_digit a
      then let acc := (acc * 10 + (byte_Z a - 48))%Z in
           if bool_decide (255 < acc)%Z then None else decimal_value acc s'
      else None
  end.

Definition is_octet (s : string) : bool :=
  match s with
  | EmptyString => false
  | String a s' =>
      negb (bool_decide (a = "0"%char) && negb (bool_decide (s' = EmptyString))) &&
      bool_decide (is_Some (decimal_value 0 s))
  end.

Definition is_ipv4 (s : string) : bool :=
  let fields := Split dot s in
  bool_decide (length fields = 4) && forallb is_octet fields.

(** ** IPv6

    The hexadecimal digits a text starts with, and the text after them. *)
Fixpoint span_hex (s : string) : nat * string :=
  match s with
  | EmptyString => (0, s)
  | String a s' =>
      if bool_decide (is_Some (hex_value a))
      then let '(n, r) := span_hex s' in (S n, r)
      else (0, s)
  end.

(** The loop of [parseIPv6]: [i] is the number of bytes parsed so far, in steps
    of two, and [ellipsis] whether a double colon was seen.  Every round parses
    two bytes or ends, so eight rounds are enough. *)
Fixpoint ipv6_fields (fuel : nat) (s : string) (i : nat) (ellipsis : bool) : bool :=
  let finish (i : nat) (ellipsis : bool) :=
    if bool_decide (i < 16) then ellipsis else negb ellipsis in
  match fuel with
  | O => false
  | S fuel =>
      let '(n, r) := span_hex s in
      if bool_decide (n = 0) || bool_decide (4 < n) then false
      else
        match r with
        | String a _ =>
            if bool_decide (a = dot) then
              (ellipsis || bool_decide (i = 12)) && bool_decide (i + 4 ≤ 16) &&
              is_ipv4 s && finish (i + 4) ellipsis
            else
              let i := i + 2 in
              match r with
              | String c (String d r2 as r1) =>
                  if negb (bool_decide (c = colon)) then false
                  else if bool_decide (d = colon) then
                    if ellipsis then false
                    else if bool_decide (r2 = EmptyString) then finish i true
                    else bool_decide (i < 16) && ipv6_fields fuel r2 i true
                  else bool_decide (i < 16) && ipv6_fields fuel r1 i ellipsis
              | _ => false
              end
        | EmptyString => finish (i + 2) ellipsis
        end
  end.

Definition is_ipv6 (s : string) : bool :=
  match s with
  | String a (String b r) =>
      if bool_decide (a = colon) && bool_decide (b = colon)
      then if bool_decide (r = EmptyString) then true else ipv6_fields 8 r 0 true
      else ipv6_fields 8 s 0 false
  | _ => ipv6_fields 8 s 0 false
  end.

(** [net.ParseIP(s) != nil]: the first dot or colon decides the family; zones
    are not accepted. *)
Definition is_IP (s : string) : bool :=
  match list_find (λ a, a = dot ∨ a = colon ∨ a = "%"%char) (bytes_of s) with
  | Some (_, a) =>
      if bool_decide (a = dot) then is_ipv4 s
      else if bool_decide (a = colon)
      then negb (contains_byte "%"%char s) && is_ipv6 s
      else false
  | None => false
  end.

(** ** Bare addresses

    [mail.ParseAddress] reads a text as an addr-spec first.  A quoted local
    part, a comment, surrounding blanks or a display name make the address it
    answers shorter than the text, so the texts it answers unchanged are a
    dot-atom, an at sign, and a dot-atom or a domain literal. *)
Definition is_atext (r : Z) : bool :=
  (in_range 0x21 0x7E r &&
   negb (existsb (λ c, bool_decide (r = byte_Z c))
           ["("%char; ")"%char; "<"%char; ">"%char; "["%char; "]"%char; ":"%char; ";"%char;
            "@"%char; "\"%char; ","%char; ascii_of_nat 34])) ||
  bool_decide (0x80 ≤ r)%Z.

Definition valid_utf8 (s : string) : bool :=
  forallb (λ p, negb (bool_decide (p.1 = RuneError) && bool_decide (p.2 = 1)))
    (decode_runes (length (string_Z s)) (string_Z s)).

Fixpoint has_double_dot (s : string) : bool :=
  match s with
  | String a (String b _ as s') =>
      bool_decide (a = dot) && bool_decide (b = dot) || has_double_dot s'
  | _ => false
  end.

Definition is_dot_atom (s : string) : bool :=
  negb (bool_decide (s = EmptyString)) && valid_utf8 s && forallb is_atext (runes s) &&
  negb (bool_decide (str_nth s 0 = dot)) &&
  negb (bool_decide (str_nth s (str_len s - 1) = dot)) && negb (has_double_dot s).

Definition is_domain_literal (s : string) : bool :=
  let inner := str_slice 1 (str_len s - 1) s in
  bool_decide (2 ≤ str_len s) && bool_decide (str_nth s 0 = "["%char) &&
  bool_decide (str_nth s (str_len s - 1) = "]"%char) && is_IP inner.

(** [parsed, err := mail.ParseAddress(s); err == nil && parsed.Address == s] *)
Definition is_bare_address (s : string) : bool :=
  match cut_at "@"%char s with
  | None => false
  | Some (local, domain) => is_dot_atom local && (is_dot_atom domain || is_domain_literal domain)
  end.

Lemma is_IP_examples :
  forallb is_IP ["127.0.0.1"; "::1"; "::"; "1::"; "2001:db8::ff00:42:8329"; "::ffff:10.0.0.1";
                 "1:2:3:4:5:6:7:8"; "1:2:3:4:5:6:1.2.3.4"] = true ∧
  existsb is_IP ["1.2.3"; "1.2.3.4.5"; "01.2.3.4"; "256.0.0.1"; "1:2:3:4:5:6:7"; "1:2:3:4:5:6:7::8";
                 "::1%eth0"; "1:::2"; "12345::"; "example.com"; ":1"; "1:"] = false.
Proof. vm_compute. done. Qed.

Lemma is_bare_address_examples :
  forallb is_bare_address ["a@b"; "first.last@example.com"; "x+y@[10.0.0.1]"] = true ∧
  existsb is_bare_address ["a"; "@b"; "a@"; "a..b@c"; ".a@c"; "a@b@c"; "a b@c"; "a@[x]"; "<a@b>"] =
  false.
Proof. vm_compute. done. Qed.
