(* ===== verification/GoJson.v ===== *)
(** * encoding/json

    What the sources use of [encoding/json]: the syntax Go's scanner accepts,
    the decoding of strings with their escapes, the matching of struct fields,
    and the text [json.Marshal] renders.  Nesting is bounded as in Go. *)
From stdpp Require Import base list strings numbers pretty.
From Stdlib Require Import ZArith Lia Ascii.
From S2P Require Import Prelude Bytes GoText.

(** A number keeps its literal and a string the text between its quotes: the
    type of the struct field decides how they are read. *)
#[warnings="-register-all"]
Inductive json :=
| JNull
| JBool (b : bool)
| JNumber (literal : list Z)
| JString (raw s : list Z)
| JArray (l : list json)
| JObject (l : list (list Z * json)).

(** ** Lexemes *)
Definition is_json_space (c : Z) : bool :=
  bool_decide (c = 32)%Z || bool_decide (c = 9)%Z || bool_decide (c = 13)%Z || bool_decide (c = 10)%Z.
Fixpoint skip_space (l : list Z) : list Z :=
  match l with
  | c :: l' => if is_json_space c then skip_space l' else l
  | [] => []
  end.

Definition is_dec (c : Z) : bool := in_range 48 57 c.
Fixpoint span_digits (l : list Z) : list Z * list Z :=
  match l with
  | c :: l' => if is_dec c then let '(d, r) := span_digits l' in (c :: d, r) else ([], l)
  | [] => ([], [])
  end.

(** The integer, fraction and exponent of a number literal. *)
Definition int_part (l : list Z) : option (list Z * list Z) :=
  match l with
  | c :: l' =>
      if bool_decide (c = 48)%Z then Some ([c], l')
      else if is_dec c then let '(d, r) := span_digits l' in Some (c :: d, r)
      else None
  | [] => None
  end.
Definition frac_part (l : list Z) : option (list Z * list Z) :=
  match l with
  | 46%Z :: l' =>
      match span_digits l' with
      | ([], _) => None
      | (d, r) => Some (46%Z :: d, r)
      end
  | _ => Some ([], l)
  end.
Definition exp_part (l : list Z) : option (list Z * list Z) :=
  match l with
  | e :: l' =>
      if bool_decide (e = 101)%Z || bool_decide (e = 69)%Z then
        let '(sign, l'') :=
          match l' with
          | s :: r => if bool_decide (s = 43)%Z || bool_decide (s = 45)%Z then ([s], r) else ([], l')
          | [] => ([], l')
          end in
        match span_digits l'' with
        | ([], _) => None
        | (d, r) => Some (e :: sign ++ d, r)
        end
      else Some ([], l)
  | [] => Some ([], l)
  end.
Definition json_number (l : list Z) : option (list Z * list Z) :=
  let '(sign, l1) := match l with 45%Z :: r => ([45%Z], r) | _ => ([], l) end in
  '(i, l2) ← int_part l1;
  '(f, l3) ← frac_part l2;
  '(e, l4) ← exp_part l3;
  Some (sign ++ i ++ f ++ e, l4).

(** ** Strings *)

(** [utf8.AppendRune]; a surrogate or a value out of range is [RuneError]. *)
Definition cont_byte (r k : Z) : Z := Z.lor 0x80 (Z.land (Z.shiftr r k) 0x3F).
Definition EncodeRune (r : Z) : list Z :=
  (if in_range 0 0x7F r then [r]
   else if in_range 0 0x7FF r then [Z.lor 0xC0 (Z.shiftr r 6); cont_byte r 0]
   else if in_range 0xD800 0xDFFF r || negb (in_range 0 0x10FFFF r) then [0xEF; 0xBF; 0xBD]
   else if in_range 0 0xFFFF r then [Z.lor 0xE0 (Z.shiftr r 12); cont_byte r 6; cont_byte r 0]
   else [Z.lor 0xF0 (Z.shiftr r 18); cont_byte r 12; cont_byte r 6; cont_byte r 0])%Z.

Definition hex_digit_value (c : Z) : option Z :=
  if is_dec c then Some (c - 48)%Z
  else if in_range 97 102 c then Some (c - 87)%Z
  else if in_range 65 70 c then Some (c - 55)%Z
  else None.
Definition hex4 (l : list Z) : option (Z * list Z) :=
  match l with
  | a :: b :: c :: d :: r =>
      a ← hex_digit_value a; b ← hex_digit_value b; c ← hex_digit_value c; d ← hex_digit_value d;
      Some (a * 4096 + b * 256 + c * 16 + d, r)%Z
  | _ => None
  end.

(** The second half of a surrogate pair, [\uXXXX] with a low surrogate. *)
Definition low_surrogate (u : Z) (l : list Z) : option (Z * list Z) :=
  match l with
  | 92%Z :: 117%Z :: r =>
      '(v, r') ← hex4 r;
      if in_range 0xD800 0xDBFF u && in_range 0xDC00 0xDFFF v
      then Some ((u - 0xD800) * 1024 + (v - 0xDC00) + 0x10000, r')%Z
      else None
  | _ => None
  end.

Definition simple_escape (c : Z) : option Z :=
  if bool_decide (c = 34)%Z || bool_decide (c = 92)%Z || bool_decide (c = 47)%Z then Some c
  else if bool_decide (c = 98)%Z then Some 8%Z
  else if bool_decide (c = 102)%Z then Some 12%Z
  else if bool_decide (c = 110)%Z then Some 10%Z
  else if bool_decide (c = 114)%Z then Some 13%Z
  else if bool_decide (c = 116)%Z then Some 9%Z
  else None.

Definition prepend {R} (b : list Z) (o : option (list Z * R)) : option (list Z * R) :=
  match o with Some (s, r) => Some (b ++ s, r) | None => None end.

(** The rest of a string after its opening quote, and what follows it.  Each
    turn consumes a byte at least, so the length of the input is enough fuel. *)
Fixpoint json_string (fuel : nat) (l : list Z) : option (list Z * list Z) :=
  match fuel with
  | O => None
  | S fuel =>
      match l with
      | [] => None
      | c :: r =>
          if bool_decide (c = 34)%Z then Some ([], r)
          else if bool_decide (c = 92)%Z then
            match r with
            | [] => None
            | e :: r1 =>
                if bool_decide (e = 117)%Z then
                  '(u, r2) ← hex4 r1;
                  if in_range 0xD800 0xDFFF u then
                    match low_surrogate u r2 with
                    | Some (rune, r3) => prepend (EncodeRune rune) (json_string fuel r3)
                    | None => prepend (EncodeRune RuneError) (json_string fuel r2)
                    end
                  else prepend (EncodeRune u) (json_string fuel r2)
                else b ← simple_escape e; prepend [b] (json_string fuel r1)
            end
          else if bool_decide (c < 32)%Z then None
          else
            '(rune, n) ← DecodeRune l;
            prepend (EncodeRune rune) (json_string fuel (drop n l))
      end
  end.

(** ** Values *)
Definition literal (word l : list Z) : option (list Z) :=
  if bool_decide (take (length word) l = word) then Some (drop (length word) l) else None.

Definition json_scalar (l : list Z) : option (json * list Z) :=
  match l with
  | 34%Z :: r =>
      '(s, r') ← json_string (length r) r;
      Some (JString (take (length r - S (length r')) r) s, r')
  | 116%Z :: _ => r ← literal [116; 114; 117; 101]%Z l; Some (JBool true, r)
  | 102%Z :: _ => r ← literal [102; 97; 108; 115; 101]%Z l; Some (JBool false, r)
  | 110%Z :: _ => r ← literal [110; 117; 108; 108]%Z l; Some (JNull, r)
  | _ => '(n, r) ← json_number l; Some (JNumber n, r)
  end.

(** Values, the elements of an array after its bracket, and the members of an
    object after its brace; [depth] is what is left of Go's nesting limit. *)
Fixpoint json_value (fuel : nat) (depth : Z) (l : list Z) {struct fuel} : option (json * list Z) :=
  match fuel with
  | O => None
  | S fuel =>
      match l with
      | 91%Z :: r =>
          if bool_decide (depth ≤ 0)%Z then None
          else
            match skip_space r with
            | 93%Z :: r' => Some (JArray [], r')
            | r' => '(vs, r'') ← json_elements fuel (depth - 1) r'; Some (JArray vs, r'')
            end
      | 123%Z :: r =>
          if bool_decide (depth ≤ 0)%Z then None
          else
            match skip_space r with
            | 125%Z :: r' => Some (JObject [], r')
            | r' => '(ms, r'') ← json_members fuel (depth - 1) r'; Some (JObject ms, r'')
            end
      | _ => json_scalar l
      end
  end
with json_elements (fuel : nat) (depth : Z) (l : list Z) {struct fuel} :
    option (list json * list Z) :=
  match fuel with
  | O => None
  | S fuel =>
      '(v, r) ← json_value fuel depth l;
      match skip_space r with
      | 93%Z :: r' => Some ([v], r')
      | 44%Z :: r' => '(vs, r'') ← json_elements fuel depth (skip_space r'); Some (v :: vs, r'')
      | _ => None
      end
  end
with json_members (fuel : nat) (depth : Z) (l : list Z) {struct fuel} :
    option (list (list Z * json) * list Z) :=
  match fuel with
  | O => None
  | S fuel =>
      match l with
      | 34%Z :: r =>
          '(k, r1) ← json_string (length r) r;
          match skip_space r1 with
          | 58%Z :: r2 =>
              '(v, r3) ← json_value fuel depth (skip_space r2);
              match skip_space r3 with
              | 125%Z :: r4 => Some ([(k, v)], r4)
              | 44%Z :: r4 =>
                  '(ms, r5) ← json_members fuel depth (skip_space r4);
                  Some ((k, v) :: ms, r5)
              | _ => None
              end
          | _ => None
          end
      | _ => None
      end
  end.

(** A document: one value between white space.  Two turns are taken per byte
    at most. *)
Definition json_fuel (l : list Z) : nat := 2 * length l + 2.
Definition json_parse (s : string) : option json :=
  let l := skip_space (string_Z s) in
  '(v, r) ← json_value (json_fuel l) 10000 l;
  match skip_space r with [] => Some v | _ => None end.

(** [json.Valid] *)
Definition json_Valid (s : string) : bool := bool_decide (is_Some (json_parse s)).

(** ** Rendering *)
Definition hex_lower (n : Z) : Z := if bool_decide (n < 10)%Z then (48 + n)%Z else (87 + n)%Z.
Definition u_escape (u : Z) : list Z :=
  [92; 117; hex_lower (u / 4096 mod 16); hex_lower (u / 256 mod 16); hex_lower (u / 16 mod 16);
   hex_lower (u mod 16)]%Z.

(** One ASCII byte of a string: [json.Marshal] escapes HTML too. *)
Definition quote_byte (b : Z) : list Z :=
  (if bool_decide (b = 34) || bool_decide (b = 92) then [92; b]
   else if bool_decide (b = 8) then [92; 98]
   else if bool_decide (b = 12) then [92; 102]
   else if bool_decide (b = 10) then [92; 110]
   else if bool_decide (b = 13) then [92; 114]
   else if bool_decide (b = 9) then [92; 116]
   else if bool_decide (b < 32) || bool_decide (b = 60) || bool_decide (b = 62) || bool_decide (b = 38)
   then u_escape b
   else [b])%Z.

Fixpoint quote_body (fuel : nat) (l : list Z) : list Z :=
  match fuel with
  | O => []
  | S fuel =>
      match DecodeRune l with
      | None => []
      | Some (r, n) =>
          (if in_range 0 0x7F r then quote_byte r
           else if bool_decide (r = RuneError) && bool_decide (n = 1) then u_escape RuneError
           else if bool_decide (r = 0x2028)%Z || bool_decide (r = 0x2029)%Z then u_escape r
           else take n l) ++ quote_body fuel (drop n l)
      end
  end.

(** [json.Marshal] of a string *)
Definition json_quote (s : string) : list Z :=
  34%Z :: quote_body (str_len s) (string_Z s) ++ [34%Z].

(** ** Fields of structs *)

(** Field names match up to Go's case folding: over ASCII names, the letters
    and the two runes that fold to one. *)
Definition fold_rune (r : Z) : Z :=
  if in_range 97 122 r then (r - 32)%Z
  else if bool_decide (r = 0x17F)%Z then 83%Z
  else if bool_decide (r = 0x212A)%Z then 75%Z
  else r.
Definition fold_name (l : list Z) : list Z := fold_rune <$> (decode_runes (length l) l).*1.
Definition is_field (name : string) (key : list Z) : bool :=
  bool_decide (fold_name key = fold_name (string_Z name)).

(** The members of an object in order, each assigned to its field; [null] is
    the zero value of the target. *)
Fixpoint json_fields {A} (assign : list Z → json → A → option A) (l : list (list Z * json)) (a : A) :
    option A :=
  match l with
  | [] => Some a
  | (k, v) :: l' => a ← assign k v a; json_fields assign l' a
  end.
Definition json_struct {A} (assign : list Z → json → A → option A) (zero : A) (v : json) : option A :=
  match v with
  | JNull => Some zero
  | JObject l => json_fields assign l zero
  | _ => None
  end.

(** [strconv.ParseInt(s, 10, 64)] of a literal *)
Definition dec_value (l : list Z) (acc : Z) : Z := foldl (λ a c, a * 10 + (c - 48))%Z acc l.
Definition parse_int64 (l : list Z) : option Z :=
  let '(sign, digits) := match l with 45%Z :: r => ((-1)%Z, r) | _ => (1%Z, l) end in
  if bool_decide (digits = []) || negb (forallb is_dec digits) then None
  else
    let v := (sign * dec_value digits 0)%Z in
    if bool_decide (int64_min ≤ v ≤ int64_max)%Z then Some v else None.

(** Assignments to a field of type [int64], [string] or a type that implements
    [encoding.TextUnmarshaler]. *)
Definition to_int64 (v : json) (old : Z) : option Z :=
  match v with
  | JNull => Some old
  | JNumber literal => parse_int64 literal
  | _ => None
  end.
Definition to_string (v : json) (old : string) : option string :=
  match v with
  | JNull => Some old
  | JString _ s => Some (Z_string s)
  | _ => None
  end.
Definition to_text {A} (unmarshal : string → option A) (v : json) (old : A) : option A :=
  match v with
  | JNull => Some old
  | JString _ s => unmarshal (Z_string s)
  | _ => None
  end.

(** ** Integers round-trip *)
Lemma byte_pretty_char (d : N) : (d < 10)%N → byte_Z (pretty_N_char d) = (48 + Z.of_N d)%Z.
Proof. intros Hd. destruct d as [|p]; [done|]. do 4 (destruct p as [p|p|]; try done; try lia). Qed.

Lemma string_Z_app s t : string_Z (s +:+ t) = string_Z s ++ string_Z t.
Proof. unfold string_Z. by rewrite bytes_of_app, fmap_app. Qed.
Lemma string_Z_cons a s : string_Z (String a s) = byte_Z a :: string_Z s.
Proof. done. Qed.
Lemma string_Z_length s : length (string_Z s) = str_len s.
Proof. unfold string_Z. by rewrite length_fmap, bytes_of_length. Qed.
Lemma string_Z_Z_string l : Forall (λ b, 0 ≤ b < 256)%Z l → string_Z (Z_string l) = l.
Proof.
  intros Hl. unfold string_Z, Z_string. rewrite bytes_of_of.
  induction Hl as [|b l Hb Hl IH]; [done|]. cbn [fmap list_fmap]. f_equal; [|done].
  rewrite byte_Z_byte. by apply Z.mod_small.
Qed.
Lemma string_Z_bytes s : Forall (λ b, 0 ≤ b < 256)%Z (string_Z s).
Proof. unfold string_Z. apply Forall_fmap, Forall_true. intros a. apply byte_Z_bound. Qed.

(** The decimal digits of a number, their value and their first digit. *)
Lemma pretty_go_value x s acc :
  ∃ l, string_Z (pretty_N_go x s) = l ++ string_Z s ∧ forallb is_dec l = true ∧
    dec_value l acc = (acc * 10 ^ Z.of_nat (length l) + Z.of_N x)%Z ∧
    ((0 < x)%N → ∃ c l', l = c :: l' ∧ c ≠ 48%Z).
Proof.
  revert s acc. induction (N.lt_wf_0 x) as [x _ IH]; intros s acc.
  destruct (decide (x = 0)%N) as [->|Hx].
  { rewrite pretty_N_go_0. exists []. cbn. split_and!; [done|done|lia|lia]. }
  rewrite pretty_N_go_step by lia.
  assert (x mod 10 < 10)%N as Hd by (apply N.mod_lt; lia).
  destruct (IH (x `div` 10)%N ltac:(apply N.div_lt; lia)
              (String (pretty_N_char (x `mod` 10)%N) s) acc) as (l & Hl & Hdec & Hv & Hz).
  rewrite string_Z_cons, (byte_pretty_char _ Hd) in Hl.
  exists (l ++ [48 + Z.of_N (x mod 10)]%Z). split_and!.
  - by rewrite Hl, <- app_assoc.
  - rewrite forallb_app, Hdec. cbn [forallb]. rewrite andb_true_r. unfold is_dec, in_range.
    apply bool_decide_true. clear -Hd. generalize dependent (x mod 10)%N. intros d Hd. lia.
  - unfold dec_value in *. rewrite foldl_app, Hv, length_app. cbn [foldl length].
    replace (Z.of_nat (length l + 1)) with (Z.of_nat (length l) + 1)%Z by lia.
    rewrite Z.pow_add_r, Z.pow_1_r by lia.
    pose proof (N.div_mod x 10 ltac:(lia)). lia.
  - intros _. destruct (decide (x `div` 10 = 0)%N) as [Hq|Hq].
    + rewrite Hq, pretty_N_go_0, string_Z_cons, (byte_pretty_char _ Hd) in Hl.
      assert (l = []) as -> by (destruct l as [|c l]; [done|]; apply (f_equal length) in Hl;
        cbn [length app] in Hl; rewrite length_app in Hl; cbn [length] in Hl; lia).
      eexists _, []. split; [done|]. pose proof (N.div_mod x 10 ltac:(lia)) as Hx'.
      rewrite Hq in Hx'. clear -Hx Hx'. generalize dependent (x mod 10)%N. intros d Hd. lia.
    + destruct Hz as (c & l' & -> & Hc); [by apply N.neq_0_lt_0|]. by eexists c, _.
Qed.

(** A literal of the decimal form of an integer is scanned as a whole and
    parses back. *)
Definition starts_digit (l : list Z) : bool := match l with c :: _ => is_dec c | [] => false end.
Lemma span_digits_app l r :
  forallb is_dec l = true → starts_digit r = false → span_digits (l ++ r) = (l, r).
Proof.
  intros Hl Hr. induction l as [|c l IH]; cbn [app span_digits forallb] in *.
  - destruct r as [|c r]; [done|]. cbn in *. by rewrite Hr.
  - apply andb_true_iff in Hl as [Hc Hl]. by rewrite Hc, (IH Hl).
Qed.

(** What may follow a number: not a digit, a dot or an exponent. *)
Definition ends_number (l : list Z) : bool :=
  match l with
  | c :: _ => negb (is_dec c || bool_decide (c = 46)%Z || bool_decide (c = 101)%Z || bool_decide (c = 69)%Z)
  | [] => true
  end.

Lemma ends_number_parts r :
  ends_number r = true → starts_digit r = false ∧ frac_part r = Some ([], r) ∧ exp_part r = Some ([], r).
Proof.
  destruct r as [|c r]; [done|]. cbn [ends_number]. intros H. bool_cases.
  split_and!; [done| |].
  - unfold frac_part. repeat case_match; try done.
  - unfold exp_part. by rewrite !bool_decide_false.
Qed.

Lemma json_number_digits l r :
  forallb is_dec l = true → l = [48%Z] ∨ (∃ c l', l = c :: l' ∧ c ≠ 48%Z) → ends_number r = true →
  json_number (l ++ r) = Some (l, r) ∧ json_number (45%Z :: l ++ r) = Some (45%Z :: l, r).
Proof.
  intros Hd Hl Hr. destruct (ends_number_parts r Hr) as (Hs & Hf & He).
  assert (int_part (l ++ r) = Some (l, r)) as Hi.
  { destruct Hl as [->|(c & l' & -> & Hc)]; [done|]. cbn [app int_part].
    cbn [forallb] in Hd. apply andb_true_iff in Hd as [Hc' Hl'].
    by rewrite bool_decide_false, Hc', span_digits_app. }
  assert (∀ p, ('(i, l2) ← Some (l, r); '(f, l3) ← frac_part l2; '(e, l4) ← exp_part l3;
    Some (p ++ i ++ f ++ e, l4)) = Some (p ++ l, r)) as Hp.
  { intros p. cbn. rewrite Hf. cbn. rewrite He. cbn. by rewrite app_nil_r. }
  split; unfold json_number.
  - destruct l as [|c l]; [naive_solver|]. cbn [app] in *.
    assert (c ≠ 45%Z) as Hc. { intros ->. by destruct Hl as [?|(? & ? & ? & ?)]. }
    replace (match c :: l ++ r with 45%Z :: r0 => ([45%Z], r0) | _ => ([], c :: l ++ r) end)
      with (@nil Z, c :: l ++ r) by (repeat case_match; done).
    rewrite Hi. apply (Hp []).
  - rewrite Hi. apply (Hp [45%Z]).
Qed.

Lemma pretty_pos_digits (p : positive) :
  ∃ c l, string_Z (pretty (N.pos p)) = c :: l ∧ c ≠ 48%Z ∧ forallb is_dec (c :: l) = true ∧
    dec_value (c :: l) 0 = Z.pos p.
Proof.
  destruct (pretty_go_value (N.pos p) EmptyString 0) as (l & Hl & Hd & Hv & Hz).
  rewrite app_nil_r in Hl. destruct (Hz ltac:(lia)) as (c & l' & -> & Hc).
  exists c, l'. split_and!; [|done|done|done]. exact Hl.
Qed.

Lemma FormatInt_literal z r :
  ends_number r = true → json_number (string_Z (FormatInt z) ++ r) = Some (string_Z (FormatInt z), r).
Proof.
  intros Hr. destruct z as [|p|p].
  - by apply (json_number_digits [48%Z]); [|left|].
  - destruct (pretty_pos_digits p) as (c & l & Hl & Hc & Hd & _).
    change (FormatInt (Z.pos p)) with (pretty (N.pos p)). rewrite Hl.
    apply (json_number_digits (c :: l)); [done|right; eauto|done].
  - destruct (pretty_pos_digits p) as (c & l & Hl & Hc & Hd & _).
    change (FormatInt (Z.neg p)) with ("-" +:+ pretty (N.pos p)). rewrite string_Z_app, Hl.
    apply (json_number_digits (c :: l)); [done|right; eauto|done].
Qed.

Lemma parse_int64_FormatInt z :
  (int64_min ≤ z ≤ int64_max)%Z → parse_int64 (string_Z (FormatInt z)) = Some z.
Proof.
  intros Hz. destruct z as [|p|p]; [done|..];
    destruct (pretty_pos_digits p) as (c & l & Hl & Hc & Hd & Hv).
  - change (FormatInt (Z.pos p)) with (pretty (N.pos p)). rewrite Hl. unfold parse_int64.
    assert (c ≠ 45%Z) as Hc' by (by intros ->).
    replace (match c :: l with 45%Z :: r => ((-1)%Z, r) | _ => (1%Z, c :: l) end)
      with (1%Z, c :: l) by (repeat case_match; done).
    rewrite Hd, Hv. cbn [negb orb]. rewrite bool_decide_false by done. cbn [orb].
    rewrite bool_decide_true by lia. by rewrite Z.mul_1_l.
  - change (FormatInt (Z.neg p)) with ("-" +:+ pretty (N.pos p)). rewrite string_Z_app, Hl.
    unfold parse_int64. cbn [app string_Z]. change (string_Z "-") with [45%Z]. cbn [app].
    rewrite Hd, Hv. cbn [negb orb]. rewrite bool_decide_false by done. cbn [orb].
    rewrite bool_decide_true by lia. done.
Qed.

(** ** Strings without escapes *)

(** Bytes [json.Marshal] renders as themselves and the scanner reads back. *)
Definition plain_byte (b : Z) : bool :=
  in_range 32 127 b && negb (bool_decide (b = 34)%Z || bool_decide (b = 92)%Z ||
    bool_decide (b = 60)%Z || bool_decide (b = 62)%Z || bool_decide (b = 38)%Z).

Lemma plain_byte_cases b :
  plain_byte b = true → (32 ≤ b ≤ 127)%Z ∧ b ≠ 34%Z ∧ b ≠ 92%Z ∧ b ≠ 60%Z ∧ b ≠ 62%Z ∧ b ≠ 38%Z.
Proof. unfold plain_byte, in_range. intros H. bool_cases. done. Qed.

Lemma json_string_plain l r fuel :
  forallb plain_byte l = true → length l < fuel →
  json_string fuel (l ++ 34%Z :: r) = Some (l, r).
Proof.
  revert fuel. induction l as [|b l IH]; intros [|fuel] Hl Hf; cbn [length] in Hf; try lia; [done|].
  cbn [forallb] in Hl. apply andb_true_iff in Hl as [Hb Hl].
  destruct (plain_byte_cases b Hb) as (Hr & H1 & H2 & _).
  cbn [json_string app]. rewrite !bool_decide_false by (done || lia). cbn [DecodeRune].
  assert (in_range 0 0x7F b = true) as Ha by (apply bool_decide_true; lia).
  rewrite Ha. cbn. rewrite skipn_O. rewrite (IH fuel Hl ltac:(lia)). unfold EncodeRune.
  by rewrite Ha.
Qed.

(** ** Objects round-trip

    [renders d v j]: the text [v] reads as [j] wherever the nesting left is at
    least [d]. *)
Definition starts_value (l : list Z) : bool :=
  match l with c :: _ => negb (is_json_space c) | [] => false end.
Definition renders (d : Z) (v : list Z) (j : json) : Prop :=
  starts_value v = true ∧
  ∀ fuel depth r, 2 * length v < fuel → (d ≤ depth)%Z → ends_number r = true →
    json_value fuel depth (v ++ r) = Some (j, r).

Lemma skip_space_value v r : starts_value v = true → skip_space (v ++ r) = v ++ r.
Proof. destruct v as [|c v]; [done|]. cbn. by destruct (is_json_space c). Qed.

Lemma renders_int z : renders 0 (string_Z (FormatInt z)) (JNumber (string_Z (FormatInt z))).
Proof.
  assert (∃ c l, string_Z (FormatInt z) = c :: l ∧ (c = 45 ∨ 48 ≤ c ≤ 57)%Z) as (c & l & Hl & Hc).
  { destruct z as [|p|p]; [exists 48%Z, []; split; [done|lia]|..];
      destruct (pretty_pos_digits p) as (c & l & Hl & _ & Hd & _).
    - exists c, l. split; [exact Hl|]. cbn in Hd. unfold is_dec, in_range in Hd. bool_cases. lia.
    - exists 45%Z, (c :: l). split; [|by left].
      change (FormatInt (Z.neg p)) with ("-" +:+ pretty (N.pos p)). by rewrite string_Z_app, Hl. }
  split.
  - rewrite Hl. cbn. unfold is_json_space. by rewrite !bool_decide_false by lia.
  - intros [|fuel] depth r Hf _ Hr; [lia|]. pose proof (FormatInt_literal z r Hr) as Hn.
    rewrite Hl in *. cbn [app] in *.
    assert (json_value (S fuel) depth (c :: l ++ r) =
            ('(n, r) ← json_number (c :: l ++ r); Some (JNumber n, r))) as ->.
    { assert (c = 45 ∨ c = 48 ∨ c = 49 ∨ c = 50 ∨ c = 51 ∨ c = 52 ∨ c = 53 ∨ c = 54 ∨ c = 55 ∨
        c = 56 ∨ c = 57)%Z as Hcs by lia. by repeat destruct Hcs as [->|Hcs]; subst. }
    by rewrite Hn.
Qed.

Lemma renders_plain s :
  forallb plain_byte s = true → renders 0 (34%Z :: s ++ [34%Z]) (JString s s).
Proof.
  intros Hs. split; [done|]. intros [|fuel] depth r Hf _ _; [lia|].
  cbn [app json_value json_scalar]. rewrite <- app_assoc. cbn [app].
  rewrite (json_string_plain s r) by (done || rewrite length_app; cbn [length]; lia).
  cbn. rewrite length_app. cbn [length].
  replace (length s + S (length r) - S (length r)) with (length s) by lia.
  by rewrite take_app_length.
Qed.

(** The text of an object [json.Marshal] renders from a struct. *)
Definition json_key (name : string) : list Z := 34%Z :: string_Z name ++ [34; 58]%Z.
Fixpoint members_text (l : list (string * list Z)) : list Z :=
  match l with
  | [] => []
  | [(k, v)] => json_key k ++ v
  | (k, v) :: l' => json_key k ++ v ++ 44%Z :: members_text l'
  end.
Definition object_text (l : list (string * list Z)) : list Z := 123%Z :: members_text l ++ [125%Z].

Definition plain_name (name : string) : bool := forallb plain_byte (string_Z name).

Lemma json_member d k v j rest fuel :
  plain_name k = true → renders d v j → ends_number rest = true →
  2 * length (json_key k ++ v) < fuel →
  json_members fuel d (json_key k ++ v ++ rest) =
  match skip_space rest with
  | 125%Z :: r4 => Some ([(string_Z k, j)], r4)
  | 44%Z :: r4 =>
      '(ms, r5) ← json_members (Nat.pred fuel) d (skip_space r4);
      Some ((string_Z k, j) :: ms, r5)
  | _ => None
  end.
Proof.
  intros Hk [Hv Hj] Hr Hf. destruct fuel as [|fuel]; [lia|]. unfold json_key in *.
  rewrite length_app in Hf. cbn [length] in Hf. rewrite length_app in Hf. cbn [length] in Hf.
  cbn [app json_members]. rewrite <- !app_assoc. cbn [app].
  rewrite json_string_plain by (done || rewrite length_app; cbn [length]; lia). cbn [mbind option_bind].
  change (skip_space (58%Z :: v ++ rest)) with (58%Z :: v ++ rest). cbv iota beta.
  rewrite (skip_space_value v rest Hv), Hj by (done || lia). by cbn [mbind option_bind Nat.pred].
Qed.

Lemma json_members_text d l js r fuel :
  l ≠ [] → Forall (λ kv, plain_name kv.1 = true) l → Forall2 (λ kv j, renders d kv.2 j) l js →
  2 * length (members_text l) < fuel →
  json_members fuel d (members_text l ++ 125%Z :: r) =
    Some (zip (string_Z <$> l.*1) js, r).
Proof.
  intros Hne Hk Hv. revert fuel. induction Hv as [|[k v] j l js Hj Hv IH]; [done|].
  apply Forall_cons_1 in Hk as [Hk1 Hk]. cbn [fst snd] in *. intros fuel Hf.
  destruct l as [|[k2 v2] l].
  - cbn [members_text] in *. rewrite <- app_assoc.
    rewrite (json_member d k v j _ fuel) by done. cbn. by inversion Hv.
  - change (members_text ((k, v) :: (k2, v2) :: l))
      with (json_key k ++ v ++ 44%Z :: members_text ((k2, v2) :: l)) in *.
    set (rest := members_text ((k2, v2) :: l)) in *.
    rewrite !length_app in Hf. cbn [length] in Hf.
    replace ((json_key k ++ v ++ 44%Z :: rest) ++ 125%Z :: r)
      with (json_key k ++ v ++ 44%Z :: rest ++ 125%Z :: r)
      by (by rewrite <- !app_assoc).
    rewrite (json_member d k v j _ fuel) by (done || rewrite length_app; lia).
    cbn [skip_space]. change (is_json_space 44) with false. cbv iota.
    assert (skip_space (rest ++ 125%Z :: r) = rest ++ 125%Z :: r) as ->.
    { apply skip_space_value. unfold rest. by destruct l. }
    rewrite IH by (done || lia). done.
Qed.

Lemma renders_object d l js :
  l ≠ [] → Forall (λ kv, plain_name kv.1 = true) l → Forall2 (λ kv j, renders d kv.2 j) l js →
  (0 ≤ d)%Z → renders (d + 1) (object_text l) (JObject (zip (string_Z <$> l.*1) js)).
Proof.
  intros Hne Hk Hv Hd. split; [done|]. intros [|fuel] depth r Hf Hdepth Hr; [lia|].
  unfold object_text in *. cbn [length app] in *. rewrite length_app in Hf. cbn [length] in Hf.
  rewrite <- app_assoc. cbn [app json_value]. rewrite bool_decide_false by lia.
  assert (skip_space (members_text l ++ 125%Z :: r) = members_text l ++ 125%Z :: r) as ->.
  { apply skip_space_value. destruct l as [|[k v] [|? ?]]; done. }
  assert (Forall2 (λ kv j, renders (depth - 1) kv.2 j) l js) as Hv'.
  { eapply Forall2_impl; [exact Hv|]. intros kv j [H1 H2]. split; [done|].
    intros. apply H2; [done|lia|done]. }
  destruct (members_text l ++ 125%Z :: r) as [|c t] eqn:Ht; [by destruct (members_text l)|].
  assert (c = 34%Z) as -> by (destruct l as [|[k v] [|? ?]]; [done|..]; cbn in Ht; congruence).
  cbv iota. rewrite <- Ht, json_members_text with (js := js) by (done || lia). done.
Qed.

Lemma json_parse_renders d v j : renders d v j → (d ≤ 10000)%Z →
  Forall (λ b, 0 ≤ b < 256)%Z v → json_parse (Z_string v) = Some j.
Proof.
  intros [Hs Hj] Hd Hb. unfold json_parse. rewrite string_Z_Z_string by done.
  pose proof (skip_space_value v [] Hs) as Hsp. rewrite app_nil_r in Hsp. rewrite Hsp.
  specialize (Hj (json_fuel v) 10000%Z [] ltac:(unfold json_fuel; lia) Hd eq_refl).
  rewrite app_nil_r in Hj. by rewrite Hj.
Qed.
