(* ===== verification/GoCrypto.v ===== *)
(** * crypto/aes and crypto/cipher

    AES with keys of 16, 24 or 32 bytes (FIPS 197) and GCM with a 96-bit nonce,
    a 128-bit tag and no additional data (NIST SP 800-38D).  A block is the
    list of its 16 bytes, column by column; an element of GF(2^128) is the
    big-endian integer of its block. *)
From stdpp Require Import base sets list strings numbers.
From Stdlib Require Import ZArith Lia Ascii.
From S2P Require Import Prelude Bytes GoText.

Local Open Scope Z_scope.

(** ** AES *)

(** Multiplication in GF(2^8) modulo x^8 + x^4 + x^3 + x + 1. *)
Definition xtime (b : Z) : Z :=
  if bool_decide (128 ≤ b) then Z.lxor (2 * b) 0x11b else 2 * b.
Fixpoint gf8_mul (bits : nat) (a b : Z) : Z :=
  match bits with
  | O => 0
  | S bits' => Z.lxor (if Z.odd b then a else 0) (gf8_mul bits' (xtime a) (Z.div2 b))
  end.
Definition gf8_inv (a : Z) : Z :=
  default 0 (head (List.filter (λ b, bool_decide (gf8_mul 8 a b = 1)) (seqZ 1 255))).
Definition rotl8 (n b : Z) : Z := Z.land (Z.lor (Z.shiftl b n) (Z.shiftr b (8 - n))) 255.

(** SubBytes: the inverse, then the affine map. *)
Definition sub_byte (a : Z) : Z :=
  let b := gf8_inv a in
  foldr Z.lxor 0x63 [b; rotl8 1 b; rotl8 2 b; rotl8 3 b; rotl8 4 b].
Definition sbox : list Z := Eval vm_compute in sub_byte <$> seqZ 0 256.
Definition SubByte (b : Z) : Z := nth (Z.to_nat b) sbox 0.

Definition xor_bytes : list Z → list Z → list Z := zip_with Z.lxor.

(** The key schedule: [nk] words are in [recent], latest first. *)
Definition next_key_word (nk i : nat) (rcon : Z) (recent : list (list Z)) : list Z :=
  let prev := default [] (head recent) in
  let temp :=
    if bool_decide ((i mod nk)%nat = 0%nat) then
      match SubByte <$> prev with
      | a :: rest => xor_bytes (rest ++ [a]) [rcon; 0; 0; 0]
      | [] => []
      end
    else if bool_decide (6 < nk)%nat && bool_decide ((i mod nk)%nat = 4%nat) then SubByte <$> prev
    else prev in
  xor_bytes temp (nth (nk - 1) recent []).
Fixpoint expand_key (fuel nk i : nat) (rcon : Z) (words : list (list Z)) : list (list Z) :=
  match fuel with
  | O => rev words
  | S fuel' =>
      let rcon' := if bool_decide ((i mod nk)%nat = 0%nat) then xtime rcon else rcon in
      expand_key fuel' nk (S i) rcon' (next_key_word nk i rcon words :: words)
  end.

Fixpoint chunks (n fuel : nat) (l : list Z) : list (list Z) :=
  match fuel, l with
  | O, _ | _, [] => []
  | S fuel', _ => take n l :: chunks n fuel' (drop n l)
  end.
Definition key_schedule (key : list Z) : list (list Z) :=
  let nk := (length key / 4)%nat in
  let ws := expand_key (4 * (nk + 7) - nk) nk nk 1 (rev (chunks 4 nk key)) in
  chunks 16 (nk + 7) (concat ws).

Definition ShiftRows (s : list Z) : list Z :=
  (λ i, nth ((i + 4 * (i mod 4)) mod 16)%nat s 0) <$> seq 0 16.
Definition mix_column (c : list Z) : list Z :=
  (λ i, foldr Z.lxor 0
     [gf8_mul 8 (nth i c 0) 2; gf8_mul 8 (nth ((i + 1) mod 4)%nat c 0) 3;
      nth ((i + 2) mod 4)%nat c 0; nth ((i + 3) mod 4)%nat c 0]) <$> seq 0 4.
Definition MixColumns (s : list Z) : list Z := concat (mix_column <$> chunks 4 4 s).

Fixpoint aes_rounds (keys : list (list Z)) (s : list Z) : list Z :=
  match keys with
  | [] => s
  | [k] => xor_bytes (ShiftRows (SubByte <$> s)) k
  | k :: keys' => aes_rounds keys' (xor_bytes (MixColumns (ShiftRows (SubByte <$> s))) k)
  end.
Definition aes_encrypt (schedule : list (list Z)) (block : list Z) : list Z :=
  match schedule with
  | k :: keys => aes_rounds keys (xor_bytes block k)
  | [] => []
  end.

(** ** GCM *)

(** Multiplication in GF(2^128): bit 127 is the coefficient of 1. *)
Fixpoint gf128_mul (bits : nat) (x v : Z) : Z :=
  match bits with
  | O => 0
  | S bits' =>
      let v' := if Z.odd v then Z.lxor (Z.div2 v) (Z.shiftl 0xe1 120) else Z.div2 v in
      Z.lxor (if Z.testbit x (Z.of_nat bits') then v else 0) (gf128_mul bits' x v')
  end.
Definition be_value (l : list Z) : Z := foldl (λ acc b, acc * 256 + b) 0 l.
Definition pad_block (l : list Z) : list Z := l ++ repeat 0 (16 - length l)%nat.
Definition ghash (h : Z) (blocks : list (list Z)) : Z :=
  foldl (λ acc b, gf128_mul 128 (Z.lxor acc (be_value (pad_block b))) h) 0 blocks.

(** The key stream of counter mode from the block after [counter], for [n] blocks. *)
Definition counter_block (nonce : list Z) (counter : Z) : list Z :=
  nonce ++ Sha256.be_bytes 4 (counter mod 2 ^ 32).
Definition gcm_blocks (n : nat) : nat := ((n + 15) / 16)%nat.
Definition key_stream (schedule : list (list Z)) (nonce : list Z) (n : nat) : list Z :=
  concat ((λ i, aes_encrypt schedule (counter_block nonce (2 + Z.of_nat i))) <$> seq 0 (gcm_blocks n)).

(** A byte of text and one of key stream. *)
Definition xor_byte (a : ascii) (k : Z) : ascii := Z_byte (Z.lxor (byte_Z a) k).
Definition gcm_crypt (schedule : list (list Z)) (nonce text : list ascii) : list ascii :=
  let ks := key_stream schedule (byte_Z <$> nonce) (length text) in
  imap (λ i a, xor_byte a (nth i ks 0)) text.

Definition gcm_tag (schedule : list (list Z)) (nonce ciphertext : list ascii) : list ascii :=
  let c := byte_Z <$> ciphertext in
  let h := be_value (aes_encrypt schedule (repeat 0 16)) in
  let lengths := Sha256.be_bytes 16 (8 * Z.of_nat (length c)) in
  let s := ghash h (chunks 16 (gcm_blocks (length c)) c ++ [lengths]) in
  let mask := aes_encrypt schedule (counter_block (byte_Z <$> nonce) 1) in
  Z_byte <$> xor_bytes (Sha256.be_bytes 16 s) mask.

(** ** The interface of [cipher.AEAD] *)

(** [aes.NewCipher]; a key of another length is an error. *)
Definition aes_NewCipher (key : string) : option (list (list Z)) :=
  if bool_decide (str_len key ∈ [16; 24; 32]%nat)
  then Some (key_schedule (string_Z key)) else None.
Definition gcm_NonceSize : nat := 12.
Definition gcm_TagSize : nat := 16.
Definition gcm_max_text : Z := (2 ^ 32 - 2) * 16.

(** [Seal(nil, nonce, plaintext, nil)]; a text beyond the counter's range panics. *)
Definition gcm_Seal (schedule : list (list Z)) (nonce plaintext : string) : option string :=
  if bool_decide (gcm_max_text < Z.of_nat (str_len plaintext)) then None
  else
    let c := gcm_crypt schedule (bytes_of nonce) (bytes_of plaintext) in
    Some (of_bytes (c ++ gcm_tag schedule (bytes_of nonce) c)).

(** [Open(nil, nonce, ciphertext, nil)] *)
Definition gcm_Open (schedule : list (list Z)) (nonce ciphertext : string) : option string :=
  let l := bytes_of ciphertext in
  let n := (length l - gcm_TagSize)%nat in
  if bool_decide (length l < gcm_TagSize)%nat ||
     bool_decide (gcm_max_text + Z.of_nat gcm_TagSize < Z.of_nat (length l)) then None
  else
    let c := take n l in
    if bool_decide (drop n l = gcm_tag schedule (bytes_of nonce) c)
    then Some (of_bytes (gcm_crypt schedule (bytes_of nonce) c)) else None.

(** FIPS 197, appendix C.1 and C.3 *)
Lemma aes_fips197 :
  aes_encrypt (key_schedule (seqZ 0 16)) ((λ i, 17 * i) <$> seqZ 0 16)
  = [0x69; 0xc4; 0xe0; 0xd8; 0x6a; 0x7b; 0x04; 0x30; 0xd8; 0xcd; 0xb7; 0x80; 0x70; 0xb4; 0xc5; 0x5a] ∧
  aes_encrypt (key_schedule (seqZ 0 32)) ((λ i, 17 * i) <$> seqZ 0 16)
  = [0x8e; 0xa2; 0xb7; 0xca; 0x51; 0x67; 0x45; 0xbf; 0xea; 0xfc; 0x49; 0x90; 0x4b; 0x49; 0x60; 0x89].
Proof. split; vm_compute; reflexivity. Qed.

(** The test case 14 of the GCM specification: a zero key, nonce and block. *)
Lemma gcm_case_14 :
  string_Z <$> gcm_Seal (key_schedule (repeat 0 32)) (Z_string (repeat 0 12)) (Z_string (repeat 0 16))
  = Some [0xce; 0xa7; 0x40; 0x3d; 0x4d; 0x60; 0x6b; 0x6e; 0x07; 0x4e; 0xc5; 0xd3; 0xba; 0xf3; 0x9d; 0x18;
          0xd0; 0xd1; 0xc8; 0xa7; 0x99; 0x99; 0x6b; 0xf0; 0x26; 0x5b; 0x98; 0xb5; 0xd4; 0x8a; 0xb9; 0x19].
Proof. vm_compute. reflexivity. Qed.

(** ** Open undoes Seal *)
Lemma xor_byte_twice a k : xor_byte (xor_byte a k) k = a.
Proof.
  unfold xor_byte. rewrite <- (Z_byte_Z a) at 2. unfold Z_byte. do 2 f_equal.
  fold (Z_byte (Z.lxor (byte_Z a) k)). rewrite byte_Z_byte. change 256 with (2 ^ 8).
  rewrite <- !Z.land_ones by lia. apply Z.bits_inj'. intros n Hn.
  rewrite !Z.land_spec, !Z.lxor_spec, Z.land_spec, Z.lxor_spec.
  destruct (Z.testbit (byte_Z a) n), (Z.testbit k n), (Z.testbit (Z.ones 8) n); done.
Qed.

Lemma gcm_crypt_length k nonce text : length (gcm_crypt k nonce text) = length text.
Proof. apply length_imap. Qed.
Lemma gcm_crypt_twice k nonce text : gcm_crypt k nonce (gcm_crypt k nonce text) = text.
Proof.
  unfold gcm_crypt at 1. rewrite gcm_crypt_length. unfold gcm_crypt.
  set (ks := key_stream _ _ _). clearbody ks. apply list_eq. intros i.
  rewrite !list_lookup_imap. destruct (text !! i) as [a|] eqn:E; rewrite ?E; [|done].
  simpl. f_equal. apply xor_byte_twice.
Qed.

(** Blocks keep their 16 bytes, so the tag has its full size. *)
Definition sized (n : nat) (ls : list (list Z)) : Prop := Forall (λ l, length l = n) ls.

Lemma xor_bytes_length n k l : length k = n → length l = n → length (xor_bytes k l) = n.
Proof. intros Hk Hl. unfold xor_bytes. rewrite length_zip_with. lia. Qed.

Lemma aes_rounds_length keys s :
  length s = 16%nat → sized 16 keys → length (aes_rounds keys s) = 16%nat.
Proof.
  intros Hs Hk. revert s Hs. induction Hk as [|k keys Hk _ IH]; intros s Hs; [done|].
  destruct keys as [|k' keys].
  - change (length (xor_bytes (ShiftRows (SubByte <$> s)) k) = 16%nat). by apply xor_bytes_length.
  - apply IH, xor_bytes_length; [reflexivity|done].
Qed.

Lemma aes_encrypt_length schedule block :
  schedule ≠ [] → sized 16 schedule → length block = 16%nat →
  length (aes_encrypt schedule block) = 16%nat.
Proof.
  intros Hne Hs Hb. destruct Hs as [|k keys Hk Hs]; [done|]. simpl.
  apply aes_rounds_length; [by apply xor_bytes_length|done].
Qed.

Lemma nth_sized n (ws : list (list Z)) i :
  sized n ws → (i < length ws)%nat → length (nth i ws []) = n.
Proof. intros Hw Hi. by apply (proj1 (List.Forall_forall _ _) Hw), nth_In. Qed.

Lemma next_key_word_length nk i rcon ws :
  sized 4 ws → (0 < nk ≤ length ws)%nat → length (next_key_word nk i rcon ws) = 4%nat.
Proof.
  intros Hw Hn. unfold next_key_word. apply xor_bytes_length; [|apply nth_sized; [done|lia]].
  destruct ws as [|w ws]; [simpl in *; lia|].
  assert (length w = 4%nat) as Hl by (by inversion Hw). simpl head. simpl default.
  assert (length (SubByte <$> w) = 4%nat) as Hs by by rewrite length_fmap.
  repeat case_match; try done.
  apply xor_bytes_length; [|done]. rewrite length_app. simpl in *. lia.
Qed.

Lemma expand_key_length fuel nk i rcon ws :
  sized 4 ws → (0 < nk ≤ length ws)%nat →
  sized 4 (expand_key fuel nk i rcon ws) ∧
  length (expand_key fuel nk i rcon ws) = (length ws + fuel)%nat.
Proof.
  revert i rcon ws. induction fuel as [|fuel IH]; intros i rcon ws Hw Hn; simpl.
  { rewrite length_rev. split; [by apply Forall_rev|lia]. }
  destruct (IH (S i) (if bool_decide ((i mod nk)%nat = 0%nat) then xtime rcon else rcon)
              (next_key_word nk i rcon ws :: ws)) as [H1 H2].
  { constructor; [by apply next_key_word_length|done]. }
  { simpl; lia. }
  split; [done|]. rewrite H2. simpl. lia.
Qed.

Lemma chunks_sized n m l :
  length l = (n * m)%nat → (0 < n)%nat → sized n (chunks n m l) ∧ length (chunks n m l) = m.
Proof.
  intros Hl Hn. revert l Hl. induction m as [|m IH]; intros l Hl; [by split; [constructor|]|].
  destruct (IH (drop n l)) as [H1 H2]; [rewrite length_drop; lia|].
  destruct l as [|a l]; [simpl in *; lia|]. cbn [chunks].
  split; [constructor; [rewrite length_take; lia|done]|]. cbn [length]. by rewrite H2.
Qed.

Lemma concat_sized n ls : sized n ls → length (concat ls) = (n * length ls)%nat.
Proof. induction 1 as [|l ls Hl _ IH]; simpl; [lia|]. rewrite length_app. lia. Qed.

Lemma key_schedule_sized key n :
  length key = (4 * n)%nat → (0 < n)%nat → sized 16 (key_schedule key) ∧ key_schedule key ≠ [].
Proof.
  intros Hk Hn. unfold key_schedule. rewrite Hk, (Nat.mul_comm 4), Nat.div_mul by lia.
  destruct (chunks_sized 4 n key) as [H1 H2]; [lia|lia|].
  destruct (expand_key_length (4 * (n + 7) - n) n n 1 (rev (chunks 4 n key))) as [H3 H4].
  { by apply Forall_rev. }
  { rewrite length_rev. lia. }
  rewrite length_rev, H2 in H4.
  destruct (chunks_sized 16 (n + 7)
    (concat (expand_key (4 * (n + 7) - n) n n 1 (rev (chunks 4 n key))))) as [H5 H6]; [|lia|].
  { rewrite (concat_sized 4) by done. rewrite H4. lia. }
  split; [done|]. intros E. rewrite E in H6. simpl in H6. lia.
Qed.

Lemma aes_NewCipher_sized key schedule :
  aes_NewCipher key = Some schedule → sized 16 schedule ∧ schedule ≠ [].
Proof.
  unfold aes_NewCipher. case_bool_decide as H; intros [= <-].
  assert (str_len key = 16 ∨ str_len key = 24 ∨ str_len key = 32)%nat as Hl by set_solver.
  apply (key_schedule_sized _ (str_len key / 4)).
  - unfold string_Z. rewrite length_fmap, bytes_of_length. by destruct Hl as [->|[->| ->]].
  - destruct Hl as [->|[->| ->]]; cbn; lia.
Qed.

Lemma gcm_tag_length schedule nonce c :
  sized 16 schedule → schedule ≠ [] → length nonce = gcm_NonceSize →
  length (gcm_tag schedule nonce c) = gcm_TagSize.
Proof.
  intros Hs Hne Hn. unfold gcm_tag. rewrite length_fmap.
  apply xor_bytes_length; [apply be_bytes_length|apply aes_encrypt_length; [done|done|]].
  unfold counter_block. by rewrite length_app, length_fmap, Hn, be_bytes_length.
Qed.

(** [Open] undoes [Seal] under the same key and nonce. *)
Lemma gcm_Open_Seal key schedule nonce plaintext sealed :
  aes_NewCipher key = Some schedule → str_len nonce = gcm_NonceSize →
  gcm_Seal schedule nonce plaintext = Some sealed →
  gcm_Open schedule nonce sealed = Some plaintext.
Proof.
  intros [Hs Hne]%aes_NewCipher_sized Hn. unfold gcm_Seal. case_bool_decide as Hmax; [done|].
  intros [= <-]. unfold gcm_Open. rewrite bytes_of_of.
  set (c := gcm_crypt schedule (bytes_of nonce) (bytes_of plaintext)).
  assert (length (gcm_tag schedule (bytes_of nonce) c) = gcm_TagSize) as Ht.
  { apply gcm_tag_length; [done..|by rewrite bytes_of_length]. }
  assert (length c = str_len plaintext) as Hc by (unfold c; by rewrite gcm_crypt_length, bytes_of_length).
  rewrite length_app, Ht, bool_decide_false, bool_decide_false by lia. simpl orb.
  replace (length c + gcm_TagSize - gcm_TagSize)%nat with (length c) by lia.
  rewrite take_app_length, drop_app_length, bool_decide_true by done.
  unfold c. rewrite gcm_crypt_twice. by rewrite of_bytes_of.
Qed.
