(* ===== verification/GoTime.v ===== *)
(** * Calendar dates and RFC 3339 times (package time)

    An instant is its number of nanoseconds since the Unix epoch, in UTC.  The
    text of [Time.MarshalJSON] and the reader of [Time.UnmarshalJSON]. *)
From stdpp Require Import base list strings numbers.
From Stdlib Require Import ZArith Lia Ascii.
From S2P Require Import Prelude Bytes GoText GoJson.

Local Open Scope Z_scope.

(** ** Dates *)
Definition is_leap (y : Z) : bool :=
  bool_decide (y mod 4 = 0) && (negb (bool_decide (y mod 100 = 0)) || bool_decide (y mod 400 = 0)).
Definition month_lengths (leap : bool) : list Z :=
  [31; if leap then 29 else 28; 31; 30; 31; 30; 31; 31; 30; 31; 30; 31].
Definition daysIn (leap : bool) (m : Z) : Z := nth (Z.to_nat (m - 1)) (month_lengths leap) 0.
Definition month_start (leap : bool) (m : Z) : Z :=
  foldr Z.add 0 (take (Z.to_nat (m - 1)) (month_lengths leap)).

(** Days are counted from January 1st of year 1. *)
Definition days_before_year (y : Z) : Z :=
  let n := y - 1 in 365 * n + n / 4 - n / 100 + n / 400.
Definition day_number (y m d : Z) : Z := days_before_year y + month_start (is_leap y) m + (d - 1).

(** The year of a day and the day in it, by cycles of 400, 100, 4 and 1 years. *)
Definition year_of (day : Z) : Z * Z :=
  let a := day / 146097 in
  let r := day mod 146097 in
  let b := Z.min 3 (r / 36524) in
  let r := r - 36524 * b in
  let c := r / 1461 in
  let r := r mod 1461 in
  let e := Z.min 3 (r / 365) in
  (1 + 400 * a + 100 * b + 4 * c + e, r - 365 * e).
Fixpoint month_of (lengths : list Z) (m yday : Z) : Z * Z :=
  match lengths with
  | [] => (m, yday + 1)
  | n :: lengths' => if bool_decide (yday < n) then (m, yday + 1) else month_of lengths' (m + 1) (yday - n)
  end.
Definition civil (day : Z) : Z * (Z * Z) :=
  let p := year_of day in (p.1, month_of (month_lengths (is_leap p.1)) 1 p.2).

Definition unix_day : Z := 719162.
Definition day_seconds : Z := 86400.

(** ** Printing *)
Fixpoint dec_digits (n : nat) (z : Z) : list Z :=
  match n with
  | O => []
  | S n' => dec_digits n' (z / 10) ++ [48 + z mod 10]
  end.
Fixpoint strip_zeros (l : list Z) : list Z :=
  match l with
  | [] => []
  | c :: l' =>
      match strip_zeros l' with
      | [] => if bool_decide (c = 48) then [] else [c]
      | r => c :: r
      end
  end.
Definition fraction_text (nsec : Z) : list Z :=
  if bool_decide (nsec = 0) then [] else 46 :: strip_zeros (dec_digits 9 nsec).
Definition clock_text (sod : Z) : list Z :=
  dec_digits 2 (sod / 3600) ++ 58 :: dec_digits 2 (sod / 60 mod 60) ++ 58 :: dec_digits 2 (sod mod 60).
Definition date_text (y m d : Z) : list Z :=
  dec_digits 4 y ++ 45 :: dec_digits 2 m ++ 45 :: dec_digits 2 d.

(** The text between the quotes; a year outside [0, 9999] is an error. *)
Definition MarshalTime (t : Z) : option (list Z) :=
  let secs := t / 10 ^ 9 in
  let '(y, (m, d)) := civil (secs / day_seconds + unix_day) in
  if bool_decide (0 ≤ y ≤ 9999)
  then Some (date_text y m d ++ 84 :: clock_text (secs mod day_seconds) ++ fraction_text (t mod 10 ^ 9) ++ [90])
  else None.

(** ** Reading

    [time.Parse(time.RFC3339, text)]: the hour may have one digit, the fraction
    may follow a comma and is cut after nine digits, an offset goes up to
    24:60. *)
Definition digit_at (l : list Z) : option (Z * list Z) :=
  match l with
  | c :: l' => if is_dec c then Some (c - 48, l') else None
  | [] => None
  end.
Fixpoint digits (n : nat) (acc : Z) (l : list Z) : option (Z * list Z) :=
  match n with
  | O => Some (acc, l)
  | S n' => p ← digit_at l; digits n' (acc * 10 + p.1) p.2
  end.
Definition expect (c : Z) (l : list Z) : option (list Z) :=
  match l with
  | c' :: l' => if bool_decide (c' = c) then Some l' else None
  | [] => None
  end.
(** [getnum(value, false)] *)
Definition one_or_two (l : list Z) : option (Z * list Z) :=
  p ← digit_at l;
  match digit_at p.2 with
  | Some q => Some (p.1 * 10 + q.1, q.2)
  | None => Some p
  end.
Definition within (lo hi z : Z) : option unit := if bool_decide (lo ≤ z ≤ hi) then Some tt else None.

Definition parse_fraction (l : list Z) : Z * list Z :=
  match l with
  | c :: l' =>
      if bool_decide (c = 46) || bool_decide (c = 44) then
        match span_digits l' with
        | ([], _) => (0, l)
        | (ds, rest) =>
            let kept := take 9 ds in
            (dec_value kept 0 * 10 ^ (9 - Z.of_nat (length kept)), rest)
        end
      else (0, l)
  | [] => (0, l)
  end.
Definition parse_offset (l : list Z) : option (Z * list Z) :=
  match l with
  | [] => None
  | sign :: l' =>
      if bool_decide (sign = 90) then Some (0, l')
      else
        h ← digits 2 0 l';
        l' ← expect 58 h.2;
        mi ← digits 2 0 l';
        _ ← within 0 24 h.1; _ ← within 0 60 mi.1;
        let offset := (h.1 * 60 + mi.1) * 60 in
        if bool_decide (sign = 43) then Some (offset, mi.2)
        else if bool_decide (sign = 45) then Some (- offset, mi.2)
        else None
  end.
Definition parse_date (l : list Z) : option ((Z * (Z * Z)) * list Z) :=
  y ← digits 4 0 l; l ← expect 45 y.2;
  m ← digits 2 0 l; _ ← within 1 12 m.1; l ← expect 45 m.2;
  d ← digits 2 0 l;
  Some ((y.1, (m.1, d.1)), d.2).
Definition parse_clock (l : list Z) : option (Z * list Z) :=
  h ← one_or_two l; _ ← within 0 23 h.1; l ← expect 58 h.2;
  mi ← digits 2 0 l; _ ← within 0 59 mi.1; l ← expect 58 mi.2;
  s ← digits 2 0 l; _ ← within 0 59 s.1;
  Some (h.1 * 3600 + mi.1 * 60 + s.1, s.2).
Definition UnmarshalTime (l : list Z) : option Z :=
  p ← parse_date l;
  let '((y, (m, d)), l) := p in
  l ← expect 84 l;
  c ← parse_clock l;
  let f := parse_fraction c.2 in
  z ← parse_offset f.2;
  _ ← within 1 (daysIn (is_leap y) m) d;
  match z.2 with
  | [] => Some (((day_number y m d - unix_day) * day_seconds + c.1 - z.1) * 10 ^ 9 + f.1)
  | _ => None
  end.

(** A field of type [time.Time]: the reader sees the text between the quotes
    without unescaping it. *)
Definition to_time (v : json) (old : Z) : option Z :=
  match v with
  | JNull => Some old
  | JString raw _ => UnmarshalTime raw
  | _ => None
  end.

(** ** Dates round-trip *)
Lemma year_of_spec day y yday :
  year_of day = (y, yday) →
  days_before_year y + yday = day ∧ 0 ≤ yday < 365 + (if is_leap y then 1 else 0).
Proof.
  unfold year_of. intros [= <- <-].
  set (a := day / 146097). set (r := day mod 146097).
  assert (day = 146097 * a + r ∧ 0 ≤ r < 146097) as [Hd Hr] by (unfold a, r; Z.div_mod_to_equations; lia).
  clearbody a r. set (b := Z.min 3 (r / 36524)).
  assert (0 ≤ b ≤ 3 ∧ 0 ≤ r - 36524 * b ∧ (r - 36524 * b < 36524 ∨ b = 3 ∧ r - 36524 * b ≤ 36524))
    as (Hb & Hr0 & Hr1) by (unfold b; Z.div_mod_to_equations; lia).
  set (r1 := r - 36524 * b) in *. clearbody b.
  set (c := r1 / 1461). set (r2 := r1 mod 1461).
  assert (r1 = 1461 * c + r2 ∧ 0 ≤ r2 < 1461 ∧ 0 ≤ c ≤ 24) as (H1 & H2 & Hc)
    by (unfold c, r2; Z.div_mod_to_equations; lia).
  clearbody c r2. set (e := Z.min 3 (r2 / 365)).
  assert (0 ≤ e ≤ 3 ∧ 0 ≤ r2 - 365 * e ∧ (r2 - 365 * e < 365 ∨ e = 3 ∧ r2 - 365 * e ≤ 365))
    as (He & H3 & H4) by (unfold e; Z.div_mod_to_equations; lia).
  clearbody e. set (y := 1 + 400 * a + 100 * b + 4 * c + e).
  split.
  - unfold days_before_year. replace (y - 1) with (400 * a + 100 * b + 4 * c + e) by (unfold y; lia).
    assert ((400 * a + 100 * b + 4 * c + e) / 4 = 100 * a + 25 * b + c) as -> by (Z.div_mod_to_equations; lia).
    assert ((400 * a + 100 * b + 4 * c + e) / 100 = 4 * a + b) as -> by (Z.div_mod_to_equations; lia).
    assert ((400 * a + 100 * b + 4 * c + e) / 400 = a) as -> by (Z.div_mod_to_equations; lia).
    lia.
  - split; [lia|]. destruct (decide (r2 - 365 * e < 365)) as [|Hge]; [destruct (is_leap y); lia|].
    assert (e = 3 ∧ r2 = 1460) as [-> ->] by lia.
    assert (is_leap y = true) as ->; [|lia]. unfold is_leap.
    rewrite bool_decide_true by (unfold y; Z.div_mod_to_equations; lia). simpl.
    destruct (decide (b = 3)) as [->|].
    + destruct (decide (c = 24)) as [->|].
      * rewrite (bool_decide_true (y mod 400 = 0)) by (unfold y; Z.div_mod_to_equations; lia).
        apply orb_true_r.
      * rewrite (bool_decide_false (y mod 100 = 0)); [done|].
        intros E. assert (y mod 100 = 4 * c + 4) by (symmetry; apply (Z.mod_unique_pos _ _ (4 * a + 3)); unfold y; lia). lia.
    + rewrite (bool_decide_false (y mod 100 = 0)); [done|].
      assert (c ≠ 24) by lia. intros E. assert (y mod 100 = 4 * c + 4) by (symmetry; apply (Z.mod_unique_pos _ _ (4 * a + b)); unfold y; lia). lia.
Qed.

Ltac eval_closed f :=
  match goal with |- context [f ?l ?m] =>
    let v := eval vm_compute in (f l m) in change (f l m) with v end.
Lemma month_of_spec (leap : bool) yday m d :
  0 ≤ yday < 365 + (if leap then 1 else 0) →
  month_of (month_lengths leap) 1 yday = (m, d) →
  1 ≤ m ≤ 12 ∧ 1 ≤ d ≤ daysIn leap m ∧ month_start leap m + (d - 1) = yday.
Proof.
  intros Hy. destruct leap; cbn [month_lengths month_of];
    repeat (case_bool_decide; [intros [= <- <-]; eval_closed month_start; eval_closed daysIn; lia|]); lia.
Qed.

Lemma civil_spec day y m d :
  civil day = (y, (m, d)) →
  1 ≤ m ≤ 12 ∧ 1 ≤ d ≤ daysIn (is_leap y) m ∧ day_number y m d = day.
Proof.
  unfold civil. destruct (year_of day) as [y' yday] eqn:Ey. cbn [fst snd]. intros [= <- Em].
  destruct (year_of_spec _ _ _ Ey) as [H1 H2].
  destruct (month_of_spec _ _ _ _ H2 Em) as (Hm & Hd & Hs).
  unfold day_number. repeat split; lia.
Qed.

(** ** Numerals round-trip *)
Lemma dec_digits_length n z : length (dec_digits n z) = n.
Proof. revert z. induction n; intros z; simpl; [done|]. rewrite length_app, IHn. simpl. lia. Qed.
Lemma dec_digits_dec n z : Forall (λ c, is_dec c = true) (dec_digits n z).
Proof.
  revert z. induction n; intros z; simpl; [constructor|].
  apply Forall_app. split; [done|]. constructor; [|constructor].
  unfold is_dec, in_range. apply bool_decide_true. Z.div_mod_to_equations; lia.
Qed.
Lemma dec_digits_value n z : 0 ≤ z < 10 ^ Z.of_nat n → dec_value (dec_digits n z) 0 = z.
Proof.
  revert z. induction n as [|n IH]; intros z Hz; simpl dec_digits.
  { change (10 ^ Z.of_nat 0) with 1 in Hz. unfold dec_value; simpl. lia. }
  unfold dec_value. rewrite foldl_app. fold (dec_value (dec_digits n (z / 10)) 0). rewrite IH.
  - simpl. Z.div_mod_to_equations; lia.
  - rewrite Nat2Z.inj_succ, Z.pow_succ_r in Hz by lia. Z.div_mod_to_equations; lia.
Qed.

Lemma digits_app n acc l r :
  length l = n → Forall (λ c, is_dec c = true) l → digits n acc (l ++ r) = Some (dec_value l acc, r).
Proof.
  intros Hn Hl. revert n acc Hn. induction Hl as [|c l Hc _ IH]; intros n acc <-; [done|].
  cbn [length digits app digit_at]. rewrite Hc. cbn. by rewrite (IH (length l)).
Qed.
Lemma digits_dec n z r : 0 ≤ z < 10 ^ Z.of_nat n → digits n 0 (dec_digits n z ++ r) = Some (z, r).
Proof.
  intros Hz. rewrite digits_app by (apply dec_digits_length || apply dec_digits_dec).
  by rewrite dec_digits_value.
Qed.
Lemma one_or_two_dec z r : 0 ≤ z < 100 → one_or_two (dec_digits 2 z ++ r) = Some (z, r).
Proof.
  intros Hz. pose proof (digits_dec 2 z r ltac:(lia)) as H.
  pose proof (dec_digits_dec 2 z) as Hd. pose proof (dec_digits_length 2 z) as Hl.
  destruct (dec_digits 2 z) as [|a [|b [|]]]; try done.
  apply Forall_cons_iff in Hd as [Ha [Hb _]%Forall_cons_iff].
  unfold one_or_two. cbn [digits digit_at app] in *. rewrite Ha in *. cbn in *. rewrite Hb in *. cbn in *.
  by simplify_eq.
Qed.
Lemma within_ok lo hi z : lo ≤ z ≤ hi → within lo hi z = Some tt.
Proof. intros H. unfold within. by rewrite bool_decide_true. Qed.
Lemma expect_cons c l : expect c (c :: l) = Some l.
Proof. cbn. by rewrite bool_decide_true. Qed.

(** ** Fractions round-trip *)
Lemma strip_zeros_app l : ∃ n, l = strip_zeros l ++ repeat 48 n.
Proof.
  induction l as [|c l [n IH]]; [by exists 0%nat|]. cbn [strip_zeros].
  destruct (strip_zeros l) as [|c' r] eqn:E.
  - case_bool_decide as Hc; [exists (S n)|exists n]; cbn in *; by rewrite ?Hc, IH at 1.
  - exists n. cbn in *. by rewrite IH at 1.
Qed.
Lemma dec_value_zeros n acc : dec_value (repeat 48 n) acc = acc * 10 ^ Z.of_nat n.
Proof.
  revert acc. induction n as [|n IH]; intros acc; [simpl; unfold dec_value; simpl; lia|].
  unfold dec_value in *. cbn [repeat foldl]. rewrite IH.
  rewrite Nat2Z.inj_succ, Z.pow_succ_r by lia. lia.
Qed.
Lemma dec_value_app l k acc : dec_value (l ++ k) acc = dec_value k (dec_value l acc).
Proof. unfold dec_value. apply foldl_app. Qed.

Lemma span_digits_all l r :
  Forall (λ c, is_dec c = true) l → starts_digit r = false → span_digits (l ++ r) = (l, r).
Proof.
  induction 1 as [|c l Hc _ IH]; intros Hr; cbn [app].
  - destruct r as [|c r]; [done|]. cbn in *. by rewrite Hr.
  - cbn [span_digits]. rewrite Hc. by rewrite IH.
Qed.

Lemma parse_fraction_text nsec r :
  0 ≤ nsec < 10 ^ 9 → parse_fraction (fraction_text nsec ++ 90 :: r) = (nsec, 90 :: r).
Proof.
  intros Hn. unfold fraction_text. case_bool_decide as H0; [by subst|].
  destruct (strip_zeros_app (dec_digits 9 nsec)) as [n E].
  pose proof (dec_digits_dec 9 nsec) as Hd. pose proof (dec_digits_length 9 nsec) as Hl.
  pose proof (dec_digits_value 9 nsec ltac:(lia)) as Hv.
  rewrite E in Hd, Hl, Hv. revert Hd Hl Hv. generalize (strip_zeros (dec_digits 9 nsec)) as ds.
  clear E. intros ds Hd Hl Hv. apply Forall_app in Hd as [Hd _].
  rewrite length_app, repeat_length in Hl. rewrite dec_value_app, dec_value_zeros in Hv.
  cbn [app parse_fraction]. rewrite bool_decide_true by done. cbn [orb].
  rewrite span_digits_all by done.
  destruct ds as [|c ds]; [unfold dec_value in Hv; simpl in Hv; lia|].
  rewrite take_ge by lia. f_equal. rewrite <- Hv. f_equal. f_equal. lia.
Qed.

(** ** Times round-trip *)
Lemma daysIn_le leap m : daysIn leap m ≤ 31.
Proof.
  unfold daysIn, month_lengths. destruct (Z.to_nat (m - 1)) as [|[|[|[|[|[|[|[|[|[|[|[|k]]]]]]]]]]]];
    cbn; destruct leap; try lia; destruct k; lia.
Qed.

Lemma parse_clock_text sod r :
  0 ≤ sod < 86400 → parse_clock (clock_text sod ++ r) = Some (sod, r).
Proof.
  intros Hs. unfold clock_text, parse_clock. rewrite <- app_assoc. cbn [app].
  rewrite one_or_two_dec by (Z.div_mod_to_equations; lia). cbn [mbind option_bind fst snd].
  rewrite within_ok by (Z.div_mod_to_equations; lia). cbn [mbind option_bind].
  rewrite expect_cons. cbn [mbind option_bind]. rewrite <- app_assoc. cbn [app].
  rewrite digits_dec by (cbn; Z.div_mod_to_equations; lia). cbn [mbind option_bind fst snd].
  rewrite within_ok by (Z.div_mod_to_equations; lia). cbn [mbind option_bind].
  rewrite expect_cons. cbn [mbind option_bind].
  rewrite digits_dec by (cbn; Z.div_mod_to_equations; lia). cbn [mbind option_bind fst snd].
  rewrite within_ok by (Z.div_mod_to_equations; lia). cbn [mbind option_bind].
  do 2 f_equal. Z.div_mod_to_equations; lia.
Qed.

Lemma UnmarshalTime_MarshalTime t text : MarshalTime t = Some text → UnmarshalTime text = Some t.
Proof.
  unfold MarshalTime. set (secs := t / 10 ^ 9).
  assert (t = secs * 10 ^ 9 + t mod 10 ^ 9 ∧ 0 ≤ t mod 10 ^ 9 < 10 ^ 9) as [Ht Hn]
    by (unfold secs; change (10 ^ 9) with 1000000000; Z.div_mod_to_equations; lia).
  set (nsec := t mod 10 ^ 9) in *. clearbody nsec secs.
  set (sod := secs mod day_seconds).
  assert (secs = secs / day_seconds * day_seconds + sod ∧ 0 ≤ sod < day_seconds) as [Hs Hsod]
    by (unfold sod, day_seconds; Z.div_mod_to_equations; lia).
  set (day := secs / day_seconds) in *. clearbody day sod.
  destruct (civil (day + unix_day)) as [y [m d]] eqn:Ec.
  destruct (civil_spec _ _ _ _ Ec) as (Hm & Hd & Hday). case_bool_decide as Hy; [|done].
  intros E. apply (inj Some) in E as <-. unfold day_seconds in *.
  pose proof (daysIn_le (is_leap y) m) as Hmax.
  unfold UnmarshalTime, parse_date, date_text. rewrite <- !app_assoc.
  rewrite digits_dec by (cbn; lia). cbn [mbind option_bind fst snd app]. rewrite expect_cons.
  cbn [mbind option_bind]. rewrite <- ?app_assoc, digits_dec by (cbn; lia). cbn [mbind option_bind fst snd app].
  rewrite within_ok by lia. cbn [mbind option_bind]. rewrite expect_cons.
  cbn [mbind option_bind]. rewrite <- ?app_assoc. cbn [app]. rewrite <- ?app_assoc. rewrite digits_dec by (cbn; lia). cbn [mbind option_bind fst snd].
  rewrite expect_cons. cbn [mbind option_bind].
  rewrite parse_clock_text by done. cbn [mbind option_bind fst snd].
  rewrite parse_fraction_text by done. cbn [fst snd parse_offset]. rewrite bool_decide_true by done.
  cbn [mbind option_bind]. rewrite within_ok by done. cbn [mbind option_bind fst snd].
  f_equal. rewrite Hday. unfold day_seconds. lia.
Qed.

(** The text of a time is made of plain bytes. *)
Lemma dec_plain l : Forall (λ c, is_dec c = true) l → forallb plain_byte l = true.
Proof.
  intros Hl. apply forallb_forall. intros c Hc.
  apply (proj1 (List.Forall_forall _ _) Hl), bool_decide_eq_true in Hc.
  unfold plain_byte, in_range. rewrite bool_decide_true, !bool_decide_false by lia. done.
Qed.
Lemma strip_zeros_dec l : Forall (λ c, is_dec c = true) l → Forall (λ c, is_dec c = true) (strip_zeros l).
Proof. intros Hl. destruct (strip_zeros_app l) as [n E]. rewrite E in Hl. by apply Forall_app in Hl as [? _]. Qed.

Lemma MarshalTime_plain t text : MarshalTime t = Some text → forallb plain_byte text = true.
Proof.
  unfold MarshalTime. destruct (civil _) as [y [m d]]. case_bool_decide; [|done].
  intros E. apply (inj Some) in E as <-. unfold date_text, clock_text, fraction_text.
  rewrite !forallb_app. cbn [forallb]. rewrite !forallb_app. cbn [forallb]. rewrite !forallb_app. cbn [forallb].
  rewrite !dec_plain by apply dec_digits_dec. case_bool_decide; [done|].
  cbn [forallb]. by rewrite dec_plain by apply strip_zeros_dec, dec_digits_dec.
Qed.
Lemma MarshalTime_Some t :
  0 ≤ (civil (t / 10 ^ 9 / day_seconds + unix_day)).1 ≤ 9999 → is_Some (MarshalTime t).
Proof. unfold MarshalTime. destruct (civil _) as [y [m d]]. cbn [fst]. intros H. by rewrite bool_decide_true. Qed.

Lemma MarshalTime_example :
  Z_string <$> MarshalTime 1735787045120000000 = Some "2025-01-02T03:04:05.12Z".
Proof. vm_compute. reflexivity. Qed.
