(* ===== verification/GoEncoding.v ===== *)
(** * Byte slices in JSON and base32
    (encoding/base64 StdEncoding, encoding/base32, encoding/json)

    A byte slice is [None] when nil: [json.Marshal] renders it [null]. *)
From stdpp Require Import base list strings numbers.
From Stdlib Require Import ZArith Lia Ascii.
From S2P Require Import Prelude Bytes GoText GoJson GoCrypto.

(** ** StdEncoding, with padding *)
Definition std_digit (n : Z) : Z :=
  if bool_decide (n = 62)%Z then 43%Z else if bool_decide (n = 63)%Z then 47%Z
  else byte_Z (base64_digit n).
Definition std_value (c : Z) : option Z :=
  if bool_decide (c = 43)%Z then Some 62%Z else if bool_decide (c = 47)%Z then Some 63%Z
  else if bool_decide (c = 45)%Z || bool_decide (c = 95)%Z then None
  else base64_value (Z_byte c).

Fixpoint std_pad (digits : list Z) : list Z :=
  match digits with
  | a :: b :: c :: d :: l => std_digit a :: std_digit b :: std_digit c :: std_digit d :: std_pad l
  | [] => []
  | l => (std_digit <$> l) ++ repeat 61%Z (4 - length l)
  end.
Definition base64_Std_encode (l : list Z) : list Z := std_pad (base64_encode_bytes l).

(** [Decode] skips carriage returns and newlines; the padding ends the text. *)
Fixpoint std_unpad (l : list Z) : option (list Z) :=
  match l with
  | [] => Some []
  | [a; b; c; d] =>
      if bool_decide (d = 61)%Z then
        if bool_decide (c = 61)%Z then mapM std_value [a; b] else mapM std_value [a; b; c]
      else mapM std_value [a; b; c; d]
  | a :: b :: c :: d :: l' =>
      q ← mapM std_value [a; b; c; d]; r ← std_unpad l'; Some (q ++ r)
  | _ => None
  end.
Definition base64_Std_decode (l : list Z) : option (list Z) :=
  d ← std_unpad (base.filter (λ c, c ≠ 10%Z ∧ c ≠ 13%Z) l); base64_decode_digits d.

Lemma std_value_digit n :
  (0 ≤ n < 64)%Z →
  std_value (std_digit n) = Some n ∧ std_digit n ≠ 61%Z ∧ std_digit n ≠ 10%Z ∧ std_digit n ≠ 13%Z ∧
  plain_byte (std_digit n) = true.
Proof.
  intros Hn. rewrite <- (Z2Nat.id n) by lia.
  assert (Z.to_nat n < 64) as Hm by lia. revert Hm. generalize (Z.to_nat n) as m. clear.
  intros m Hm. do 64 (destruct m as [|m]; [by vm_compute|]). lia.
Qed.

Definition base64_text (l : list Z) : Prop :=
  Forall (λ c, c ≠ 10 ∧ c ≠ 13 ∧ plain_byte c = true)%Z l.

Lemma mapM_std l : Forall (λ z, 0 ≤ z < 64)%Z l → mapM std_value (std_digit <$> l) = Some l.
Proof.
  induction 1 as [|z l Hz _ IH]; [done|]. rewrite fmap_cons. cbn [mapM].
  destruct (std_value_digit z Hz) as [-> _]. cbn [mbind option_bind]. by rewrite IH.
Qed.
Lemma base64_text_std l :
  Forall (λ z, 0 ≤ z < 64)%Z l → base64_text (std_digit <$> l).
Proof.
  intros Hl. apply Forall_fmap. eapply List.Forall_impl; [|exact Hl]. intros z Hz.
  by destruct (std_value_digit z Hz) as (_ & _ & ? & ? & ?).
Qed.
Lemma base64_text_app k l : base64_text k → base64_text l → base64_text (k ++ l).
Proof. intros. by apply Forall_app. Qed.

Lemma std_unpad_quad a b c d t ds :
  Forall (λ z, 0 ≤ z < 64)%Z [a; b; c; d] → std_unpad t = Some ds →
  std_unpad ((std_digit <$> [a; b; c; d]) ++ t) = Some ([a; b; c; d] ++ ds).
Proof.
  intros Hq Ht. pose proof (mapM_std _ Hq) as Hm. rewrite !fmap_cons, fmap_nil in *.
  assert (std_digit d ≠ 61%Z) as Hd.
  { rewrite !Forall_cons_iff in Hq. destruct_and!. by destruct (std_value_digit d) as (_ & ? & _). }
  cbn [app]. destruct t as [|e t].
  - cbn in Ht. injection Ht as <-. cbn [std_unpad]. by rewrite bool_decide_false, Hm.
  - change (std_unpad (std_digit a :: std_digit b :: std_digit c :: std_digit d :: e :: t))
      with (q ← mapM std_value [std_digit a; std_digit b; std_digit c; std_digit d];
            r ← std_unpad (e :: t); Some (q ++ r)).
    by rewrite Hm, Ht.
Qed.

Lemma std_unpad_pad digits :
  Forall (λ z, 0 ≤ z < 64)%Z digits → (length digits mod 4 ≠ 1) →
  std_unpad (std_pad digits) = Some digits ∧ base64_text (std_pad digits).
Proof.
  remember (length digits) as n eqn:En. revert digits En.
  induction (lt_wf n) as [n _ IH]. intros digits -> Hd Hn.
  assert (base64_text [61; 61]%Z) as Hp by (repeat constructor; done).
  assert (base64_text [61]%Z) as Hp1 by (repeat constructor; done).
  destruct digits as [|a [|b [|c [|d l]]]]; [by split; [|constructor]|by cbn in Hn|..].
  - split; [|by apply (base64_text_app (std_digit <$> [a; b])); [apply base64_text_std|]].
    change (std_unpad [std_digit a; std_digit b; 61; 61]%Z = Some [a; b]). cbn [std_unpad].
    rewrite !bool_decide_true by done. by apply (mapM_std [a; b]).
  - split; [|by apply (base64_text_app (std_digit <$> [a; b; c])); [apply base64_text_std|]].
    change (std_unpad [std_digit a; std_digit b; std_digit c; 61]%Z = Some [a; b; c]). cbn [std_unpad].
    rewrite bool_decide_true, bool_decide_false; [by apply (mapM_std [a; b; c])| |done].
    rewrite !Forall_cons_iff in Hd. destruct_and!. by destruct (std_value_digit c) as (_ & ? & _).
  - apply (Forall_app _ [a; b; c; d]) in Hd as [Hq Hl].
    destruct (IH (length l) ltac:(cbn; lia) l eq_refl Hl) as [H1 H2].
    { intros E. apply Hn. change (length (a :: b :: c :: d :: l)) with (4 + length l).
      by rewrite Nat.Div0.add_mod, E. }
    split; [by apply (std_unpad_quad a b c d (std_pad l))|].
    change (base64_text ((std_digit <$> [a; b; c; d]) ++ std_pad l)).
    apply base64_text_app; [by apply base64_text_std|done].
Qed.

Lemma base64_encode_length_mod l : length (base64_encode_bytes l) mod 4 ≠ 1.
Proof.
  remember (length l) as n eqn:En. revert l En. induction (lt_wf n) as [n _ IH]. intros l ->.
  destruct l as [|a [|b [|c l]]]; [done..|].
  change (length (base64_encode_bytes (a :: b :: c :: l)))
    with (4 + length (base64_encode_bytes l)).
  rewrite Nat.Div0.add_mod, Nat.Div0.mod_same, Nat.add_0_l, Nat.Div0.mod_mod.
  apply (IH (length l)); [cbn; lia|done].
Qed.

(** Slices round-trip through the padded alphabet. *)
Lemma base64_Std_decode_encode l :
  Forall (λ z, 0 ≤ z < 256)%Z l →
  base64_Std_decode (base64_Std_encode l) = Some l ∧ forallb plain_byte (base64_Std_encode l) = true.
Proof.
  intros Hl. pose proof (base64_encode_range l Hl) as Hr.
  destruct (std_unpad_pad _ Hr (base64_encode_length_mod l)) as [Hu Ht].
  unfold base64_Std_decode, base64_Std_encode. split.
  - rewrite list_filter_Forall; [rewrite Hu; by apply base64_decode_encode_bytes|].
    eapply List.Forall_impl; [|exact Ht]. by intros ? (? & ? & _).
  - apply forallb_forall. intros c Hc. by apply (proj1 (List.Forall_forall _ _) Ht) in Hc as (_ & _ & ?).
Qed.

(** ** Byte slices as JSON *)
Definition slice_json (b : option string) : list Z :=
  match b with
  | None => string_Z "null"
  | Some s => 34%Z :: base64_Std_encode (string_Z s) ++ [34%Z]
  end.
(** An element of an array of bytes; [null] leaves the byte as it was. *)
Definition to_uint8 (v : json) (old : Z) : option Z :=
  match v with
  | JNull => Some old
  | JNumber l =>
      if bool_decide (l = []) || negb (forallb is_dec l) then None
      else if bool_decide (dec_value l 0 ≤ 255)%Z then Some (dec_value l 0) else None
  | _ => None
  end.
Definition to_slice (v : json) (old : option string) : option (option string) :=
  match v with
  | JNull => Some None
  | JString _ s => r ← base64_Std_decode s; Some (Some (Z_string r))
  | JArray l =>
      let before := string_Z (default EmptyString old) in
      r ← mapM (λ p, to_uint8 p.2 (nth p.1 before 0%Z)) (zip (seq 0 (length l)) l);
      Some (Some (Z_string r))
  | _ => None
  end.

(** ** base32, StdEncoding without padding *)
Definition base32_alphabet : list ascii := Eval vm_compute in bytes_of "ABCDEFGHIJKLMNOPQRSTUVWXYZ234567".
Fixpoint base32_digits (n : nat) (v : Z) : list ascii :=
  match n with
  | O => []
  | S n' => base32_digits n' (v / 32)%Z ++ [nth (Z.to_nat (v mod 32)) base32_alphabet "A"%char]
  end.
Definition base32_EncodeToString (s : string) : string :=
  let bits := 8 * str_len s in
  let n := (bits + 4) / 5 in
  of_bytes (base32_digits n (be_value (string_Z s) * 2 ^ Z.of_nat (5 * n - bits))%Z).

Lemma base32_rfc4648 :
  base32_EncodeToString "foobar" = "MZXW6YTBOI" ∧ base32_EncodeToString "fooba" = "MZXW6YTB" ∧
  base32_EncodeToString "f" = "MY".
Proof. by vm_compute. Qed.
