(* ===== verification/GoUrl.v ===== *)
(** * net/url, path and strings.Fields

    What the sources use of [url.Parse] and of the parsed URL, of
    [url.PathUnescape], [path.Clean], [strings.Fields] and [IP.IsLoopback], as
    of Go 1.26: hosts in brackets are IPv6 addresses, and colons in the host of
    an HTTP URL are refused. *)
From stdpp Require Import base gmap list strings numbers.
From Stdlib Require Import ZArith Lia Ascii.
From S2P Require Import Prelude Bytes GoText GoNet.

(** ** Escapes *)
Inductive encoding :=
| encodePath | encodePathSegment | encodeHost | encodeZone | encodeUserPassword | encodeFragment.
#[export] Instance encoding_eq_dec : EqDecision encoding.
Proof. solve_decision. Defined.

Definition is_alphanumeric (a : ascii) : bool :=
  let b := byte_Z a in in_range 97 122 b || in_range 65 90 b || in_range 48 57 b.
Definition one_of (s : string) (a : ascii) : bool := contains_byte a s.
Definition double_quote : ascii := "034"%char.

(** [shouldEscape] *)
Definition shouldEscape (c : ascii) (mode : encoding) : bool :=
  let host := bool_decide (mode = encodeHost) || bool_decide (mode = encodeZone) in
  if is_alphanumeric c then false
  else if host && (one_of "!$&'()*+,;=:[]<>" c || bool_decide (c = double_quote)) then false
  else if one_of "-_.~" c then false
  else if one_of "$&+,/:;=?@" c then
    match mode with
    | encodePath => bool_decide (c = "?"%char)
    | encodePathSegment => one_of "/;,?" c
    | encodeUserPassword => one_of "@/?:" c
    | encodeFragment => false
    | encodeHost | encodeZone => true
    end
  else negb (bool_decide (mode = encodeFragment) && one_of "!()*" c).

(** [unescape] *)
Fixpoint unescape (mode : encoding) (s : string) : option string :=
  match s with
  | EmptyString => Some EmptyString
  | String c s' =>
      if bool_decide (c = "%"%char) then
        match s' with
        | String h (String l r) =>
            match hex_value h, hex_value l with
            | Some hi, Some lo =>
                let v := ascii_of_nat (16 * hi + lo) in
                let percent := bool_decide (v = "%"%char) in
                if (bool_decide (mode = encodeHost) && bool_decide (hi < 8) && negb percent) ||
                   (bool_decide (mode = encodeZone) && negb percent && negb (bool_decide (v = " "%char)) &&
                    shouldEscape v encodeHost)
                then None
                else String v <$> unescape mode r
            | _, _ => None
            end
        | _ => None
        end
      else if (bool_decide (mode = encodeHost) || bool_decide (mode = encodeZone)) &&
              bool_decide (byte_Z c < 0x80)%Z && shouldEscape c mode
      then None
      else String c <$> unescape mode s'
  end.

Definition hex_upper (n : nat) : ascii := nth n (bytes_of "0123456789ABCDEF") "0"%char.
Fixpoint escape (mode : encoding) (s : string) : string :=
  match s with
  | EmptyString => EmptyString
  | String c s' =>
      if shouldEscape c mode
      then String "%" (String (hex_upper (nat_of_ascii c / 16)) (String (hex_upper (nat_of_ascii c mod 16))
             (escape mode s')))
      else String c (escape mode s')
  end.

(** [url.PathUnescape] *)
Definition PathUnescape : string → option string := unescape encodePathSegment.

(** ** URLs *)

(** [type URL struct]; of the user information only its presence is kept. *)
Record URL := mkURL {
  URL_Scheme : string;
  URL_Opaque : string;
  URL_User : bool;
  URL_Host : string;
  URL_Path : string;
  URL_RawPath : string;
  URL_ForceQuery : bool;
  URL_RawQuery : string;
  URL_Fragment : string }.

(** The parts before and after the last occurrence of a byte. *)
Fixpoint cut_last (sep : ascii) (s : string) : option (string * string) :=
  match s with
  | EmptyString => None
  | String a s' =>
      match cut_last sep s' with
      | Some (l, r) => Some (String a l, r)
      | None => if bool_decide (a = sep) then Some (EmptyString, s') else None
      end
  end.
(** The part before the first [%25], and the rest from there. *)
Fixpoint cut_zone (s : string) : option (string * string) :=
  match s with
  | EmptyString => None
  | String a s' =>
      if bool_decide (str_take 3 s = "%25") then Some (EmptyString, s)
      else match cut_zone s' with Some (l, r) => Some (String a l, r) | None => None end
  end.

Definition validOptionalPort (port : string) : bool :=
  match port with
  | EmptyString => true
  | String a digits => bool_decide (a = colon) && forallb is_digit (bytes_of digits)
  end.

(** [netip.ParseAddr] accepts the text as an IPv6 address, with a zone or not. *)
Definition is_ipv6_addr (s : string) : bool :=
  match list_find (λ a, a = dot ∨ a = colon ∨ a = "%"%char) (bytes_of s) with
  | Some (_, a) =>
      bool_decide (a = colon) &&
      match cut_at "%" s with
      | Some (addr, zone) => negb (bool_decide (zone = EmptyString)) && is_ipv6 addr
      | None => is_ipv6 s
      end
  | None => false
  end.

(** [parseHost] *)
Definition parseHost (scheme host : string) : option string :=
  match cut_last "[" host with
  | Some (before, literal) =>
      if negb (bool_decide (before = EmptyString)) then None
      else
        match cut_last "]" literal with
        | None => None
        | Some (hostname, colonPort) =>
            if negb (validOptionalPort colonPort) then None
            else
              unescapedColonPort ← unescape encodeHost colonPort;
              unescapedHostname ← match cut_zone hostname with
                                  | Some (h, z) =>
                                      hostPart ← unescape encodeHost h;
                                      zonePart ← unescape encodeZone z;
                                      Some (hostPart +:+ zonePart)
                                  | None => unescape encodeHost hostname
                                  end;
              if is_ipv6_addr unescapedHostname
              then Some ("[" +:+ unescapedHostname +:+ "]" +:+ unescapedColonPort) else None
        end
  | None =>
      let web := bool_decide (scheme = "http") || bool_decide (scheme = "https") in
      let port := if web then snd <$> cut_at colon host else snd <$> cut_last colon host in
      match port with
      | Some digits => if forallb is_digit (bytes_of digits) then unescape encodeHost host else None
      | None => unescape encodeHost host
      end
  end.

(** [validUserinfo] *)
Definition validUserinfo (s : string) : bool :=
  forallb (λ a, is_alphanumeric a || one_of "-._:~!$&'()*+,;=%@" a) (bytes_of s).

(** [parseAuthority]: whether there is user information, and the host *)
Definition parseAuthority (scheme authority : string) : option (bool * string) :=
  match cut_last "@" authority with
  | None => host ← parseHost scheme authority; Some (false, host)
  | Some (userinfo, rest) =>
      host ← parseHost scheme rest;
      if negb (validUserinfo userinfo) then None
      else
        match cut_at colon userinfo with
        | None => _ ← unescape encodeUserPassword userinfo; Some (true, host)
        | Some (username, password) =>
            _ ← unescape encodeUserPassword username;
            _ ← unescape encodeUserPassword password;
            Some (true, host)
        end
  end.

(** [getScheme]; [first] tells whether nothing was read yet *)
Fixpoint scheme_from (first : bool) (s : string) : option (option (string * string)) :=
  match s with
  | EmptyString => Some None
  | String c s' =>
      let b := byte_Z c in
      if in_range 97 122 b || in_range 65 90 b
      then match scheme_from false s' with
           | Some (Some (scheme, rest)) => Some (Some (String c scheme, rest))
           | other => other
           end
      else if in_range 48 57 b || one_of "+-." c
      then if first then Some None
           else match scheme_from false s' with
                | Some (Some (scheme, rest)) => Some (Some (String c scheme, rest))
                | other => other
                end
      else if bool_decide (c = colon) then if first then None else Some (Some (EmptyString, s'))
      else Some None
  end.
Definition getScheme (s : string) : option (string * string) :=
  match scheme_from true s with
  | None => None
  | Some (Some (scheme, rest)) => Some (scheme, rest)
  | Some None => Some (EmptyString, s)
  end.

Definition has_prefix (prefix s : string) : bool := bool_decide (str_take (str_len prefix) s = prefix).

(** [URL.setPath]: the path and its original spelling when that differs *)
Definition setPath (p : string) : option (string * string) :=
  path ← unescape encodePath p;
  Some (path, if bool_decide (p = escape encodePath path) then EmptyString else p).

Definition is_control (a : ascii) : bool := bool_decide (byte_Z a < 32)%Z || bool_decide (byte_Z a = 127)%Z.

(** The authority and the path of a hierarchical URL. *)
Definition split_authority (rest : string) : string * string :=
  let authority := str_drop 2 rest in
  match cut_at "/" authority with
  | Some (l, r) => (l, String "/" r)
  | None => (authority, EmptyString)
  end.

(** [parse], without the fragment *)
Definition parse_url (rawURL : string) : option URL :=
  if existsb is_control (bytes_of rawURL) then None
  else if bool_decide (rawURL = "*")
  then Some (mkURL EmptyString EmptyString false EmptyString "*" EmptyString false EmptyString EmptyString)
  else
    s ← getScheme rawURL;
    let '(scheme, rest) := s in
    let scheme := str_lower scheme in
    let '(rest, force, query) := match cut_at "?" rest with
                                 | Some (l, EmptyString) => (l, true, EmptyString)
                                 | Some (l, r) => (l, false, r)
                                 | None => (rest, false, EmptyString)
                                 end in
    let no_scheme := bool_decide (scheme = EmptyString) in
    if negb (has_prefix "/" rest) && negb no_scheme
    then Some (mkURL scheme rest false EmptyString EmptyString EmptyString force query EmptyString)
    else if negb (has_prefix "/" rest) &&
            contains_byte colon (match cut_at "/" rest with Some (l, _) => l | None => rest end)
    then None
    else
      let authority := (negb no_scheme || negb (has_prefix "///" rest)) && has_prefix "//" rest in
      let '(raw, rest) := if authority then split_authority rest else (EmptyString, rest) in
      a ← if authority then parseAuthority scheme raw else Some (false, EmptyString);
      p ← setPath rest;
      Some (mkURL scheme EmptyString a.1 a.2 p.1 p.2 force query EmptyString).

(** [url.Parse] *)
Definition url_Parse (rawURL : string) : option URL :=
  let '(u, frag) := match cut_at "#" rawURL with Some (l, r) => (l, r) | None => (rawURL, EmptyString) end in
  url ← parse_url u;
  fragment ← unescape encodeFragment frag;
  Some (mkURL (URL_Scheme url) (URL_Opaque url) (URL_User url) (URL_Host url) (URL_Path url)
          (URL_RawPath url) (URL_ForceQuery url) (URL_RawQuery url) fragment).

(** [validEncoded] *)
Definition validEncoded (mode : encoding) (s : string) : bool :=
  forallb (λ a, one_of "!$&'()*+,;=:@[]%" a || negb (shouldEscape a mode)) (bytes_of s).

(** [URL.EscapedPath] *)
Definition EscapedPath (u : URL) : string :=
  if negb (bool_decide (URL_RawPath u = EmptyString)) && validEncoded encodePath (URL_RawPath u) &&
     bool_decide (unescape encodePath (URL_RawPath u) = Some (URL_Path u))
  then URL_RawPath u
  else if bool_decide (URL_Path u = "*") then "*"
  else escape encodePath (URL_Path u).

(** [URL.String] of a URL with a scheme and a host, without user information
    and fragment *)
Definition URL_String (u : URL) : string :=
  let path := EscapedPath u in
  URL_Scheme u +:+ "://" +:+ escape encodeHost (URL_Host u) +:+
  (if negb (bool_decide (path = EmptyString)) && negb (has_prefix "/" path) then "/" else EmptyString) +:+
  path +:+
  (if URL_ForceQuery u || negb (bool_decide (URL_RawQuery u = EmptyString))
   then "?" +:+ URL_RawQuery u else EmptyString).

(** [URL.Hostname] *)
Definition Hostname (u : URL) : string :=
  let hostPort := URL_Host u in
  let host := match cut_last colon hostPort with
              | Some (l, digits) => if forallb is_digit (bytes_of digits) then l else hostPort
              | None => hostPort
              end in
  match host with
  | String a r =>
      match cut_last "]" r with
      | Some (inner, EmptyString) => if bool_decide (a = "["%char) then inner else host
      | _ => host
      end
  | EmptyString => host
  end.

(** ** Loopback addresses *)

(** The loop of [parseIPv6] with the bytes it collects and the place of the
    double colon. *)
Fixpoint hex_field (acc : Z) (s : string) : Z :=
  match s with
  | EmptyString => acc
  | String a s' => match hex_value a with Some d => hex_field (acc * 16 + Z.of_nat d)%Z s' | None => acc end
  end.
Definition octets (s : string) : list Z := default 0%Z ∘ decimal_value 0 <$> Split dot s.
Definition expand (bytes : list Z) (ellipsis : option nat) : list Z :=
  match ellipsis with
  | Some k => take k bytes ++ replicate (16 - length bytes) 0%Z ++ drop k bytes
  | None => bytes
  end.
Fixpoint ipv6_bytes (fuel : nat) (s : string) (bytes : list Z) (ellipsis : option nat) : list Z :=
  match fuel with
  | O => []
  | S fuel =>
      let '(n, r) := span_hex s in
      match r with
      | String a _ =>
          if bool_decide (a = dot) then expand (bytes ++ octets s) ellipsis
          else
            let field := hex_field 0 (str_take n s) in
            let bytes := bytes ++ [(field / 256)%Z; (field mod 256)%Z] in
            match r with
            | String _ (String d r2 as r1) =>
                if bool_decide (d = colon)
                then if bool_decide (r2 = EmptyString) then expand bytes (Some (length bytes))
                     else ipv6_bytes fuel r2 bytes (Some (length bytes))
                else ipv6_bytes fuel r1 bytes ellipsis
            | _ => []
            end
      | EmptyString =>
          let field := hex_field 0 s in expand (bytes ++ [(field / 256)%Z; (field mod 256)%Z]) ellipsis
      end
  end.
Definition ipv6_value (s : string) : list Z :=
  match s with
  | String a (String b r) =>
      if bool_decide (a = colon) && bool_decide (b = colon)
      then if bool_decide (r = EmptyString) then replicate 16 0%Z else ipv6_bytes 8 r [] (Some 0)
      else ipv6_bytes 8 s [] None
  | _ => []
  end.

(** [net.ParseIP(s) != nil && net.ParseIP(s).IsLoopback()] *)
Definition is_loopback (s : string) : bool :=
  is_IP s &&
  (if is_ipv4 s then bool_decide (head (octets s) = Some 127%Z)
   else
     let bytes := ipv6_value s in
     if bool_decide (take 12 bytes = replicate 10 0%Z ++ [255; 255]%Z)
     then bool_decide (bytes !! 12 = Some 127%Z)
     else bool_decide (bytes = replicate 15 0%Z ++ [1%Z])).

(** ** path.Clean *)
Fixpoint clean_elements (rooted : bool) (done_ : list string) (l : list string) : list string :=
  match l with
  | [] => rev done_
  | e :: l' =>
      if bool_decide (e = EmptyString) || bool_decide (e = ".") then clean_elements rooted done_ l'
      else if bool_decide (e = "..") then
        match done_ with
        | d :: done' =>
            if bool_decide (d = "..") then clean_elements rooted (e :: done_) l'
            else clean_elements rooted done' l'
        | [] => if rooted then clean_elements rooted [] l' else clean_elements rooted [e] l'
        end
      else clean_elements rooted (e :: done_) l'
  end.
Fixpoint Join (sep : string) (l : list string) : string :=
  match l with
  | [] => EmptyString
  | [s] => s
  | s :: l' => s +:+ sep +:+ Join sep l'
  end.
Definition path_Clean (path : string) : string :=
  let rooted := has_prefix "/" path in
  let cleaned := Join "/" (clean_elements rooted [] (Split "/" path)) in
  if rooted then "/" +:+ cleaned
  else if bool_decide (cleaned = EmptyString) then "." else cleaned.

(** ** strings.Fields *)

(** The length of the white space a text starts with. *)
Definition space_prefix (l : list Z) : option nat :=
  length <$> list.head (base.filter (λ e, take (length e) l = e) space_encodings).
Fixpoint fields (fuel : nat) (field : list Z) (l : list Z) : list (list Z) :=
  let close := match field with [] => [] | _ => [rev field] end in
  match fuel with
  | O => close
  | S fuel =>
      match l with
      | [] => close
      | b :: l' =>
          match space_prefix l with
          | Some n => close ++ fields fuel [] (drop n l)
          | None => fields fuel (b :: field) l'
          end
      end
  end.
Definition Fields (s : string) : list string :=
  Z_string <$> fields (S (str_len s)) [] (string_Z s).

(** ** Examples *)
Lemma url_Parse_examples :
  (URL_String <$> url_Parse "HTTPS://[2001:db8::1]:8443/a%2Fb") =
    Some "https://[2001:db8::1]:8443/a%2Fb" ∧
  (URL_String <$> url_Parse "https://host/p?") = Some "https://host/p?" ∧
  (Hostname <$> url_Parse "http://[::1]:80/") = Some "::1" ∧
  url_Parse "https://a:1:2/" = None ∧ url_Parse "https://[1.2.3.4]/" = None ∧
  url_Parse "https://a b/" = None ∧ url_Parse "1:2" = None ∧
  (URL_User <$> url_Parse "https://u:p@h/") = Some true ∧
  (URL_Opaque <$> url_Parse "mailto:a@b") = Some "a@b".
Proof. vm_compute. split_and!; reflexivity. Qed.

Lemma is_loopback_examples :
  is_loopback "127.9.0.1" = true ∧ is_loopback "::1" = true ∧ is_loopback "::ffff:127.0.0.1" = true ∧
  is_loopback "10.0.0.1" = false ∧ is_loopback "::2" = false ∧ is_loopback "0:0:0:0:0:0:0:1" = true ∧
  is_loopback "1::" = false ∧ is_loopback "localhost" = false.
Proof. vm_compute. split_and!; reflexivity. Qed.

Lemma path_Clean_examples :
  path_Clean "/a//b/./c/../d/" = "/a/b/d" ∧ path_Clean "/../a" = "/a" ∧ path_Clean "a/../.." = ".." ∧
  path_Clean EmptyString = "." ∧ path_Clean "/" = "/" ∧ Fields "  a b	c " = ["a"; "b"; "c"].
Proof. vm_compute. split_and!; reflexivity. Qed.
