(* ===== verification/GoRunes.v ===== *)
(** * Runes and their encodings

    Encoding a list of Unicode scalar values and decoding it again gives the
    list back; what [strings.Map] and [string([]rune)] build; any byte string
    quoted as JSON reads back as its valid UTF-8, and valid UTF-8 as itself. *)
From stdpp Require Import base gmap list strings numbers.
From Stdlib Require Import ZArith Lia Ascii.
From S2P Require Import Prelude Bytes GoText GoJson.

(** A Unicode scalar value. *)
Definition is_scalar (r : Z) : bool := in_range 0 0x10FFFF r && negb (in_range 0xD800 0xDFFF r).

(** [string(runes)] *)
Definition string_of_runes (l : list Z) : string := Z_string (l ≫= EncodeRune).

(** [strings.Map] with a mapping that keeps or drops each rune; an invalid byte
    is kept as U+FFFD. *)
Definition keep_runes (keep : Z → bool) (s : string) : string :=
  string_of_runes (List.filter keep (runes s)).

Lemma land_disjoint a k b : (0 ≤ k → 0 ≤ b < 2 ^ k → Z.land (a * 2 ^ k) b = 0)%Z.
Proof.
  intros Hk Hb. apply Z.bits_inj'. intros n Hn. rewrite Z.land_spec, Z.bits_0, Z.mul_pow2_bits by lia.
  destruct (decide (n < k)%Z); [by rewrite Z.testbit_neg_r by lia|].
  replace b with (b mod 2 ^ k)%Z by (by rewrite Z.mod_small).
  by rewrite Z.mod_pow2_bits_high, andb_false_r by lia.
Qed.
Lemma lor_disjoint a k b : (0 ≤ k → 0 ≤ b < 2 ^ k → Z.lor (a * 2 ^ k) b = a * 2 ^ k + b)%Z.
Proof.
  intros Hk Hb. pose proof (land_disjoint a k b Hk Hb).
  by rewrite <- Z.lxor_lor, <- Z.add_nocarry_lxor.
Qed.
Lemma lor_shift a k b : (0 ≤ k → 0 ≤ b < 2 ^ k → Z.lor (Z.shiftl a k) b = a * 2 ^ k + b)%Z.
Proof. intros Hk Hb. rewrite Z.shiftl_mul_pow2 by done. by apply lor_disjoint. Qed.

(** Masks, shifts and unions of disjoint bits as arithmetic. *)
Lemma land_mask z k m : (0 ≤ k)%Z → m = Z.ones k → Z.land z m = (z mod 2 ^ k)%Z.
Proof. intros Hk ->. by apply Z.land_ones. Qed.

Lemma cont_byte_value r k : (0 ≤ k)%Z → cont_byte r k = (128 + (r / 2 ^ k) mod 64)%Z.
Proof.
  intros Hk. unfold cont_byte. rewrite (land_mask _ 6), Z.shiftr_div_pow2 by done.
  apply (lor_disjoint 2 6); [done|]. by apply Z.mod_pos_bound.
Qed.
Lemma lead_byte lead k m r n : m = (lead * 2 ^ k)%Z → (0 ≤ k → 0 ≤ n → 0 ≤ r → r / 2 ^ n < 2 ^ k →
  Z.lor m (Z.shiftr r n) = m + r / 2 ^ n)%Z.
Proof.
  intros -> Hk Hn Hr Hlt. rewrite Z.shiftr_div_pow2 by done. apply lor_disjoint; [done|].
  split; [by apply Z.div_pos; lia|done].
Qed.

Lemma in_range_true lo hi b : (lo ≤ b ≤ hi)%Z → in_range lo hi b = true.
Proof. intros. by apply bool_decide_true. Qed.
Lemma in_range_false lo hi b : (b < lo ∨ hi < b)%Z → in_range lo hi b = false.
Proof. intros. apply bool_decide_false. lia. Qed.

Ltac euclid := Z.to_euclidean_division_equations; lia.

Lemma Decode_Encode_2 r t : (0x80 ≤ r ≤ 0x7FF)%Z → DecodeRune (EncodeRune r ++ t) = Some (r, 2).
Proof.
  intros Hr. unfold EncodeRune. rewrite in_range_false, in_range_true by lia.
  rewrite (lead_byte 6 5) by euclid. rewrite cont_byte_value by lia.
  change (2 ^ 0)%Z with 1%Z. change (2 ^ 6)%Z with 64%Z. cbn [app]. unfold DecodeRune.
  rewrite in_range_false, in_range_true by euclid. unfold is_cont. rewrite in_range_true by euclid.
  do 2 f_equal. rewrite (land_mask _ 5), (land_mask _ 6) by done.
  rewrite lor_shift by (try apply Z.mod_pos_bound; done).
  change (2 ^ 5)%Z with 32%Z. change (2 ^ 6)%Z with 64%Z. euclid.
Qed.
Lemma Decode_Encode_3 r t : (0x800 ≤ r ≤ 0xFFFF)%Z → in_range 0xD800 0xDFFF r = false →
  DecodeRune (EncodeRune r ++ t) = Some (r, 3).
Proof.
  intros Hr Hs. unfold EncodeRune. rewrite (in_range_false 0 0x7F), (in_range_false 0 0x7FF), Hs by lia.
  rewrite !in_range_true by lia. cbn [orb negb]. rewrite (lead_byte 14 4) by euclid.
  rewrite !cont_byte_value by lia. change (2 ^ 0)%Z with 1%Z. change (2 ^ 6)%Z with 64%Z.
  change (2 ^ 12)%Z with 4096%Z. apply bool_decide_eq_false in Hs. cbn [app]. unfold DecodeRune.
  rewrite (in_range_false 0 0x7F), (in_range_false 0xC2), (in_range_true 0xE0) by euclid.
  unfold is_cont. rewrite !in_range_true; [|euclid|].
  - cbn [andb]. do 2 f_equal. rewrite (land_mask _ 4), !(land_mask _ 6) by done.
    rewrite (lor_shift _ 6) by (try apply Z.mod_pos_bound; done).
    change (2 ^ 4)%Z with 16%Z. change (2 ^ 6)%Z with 64%Z. rewrite lor_shift by euclid.
    change (2 ^ 12)%Z with 4096%Z. euclid.
  - repeat case_bool_decide; euclid.
Qed.

Lemma Decode_Encode_4 r t : (0x10000 ≤ r ≤ 0x10FFFF)%Z → DecodeRune (EncodeRune r ++ t) = Some (r, 4).
Proof.
  intros Hr. unfold EncodeRune.
  rewrite (in_range_false 0 0x7F), (in_range_false 0 0x7FF), (in_range_false 0xD800), (in_range_true 0 0x10FFFF),
    (in_range_false 0 0xFFFF) by lia.
  cbn [orb negb]. rewrite (lead_byte 30 3) by euclid. rewrite !cont_byte_value by lia.
  change (2 ^ 0)%Z with 1%Z. change (2 ^ 6)%Z with 64%Z. change (2 ^ 12)%Z with 4096%Z.
  change (2 ^ 18)%Z with 262144%Z. cbn [app]. unfold DecodeRune.
  rewrite (in_range_false 0 0x7F), (in_range_false 0xC2), (in_range_false 0xE0), (in_range_true 0xF0) by euclid.
  unfold is_cont. rewrite !in_range_true; [|euclid|euclid|].
  - cbn [andb]. do 2 f_equal. rewrite (land_mask _ 3), !(land_mask _ 6) by done.
    rewrite (lor_shift _ 6) by (try apply Z.mod_pos_bound; done).
    change (2 ^ 3)%Z with 8%Z. change (2 ^ 6)%Z with 64%Z. rewrite (lor_shift _ 12) by euclid.
    change (2 ^ 12)%Z with 4096%Z. rewrite lor_shift by euclid. change (2 ^ 18)%Z with 262144%Z. euclid.
  - repeat case_bool_decide; euclid.
Qed.

Lemma Decode_Encode r t : is_scalar r = true →
  DecodeRune (EncodeRune r ++ t) = Some (r, length (EncodeRune r)) ∧ 1 ≤ length (EncodeRune r).
Proof.
  unfold is_scalar. intros [Hr Hs]%andb_true_iff. apply bool_decide_eq_true in Hr.
  apply negb_true_iff in Hs. destruct (decide (r ≤ 0x7F)%Z).
  { unfold EncodeRune. rewrite in_range_true by lia. cbn [app DecodeRune length]. by rewrite in_range_true by lia. }
  destruct (decide (r ≤ 0x7FF)%Z).
  { rewrite Decode_Encode_2 by lia. unfold EncodeRune. rewrite in_range_false, in_range_true by lia. cbn; auto. }
  destruct (decide (r ≤ 0xFFFF)%Z).
  - rewrite Decode_Encode_3 by (done || lia). unfold EncodeRune.
    rewrite (in_range_false 0 0x7F), (in_range_false 0 0x7FF), Hs, !in_range_true by lia. cbn; auto.
  - rewrite Decode_Encode_4 by lia. unfold EncodeRune.
    rewrite (in_range_false 0 0x7F), (in_range_false 0 0x7FF), Hs, in_range_true, in_range_false by lia. cbn; auto.
Qed.

Lemma decode_runes_encode l fuel : forallb is_scalar l = true → length (l ≫= EncodeRune) ≤ fuel →
  (decode_runes fuel (l ≫= EncodeRune)).*1 = l.
Proof.
  revert fuel. induction l as [|r l IH]; intros [|fuel] Hl Hf; cbn [forallb] in Hl; try done.
  - apply andb_true_iff in Hl as [Hr _]. destruct (Decode_Encode r [] Hr) as [_ Hn].
    rewrite bind_cons, length_app in Hf. lia.
  - apply andb_true_iff in Hl as [Hr Hl]. rewrite bind_cons in *. rewrite length_app in Hf.
    destruct (Decode_Encode r (l ≫= EncodeRune) Hr) as [Hd Hn]. cbn [decode_runes]. rewrite Hd.
    rewrite fmap_cons. cbn [fst]. rewrite drop_app_length. f_equal. apply IH; [done|lia].
Qed.

Lemma cont_byte_range r k : (0 ≤ k)%Z → (0 ≤ cont_byte r k < 256)%Z.
Proof. intros. rewrite cont_byte_value by done. pose proof (Z.mod_pos_bound (r / 2 ^ k) 64). lia. Qed.

Lemma EncodeRune_bytes r : Forall (λ b, 0 ≤ b < 256)%Z (EncodeRune r).
Proof.
  unfold EncodeRune. destruct (in_range 0 0x7F r) eqn:H1; [apply bool_decide_eq_true in H1; repeat constructor; lia|].
  apply bool_decide_eq_false in H1.
  destruct (in_range 0 0x7FF r) eqn:H2; [apply bool_decide_eq_true in H2|].
  { rewrite (lead_byte 6 5) by euclid. repeat constructor; try (apply cont_byte_range; lia); euclid. }
  destruct (in_range 0xD800 0xDFFF r || negb (in_range 0 0x10FFFF r)) eqn:H3; [repeat constructor; lia|].
  apply orb_false_iff in H3 as [_ H3]. apply negb_false_iff, bool_decide_eq_true in H3.
  destruct (in_range 0 0xFFFF r) eqn:H4.
  - apply bool_decide_eq_true in H4. rewrite (lead_byte 14 4) by euclid.
    repeat constructor; try (apply cont_byte_range; lia); euclid.
  - rewrite (lead_byte 30 3) by euclid. repeat constructor; try (apply cont_byte_range; lia); euclid.
Qed.

(** [[]rune(string(l))] is [l]. *)
Lemma runes_string_of_runes l : forallb is_scalar l = true → runes (string_of_runes l) = l.
Proof.
  intros Hl. unfold runes, string_of_runes. rewrite string_Z_Z_string; [by apply decode_runes_encode|].
  apply Forall_bind. apply Forall_true. intros r. apply EncodeRune_bytes.
Qed.

(** Decoding only yields scalar values. *)
Lemma DecodeRune_scalar l r n : Forall (λ b, 0 ≤ b < 256)%Z l → DecodeRune l = Some (r, n) → is_scalar r = true.
Proof.
  intros Hl. destruct l as [|b0 l]; [done|]. inversion_clear Hl as [|?? Hb Hl'].
  assert (is_scalar RuneError = true) by done. unfold DecodeRune, is_cont.
  destruct (in_range 0 0x7F b0) eqn:H0.
  { apply bool_decide_eq_true in H0. intros [= <- _]. unfold is_scalar. by rewrite in_range_true, in_range_false by lia. }
  destruct (in_range 0xC2 0xDF b0) eqn:H1.
  { apply bool_decide_eq_true in H1. destruct l as [|b1 l]; [by intros [= <- _]|].
    destruct (in_range 0x80 0xBF b1) eqn:H2; [|by intros [= <- _]]. apply bool_decide_eq_true in H2.
    intros [= <- _]. rewrite (land_mask _ 5), (land_mask _ 6) by done.
    rewrite lor_shift by (try apply Z.mod_pos_bound; done). unfold is_scalar.
    change (2 ^ 5)%Z with 32%Z. change (2 ^ 6)%Z with 64%Z. by rewrite in_range_true, in_range_false by euclid. }
  destruct (in_range 0xE0 0xEF b0) eqn:H2.
  { apply bool_decide_eq_true in H2. destruct l as [|b1 [|b2 l]]; [by intros [= <- _]..|].
    match goal with |- (if ?c then _ else _) = _ → _ => destruct c eqn:H3 end; [|by intros [= <- _]].
    apply andb_true_iff in H3 as [H3 H4]. apply bool_decide_eq_true in H3, H4.
    intros [= <- _]. rewrite (land_mask _ 4), !(land_mask _ 6) by done.
    rewrite (lor_shift _ 6) by (try apply Z.mod_pos_bound; done).
    change (2 ^ 4)%Z with 16%Z. change (2 ^ 6)%Z with 64%Z. rewrite lor_shift by euclid.
    change (2 ^ 12)%Z with 4096%Z. unfold is_scalar.
    rewrite in_range_true by (repeat case_bool_decide; euclid).
    rewrite in_range_false; [done|]. repeat case_bool_decide; euclid. }
  destruct (in_range 0xF0 0xF4 b0) eqn:H3; [|by intros [= <- _]].
  apply bool_decide_eq_true in H3. destruct l as [|b1 [|b2 [|b3 l]]]; [by intros [= <- _]..|].
  match goal with |- (if ?c then _ else _) = _ → _ => destruct c eqn:H4 end; [|by intros [= <- _]].
  apply andb_true_iff in H4 as [[H4 H5]%andb_true_iff H6]. apply bool_decide_eq_true in H4, H5, H6.
  intros [= <- _]. rewrite (land_mask _ 3), !(land_mask _ 6) by done.
  rewrite (lor_shift _ 6) by (try apply Z.mod_pos_bound; done).
  change (2 ^ 3)%Z with 8%Z. change (2 ^ 6)%Z with 64%Z. rewrite (lor_shift _ 12) by euclid.
  change (2 ^ 12)%Z with 4096%Z. rewrite lor_shift by euclid. change (2 ^ 18)%Z with 262144%Z.
  unfold is_scalar. rewrite in_range_true by (repeat case_bool_decide; euclid).
  rewrite in_range_false; [done|]. repeat case_bool_decide; euclid.
Qed.

Lemma runes_scalar s : forallb is_scalar (runes s) = true.
Proof.
  unfold runes. pose proof (string_Z_bytes s) as Hb. revert Hb. generalize (string_Z s) as l.
  intros l. generalize (length l) as fuel. intros fuel. revert l.
  induction fuel as [|fuel IH]; intros l Hb; [done|]. cbn [decode_runes].
  destruct (DecodeRune l) as [[r n]|] eqn:Hd; [|done]. rewrite fmap_cons. cbn [fst forallb].
  rewrite (DecodeRune_scalar _ _ _ Hb Hd). by apply IH, Forall_drop.
Qed.

Lemma forallb_filter {A} (p q : A → bool) l : forallb p l = true → forallb p (List.filter q l) = true.
Proof. rewrite !forallb_forall. intros H x [Hx _]%filter_In. by apply H. Qed.
Lemma forallb_take {A} (p : A → bool) n l : forallb p l = true → forallb p (take n l) = true.
Proof.
  intros H. rewrite <- (take_drop n l), forallb_app in H. by apply andb_true_iff in H as [H _].
Qed.

Lemma runes_keep keep s : runes (keep_runes keep s) = List.filter keep (runes s).
Proof. apply runes_string_of_runes, forallb_filter, runes_scalar. Qed.

(** ** JSON strings

    What [json.Marshal] renders of a string, [json.Unmarshal] reads back as the
    string with every byte that is not UTF-8 replaced by U+FFFD. *)
Definition to_valid (s : string) : string := string_of_runes (runes s).

Lemma to_valid_utf8 l : forallb is_scalar l = true → to_valid (string_of_runes l) = string_of_runes l.
Proof. intros Hl. unfold to_valid. by rewrite runes_string_of_runes. Qed.

(** A decoded rune is the encoding of what it was decoded from: for sequences of
    two, three and four bytes, and for all. *)
Lemma encode_two b0 b1 : (0xC2 ≤ b0 ≤ 0xDF)%Z → (0x80 ≤ b1 ≤ 0xBF)%Z →
  EncodeRune (Z.lor (Z.shiftl (Z.land b0 0x1F) 6) (Z.land b1 0x3F)) = [b0; b1].
Proof.
  intros H0 H1. rewrite (land_mask _ 5), (land_mask _ 6) by done.
  rewrite lor_shift by (try apply Z.mod_pos_bound; done).
  change (2 ^ 5)%Z with 32%Z. change (2 ^ 6)%Z with 64%Z. unfold EncodeRune.
  rewrite in_range_false, in_range_true by euclid. rewrite (lead_byte 6 5) by euclid.
  rewrite cont_byte_value by lia. change (2 ^ 0)%Z with 1%Z. change (2 ^ 6)%Z with 64%Z.
  repeat f_equal; euclid.
Qed.

Lemma encode_three b0 b1 b2 : (0xE0 ≤ b0 ≤ 0xEF)%Z →
  ((if bool_decide (b0 = 0xE0) then 0xA0 else 0x80) ≤ b1 ≤
   (if bool_decide (b0 = 0xED) then 0x9F else 0xBF))%Z → (0x80 ≤ b2 ≤ 0xBF)%Z →
  EncodeRune (Z.lor (Z.shiftl (Z.land b0 0x0F) 12)
                (Z.lor (Z.shiftl (Z.land b1 0x3F) 6) (Z.land b2 0x3F))) = [b0; b1; b2].
Proof.
  intros H0 H1 H2.
  assert (0x80 ≤ b1 ≤ 0xBF)%Z as Hb1 by (revert H1; repeat case_bool_decide; lia).
  rewrite (land_mask _ 4), !(land_mask _ 6) by done.
  rewrite (lor_shift _ 6) by (try apply Z.mod_pos_bound; done).
  change (2 ^ 4)%Z with 16%Z. change (2 ^ 6)%Z with 64%Z. rewrite lor_shift by euclid.
  change (2 ^ 12)%Z with 4096%Z. unfold EncodeRune.
  rewrite (in_range_false 0 0x7F), (in_range_false 0 0x7FF), (in_range_false 0xD800 0xDFFF),
    (in_range_true 0 0x10FFFF), (in_range_true 0 0xFFFF) by (revert H1; repeat case_bool_decide; intros; euclid).
  cbn [orb negb]. rewrite (lead_byte 14 4) by euclid. rewrite !cont_byte_value by lia.
  change (2 ^ 0)%Z with 1%Z. change (2 ^ 6)%Z with 64%Z. change (2 ^ 12)%Z with 4096%Z.
  repeat f_equal; euclid.
Qed.

Lemma encode_four b0 b1 b2 b3 : (0xF0 ≤ b0 ≤ 0xF4)%Z →
  ((if bool_decide (b0 = 0xF0) then 0x90 else 0x80) ≤ b1 ≤
   (if bool_decide (b0 = 0xF4) then 0x8F else 0xBF))%Z →
  (0x80 ≤ b2 ≤ 0xBF)%Z → (0x80 ≤ b3 ≤ 0xBF)%Z →
  EncodeRune (Z.lor (Z.shiftl (Z.land b0 0x07) 18)
                (Z.lor (Z.shiftl (Z.land b1 0x3F) 12)
                   (Z.lor (Z.shiftl (Z.land b2 0x3F) 6) (Z.land b3 0x3F)))) = [b0; b1; b2; b3].
Proof.
  intros H0 H1 H2 H3.
  assert (0x80 ≤ b1 ≤ 0xBF)%Z as Hb1 by (revert H1; repeat case_bool_decide; lia).
  rewrite (land_mask _ 3), !(land_mask _ 6) by done.
  rewrite (lor_shift _ 6) by (try apply Z.mod_pos_bound; done).
  change (2 ^ 3)%Z with 8%Z. change (2 ^ 6)%Z with 64%Z. rewrite (lor_shift _ 12) by euclid.
  change (2 ^ 12)%Z with 4096%Z. rewrite lor_shift by euclid. change (2 ^ 18)%Z with 262144%Z.
  unfold EncodeRune.
  rewrite (in_range_false 0 0x7F), (in_range_false 0 0x7FF), (in_range_false 0xD800 0xDFFF),
    (in_range_true 0 0x10FFFF), (in_range_false 0 0xFFFF) by (revert H1; repeat case_bool_decide; intros; euclid).
  cbn [orb negb]. rewrite (lead_byte 30 3) by euclid. rewrite !cont_byte_value by lia.
  change (2 ^ 0)%Z with 1%Z. change (2 ^ 6)%Z with 64%Z. change (2 ^ 12)%Z with 4096%Z.
  change (2 ^ 18)%Z with 262144%Z. repeat f_equal; euclid.
Qed.

Lemma Encode_Decode l r n : Forall (λ b, 0 ≤ b < 256)%Z l → DecodeRune l = Some (r, n) →
  (r = RuneError ∧ n = 1) ∨ EncodeRune r = take n l.
Proof.
  intros Hl. destruct l as [|b0 l]; [done|]. inversion_clear Hl as [|?? Hb Hl'].
  unfold DecodeRune, is_cont.
  destruct (in_range 0 0x7F b0) eqn:H0.
  { intros [= <- <-]. right. unfold EncodeRune. by rewrite H0. }
  destruct (in_range 0xC2 0xDF b0) eqn:H1.
  { destruct l as [|b1 l]; [intros [= <- <-]; by left|].
    destruct (in_range 0x80 0xBF b1) eqn:H2; intros [= <- <-]; [right|by left].
    by apply encode_two; eapply bool_decide_eq_true. }
  destruct (in_range 0xE0 0xEF b0) eqn:H2.
  { destruct l as [|b1 [|b2 l]]; [intros [= <- <-]; by left..|].
    match goal with |- (if ?c then _ else _) = _ → _ => destruct c eqn:H3 end; intros [= <- <-]; [right|by left].
    apply andb_true_iff in H3 as [H3 H4]. by apply encode_three; eapply bool_decide_eq_true. }
  destruct (in_range 0xF0 0xF4 b0) eqn:H3; [|intros [= <- <-]; by left].
  destruct l as [|b1 [|b2 [|b3 l]]]; [intros [= <- <-]; by left..|].
  match goal with |- (if ?c then _ else _) = _ → _ => destruct c eqn:H4 end; intros [= <- <-]; [right|by left].
  apply andb_true_iff in H4 as [[H4 H5]%andb_true_iff H6]. by apply encode_four; eapply bool_decide_eq_true.
Qed.

(** The scanner on one rendered byte or rune. *)
Lemma json_string_ascii b t fuel : (0 ≤ b ≤ 127)%Z →
  json_string (S fuel) (quote_byte b ++ t) = prepend [b] (json_string fuel t).
Proof.
  intros Hb. assert (∃ n, n < 128 ∧ b = Z.of_nat n) as (n & Hn & ->) by (exists (Z.to_nat b); lia).
  clear Hb. do 128 (destruct n as [|n]; [reflexivity|]). lia.
Qed.
Lemma EncodeRune_lead r : is_scalar r = true → (0x80 ≤ r)%Z → ∃ c l, EncodeRune r = c :: l ∧ (128 ≤ c)%Z.
Proof.
  unfold is_scalar. intros [Hr Hs]%andb_true_iff Hlo. apply bool_decide_eq_true in Hr. apply negb_true_iff in Hs.
  unfold EncodeRune. rewrite (in_range_false 0 0x7F) by lia.
  destruct (in_range 0 0x7FF r) eqn:H2.
  { apply bool_decide_eq_true in H2. rewrite (lead_byte 6 5) by euclid. eexists _, _. split; [done|]. euclid. }
  rewrite Hs, (in_range_true 0 0x10FFFF) by lia. cbn [orb negb]. destruct (in_range 0 0xFFFF r) eqn:H3.
  - apply bool_decide_eq_true in H3. rewrite (lead_byte 14 4) by euclid. eexists _, _. split; [done|]. euclid.
  - rewrite (lead_byte 30 3) by euclid. eexists _, _. split; [done|]. euclid.
Qed.
Lemma json_string_multibyte r t fuel : is_scalar r = true → (0x80 ≤ r)%Z →
  json_string (S fuel) (EncodeRune r ++ t) = prepend (EncodeRune r) (json_string fuel t).
Proof.
  intros Hr Hlo. destruct (Decode_Encode r t Hr) as [Hd _]. destruct (EncodeRune_lead r Hr Hlo) as (c & l & Hc & Hge).
  rewrite <- (drop_app_length (EncodeRune r) t) at 2. revert Hd.
  generalize (length (EncodeRune r)) as k. rewrite Hc. intros k Hd. cbn [json_string app] in *.
  rewrite !bool_decide_false by lia. rewrite Hd. cbn [mbind option_bind]. by rewrite Hc.
Qed.

Lemma json_string_quoted fuel l rest fuel' :
  Forall (λ b, 0 ≤ b < 256)%Z l → length l ≤ fuel → length (quote_body fuel l) < fuel' →
  json_string fuel' (quote_body fuel l ++ 34%Z :: rest) =
    Some ((decode_runes fuel l).*1 ≫= EncodeRune, rest).
Proof.
  revert l fuel'. induction fuel as [|fuel IH]; intros l [|fuel'] Hb Hl Hf; try lia; [done|].
  cbn [quote_body decode_runes] in *. destruct (DecodeRune l) as [[r n]|] eqn:Hd; [|done].
  pose proof (DecodeRune_width _ _ _ Hd) as Hn. pose proof (DecodeRune_scalar _ _ _ Hb Hd) as Hsc.
  rewrite fmap_cons, bind_cons. cbn [fst]. rewrite <- app_assoc. rewrite length_app in Hf.
  assert (∀ text, 1 ≤ length text → length text + length (quote_body fuel (drop n l)) < S fuel' →
    json_string (S fuel') (text ++ quote_body fuel (drop n l) ++ 34%Z :: rest) =
      prepend (EncodeRune r) (json_string fuel' (quote_body fuel (drop n l) ++ 34%Z :: rest)) →
    json_string (S fuel') (text ++ quote_body fuel (drop n l) ++ 34%Z :: rest) =
      Some (EncodeRune r ++ ((decode_runes fuel (drop n l)).*1 ≫= EncodeRune), rest)) as Hstep.
  { intros text Ht Hlen ->. rewrite IH; [done|by apply Forall_drop|rewrite length_drop; lia|lia]. }
  destruct (in_range 0 0x7F r) eqn:Ha.
  { apply bool_decide_eq_true in Ha. apply Hstep; [|done|].
    - unfold quote_byte. repeat case_match; cbn; lia.
    - rewrite json_string_ascii by lia. unfold EncodeRune. by rewrite in_range_true. }
  apply bool_decide_eq_false in Ha.
  assert (0x80 ≤ r)%Z as Hlo.
  { unfold is_scalar in Hsc. apply andb_true_iff in Hsc as [H _]. apply bool_decide_eq_true in H. lia. }
  destruct (bool_decide (r = RuneError) && bool_decide (n = 1)) eqn:He.
  { apply andb_true_iff in He as [->%bool_decide_eq_true _]. apply Hstep; [cbn; lia|done|reflexivity]. }
  destruct (bool_decide (r = 0x2028)%Z || bool_decide (r = 0x2029)%Z) eqn:Hsep.
  { apply orb_true_iff in Hsep as [->%bool_decide_eq_true| ->%bool_decide_eq_true];
      (apply Hstep; [cbn; lia|done|reflexivity]). }
  destruct (Encode_Decode _ _ _ Hb Hd) as [[-> ->]|Henc]; [done|].
  apply Hstep; [rewrite length_take; lia|done|]. rewrite <- Henc. by apply json_string_multibyte.
Qed.

(** The value of a rendered string. *)
Definition quoted_value (s : string) : json :=
  JString (quote_body (str_len s) (string_Z s)) (string_Z (to_valid s)).

Lemma string_Z_to_valid s : string_Z (to_valid s) = runes s ≫= EncodeRune.
Proof.
  unfold to_valid, string_of_runes. apply string_Z_Z_string. apply Forall_bind, Forall_true.
  intros r. apply EncodeRune_bytes.
Qed.

Lemma renders_json_quote s : renders 0 (json_quote s) (quoted_value s).
Proof.
  split; [done|]. intros [|fuel] depth r Hf _ _; [lia|]. unfold json_quote.
  cbn [app json_value json_scalar]. rewrite <- app_assoc. cbn [app].
  rewrite json_string_quoted; [|apply string_Z_bytes|rewrite string_Z_length; lia|rewrite length_app; cbn [length]; lia].
  cbn [mbind option_bind]. rewrite length_app. cbn [length]. unfold quoted_value. rewrite string_Z_to_valid.
  match goal with |- context [length ?q + S (length r) - S (length r)] =>
    replace (length q + S (length r) - S (length r)) with (length q) by lia end.
  rewrite take_app_length. unfold runes. by rewrite string_Z_length.
Qed.

Lemma quote_body_bytes fuel l : Forall (λ b, 0 ≤ b < 256)%Z l → Forall (λ b, 0 ≤ b < 256)%Z (quote_body fuel l).
Proof.
  revert l. induction fuel as [|fuel IH]; intros l Hl; [constructor|]. cbn [quote_body].
  destruct (DecodeRune l) as [[r n]|] eqn:Hd; [|constructor].
  apply Forall_app_2; [|by apply IH, Forall_drop].
  assert (∀ d, 0 ≤ d < 16 → 0 ≤ hex_lower d < 256)%Z as Hh by (intros; unfold hex_lower; case_bool_decide; lia).
  assert (∀ u, Forall (λ b, 0 ≤ b < 256)%Z (u_escape u)) as Hu.
  { intros u. unfold u_escape. repeat constructor; try lia; apply Hh, Z.mod_pos_bound; lia. }
  destruct (in_range 0 0x7F r) eqn:Ha.
  { apply bool_decide_eq_true in Ha. unfold quote_byte. repeat case_match; auto; repeat constructor; lia. }
  repeat case_match; auto. by apply Forall_take.
Qed.
