(* ===== verification/GoNetip.v ===== *)
(** * net/netip and net.SplitHostPort

    What the sources use of the standard library's addresses: an address is
    its big-endian value and its family, a prefix an address and a length. *)
From stdpp Require Import base gmap list strings numbers.
From Stdlib Require Import ZArith Lia Ascii.
From S2P Require Import Prelude Bytes GoText GoNet GoUrl.

(** [netip.Addr]; the zero value is invalid *)
Inductive Addr := AddrInvalid | Addr4 (value : Z) | Addr6 (value : Z) (zone : string).
#[export] Instance Addr_eq_dec : EqDecision Addr.
Proof. solve_decision. Defined.

Definition bytes_Z (l : list Z) : Z := foldl (λ acc b, acc * 256 + b)%Z 0%Z l.

(** [netip.ParseAddr]: the first dot or colon decides the family. *)
Definition ParseAddr (s : string) : option Addr :=
  match list_find (λ a, a = dot ∨ a = colon ∨ a = "%"%char) (bytes_of s) with
  | Some (_, a) =>
      if bool_decide (a = dot) then if is_ipv4 s then Some (Addr4 (bytes_Z (octets s))) else None
      else if bool_decide (a = colon) then
        match cut_at "%" s with
        | Some (addr, zone) =>
            if negb (bool_decide (zone = EmptyString)) && is_ipv6 addr
            then Some (Addr6 (bytes_Z (ipv6_value addr)) zone) else None
        | None => if is_ipv6 s then Some (Addr6 (bytes_Z (ipv6_value s)) EmptyString) else None
        end
      else None
  | None => None
  end.

(** ** Classification *)
Definition Is4In6 (a : Addr) : bool :=
  match a with Addr6 v _ => bool_decide (Z.shiftr v 32 = 0xffff)%Z | _ => false end.
Definition Unmap (a : Addr) : Addr :=
  match a with Addr6 v _ => if Is4In6 a then Addr4 (Z.land v 0xffffffff) else a | _ => a end.
Definition WithoutZone (a : Addr) : Addr := match a with Addr6 v _ => Addr6 v EmptyString | _ => a end.

(** The bits of the value from the top: [n] of them in an address of [width]. *)
Definition top_bits (width n v : Z) : Z := Z.shiftr v (width - n).

(** The tests unmap an IPv4 address mapped into IPv6 first. *)
Definition IsUnspecified (a : Addr) : bool :=
  match a with
  | Addr4 v => bool_decide (v = 0)%Z
  | Addr6 v zone => bool_decide (v = 0)%Z && bool_decide (zone = EmptyString)
  | AddrInvalid => false
  end.
Definition IsLoopback (a : Addr) : bool :=
  match Unmap a with
  | Addr4 v => bool_decide (top_bits 32 8 v = 127)%Z
  | Addr6 v _ => bool_decide (v = 1)%Z
  | AddrInvalid => false
  end.
Definition IsMulticast (a : Addr) : bool :=
  match Unmap a with
  | Addr4 v => bool_decide (top_bits 32 4 v = 0xe)%Z
  | Addr6 v _ => bool_decide (top_bits 128 8 v = 0xff)%Z
  | AddrInvalid => false
  end.
Definition IsLinkLocalUnicast (a : Addr) : bool :=
  match Unmap a with
  | Addr4 v => bool_decide (top_bits 32 16 v = 0xa9fe)%Z
  | Addr6 v _ => bool_decide (top_bits 128 10 v = 0x3fa)%Z
  | AddrInvalid => false
  end.
Definition IsLinkLocalMulticast (a : Addr) : bool :=
  match Unmap a with
  | Addr4 v => bool_decide (top_bits 32 24 v = 0xe00000)%Z
  | Addr6 v _ => bool_decide (Z.land (top_bits 128 16 v) 0xff0f = 0xff02)%Z
  | AddrInvalid => false
  end.
Definition IsPrivate (a : Addr) : bool :=
  match Unmap a with
  | Addr4 v =>
      bool_decide (top_bits 32 8 v = 10)%Z || bool_decide (top_bits 32 12 v = 0xac1)%Z ||
      bool_decide (top_bits 32 16 v = 0xc0a8)%Z
  | Addr6 v _ => bool_decide (top_bits 128 7 v = 0x7e)%Z
  | AddrInvalid => false
  end.
Definition IsGlobalUnicast (a : Addr) : bool :=
  match Unmap a with
  | AddrInvalid => false
  | Addr4 v as a =>
      negb (bool_decide (v = 0 ∨ v = 0xffffffff)%Z) && negb (IsLoopback a) && negb (IsMulticast a) &&
      negb (IsLinkLocalUnicast a)
  | Addr6 v zone as a =>
      negb (IsUnspecified a) && negb (IsLoopback a) && negb (IsMulticast a) && negb (IsLinkLocalUnicast a)
  end.

(** ** Prefixes *)
Record Prefix := mkPrefix { Prefix_ip : Addr; Prefix_bits : Z }.

(** [Prefix.Contains]: an address with a zone is in no prefix, and the
    families must be the same. *)
Definition Prefix_Contains (p : Prefix) (a : Addr) : bool :=
  match Prefix_ip p, a with
  | Addr4 v, Addr4 u => bool_decide (Z.shiftr (Z.lxor u v) (32 - Prefix_bits p) = 0)%Z
  | Addr6 v _, Addr6 u zone =>
      bool_decide (zone = EmptyString) && bool_decide (Z.shiftr (Z.lxor u v) (128 - Prefix_bits p) = 0)%Z
  | _, _ => false
  end.

(** ** Texts *)
Definition bytes_from (n : nat) (v : Z) : list Z := (λ i, Z.land (Z.shiftr v (8 * Z.of_nat (n - 1 - i))) 255) <$> seq 0 n.
Definition groups (v : Z) : list Z := (λ i, Z.land (Z.shiftr v (16 * Z.of_nat (7 - i))) 0xffff) <$> seq 0 8.

(** Hexadecimal without leading zeros. *)
Fixpoint hex_text (fuel : nat) (v : Z) : string :=
  match fuel with
  | O => EmptyString
  | S fuel =>
      let digit := String (hex_digit (Z.to_nat (v mod 16))) EmptyString in
      if bool_decide (v < 16)%Z then digit else hex_text fuel (v / 16) +:+ digit
  end.

(** The number of zero groups from each position, and the first longest run of
    two or more. *)
Fixpoint zero_run (l : list Z) : nat :=
  match l with g :: l' => if bool_decide (g = 0)%Z then S (zero_run l') else 0 | [] => 0 end.
Fixpoint longest_run (i : nat) (l : list Z) (best : nat * nat) : nat * nat :=
  match l with
  | [] => best
  | _ :: l' =>
      let n := zero_run l in
      longest_run (S i) l' (if bool_decide (2 ≤ n) && bool_decide (snd best < n) then (i, n) else best)
  end.
Definition text6 (v : Z) : string :=
  let l := hex_text 4 <$> groups v in
  let '(i, n) := longest_run 0 (groups v) (0, 0) in
  if bool_decide (n = 0) then Join ":" l
  else Join ":" (take i l) +:+ "::" +:+ Join ":" (drop (i + n) l).
Definition text4 (v : Z) : string := Join "." (FormatInt <$> bytes_from 4 v).
(** [Addr.String] *)
Definition Addr_String (a : Addr) : string :=
  match a with
  | AddrInvalid => "invalid IP"
  | Addr4 v => text4 v
  | Addr6 v zone =>
      (if Is4In6 a then "::ffff:" +:+ text4 (Z.land v 0xffffffff) else text6 v) +:+
      (if bool_decide (zone = EmptyString) then EmptyString else "%" +:+ zone)
  end.

(** ** net.SplitHostPort, the host alone *)
Definition SplitHostPort (hostport : string) : option string :=
  match cut_last colon hostport with
  | None => None
  | Some (before, port) =>
      match hostport with
      | String "[" rest =>
          match cut_at "]" rest with
          | None => None
          | Some (host, after) =>
              if bool_decide (after = String colon port) && negb (contains_byte "[" rest) &&
                 negb (contains_byte "]" after) then Some host else None
          end
      | _ =>
          if contains_byte colon before || contains_byte "[" hostport || contains_byte "]" hostport
          then None else Some before
      end
  end.

(** [strings.Trim(s, "[]")] *)
Definition is_bracket (a : ascii) : bool := bool_decide (a = "["%char) || bool_decide (a = "]"%char).
Fixpoint drop_brackets (l : list ascii) : list ascii :=
  match l with a :: l' => if is_bracket a then drop_brackets l' else l | [] => [] end.
Definition TrimBrackets (s : string) : string :=
  of_bytes (reverse (drop_brackets (reverse (drop_brackets (bytes_of s))))).

Example netip_texts :
  (Addr_String <$> ParseAddr "::ffff:192.0.2.1") = Some "::ffff:192.0.2.1" ∧
  (Addr_String <$> ParseAddr "2001:DB8:0:0:1:0:0:1") = Some "2001:db8::1:0:0:1" ∧
  (Addr_String <$> ParseAddr "fe80::1%eth0") = Some "fe80::1%eth0" ∧
  (Addr_String <$> ParseAddr "::") = Some "::" ∧ (Addr_String <$> ParseAddr "1::") = Some "1::" ∧
  ParseAddr "01.2.3.4" = None ∧ ParseAddr "1.2.3" = None ∧
  SplitHostPort "[::1]:80" = Some "::1" ∧ SplitHostPort "::1" = None ∧ SplitHostPort "10.0.0.1:5" = Some "10.0.0.1".
Proof. vm_compute. repeat split. Qed.
