(* ===== verification/Ssrf.v ===== *)
(** * The outbound address policy (internal/ssrf/ssrf.go)

    Which addresses the adapters that fetch configured URLs may dial, and the
    exact set of values the policy admits. *)
From stdpp Require Import base gmap list strings numbers.
From Stdlib Require Import ZArith Lia Ascii.
From S2P Require Import Prelude Bytes GoText GoNet GoUrl GoRunes GoNetip.

(** [netip.ParsePrefix] *)
Definition ParsePrefix (s : string) : option Prefix :=
  '(addr, bitsStr) ← cut_last "/" s;
  ip ← ParseAddr addr;
  bits ← (if is_octet bitsStr then decimal_value 0 bitsStr else None);
  match ip with
  | Addr4 _ => if bool_decide (bits ≤ 32)%Z then Some (mkPrefix ip bits) else None
  | Addr6 _ zone =>
      if bool_decide (zone = EmptyString) && bool_decide (bits ≤ 128)%Z then Some (mkPrefix ip bits) else None
  | AddrInvalid => None
  end.

Definition blocked_texts : list string :=
  ["0.0.0.0/8"; "100.64.0.0/10"; "192.0.0.0/24"; "192.0.2.0/24"; "198.18.0.0/15";
   "198.51.100.0/24"; "203.0.113.0/24"; "224.0.0.0/4"; "240.0.0.0/4";
   "2001:db8::/32"; "2001::/23"; "fc00::/7"; "fe80::/10"; "ff00::/8"].
(** Every text parses, so [netip.MustParsePrefix] does not panic. *)
Definition blockedPrefixes : list Prefix := omap ParsePrefix blocked_texts.

Definition PublicAddress (address : Addr) : bool :=
  let address := Unmap address in
  if bool_decide (address = AddrInvalid) || negb (IsGlobalUnicast address) || IsPrivate address ||
     IsLoopback address || IsLinkLocalUnicast address || IsLinkLocalMulticast address ||
     IsMulticast address || IsUnspecified address
  then false
  else negb (existsb (λ prefix, Prefix_Contains prefix address) blockedPrefixes).

(** [netip.AddrFromSlice] of the bytes of a [net.IP] *)
Definition AddrFromSlice (slice : list Z) : option Addr :=
  if bool_decide (length slice = 4) then Some (Addr4 (bytes_Z slice))
  else if bool_decide (length slice = 16) then Some (Addr6 (bytes_Z slice) EmptyString)
  else None.
Definition PublicIP (ip : list Z) : bool :=
  match AddrFromSlice ip with Some address => PublicAddress address | None => false end.

(** ** Ranges *)
Lemma blockedPrefixes_values : blockedPrefixes =
  [mkPrefix (Addr4 0) 8; mkPrefix (Addr4 0x64400000) 10; mkPrefix (Addr4 0xc0000000) 24;
   mkPrefix (Addr4 0xc0000200) 24; mkPrefix (Addr4 0xc6120000) 15; mkPrefix (Addr4 0xc6336400) 24;
   mkPrefix (Addr4 0xcb007100) 24; mkPrefix (Addr4 0xe0000000) 4; mkPrefix (Addr4 0xf0000000) 4;
   mkPrefix (Addr6 (0x20010db8 * 2 ^ 96) EmptyString) 32; mkPrefix (Addr6 (0x20010000 * 2 ^ 96) EmptyString) 23;
   mkPrefix (Addr6 (0xfc * 2 ^ 120) EmptyString) 7; mkPrefix (Addr6 (0xfe80 * 2 ^ 112) EmptyString) 10;
   mkPrefix (Addr6 (0xff * 2 ^ 120) EmptyString) 8].
Proof. by vm_compute. Qed.

(** The values that share the first bits of a prefix are an interval. *)
Lemma shared_bits u v k n c : (0 ≤ n → v = c * 2 ^ k → n - k = 0 → Z.shiftr (Z.lxor u v) n = 0 ↔
  c * 2 ^ k ≤ u < (c + 1) * 2 ^ k)%Z.
Proof.
  intros Hn -> Hk. assert (k = n) as -> by lia. rewrite Z.shiftr_lxor, Z.lxor_eq_0_iff, !Z.shiftr_div_pow2 by lia.
  rewrite Z.div_mul by lia. split.
  - intros <-. pose proof (Z.div_mod u (2 ^ n)). pose proof (Z.mod_pos_bound u (2 ^ n)). lia.
  - intros. symmetry. apply (Z.div_unique _ _ _ (u - c * 2 ^ n)); lia.
Qed.
Lemma top_bits_interval width n v c : (0 ≤ width - n → top_bits width n v = c ↔
  c * 2 ^ (width - n) ≤ v < (c + 1) * 2 ^ (width - n))%Z.
Proof.
  intros Hk. unfold top_bits. rewrite Z.shiftr_div_pow2 by lia. split.
  - intros <-. pose proof (Z.div_mod v (2 ^ (width - n))). pose proof (Z.mod_pos_bound v (2 ^ (width - n))). lia.
  - intros. symmetry. apply (Z.div_unique _ _ _ (v - c * 2 ^ (width - n))); lia.
Qed.

Lemma link_local_multicast_v6 v : (0 ≤ v < 2 ^ 128)%Z →
  Z.land (top_bits 128 16 v) 0xff0f = 0xff02%Z → (0xff * 2 ^ 120 ≤ v)%Z.
Proof.
  unfold top_bits. rewrite Z.shiftr_div_pow2 by lia. intros Hv H.
  apply (f_equal (λ x, Z.shiftr x 8)) in H. rewrite Z.shiftr_land in H.
  change (Z.shiftr 0xff0f 8) with 255%Z in H. rewrite (land_mask _ 8) in H by done.
  rewrite Z.shiftr_div_pow2, Z.div_div in H by lia. change (Z.shiftr 0xff02 8) with 255%Z in H.
  change (2 ^ (128 - 16) * 2 ^ 8)%Z with (2 ^ 120)%Z in H.
  pose proof (Z.div_mod v (2 ^ 120)). pose proof (Z.mod_pos_bound v (2 ^ 120)).
  pose proof (Z.mod_le (v / 2 ^ 120) (2 ^ 8)). lia.
Qed.

(** The closed ranges outside the policy, as the registries list them. *)
Definition reserved4 : list (Z * Z) :=
  [(0x00000000, 0x00ffffff) (* 0.0.0.0/8 *);       (0x0a000000, 0x0affffff) (* 10.0.0.0/8 *);
   (0x64400000, 0x647fffff) (* 100.64.0.0/10 *);   (0x7f000000, 0x7fffffff) (* 127.0.0.0/8 *);
   (0xa9fe0000, 0xa9feffff) (* 169.254.0.0/16 *);  (0xac100000, 0xac1fffff) (* 172.16.0.0/12 *);
   (0xc0000000, 0xc00000ff) (* 192.0.0.0/24 *);    (0xc0000200, 0xc00002ff) (* 192.0.2.0/24 *);
   (0xc0a80000, 0xc0a8ffff) (* 192.168.0.0/16 *);  (0xc6120000, 0xc613ffff) (* 198.18.0.0/15 *);
   (0xc6336400, 0xc63364ff) (* 198.51.100.0/24 *); (0xcb007100, 0xcb0071ff) (* 203.0.113.0/24 *);
   (0xe0000000, 0xffffffff) (* 224.0.0.0/3 *)]%Z.
Definition reserved6 : list (Z * Z) :=
  [(0, 1) (* ::, ::1 *);
   (0x2001_0000 * 2 ^ 96, 0x2001_0200 * 2 ^ 96 - 1) (* 2001::/23 *);
   (0x2001_0db8 * 2 ^ 96, 0x2001_0db9 * 2 ^ 96 - 1) (* 2001:db8::/32 *);
   (0xfc * 2 ^ 120, 0xfe * 2 ^ 120 - 1) (* fc00::/7 *);
   (0xfe80 * 2 ^ 112, 0xfec0 * 2 ^ 112 - 1) (* fe80::/10 *);
   (0xff * 2 ^ 120, 2 ^ 128 - 1) (* ff00::/8 *)]%Z.
(** With a zone no prefix contains the address and only the class tests are left. *)
Definition reserved6_zoned : list (Z * Z) :=
  [(1, 1) (* ::1 *);
   (0xfc * 2 ^ 120, 0xfe * 2 ^ 120 - 1) (* fc00::/7 *);
   (0xfe80 * 2 ^ 112, 0xfec0 * 2 ^ 112 - 1) (* fe80::/10 *);
   (0xff * 2 ^ 120, 2 ^ 128 - 1) (* ff00::/8 *)]%Z.
Definition outside (v : Z) (ranges : list (Z * Z)) : Prop := Forall (λ '(lo, hi), v < lo ∨ hi < v)%Z ranges.

Lemma existsb_false {A} (p : A → bool) l : existsb p l = false ↔ Forall (λ x, p x = false) l.
Proof.
  induction l as [|x l IH]; [by split|]. cbn [existsb]. rewrite orb_false_iff, IH.
  split; [intros []; by constructor|by inversion 1].
Qed.

(** The tests of the policy as one proposition. *)
Lemma PublicAddress_true a : Is4In6 a = false → PublicAddress a = true ↔
  (a ≠ AddrInvalid ∧ IsGlobalUnicast a = true ∧ IsPrivate a = false ∧ IsLoopback a = false ∧
   IsLinkLocalUnicast a = false ∧ IsLinkLocalMulticast a = false ∧ IsMulticast a = false ∧ IsUnspecified a = false) ∧
  Forall (λ p, Prefix_Contains p a = false) blockedPrefixes.
Proof.
  intros Hm. assert (Unmap a = a) as Hu by (destruct a; cbn in *; by rewrite ?Hm).
  unfold PublicAddress. cbv zeta. rewrite Hu, <- existsb_false.
  destruct (existsb _ _); destruct (IsGlobalUnicast a), (IsPrivate a), (IsLoopback a), (IsLinkLocalUnicast a),
    (IsLinkLocalMulticast a), (IsMulticast a), (IsUnspecified a); case_bool_decide; cbn; naive_solver.
Qed.

Lemma PublicAddress_4 v : (0 ≤ v < 2 ^ 32)%Z → PublicAddress (Addr4 v) = true ↔ outside v reserved4.
Proof.
  intros Hv. rewrite PublicAddress_true, blockedPrefixes_values by done.
  unfold IsGlobalUnicast, IsPrivate, IsLoopback, IsLinkLocalUnicast, IsLinkLocalMulticast, IsMulticast,
    IsUnspecified, outside, reserved4. rewrite !List.Forall_cons_iff, !List.Forall_nil_iff. unfold Prefix_Contains.
  cbn [Unmap Prefix_ip Prefix_bits].
  rewrite ?andb_true_iff, ?negb_true_iff, ?orb_false_iff, ?bool_decide_eq_false, ?top_bits_interval by lia.
  rewrite (shared_bits v 0 24 _ 0), (shared_bits v 0x64400000 22 _ 0x191), (shared_bits v 0xc0000000 8 _ 0xc00000),
    (shared_bits v 0xc0000200 8 _ 0xc00002), (shared_bits v 0xc6120000 17 _ 0x6309),
    (shared_bits v 0xc6336400 8 _ 0xc63364), (shared_bits v 0xcb007100 8 _ 0xcb0071),
    (shared_bits v 0xe0000000 28 _ 0xe), (shared_bits v 0xf0000000 28 _ 0xf) by (done || lia).
  assert (Addr4 v ≠ AddrInvalid ↔ True) as -> by done. assert (false = false ↔ True) as -> by done. lia.
Qed.

Lemma PublicAddress_6 v : (0 ≤ v < 2 ^ 128)%Z → Is4In6 (Addr6 v EmptyString) = false →
  PublicAddress (Addr6 v EmptyString) = true ↔ outside v reserved6.
Proof.
  intros Hv Hm. pose proof (link_local_multicast_v6 v Hv) as Hl.
  rewrite PublicAddress_true, blockedPrefixes_values by done.
  unfold IsGlobalUnicast, IsPrivate, IsLoopback, IsLinkLocalUnicast, IsLinkLocalMulticast, IsMulticast,
    IsUnspecified, outside, reserved6. cbn [Unmap]. rewrite Hm.
  rewrite !List.Forall_cons_iff, !List.Forall_nil_iff. unfold IsUnspecified, IsLoopback, IsMulticast,
    IsLinkLocalUnicast, Prefix_Contains. cbn [Unmap Prefix_ip Prefix_bits]. rewrite Hm.
  rewrite (bool_decide_true (EmptyString = EmptyString)), !andb_true_l, !andb_true_r by done.
  rewrite ?andb_true_iff, ?negb_true_iff, ?orb_false_iff, ?bool_decide_eq_false, ?top_bits_interval by lia.
  rewrite (shared_bits v (0x20010db8 * 2 ^ 96) 96 _ 0x20010db8), (shared_bits v (0x20010000 * 2 ^ 96) 105 _ 0x100080),
    (shared_bits v (0xfc * 2 ^ 120) 121 _ 0x7e), (shared_bits v (0xfe80 * 2 ^ 112) 118 _ 0x3fa),
    (shared_bits v (0xff * 2 ^ 120) 120 _ 0xff) by (done || lia).
  assert (Addr6 v EmptyString ≠ AddrInvalid ↔ True) as -> by done.
  assert (false = false ↔ True) as -> by done. lia.
Qed.

Lemma PublicAddress_6_zoned v zone : (0 ≤ v < 2 ^ 128)%Z → zone ≠ EmptyString → Is4In6 (Addr6 v zone) = false →
  PublicAddress (Addr6 v zone) = true ↔ outside v reserved6_zoned.
Proof.
  intros Hv Hz Hm. pose proof (link_local_multicast_v6 v Hv) as Hl.
  rewrite PublicAddress_true, blockedPrefixes_values by done.
  unfold IsGlobalUnicast, IsPrivate, IsLoopback, IsLinkLocalUnicast, IsLinkLocalMulticast, IsMulticast,
    IsUnspecified, outside, reserved6_zoned. cbn [Unmap]. rewrite Hm.
  rewrite !List.Forall_cons_iff, !List.Forall_nil_iff. unfold IsUnspecified, IsLoopback, IsMulticast,
    IsLinkLocalUnicast, Prefix_Contains. cbn [Unmap Prefix_ip Prefix_bits]. rewrite Hm.
  rewrite !(bool_decide_false (zone = EmptyString)) by done.
  rewrite ?andb_false_l, ?andb_false_r, ?negb_false, ?andb_true_l, ?andb_true_r.
  rewrite ?andb_true_iff, ?negb_true_iff, ?orb_false_iff, ?bool_decide_eq_false, ?top_bits_interval by lia.
  assert (Addr6 v zone ≠ AddrInvalid ↔ True) as -> by done.
  assert (false = false ↔ True) as -> by done. lia.
Qed.

(** An IPv4 address mapped into IPv6 is judged as the IPv4 address. *)
Lemma PublicAddress_mapped v zone : Is4In6 (Addr6 v zone) = true →
  PublicAddress (Addr6 v zone) = PublicAddress (Addr4 (Z.land v 0xffffffff)).
Proof. intros H. unfold PublicAddress. cbn [Unmap]. by rewrite H. Qed.

(** C21: the policy admits exactly the addresses outside the listed ranges. An
    IPv4 address is dialable iff it is in none of [reserved4], mapped into IPv6
    or not; an IPv6 address without zone iff it is in none of [reserved6]; and
    an IPv6 address with a zone iff it is in none of the shorter
    [reserved6_zoned], since no prefix contains a zoned address. In particular
    no loopback, private, link-local, CGNAT or multicast address passes under
    any spelling. The site-local range fec0::/10, the discard prefix 100::/64,
    the local translation prefix 64:ff9b:1::/48 and the 6to4 form of 127.0.0.1,
    none of them globally routable, do pass, and so do the documentation range
    and the unspecified address once they carry a zone. *)
Theorem public_address_exact v zone :
  ((0 ≤ v < 2 ^ 32)%Z → PublicAddress (Addr4 v) = true ↔ outside v reserved4) ∧
  ((0 ≤ v < 2 ^ 128)%Z →
     if Is4In6 (Addr6 v zone)
     then PublicAddress (Addr6 v zone) = true ↔ outside (v mod 2 ^ 32) reserved4
     else if bool_decide (zone = EmptyString)
     then PublicAddress (Addr6 v zone) = true ↔ outside v reserved6
     else PublicAddress (Addr6 v zone) = true ↔ outside v reserved6_zoned) ∧
  omap ParseAddr ["127.0.0.1"; "::ffff:10.0.0.1"; "169.254.169.254"; "100.100.100.200"; "::1"; "fd00::1";
                  "::1%eth0"; "fe80::1%eth0"] ≫= (λ a, [PublicAddress a]) =
    [false; false; false; false; false; false; false; false] ∧
  omap ParseAddr ["fec0::1"; "100::1"; "64:ff9b:1::1"; "2002:7f00:1::"; "2001:db8::1%eth0"; "::%eth0"] ≫=
    (λ a, [PublicAddress a]) = [true; true; true; true; true; true].
Proof.
  split_and!; [apply PublicAddress_4| |by vm_compute..].
  intros Hv. destruct (Is4In6 (Addr6 v zone)) eqn:Hm.
  - rewrite PublicAddress_mapped, (land_mask _ 32) by done. apply PublicAddress_4. by apply Z.mod_pos_bound.
  - case_bool_decide as Hz; [subst; by apply PublicAddress_6|by apply PublicAddress_6_zoned].
Qed.

Lemma public_address_exact_witness :
  PublicAddress (Addr4 0x08080808) = true ∧ PublicAddress (Addr6 (0x26064700 * 2 ^ 96) EmptyString) = true.
Proof.
  split.
  - apply (proj1 (public_address_exact 0x08080808 EmptyString) ltac:(lia)). unfold outside, reserved4.
    repeat constructor; lia.
  - apply (proj1 (proj2 (public_address_exact (0x26064700 * 2 ^ 96) EmptyString)) ltac:(lia)). unfold outside, reserved6.
    repeat constructor; lia.
Defined.
