(* ===== verification/GoHttp.v ===== *)
(** * net/http, mime and query strings

    What the HTTP adapters use of [net/url]'s query strings, of
    [mime.ParseMediaType], of [Request.ParseForm] and [Request.BasicAuth], of
    [strconv.Atoi], and of a [json.Decoder] reading one document into a struct
    with raw members.  [lower] stands for the Unicode tables behind
    [strings.ToLower]. *)
From stdpp Require Import base gmap list strings numbers sorting.
From Stdlib Require Import ZArith Lia Ascii.
From S2P Require Import Prelude Bytes GoText GoNet GoJson GoUrl GoEncoding.

(** ** Query strings *)
(** [url.Values]: the values of a key are in the order of the list. *)
Definition Values : Type := list (string * string).
Definition named (key : string) (v : Values) : list (string * string) := List.filter (λ p, bool_decide (p.1 = key)) v.
Definition Values_Get (v : Values) (key : string) : string :=
  match named key v with p :: _ => p.2 | [] => EmptyString end.
Definition Values_Del (key : string) (v : Values) : list (string * string) := List.filter (λ p, negb (bool_decide (p.1 = key))) v.
Definition Values_Set (v : Values) (key value : string) : Values := Values_Del key v ++ [(key, value)].

Lemma named_Set v key key' value :
  named key' (Values_Set v key value) = if decide (key = key') then [(key, value)] else named key' v.
Proof.
  unfold named, Values_Set, Values_Del. rewrite List.filter_app. cbn [List.filter fst].
  induction v as [|p v IH]; cbn [List.filter]; [by repeat case_decide; repeat case_bool_decide; try congruence|].
  repeat (case_bool_decide; cbn [negb List.filter]); rewrite ?app_nil_l in *; case_decide; cbn in *; congruence.
Qed.
Lemma Values_Get_Set v key value : Values_Get (Values_Set v key value) key = value.
Proof. unfold Values_Get. rewrite named_Set. by case_decide. Qed.
Lemma Values_Get_Set_ne v key key' value : key' ≠ key → Values_Get (Values_Set v key value) key' = Values_Get v key'.
Proof. intros. unfold Values_Get. rewrite named_Set. by case_decide. Qed.

(** [url.QueryUnescape] *)
Fixpoint QueryUnescape (s : string) : option string :=
  match s with
  | EmptyString => Some EmptyString
  | String c s' =>
      if bool_decide (c = "%"%char) then
        match s' with
        | String h (String l r) =>
            hi ← hex_value h; lo ← hex_value l; String (ascii_of_nat (16 * hi + lo)) <$> QueryUnescape r
        | _ => None
        end
      else String (if bool_decide (c = "+"%char) then " "%char else c) <$> QueryUnescape s'
  end.
(** [url.QueryEscape] *)
Fixpoint QueryEscape (s : string) : string :=
  match s with
  | EmptyString => EmptyString
  | String c s' =>
      if is_alphanumeric c || one_of "-_.~" c then String c (QueryEscape s')
      else if bool_decide (c = " "%char) then String "+" (QueryEscape s')
      else String "%" (String (hex_upper (nat_of_ascii c / 16)) (String (hex_upper (nat_of_ascii c mod 16))
             (QueryEscape s')))
  end.

(** [url.ParseQuery]: the pairs that could be read, and whether all could. *)
Definition query_pair (part : string) : option (string * string) :=
  let '(key, value) := default (part, EmptyString) (cut_at "=" part) in
  key ← QueryUnescape key; value ← QueryUnescape value; Some (key, value).
Definition max_query_params : Z := 10000.
Definition ParseQuery (query : string) : Values * bool :=
  let parts := Split "&" query in
  if bool_decide (max_query_params < Z.of_nat (length parts))%Z then ([], false)
  else
    let parts := base.filter (λ p, p ≠ EmptyString) parts in
    let good := base.filter (λ p, contains_byte ";" p = false) parts in
    (omap query_pair good,
     bool_decide (good = parts) && forallb (λ p, bool_decide (is_Some (query_pair p))) good).

(** [Values.Encode]: sorted by key *)
Definition key_le (p q : string * string) : Prop := String.leb p.1 q.1 = true.
#[export] Instance key_le_dec : RelDecision key_le.
Proof. intros p q. unfold key_le. apply _. Defined.
Definition Values_Encode (v : Values) : string :=
  Join "&" ((λ p, QueryEscape p.1 +:+ "=" +:+ QueryEscape p.2) <$> merge_sort key_le v).

(** ** Media types *)
Definition is_tspecial (a : ascii) : bool := one_of "()<>@,;:\/[]?=" a || bool_decide (a = double_quote).
Definition is_token_char (a : ascii) : bool := in_range 0x21 0x7E (byte_Z a) && negb (is_tspecial a).
Fixpoint consumeToken (s : string) : string * string :=
  match s with
  | String a s' =>
      if is_token_char a then let '(t, r) := consumeToken s' in (String a t, r) else (EmptyString, s)
  | EmptyString => (EmptyString, EmptyString)
  end.
Definition TrimLeft (s : string) : string := Z_string (trim_left (string_Z s)).

(** The rest of a quoted value after its opening quote. *)
Fixpoint quoted_value (s : string) : option (string * string) :=
  match s with
  | EmptyString => None
  | String a s' =>
      if bool_decide (a = double_quote) then Some (EmptyString, s')
      else
        let plain := if bool_decide (a = "013"%char) || bool_decide (a = "010"%char) then None
                     else '(v, r) ← quoted_value s'; Some (String a v, r) in
        match s' with
        | String b s'' =>
            if bool_decide (a = "\"%char) && is_tspecial b
            then '(v, r) ← quoted_value s''; Some (String b v, r) else plain
        | EmptyString => plain
        end
  end.
(** [consumeValue]; [None] when nothing was consumed *)
Definition consumeValue (s : string) : option (string * string) :=
  match s with
  | String a s' =>
      if bool_decide (a = double_quote) then quoted_value s'
      else let '(t, r) := consumeToken s in if bool_decide (t = EmptyString) then None else Some (t, r)
  | EmptyString => None
  end.
(** [consumeMediaParam] *)
Definition consumeMediaParam (s : string) : option (string * string * string) :=
  match TrimLeft s with
  | String ";" r =>
      let '(param, r) := consumeToken (TrimLeft r) in
      if bool_decide (param = EmptyString) then None
      else
        match TrimLeft r with
        | String "=" r => '(value, r) ← consumeValue (TrimLeft r); Some (str_lower param, value, r)
        | _ => None
        end
  | _ => None
  end.

(** The parameters of a media type: whether they are well formed, a repeated
    one repeating its value. *)
Fixpoint media_params (fuel : nat) (seen : list (string * string)) (s : string) : bool :=
  match fuel with
  | O => true
  | S fuel =>
      let s := TrimLeft s in
      if bool_decide (s = EmptyString) then true
      else
        match consumeMediaParam s with
        | None => bool_decide (TrimSpace s = ";")
        | Some (key, value, rest) =>
            if existsb (λ p, bool_decide (p.1 = key) && negb (bool_decide (p.2 = value))) seen then false
            else media_params fuel ((key, value) :: seen) rest
        end
  end.
Definition is_media_type (s : string) : bool :=
  let '(typ, rest) := consumeToken s in
  if bool_decide (typ = EmptyString) then false
  else
    match rest with
    | EmptyString => true
    | String a rest =>
        bool_decide (a = "/"%char) &&
        let '(subtype, rest) := consumeToken rest in
        negb (bool_decide (subtype = EmptyString)) && bool_decide (rest = EmptyString)
    end.
(** [mime.ParseMediaType], the type alone *)
Definition ParseMediaType (lower : string → string) (v : string) : option string :=
  let base := match cut_at ";" v with Some (l, _) => l | None => v end in
  let mediatype := TrimSpace (lower base) in
  if is_media_type mediatype && media_params (S (str_len v)) [] (str_drop (str_len base) v)
  then Some mediatype else None.

(** ** Requests *)

(** What the handlers read of an [http.Request]; an absent header is empty. *)
Record HTTPRequest := mkHTTPRequest {
  Method : string;
  Path : string;
  RawQuery : string;
  Authorization : string;
  ContentType : string;
  Body : string }.

(** [Request.ParseForm] of a body limited by [http.MaxBytesReader]: the
    parameters of the body *)
Definition ParseForm (lower : string → string) (limit : Z) (r : HTTPRequest) : option Values :=
  mediatype ← ParseMediaType lower
    (if bool_decide (ContentType r = EmptyString) then "application/octet-stream" else ContentType r);
  form ← (if bool_decide (mediatype = "application/x-www-form-urlencoded")
          then
            if bool_decide (limit < Z.of_nat (str_len (Body r)))%Z then None
            else let '(v, ok) := ParseQuery (Body r) in if ok then Some v else None
          else Some []);
  if (ParseQuery (RawQuery r)).2 then Some form else None.

(** [Request.BasicAuth] *)
Definition BasicAuth (r : HTTPRequest) : option (string * string) :=
  let auth := Authorization r in
  if bool_decide (str_lower (str_take 6 auth) = "basic ")
  then
    c ← base64_Std_decode (string_Z (str_drop 6 auth));
    cut_at colon (Z_string c)
  else None.

(** [strconv.Atoi] *)
Definition Atoi (s : string) : option Z :=
  match s with
  | String "+" (String a s') => if is_digit a then parse_int64 (string_Z (String a s')) else None
  | _ => parse_int64 (string_Z s)
  end.

(** ** Documents

    The members of an object with the text of each value. *)
Fixpoint raw_members (fuel : nat) (l : list Z) : option (list (list Z * (json * list Z)) * list Z) :=
  match fuel with
  | O => None
  | S fuel =>
      match l with
      | 34%Z :: r =>
          '(k, r1) ← json_string (length r) r;
          match skip_space r1 with
          | 58%Z :: r2 =>
              let value := skip_space r2 in
              '(v, r3) ← json_value (json_fuel value) 9999 value;
              let member := (k, (v, take (length value - length r3) value)) in
              match skip_space r3 with
              | 125%Z :: r4 => Some ([member], r4)
              | 44%Z :: r4 => '(ms, r5) ← raw_members fuel (skip_space r4); Some (member :: ms, r5)
              | _ => None
              end
          | _ => None
          end
      | _ => None
      end
  end.
(** The first value of a stream: its members if it is an object, none for
    [null], and what follows it. *)
Definition raw_object (s : string) : option (list (list Z * (json * list Z)) * list Z) :=
  let l := skip_space (string_Z s) in
  '(v, rest) ← json_value (json_fuel l) 10000 l;
  match v with
  | JNull => Some ([], rest)
  | JObject _ =>
      match l with
      | 123%Z :: r =>
          match skip_space r with
          | 125%Z :: _ => Some ([], rest)
          | members => '(ms, _) ← raw_members (S (length members)) members; Some (ms, rest)
          end
      | _ => None
      end
  | _ => None
  end.
Fixpoint raw_fields {A} (assign : list Z → json → list Z → A → option A)
    (l : list (list Z * (json * list Z))) (a : A) : option A :=
  match l with
  | [] => Some a
  | (k, (v, raw)) :: l' => a ← assign k v raw a; raw_fields assign l' a
  end.
(** [Decoder.Decode] of the first value into a struct, and whether a second
    call meets the end of the stream. *)
Definition decode_first {A} (assign : list Z → json → list Z → A → option A) (zero : A) (body : string) :
    option (A * bool) :=
  '(l, rest) ← raw_object body;
  a ← raw_fields assign l zero;
  Some (a, bool_decide (skip_space rest = [])).
(** The only document of a body of at most [limit] bytes. *)
Definition decode_document {A} (assign : list Z → json → list Z → A → option A) (zero : A) (limit : Z)
    (body : string) : option A :=
  if bool_decide (limit < Z.of_nat (str_len body))%Z then None
  else
    '(a, ended) ← decode_first assign zero body;
    if ended : bool then Some a else None.

Example http_texts :
  ParseMediaType str_lower "Application/JSON; charset=utf-8; charset=utf-8 ;" = Some "application/json" ∧
  ParseMediaType str_lower "application/json; a=1; a=2" = None ∧
  ParseQuery "a=1&b=x+y%21&&a=2" = ([("a", "1"); ("b", "x y!"); ("a", "2")], true) ∧
  (ParseQuery "a=%zz&b=1").2 = false ∧
  Values_Encode (Values_Set [("b", "1"); ("a", "x y")] "b" "?") = "a=x+y&b=%3F" ∧
  BasicAuth (mkHTTPRequest "POST" "/" EmptyString "basic YTpiOmM=" EmptyString EmptyString) = Some ("a", "b:c") ∧
  Atoi "+12" = Some 12%Z ∧ Atoi "+" = None ∧ Atoi "9223372036854775808" = None ∧
  raw_object (Z_string [123; 34; 97; 34; 58; 32; 91; 49; 44; 32; 50; 93; 32; 125]%Z) =
    Some ([([97%Z], (JArray [JNumber [49%Z]; JNumber [50%Z]], [91; 49; 44; 32; 50; 93]%Z))], []).
Proof. vm_compute. repeat split. Qed.
