(* ===== verification/Uuid.v ===== *)
(** * Identifiers (src/internal/uuid/uuid.go, src/uuid.go)

    A UUID is sixteen bytes, comparable and usable as a map key; its text form
    is hexadecimal with dashes.  Besides the parser and the printer the file
    holds the byte-level construction of a version-7 identifier that
    [Manager.newID] performs. *)
From stdpp Require Import base countable list strings numbers.
From Stdlib Require Import ZArith Lia Ascii.
From S2P Require Import Prelude Bytes.

(** [type UUID [16]byte] *)
Record UUID := mkUUID {
  uuid_0 : ascii; uuid_1 : ascii; uuid_2 : ascii; uuid_3 : ascii;
  uuid_4 : ascii; uuid_5 : ascii; uuid_6 : ascii; uuid_7 : ascii;
  uuid_8 : ascii; uuid_9 : ascii; uuid_10 : ascii; uuid_11 : ascii;
  uuid_12 : ascii; uuid_13 : ascii; uuid_14 : ascii; uuid_15 : ascii }.

(** The bytes of an identifier, as the slice [u[:]]. *)
Definition UUID_list (u : UUID) : list ascii :=
  [uuid_0 u; uuid_1 u; uuid_2 u; uuid_3 u; uuid_4 u; uuid_5 u; uuid_6 u; uuid_7 u;
   uuid_8 u; uuid_9 u; uuid_10 u; uuid_11 u; uuid_12 u; uuid_13 u; uuid_14 u; uuid_15 u].

(** The conversion [UUID(b)] of a slice of length 16. *)
Definition UUID_of_list (l : list ascii) : option UUID :=
  match l with
  | [a0; a1; a2; a3; a4; a5; a6; a7; a8; a9; a10; a11; a12; a13; a14; a15] =>
      Some (mkUUID a0 a1 a2 a3 a4 a5 a6 a7 a8 a9 a10 a11 a12 a13 a14 a15)
  | _ => None
  end.

Lemma UUID_of_list_list u : UUID_of_list (UUID_list u) = Some u.
Proof. by destruct u. Qed.

Lemma UUID_list_of_list l u : UUID_of_list l = Some u → UUID_list u = l.
Proof.
  unfold UUID_of_list. intros H. do 17 (destruct l as [|? l]; try done). by simplify_eq.
Qed.

#[export] Instance UUID_list_inj : Inj (=) (=) UUID_list.
Proof. intros u v H. apply (f_equal UUID_of_list) in H. rewrite !UUID_of_list_list in H. congruence. Qed.

#[export] Instance UUID_eq_dec : EqDecision UUID.
Proof.
  refine (λ u v, cast_if (decide (UUID_list u = UUID_list v)));
    [by apply UUID_list_inj|by intros ->].
Defined.

#[export] Instance UUID_countable : Countable UUID :=
  inj_countable UUID_list UUID_of_list UUID_of_list_list.

(** [UUID{}], the absent identifier. *)
Definition Nil : UUID :=
  mkUUID zero zero zero zero zero zero zero zero zero zero zero zero zero zero zero zero.

#[export] Instance UUID_inhabited : Inhabited UUID := populate Nil.

Definition UUID_IsZero (u : UUID) : bool := bool_decide (u = Nil).

(** [UUID.String], through [AppendText]: five dash-separated groups. *)
Definition UUID_String (u : UUID) : string :=
  let h i j := hex_Encode (of_bytes (take (j - i) (drop i (UUID_list u)))) in
  h 0 4 +:+ String "-" (h 4 6 +:+ String "-" (h 6 8 +:+ String "-" (h 8 10 +:+ String "-" (h 10 16)))).

Definition TrimPrefix (s prefix : string) : string :=
  if String.prefix prefix s then str_drop (str_len prefix) s else s.
Definition HasSuffix (s suffix : string) : bool :=
  bool_decide (str_len suffix ≤ str_len s) &&
  bool_decide (str_drop (str_len s - str_len suffix) s = suffix).
Definition TrimSuffix (s suffix : string) : string :=
  if HasSuffix s suffix then str_take (str_len s - str_len suffix) s else s.

(** [hex.Decode] of the five groups of the dashed form. *)
Definition decode_groups (b : string) : option UUID :=
  d0 ← hex_Decode (str_slice 0 8 b);
  d1 ← hex_Decode (str_slice 9 13 b);
  d2 ← hex_Decode (str_slice 14 18 b);
  d3 ← hex_Decode (str_slice 19 23 b);
  d4 ← hex_Decode (str_slice 24 36 b);
  UUID_of_list (bytes_of d0 ++ bytes_of d1 ++ bytes_of d2 ++ bytes_of d3 ++ bytes_of d4).

(** The four dashes at their places. *)
Definition dashed (b : string) : bool :=
  bool_decide (str_nth b 8 = "-"%char) && bool_decide (str_nth b 13 = "-"%char) &&
  bool_decide (str_nth b 18 = "-"%char) && bool_decide (str_nth b 23 = "-"%char).

(** [UUID.UnmarshalText]: dashed, braced, urn and compact spellings. *)
Definition UnmarshalText (b : string) : option UUID :=
  if bool_decide (str_len b = 32) then
    d ← hex_Decode b; UUID_of_list (bytes_of d)
  else
    let b :=
      if bool_decide (str_len b = 45) then TrimPrefix b "urn:uuid:"
      else if bool_decide (str_len b = 38) then TrimSuffix (TrimPrefix b "{") "}"
      else b in
    if bool_decide (str_len b ≠ 36) then None
    else if negb (dashed b) then None
    else decode_groups b.

(** [uuid.Parse] *)
Definition uuid_Parse (s : string) : option UUID := UnmarshalText s.

(** [UUID.Compare], byte by byte. *)
Fixpoint compare_bytes (l k : list ascii) : Z :=
  match l, k with
  | a :: l', b :: k' =>
      if bool_decide (byte_Z a < byte_Z b)%Z then -1
      else if bool_decide (byte_Z b < byte_Z a)%Z then 1
      else compare_bytes l' k'
  | _, _ => 0
  end%Z.
Definition UUID_Compare (u v : UUID) : Z := compare_bytes (UUID_list u) (UUID_list v).

(** [ParseUUID]: the canonical form only, whatever the case of its digits. *)
Definition ParseUUID (value : string) : result UUID :=
  let reject := Error (Wrapped (value +:+ " is not a UUID") ErrInvalidInput) in
  if bool_decide (str_len value ≠ 36) || negb (dashed value) then reject
  else match uuid_Parse value with
       | Some id => Ok id
       | None => reject
       end.

(** [validUUIDv7]: version 7 and the RFC 9562 variant. *)
Definition validUUIDv7 (id : UUID) : bool :=
  bool_decide (Z.land (byte_Z (uuid_6 id)) 0xf0 = 0x70)%Z &&
  bool_decide (Z.land (byte_Z (uuid_8 id)) 0xc0 = 0x80)%Z.

(** The bytes [Manager.newID] lays out: a 48-bit timestamp, the version and a
    12-bit sequence, the variant and 62 random bits. *)
Definition v7_bytes (timestamp sequence : Z) (rnd : UUID) : UUID :=
  let ts i := Z_byte (Z.shiftr timestamp i) in
  mkUUID (ts 40%Z) (ts 32%Z) (ts 24%Z) (ts 16%Z) (ts 8%Z) (ts 0%Z)
    (Z_byte (Z.lor 0x70 (Z.shiftr sequence 8 mod 256))) (Z_byte sequence)
    (Z_byte (Z.lor (Z.land (byte_Z (uuid_8 rnd)) 0x3f) 0x80))
    (uuid_9 rnd) (uuid_10 rnd) (uuid_11 rnd) (uuid_12 rnd) (uuid_13 rnd) (uuid_14 rnd)
    (uuid_15 rnd).

(** ** Text form *)
Lemma UUID_String_slices u :
  let h i j := hex_Encode (of_bytes (take (j - i) (drop i (UUID_list u)))) in
  str_slice 0 8 (UUID_String u) = h 0 4 ∧ str_slice 9 13 (UUID_String u) = h 4 6 ∧
  str_slice 14 18 (UUID_String u) = h 6 8 ∧ str_slice 19 23 (UUID_String u) = h 8 10 ∧
  str_slice 24 36 (UUID_String u) = h 10 16.
Proof. by destruct u. Qed.

Lemma decode_groups_String u : decode_groups (UUID_String u) = Some u.
Proof.
  unfold decode_groups. destruct (UUID_String_slices u) as (-> & -> & -> & -> & ->).
  rewrite !hex_Decode_Encode. cbn [mbind option_bind]. rewrite !bytes_of_of.
  apply UUID_of_list_list.
Qed.

Lemma UUID_String_len u : str_len (UUID_String u) = 36.
Proof. by destruct u. Qed.

Lemma UUID_String_dashed u : dashed (UUID_String u) = true.
Proof. by destruct u. Qed.

Lemma UnmarshalText_String u : UnmarshalText (UUID_String u) = Some u.
Proof.
  unfold UnmarshalText. rewrite UUID_String_len.
  change (bool_decide (36 = 32)) with false. change (bool_decide (36 = 45)) with false.
  change (bool_decide (36 = 38)) with false. cbv beta iota zeta.
  rewrite UUID_String_len, UUID_String_dashed. apply decode_groups_String.
Qed.

Lemma ParseUUID_of_String u : ParseUUID (UUID_String u) = Ok u.
Proof.
  unfold ParseUUID, uuid_Parse.
  by rewrite UUID_String_len, UUID_String_dashed, UnmarshalText_String.
Qed.

#[export] Instance UUID_String_inj : Inj (=) (=) UUID_String.
Proof.
  intros u v H. apply (f_equal ParseUUID) in H. rewrite !ParseUUID_of_String in H. congruence.
Qed.

Lemma UUID_String_non_empty u : UUID_String u ≠ EmptyString.
Proof. by destruct u. Qed.

Lemma str_lower_app s t : str_lower (s +:+ t) = str_lower s +:+ str_lower t.
Proof. unfold str_lower. by rewrite bytes_of_app, fmap_app, of_bytes_app. Qed.

Lemma str_lower_len s : str_len (str_lower s) = str_len s.
Proof. unfold str_lower. by rewrite <- !bytes_of_length, bytes_of_of, length_fmap. Qed.

Lemma str_lower_cons a s : str_lower (String a s) = String (ascii_lower a) (str_lower s).
Proof. done. Qed.

(** A dashed string of 36 bytes is its five groups and its four dashes. *)
Lemma dashed_split b :
  str_len b = 36 → dashed b = true →
  b = str_slice 0 8 b +:+ String "-" (str_slice 9 13 b +:+ String "-" (str_slice 14 18 b +:+
      String "-" (str_slice 19 23 b +:+ String "-" (str_slice 24 36 b)))).
Proof.
  intros Hlen Hd. unfold dashed in Hd. bool_cases. unfold str_nth in *.
  unfold str_len in Hlen.
  do 36 (destruct b as [|? b]; [discriminate|]). destruct b; [|discriminate].
  cbn in *. by subst.
Qed.

Lemma hex_Decode_len s r : hex_Decode s = Some r → str_len s = 2 * str_len r.
Proof.
  intros Hd%hex_Encode_Decode. rewrite <- hex_Encode_len, Hd. by rewrite str_lower_len.
Qed.

Lemma decode_groups_inv b u :
  str_len b = 36 → dashed b = true → decode_groups b = Some u →
  UUID_String u = str_lower b.
Proof.
  intros Hlen Hdash Hdec. unfold decode_groups in Hdec.
  destruct (hex_Decode (str_slice 0 8 b)) as [d0|] eqn:E0; [|done].
  destruct (hex_Decode (str_slice 9 13 b)) as [d1|] eqn:E1; [|done].
  destruct (hex_Decode (str_slice 14 18 b)) as [d2|] eqn:E2; [|done].
  destruct (hex_Decode (str_slice 19 23 b)) as [d3|] eqn:E3; [|done].
  destruct (hex_Decode (str_slice 24 36 b)) as [d4|] eqn:E4; [|done].
  cbn [mbind option_bind] in Hdec. apply UUID_list_of_list in Hdec.
  assert (∀ i j, i ≤ j ≤ 36 → str_len (str_slice i j b) = j - i) as Hsl.
  { intros i j Hij. unfold str_slice, str_take, str_drop.
    rewrite bytes_of_of, <- bytes_of_length, bytes_of_of, length_take, length_drop.
    rewrite bytes_of_length, Hlen. lia. }
  pose proof (hex_Decode_len _ _ E0) as L0. rewrite Hsl in L0 by lia.
  pose proof (hex_Decode_len _ _ E1) as L1. rewrite Hsl in L1 by lia.
  pose proof (hex_Decode_len _ _ E2) as L2. rewrite Hsl in L2 by lia.
  pose proof (hex_Decode_len _ _ E3) as L3. rewrite Hsl in L3 by lia.
  pose proof (hex_Decode_len _ _ E4) as L4. rewrite Hsl in L4 by lia.
  rewrite (dashed_split b) by done. unfold UUID_String. rewrite Hdec.
  repeat (rewrite str_lower_app || rewrite str_lower_cons).
  rewrite <- (hex_Encode_Decode _ _ E0), <- (hex_Encode_Decode _ _ E1),
    <- (hex_Encode_Decode _ _ E2), <- (hex_Encode_Decode _ _ E3), <- (hex_Encode_Decode _ _ E4).
  clear -L0 L1 L2 L3 L4. unfold str_len in *.
  do 4 (destruct d0 as [|? d0]; [cbn in L0; lia|]). destruct d0; [|cbn in L0; lia].
  do 2 (destruct d1 as [|? d1]; [cbn in L1; lia|]). destruct d1; [|cbn in L1; lia].
  do 2 (destruct d2 as [|? d2]; [cbn in L2; lia|]). destruct d2; [|cbn in L2; lia].
  do 2 (destruct d3 as [|? d3]; [cbn in L3; lia|]). destruct d3; [|cbn in L3; lia].
  do 6 (destruct d4 as [|? d4]; [cbn in L4; lia|]). destruct d4; [|cbn in L4; lia].
  reflexivity.
Qed.

Lemma ParseUUID_Ok_inv value u :
  ParseUUID value = Ok u → UUID_String u = str_lower value.
Proof.
  unfold ParseUUID, uuid_Parse, UnmarshalText. intros H.
  destruct (bool_decide (str_len value ≠ 36)) eqn:Hlen; [done|].
  destruct (dashed value) eqn:Hd; [|done]. simpl in H. bool_cases.
  apply dec_stable in Hlen. rewrite Hlen in H.
  change (bool_decide (36 = 32)) with false in H. change (bool_decide (36 = 45)) with false in H.
  change (bool_decide (36 = 38)) with false in H. cbv beta iota zeta in H.
  rewrite Hlen, Hd in H. simpl in H. case_match; simplify_eq.
  by apply decode_groups_inv.
Qed.

(** ** Order *)
Lemma compare_bytes_app n a b l k :
  (0 ≤ a < 256 ^ Z.of_nat n)%Z → (0 ≤ b < 256 ^ Z.of_nat n)%Z →
  compare_bytes ((Z_byte <$> Sha256.be_bytes n a) ++ l) ((Z_byte <$> Sha256.be_bytes n b) ++ k) =
  (if bool_decide (a < b) then -1 else if bool_decide (b < a) then 1 else compare_bytes l k)%Z.
Proof.
  revert a b l k. induction n as [|n IH]; intros a b l k Ha Hb.
  { assert (a = 0 ∧ b = 0)%Z as [-> ->] by (simpl in *; lia). done. }
  rewrite Nat2Z.inj_succ, Z.pow_succ_r in Ha, Hb by lia.
  simpl. rewrite !fmap_app, <- !(assoc_L (++)).
  rewrite IH by (Z.div_mod_to_equations; nia). simpl. rewrite !byte_Z_byte, !Zmod_mod.
  repeat case_bool_decide; try done; exfalso; Z.div_mod_to_equations; lia.
Qed.

Lemma v7_bytes_prefix timestamp sequence rnd :
  (0 ≤ sequence < 4096)%Z →
  UUID_list (v7_bytes timestamp sequence rnd) =
  (Z_byte <$> Sha256.be_bytes 8 (timestamp mod 2 ^ 48 * 2 ^ 16 + 0x7000 + sequence)) ++
  drop 8 (UUID_list (v7_bytes timestamp sequence rnd)).
Proof.
  intros Hs. unfold UUID_list, v7_bytes.
  cbn [drop Sha256.be_bytes fmap list_fmap app uuid_0 uuid_1 uuid_2 uuid_3 uuid_4 uuid_5
    uuid_6 uuid_7 uuid_8 uuid_9 uuid_10 uuid_11 uuid_12 uuid_13 uuid_14 uuid_15].
  assert (∀ x y, x mod 256 = y mod 256 → Z_byte x = Z_byte y)%Z as Hb
    by (intros x y Hxy; unfold Z_byte; by rewrite Hxy).
  assert (Z.lor 0x70 (Z.shiftr sequence 8 mod 256) = 0x70 + sequence / 256)%Z as ->.
  { rewrite Z.shiftr_div_pow2 by lia. change (2 ^ 8)%Z with 256%Z.
    assert (0 ≤ sequence / 256 < 16)%Z by (Z.div_mod_to_equations; lia).
    rewrite (Z.mod_small (sequence / 256)) by lia.
    assert (∀ n, (n < 16)%nat → Z.lor 0x70 (Z.of_nat n) = 0x70 + Z.of_nat n)%Z as Hl
      by (intros n Hn; do 16 (destruct n as [|n]; [done|]); lia).
    specialize (Hl (Z.to_nat (sequence / 256))). rewrite Z2Nat.id in Hl by lia.
    apply Hl. lia. }
  rewrite !Z.shiftr_div_pow2 by lia. rewrite !Zdiv.Zdiv_Zdiv by lia.
  repeat (apply f_equal2; [apply Hb|]).
  all: try reflexivity; change (2 ^ 48)%Z with 281474976710656%Z; change (2 ^ 16)%Z with 65536%Z.
  all: Z.div_mod_to_equations; lia.
Qed.

(** ** Case of the digits *)
Lemma hex_value_lower a : hex_value (ascii_lower a) = hex_value a.
Proof. by destruct a as [[] [] [] [] [] [] [] []]. Qed.

Lemma ascii_lower_dash a : bool_decide (ascii_lower a = "-"%char) = bool_decide (a = "-"%char).
Proof. by destruct a as [[] [] [] [] [] [] [] []]. Qed.

Lemma hex_Decode_lower s : hex_Decode (str_lower s) = hex_Decode s.
Proof.
  assert (∀ n s, str_len s ≤ n → hex_Decode (str_lower s) = hex_Decode s) as Hn; [|by eauto].
  clear s. induction n as [|n IH]; intros s Hlen.
  { destruct s; [done|]. unfold str_len in Hlen. simpl in Hlen. lia. }
  destruct s as [|h [|l s]]; [done|done|].
  rewrite !str_lower_cons. cbn [hex_Decode]. rewrite !hex_value_lower, IH; [done|].
  unfold str_len in *. cbn [String.length] in Hlen. lia.
Qed.

Lemma str_slice_lower i j s : str_slice i j (str_lower s) = str_lower (str_slice i j s).
Proof.
  unfold str_slice, str_take, str_drop, str_lower.
  by rewrite !bytes_of_of, fmap_take, fmap_drop.
Qed.

Lemma dashed_lower b : str_len b = 36 → dashed (str_lower b) = dashed b.
Proof.
  intros Hlen. unfold dashed.
  assert (∀ i, i < 36 → str_nth (str_lower b) i = ascii_lower (str_nth b i)) as Hn.
  { intros i Hi. unfold str_nth, str_lower. rewrite bytes_of_of.
    rewrite <- (map_nth ascii_lower). apply nth_indep.
    rewrite length_fmap, bytes_of_length. lia. }
  by rewrite !Hn, !ascii_lower_dash by lia.
Qed.

Lemma ParseUUID_36 value :
  str_len value = 36 →
  ParseUUID value =
  match (if dashed value then decode_groups value else None) with
  | Some id => Ok id
  | None => Error (Wrapped (value +:+ " is not a UUID") ErrInvalidInput)
  end.
Proof.
  intros Hlen. unfold ParseUUID, uuid_Parse, UnmarshalText. rewrite Hlen.
  change (bool_decide (36 = 32)) with false. change (bool_decide (36 = 45)) with false.
  change (bool_decide (36 = 38)) with false. change (bool_decide (36 ≠ 36)) with false.
  cbv beta iota zeta. rewrite Hlen. change (bool_decide (36 ≠ 36)) with false.
  by destruct (dashed value).
Qed.

(** [ParseUUID] accepts exactly the spellings that agree with the
    canonical rendering [String] up to the case of the digits, and answers
    the identifier so rendered; in particular parsing a rendered identifier
    gives it back and no other spelling of it is accepted. *)
Theorem ParseUUID_iff value u :
  ParseUUID value = Ok u ↔ str_lower value = UUID_String u.
Proof.
  split; [by intros ->%ParseUUID_Ok_inv|]. intros Hl.
  assert (str_len value = 36) as Hlen by (rewrite <- str_lower_len, Hl; apply UUID_String_len).
  rewrite ParseUUID_36 by done.
  assert (dashed value = true) as ->
    by (rewrite <- dashed_lower, Hl by done; apply UUID_String_dashed).
  pose proof (decode_groups_String u) as Hd. rewrite <- Hl in Hd.
  unfold decode_groups in Hd. rewrite !str_slice_lower, !hex_Decode_lower in Hd.
  fold (decode_groups value) in Hd. by rewrite Hd.
Qed.

Lemma v7_bytes_valid timestamp sequence rnd :
  (0 ≤ sequence < 4096)%Z → validUUIDv7 (v7_bytes timestamp sequence rnd) = true.
Proof.
  intros Hs. unfold validUUIDv7, v7_bytes. cbn [uuid_6 uuid_8]. rewrite !byte_Z_byte.
  apply andb_true_iff; split; apply bool_decide_eq_true.
  - assert (∀ n, (n < 16)%nat → Z.land (Z.lor 0x70 (Z.of_nat n) mod 256) 0xf0 = 0x70)%Z as Hl
      by (intros n Hn; do 16 (destruct n as [|n]; [done|]); lia).
    rewrite Z.shiftr_div_pow2 by lia. change (2 ^ 8)%Z with 256%Z.
    assert (0 ≤ sequence / 256 < 16)%Z by (Z.div_mod_to_equations; lia).
    rewrite (Z.mod_small (sequence / 256)) by lia.
    specialize (Hl (Z.to_nat (sequence / 256))). rewrite Z2Nat.id in Hl by lia. apply Hl. lia.
  - by destruct (uuid_8 rnd) as [[] [] [] [] [] [] [] []].
Qed.

(** Identifiers of increasing (timestamp, sequence) pairs increase. *)
Lemma v7_bytes_lt t1 s1 r1 t2 s2 r2 :
  (0 ≤ t1 < 2 ^ 48)%Z → (0 ≤ t2 < 2 ^ 48)%Z → (0 ≤ s1 < 4096)%Z → (0 ≤ s2 < 4096)%Z →
  (t1 < t2 ∨ t1 = t2 ∧ s1 < s2)%Z →
  UUID_Compare (v7_bytes t1 s1 r1) (v7_bytes t2 s2 r2) = (-1)%Z.
Proof.
  intros H1 H2 Hs1 Hs2 Hlt. unfold UUID_Compare.
  rewrite v7_bytes_prefix, (v7_bytes_prefix t2) by done.
  rewrite !(Z.mod_small _ (2 ^ 48)) by done.
  change (2 ^ 48)%Z with 281474976710656%Z in *. change (2 ^ 16)%Z with 65536%Z.
  rewrite compare_bytes_app by (change (256 ^ Z.of_nat 8)%Z with 18446744073709551616%Z; lia).
  rewrite bool_decide_eq_true_2; [done|lia].
Qed.

Lemma compare_bytes_refl l : compare_bytes l l = 0%Z.
Proof. induction l as [|a l IH]; [done|]. simpl. rewrite bool_decide_eq_false_2 by lia. done. Qed.

Lemma UUID_Compare_refl u : UUID_Compare u u = 0%Z.
Proof. apply compare_bytes_refl. Qed.

(** ** The order of identifiers is that of their big-endian values *)
Fixpoint bytes_value (l : list ascii) : Z :=
  match l with
  | [] => 0
  | b :: l' => byte_Z b * 256 ^ Z.of_nat (length l') + bytes_value l'
  end%Z.
Definition UUID_value (u : UUID) : Z := bytes_value (UUID_list u).

Lemma bytes_value_bound l : (0 ≤ bytes_value l < 256 ^ Z.of_nat (length l))%Z.
Proof.
  induction l as [|b l IH]; [done|]. cbn [bytes_value length].
  rewrite Nat2Z.inj_succ, Z.pow_succ_r by lia. pose proof (byte_Z_bound b). nia.
Qed.

Lemma bytes_value_inj l k : length l = length k → bytes_value l = bytes_value k → l = k.
Proof.
  revert k. induction l as [|a l IH]; intros [|b k] Hlen H; try done.
  injection Hlen as Hlen. cbn [bytes_value] in H.
  pose proof (bytes_value_bound l) as Hl. pose proof (bytes_value_bound k) as Hk. rewrite <- Hlen in *.
  assert (byte_Z a = byte_Z b) as Hab by nia.
  rewrite Hab in H. f_equal; [by apply (inj byte_Z)|]. apply IH; [done|lia].
Qed.

Lemma compare_bytes_value l k :
  length l = length k →
  compare_bytes l k = if bool_decide (bytes_value l < bytes_value k)%Z then (-1)%Z
                      else if bool_decide (bytes_value k < bytes_value l)%Z then 1%Z else 0%Z.
Proof.
  revert k. induction l as [|a l IH]; intros [|b k] Hlen; try done.
  injection Hlen as Hlen. cbn [compare_bytes bytes_value].
  pose proof (bytes_value_bound l) as Hl. pose proof (bytes_value_bound k) as Hk. rewrite <- Hlen in *.
  set (n := (256 ^ Z.of_nat (length l))%Z) in *.
  case_bool_decide as H1; [by rewrite bool_decide_true by nia|].
  case_bool_decide as H2; [rewrite bool_decide_false, bool_decide_true by nia; done|].
  assert (byte_Z a = byte_Z b) as -> by lia. rewrite (IH k Hlen).
  repeat case_bool_decide; done || lia.
Qed.

Lemma UUID_Compare_value u v :
  UUID_Compare u v = if bool_decide (UUID_value u < UUID_value v)%Z then (-1)%Z
                     else if bool_decide (UUID_value v < UUID_value u)%Z then 1%Z else 0%Z.
Proof. apply compare_bytes_value. by destruct u, v. Qed.

Lemma UUID_value_range u : (0 ≤ UUID_value u < 2 ^ 128)%Z.
Proof.
  unfold UUID_value. pose proof (bytes_value_bound (UUID_list u)) as H.
  assert (length (UUID_list u) = 16) as Hl by (by destruct u). rewrite Hl in H. exact H.
Qed.

#[export] Instance UUID_value_inj : Inj (=) (=) UUID_value.
Proof.
  intros u v H. apply bytes_value_inj in H; [|by destruct u, v].
  pose proof (UUID_of_list_list u) as Hu. rewrite H, UUID_of_list_list in Hu. congruence.
Qed.
