(* ===== verification/Types.v ===== *)
(** * Records and constants (src/types.go)

    Every struct the components below store or exchange is a record whose
    fields carry the struct's name first ([User_Email] is [User.Email]);
    [X_zero] is the zero value of [X], what a lookup of a missing map key
    yields.  Go's defined string types are strings; [time.Time] is [Z]
    (nanoseconds), [*time.Time] is [option Z], [[]byte] is [string].  The
    sources copy a record before handing it out or storing it; values have no
    identity here, so those copies need no counterpart. *)
From stdpp Require Import base gmap list strings numbers.
From Stdlib Require Import ZArith.
From S2P Require Import Prelude Bytes Uuid.

Abbreviation Role := string (only parsing).
Abbreviation WorkspacePermission := string (only parsing).
Abbreviation MembershipStatus := string (only parsing).
Abbreviation InstanceRole := string (only parsing).
Abbreviation Permission := string (only parsing).
Abbreviation AuthMethod := string (only parsing).
Abbreviation AssuranceLevel := Z (only parsing).
Abbreviation StepUpPolicy := string (only parsing).
Abbreviation StepUpScope := string (only parsing).
Abbreviation AuditOutcome := string (only parsing).
Abbreviation ActorKind := string (only parsing).
Abbreviation SSOProviderKind := string (only parsing).

Definition RoleMember : Role := "member".
Definition RoleAdmin : Role := "admin".

Definition PermissionWorkspaceAccess : WorkspacePermission := "workspace.access".
Definition PermissionWorkspaceUsersRead : WorkspacePermission := "workspace.users.read".
Definition PermissionWorkspaceUsersWrite : WorkspacePermission := "workspace.users.write".
Definition PermissionWorkspaceSettingsWrite : WorkspacePermission := "workspace.settings.write".
Definition PermissionWorkspaceRBACWrite : WorkspacePermission := "workspace.rbac.write".
Definition PermissionWorkspaceAuditRead : WorkspacePermission := "workspace.audit.read".
Definition PermissionWorkspaceCredentialsManage : WorkspacePermission :=
  "workspace.credentials.manage".
Definition PermissionOAuthResourceManage : WorkspacePermission := "oauth.resource.manage".

Definition MembershipActive : MembershipStatus := "active".
Definition MembershipSuspended : MembershipStatus := "suspended".
Definition ProvisioningSourceLocal : string := "local".

Definition InstanceRoleRoot : InstanceRole := "root".
Definition InstanceRoleDeveloper : InstanceRole := "developer".
Definition InstanceRoleSupport : InstanceRole := "support".
Definition InstanceRoleMarketing : InstanceRole := "marketing".
Definition InstanceRoleSales : InstanceRole := "sales".

Definition PermissionAdminAccess : Permission := "admin.access".
Definition PermissionAuditRead : Permission := "admin.audit.read".
Definition PermissionSettingsRead : Permission := "admin.settings.read".
Definition PermissionSettingsWrite : Permission := "admin.settings.write".
Definition PermissionUsersRead : Permission := "admin.users.read".
Definition PermissionUsersWrite : Permission := "admin.users.write".
Definition PermissionWorkspacesRead : Permission := "admin.workspaces.read".
Definition PermissionWorkspacesWrite : Permission := "admin.workspaces.write".
Definition PermissionRBACRead : Permission := "admin.rbac.read".
Definition PermissionRBACWrite : Permission := "admin.rbac.write".
Definition PermissionInstanceRolesRead : Permission := "admin.instance_roles.read".
Definition PermissionInstanceRolesWrite : Permission := "admin.instance_roles.write".

Definition MethodPassword : AuthMethod := "password".
Definition MethodTOTP : AuthMethod := "totp".
Definition MethodPasskey : AuthMethod := "passkey".
Definition MethodPAT : AuthMethod := "pat".
Definition MethodSSO : AuthMethod := "sso".
Definition MethodEmail : AuthMethod := "email".

Definition AAL1 : AssuranceLevel := 1%Z.
Definition AAL2 : AssuranceLevel := 2%Z.

Definition StepUpPolicyRequired : StepUpPolicy := "required".
Definition StepUpPolicyUserCapable : StepUpPolicy := "user_capable".
Definition StepUpPolicyNone : StepUpPolicy := "none".
Definition StepUpScopePAT : StepUpScope := "pat".
Definition StepUpScopeWorkspace : StepUpScope := "workspace".
Definition StepUpScopeAccount : StepUpScope := "account".
Definition StepUpScopeAdmin : StepUpScope := "admin".

Definition AuditSucceeded : AuditOutcome := "succeeded".
Definition AuditFailed : AuditOutcome := "failed".
Definition ActorUser : ActorKind := "user".
Definition ActorService : ActorKind := "service".
Definition ActorSystem : ActorKind := "system".

Definition SSOProviderGoogle : SSOProviderKind := "google".
Definition SSOProviderGitHub : SSOProviderKind := "github".
Definition SSOProviderMicrosoft : SSOProviderKind := "microsoft".
Definition SSOProviderOIDC : SSOProviderKind := "oidc".
Definition SSOProviderSAML : SSOProviderKind := "saml".

(** [type RoleDefinition struct], types.go:47 *)
Record RoleDefinition := mkRoleDefinition {
  RoleDefinition_Role : Role; RoleDefinition_Permissions : list WorkspacePermission;
  RoleDefinition_Inherits : list Role }.
#[export] Instance RoleDefinition_eta : Settable RoleDefinition := λ r,
  mkRoleDefinition (RoleDefinition_Role r) (RoleDefinition_Permissions r)
  (RoleDefinition_Inherits r).
Definition RoleDefinition_zero : RoleDefinition :=
  mkRoleDefinition EmptyString [] [].

(** [type InstanceAdministrator struct], types.go:103 *)
Record InstanceAdministrator := mkInstanceAdministrator {
  InstanceAdministrator_UserID : UUID; InstanceAdministrator_Role : InstanceRole;
  InstanceAdministrator_CreatedAt : Z; InstanceAdministrator_UpdatedAt : Z }.
#[export] Instance InstanceAdministrator_eta : Settable InstanceAdministrator := λ r,
  mkInstanceAdministrator (InstanceAdministrator_UserID r) (InstanceAdministrator_Role r)
  (InstanceAdministrator_CreatedAt r) (InstanceAdministrator_UpdatedAt r).
Definition InstanceAdministrator_zero : InstanceAdministrator :=
  mkInstanceAdministrator Nil EmptyString zero_time zero_time.

(** [type TrustedRequest struct], types.go:114 *)
Record TrustedRequest := mkTrustedRequest {
  TrustedRequest_Local : bool }.
#[export] Instance TrustedRequest_eta : Settable TrustedRequest := λ r,
  mkTrustedRequest (TrustedRequest_Local r).
Definition TrustedRequest_zero : TrustedRequest :=
  mkTrustedRequest false.

(** [type StepUpPolicies struct], types.go:220 *)
Record StepUpPolicies := mkStepUpPolicies {
  StepUpPolicies_Default : StepUpPolicy; StepUpPolicies_PAT : StepUpPolicy;
  StepUpPolicies_Workspace : StepUpPolicy; StepUpPolicies_Account : StepUpPolicy;
  StepUpPolicies_Admin : StepUpPolicy }.
#[export] Instance StepUpPolicies_eta : Settable StepUpPolicies := λ r,
  mkStepUpPolicies (StepUpPolicies_Default r) (StepUpPolicies_PAT r) (StepUpPolicies_Workspace
  r) (StepUpPolicies_Account r) (StepUpPolicies_Admin r).
Definition StepUpPolicies_zero : StepUpPolicies :=
  mkStepUpPolicies EmptyString EmptyString EmptyString EmptyString EmptyString.

(** [type User struct], types.go:284 *)
Record User := mkUser {
  User_ID : UUID; User_Email : string; User_DisplayName : string; User_Disabled : bool;
  User_LastSeenAt : option Z; User_CreatedAt : Z; User_UpdatedAt : Z }.
#[export] Instance User_eta : Settable User := λ r,
  mkUser (User_ID r) (User_Email r) (User_DisplayName r) (User_Disabled r) (User_LastSeenAt r)
  (User_CreatedAt r) (User_UpdatedAt r).
Definition User_zero : User :=
  mkUser Nil EmptyString EmptyString false None zero_time zero_time.

(** [type EmailAddress struct], types.go:297 *)
Record EmailAddress := mkEmailAddress {
  EmailAddress_ID : UUID; EmailAddress_UserID : UUID; EmailAddress_Address : string;
  EmailAddress_Primary : bool; EmailAddress_VerifiedAt : option Z; EmailAddress_CreatedAt : Z;
  EmailAddress_UpdatedAt : Z }.
#[export] Instance EmailAddress_eta : Settable EmailAddress := λ r,
  mkEmailAddress (EmailAddress_ID r) (EmailAddress_UserID r) (EmailAddress_Address r)
  (EmailAddress_Primary r) (EmailAddress_VerifiedAt r) (EmailAddress_CreatedAt r)
  (EmailAddress_UpdatedAt r).
Definition EmailAddress_zero : EmailAddress :=
  mkEmailAddress Nil Nil EmptyString false None zero_time zero_time.

(** [type EmailVerificationCredential struct], types.go:309 *)
Record EmailVerificationCredential := mkEmailVerificationCredential {
  EmailVerificationCredential_EmailID : UUID; EmailVerificationCredential_Digest : string;
  EmailVerificationCredential_ExpiresAt : Z }.
#[export] Instance EmailVerificationCredential_eta : Settable EmailVerificationCredential := λ r,
  mkEmailVerificationCredential (EmailVerificationCredential_EmailID r)
  (EmailVerificationCredential_Digest r) (EmailVerificationCredential_ExpiresAt r).
Definition EmailVerificationCredential_zero : EmailVerificationCredential :=
  mkEmailVerificationCredential Nil EmptyString zero_time.

(** [type IssuedEmailVerification struct], types.go:318 *)
Record IssuedEmailVerification := mkIssuedEmailVerification {
  IssuedEmailVerification_Email : EmailAddress; IssuedEmailVerification_Token : string;
  IssuedEmailVerification_Deliverable : bool }.
#[export] Instance IssuedEmailVerification_eta : Settable IssuedEmailVerification := λ r,
  mkIssuedEmailVerification (IssuedEmailVerification_Email r) (IssuedEmailVerification_Token r)
  (IssuedEmailVerification_Deliverable r).
Definition IssuedEmailVerification_zero : IssuedEmailVerification :=
  mkIssuedEmailVerification EmailAddress_zero EmptyString false.

(** [type PasswordResetCredential struct], types.go:330 *)
Record PasswordResetCredential := mkPasswordResetCredential {
  PasswordResetCredential_ID : UUID; PasswordResetCredential_UserID : UUID;
  PasswordResetCredential_Digest : string; PasswordResetCredential_CreatedAt : Z;
  PasswordResetCredential_ExpiresAt : Z; PasswordResetCredential_UsedAt : option Z }.
#[export] Instance PasswordResetCredential_eta : Settable PasswordResetCredential := λ r,
  mkPasswordResetCredential (PasswordResetCredential_ID r) (PasswordResetCredential_UserID r)
  (PasswordResetCredential_Digest r) (PasswordResetCredential_CreatedAt r)
  (PasswordResetCredential_ExpiresAt r) (PasswordResetCredential_UsedAt r).
Definition PasswordResetCredential_zero : PasswordResetCredential :=
  mkPasswordResetCredential Nil Nil EmptyString zero_time zero_time None.

(** [type IssuedPasswordReset struct], types.go:342 *)
Record IssuedPasswordReset := mkIssuedPasswordReset {
  IssuedPasswordReset_UserID : UUID; IssuedPasswordReset_Token : string;
  IssuedPasswordReset_ExpiresAt : Z; IssuedPasswordReset_Deliverable : bool }.
#[export] Instance IssuedPasswordReset_eta : Settable IssuedPasswordReset := λ r,
  mkIssuedPasswordReset (IssuedPasswordReset_UserID r) (IssuedPasswordReset_Token r)
  (IssuedPasswordReset_ExpiresAt r) (IssuedPasswordReset_Deliverable r).
Definition IssuedPasswordReset_zero : IssuedPasswordReset :=
  mkIssuedPasswordReset Nil EmptyString zero_time false.

(** [type EmailAuthenticationCredential struct], types.go:356 *)
Record EmailAuthenticationCredential := mkEmailAuthenticationCredential {
  EmailAuthenticationCredential_ID : UUID; EmailAuthenticationCredential_UserID : UUID;
  EmailAuthenticationCredential_EmailID : UUID; EmailAuthenticationCredential_Digest : string;
  EmailAuthenticationCredential_CreatedAt : Z; EmailAuthenticationCredential_ExpiresAt : Z;
  EmailAuthenticationCredential_UsedAt : option Z }.
#[export] Instance EmailAuthenticationCredential_eta : Settable EmailAuthenticationCredential := λ r,
  mkEmailAuthenticationCredential (EmailAuthenticationCredential_ID r)
  (EmailAuthenticationCredential_UserID r) (EmailAuthenticationCredential_EmailID r)
  (EmailAuthenticationCredential_Digest r) (EmailAuthenticationCredential_CreatedAt r)
  (EmailAuthenticationCredential_ExpiresAt r) (EmailAuthenticationCredential_UsedAt r).
Definition EmailAuthenticationCredential_zero : EmailAuthenticationCredential :=
  mkEmailAuthenticationCredential Nil Nil Nil EmptyString zero_time zero_time None.

(** [type IssuedEmailAuthentication struct], types.go:369 *)
Record IssuedEmailAuthentication := mkIssuedEmailAuthentication {
  IssuedEmailAuthentication_UserID : UUID; IssuedEmailAuthentication_EmailID : UUID;
  IssuedEmailAuthentication_Token : string; IssuedEmailAuthentication_ExpiresAt : Z;
  IssuedEmailAuthentication_Deliverable : bool }.
#[export] Instance IssuedEmailAuthentication_eta : Settable IssuedEmailAuthentication := λ r,
  mkIssuedEmailAuthentication (IssuedEmailAuthentication_UserID r)
  (IssuedEmailAuthentication_EmailID r) (IssuedEmailAuthentication_Token r)
  (IssuedEmailAuthentication_ExpiresAt r) (IssuedEmailAuthentication_Deliverable r).
Definition IssuedEmailAuthentication_zero : IssuedEmailAuthentication :=
  mkIssuedEmailAuthentication Nil Nil EmptyString zero_time false.

(** [type Workspace struct], types.go:400 *)
Record Workspace := mkWorkspace {
  Workspace_ID : UUID; Workspace_Name : string; Workspace_RequireMFA : bool;
  Workspace_CreatedAt : Z; Workspace_UpdatedAt : Z; Workspace_DisabledAt : option Z }.
#[export] Instance Workspace_eta : Settable Workspace := λ r,
  mkWorkspace (Workspace_ID r) (Workspace_Name r) (Workspace_RequireMFA r) (Workspace_CreatedAt
  r) (Workspace_UpdatedAt r) (Workspace_DisabledAt r).
Definition Workspace_zero : Workspace :=
  mkWorkspace Nil EmptyString false zero_time zero_time None.

(** [type Membership struct], types.go:413 *)
Record Membership := mkMembership {
  Membership_WorkspaceID : UUID; Membership_UserID : UUID; Membership_Role : Role;
  Membership_Status : MembershipStatus; Membership_ProvisioningSource : string;
  Membership_CreatedAt : Z; Membership_UpdatedAt : Z }.
#[export] Instance Membership_eta : Settable Membership := λ r,
  mkMembership (Membership_WorkspaceID r) (Membership_UserID r) (Membership_Role r)
  (Membership_Status r) (Membership_ProvisioningSource r) (Membership_CreatedAt r)
  (Membership_UpdatedAt r).
Definition Membership_zero : Membership :=
  mkMembership Nil Nil EmptyString EmptyString EmptyString zero_time zero_time.

(** [type PasswordCredential struct], types.go:428 *)
Record PasswordCredential := mkPasswordCredential {
  PasswordCredential_UserID : UUID; PasswordCredential_Hash : string;
  PasswordCredential_UpdatedAt : Z }.
#[export] Instance PasswordCredential_eta : Settable PasswordCredential := λ r,
  mkPasswordCredential (PasswordCredential_UserID r) (PasswordCredential_Hash r)
  (PasswordCredential_UpdatedAt r).
Definition PasswordCredential_zero : PasswordCredential :=
  mkPasswordCredential Nil EmptyString zero_time.

(** [type TOTPFactor struct], types.go:437 *)
Record TOTPFactor := mkTOTPFactor {
  TOTPFactor_UserID : UUID; TOTPFactor_EncryptedSecret : string; TOTPFactor_Active : bool;
  TOTPFactor_LastUsedStep : Z; TOTPFactor_CreatedAt : Z; TOTPFactor_UpdatedAt : Z }.
#[export] Instance TOTPFactor_eta : Settable TOTPFactor := λ r,
  mkTOTPFactor (TOTPFactor_UserID r) (TOTPFactor_EncryptedSecret r) (TOTPFactor_Active r)
  (TOTPFactor_LastUsedStep r) (TOTPFactor_CreatedAt r) (TOTPFactor_UpdatedAt r).
Definition TOTPFactor_zero : TOTPFactor :=
  mkTOTPFactor Nil EmptyString false 0%Z zero_time zero_time.

(** [type RecoveryCode struct], types.go:450 *)
Record RecoveryCode := mkRecoveryCode {
  RecoveryCode_UserID : UUID; RecoveryCode_Digest : string; RecoveryCode_UsedAt : option Z }.
#[export] Instance RecoveryCode_eta : Settable RecoveryCode := λ r,
  mkRecoveryCode (RecoveryCode_UserID r) (RecoveryCode_Digest r) (RecoveryCode_UsedAt r).
Definition RecoveryCode_zero : RecoveryCode :=
  mkRecoveryCode Nil EmptyString None.

(** [type Passkey struct], types.go:459 *)
Record Passkey := mkPasskey {
  Passkey_ID : UUID; Passkey_UserID : UUID; Passkey_Name : string;
  Passkey_CredentialID : string; Passkey_CredentialJSON : string; Passkey_CreatedAt : Z;
  Passkey_LastUsedAt : option Z }.
#[export] Instance Passkey_eta : Settable Passkey := λ r,
  mkPasskey (Passkey_ID r) (Passkey_UserID r) (Passkey_Name r) (Passkey_CredentialID r)
  (Passkey_CredentialJSON r) (Passkey_CreatedAt r) (Passkey_LastUsedAt r).
Definition Passkey_zero : Passkey :=
  mkPasskey Nil Nil EmptyString EmptyString EmptyString zero_time None.

(** [type WorkspaceInvitation struct], types.go:472 *)
Record WorkspaceInvitation := mkWorkspaceInvitation {
  WorkspaceInvitation_ID : UUID; WorkspaceInvitation_WorkspaceID : UUID;
  WorkspaceInvitation_Email : string; WorkspaceInvitation_Role : Role;
  WorkspaceInvitation_InvitedBy : UUID; WorkspaceInvitation_Digest : string;
  WorkspaceInvitation_CreatedAt : Z; WorkspaceInvitation_ExpiresAt : Z;
  WorkspaceInvitation_AcceptedAt : option Z; WorkspaceInvitation_AcceptedUserID : UUID;
  WorkspaceInvitation_RevokedAt : option Z }.
#[export] Instance WorkspaceInvitation_eta : Settable WorkspaceInvitation := λ r,
  mkWorkspaceInvitation (WorkspaceInvitation_ID r) (WorkspaceInvitation_WorkspaceID r)
  (WorkspaceInvitation_Email r) (WorkspaceInvitation_Role r) (WorkspaceInvitation_InvitedBy r)
  (WorkspaceInvitation_Digest r) (WorkspaceInvitation_CreatedAt r)
  (WorkspaceInvitation_ExpiresAt r) (WorkspaceInvitation_AcceptedAt r)
  (WorkspaceInvitation_AcceptedUserID r) (WorkspaceInvitation_RevokedAt r).
Definition WorkspaceInvitation_zero : WorkspaceInvitation :=
  mkWorkspaceInvitation Nil Nil EmptyString EmptyString Nil EmptyString zero_time zero_time None Nil None.

(** [type IssuedWorkspaceInvitation struct], types.go:489 *)
Record IssuedWorkspaceInvitation := mkIssuedWorkspaceInvitation {
  IssuedWorkspaceInvitation_Invitation : WorkspaceInvitation;
  IssuedWorkspaceInvitation_Token : string }.
#[export] Instance IssuedWorkspaceInvitation_eta : Settable IssuedWorkspaceInvitation := λ r,
  mkIssuedWorkspaceInvitation (IssuedWorkspaceInvitation_Invitation r)
  (IssuedWorkspaceInvitation_Token r).
Definition IssuedWorkspaceInvitation_zero : IssuedWorkspaceInvitation :=
  mkIssuedWorkspaceInvitation WorkspaceInvitation_zero EmptyString.

(** [type InviteToWorkspaceInput struct], types.go:496 *)
Record InviteToWorkspaceInput := mkInviteToWorkspaceInput {
  InviteToWorkspaceInput_Email : string; InviteToWorkspaceInput_Role : Role }.
#[export] Instance InviteToWorkspaceInput_eta : Settable InviteToWorkspaceInput := λ r,
  mkInviteToWorkspaceInput (InviteToWorkspaceInput_Email r) (InviteToWorkspaceInput_Role r).
Definition InviteToWorkspaceInput_zero : InviteToWorkspaceInput :=
  mkInviteToWorkspaceInput EmptyString EmptyString.

(** [type WorkspaceDomain struct], types.go:508 *)
Record WorkspaceDomain := mkWorkspaceDomain {
  WorkspaceDomain_ID : UUID; WorkspaceDomain_WorkspaceID : UUID;
  WorkspaceDomain_Domain : string; WorkspaceDomain_Challenge : string;
  WorkspaceDomain_ConfirmedAt : option Z; WorkspaceDomain_AutoJoin : bool;
  WorkspaceDomain_AutoJoinRole : Role; WorkspaceDomain_SSOProviderConfigurationID : UUID;
  WorkspaceDomain_EnforceSSO : bool; WorkspaceDomain_CreatedAt : Z;
  WorkspaceDomain_UpdatedAt : Z }.
#[export] Instance WorkspaceDomain_eta : Settable WorkspaceDomain := λ r,
  mkWorkspaceDomain (WorkspaceDomain_ID r) (WorkspaceDomain_WorkspaceID r)
  (WorkspaceDomain_Domain r) (WorkspaceDomain_Challenge r) (WorkspaceDomain_ConfirmedAt r)
  (WorkspaceDomain_AutoJoin r) (WorkspaceDomain_AutoJoinRole r)
  (WorkspaceDomain_SSOProviderConfigurationID r) (WorkspaceDomain_EnforceSSO r)
  (WorkspaceDomain_CreatedAt r) (WorkspaceDomain_UpdatedAt r).
Definition WorkspaceDomain_zero : WorkspaceDomain :=
  mkWorkspaceDomain Nil Nil EmptyString EmptyString None false EmptyString Nil false zero_time zero_time.

(** [type IssuedWorkspaceDomain struct], types.go:541 *)
Record IssuedWorkspaceDomain := mkIssuedWorkspaceDomain {
  IssuedWorkspaceDomain_Domain : WorkspaceDomain; IssuedWorkspaceDomain_Challenge : string }.
#[export] Instance IssuedWorkspaceDomain_eta : Settable IssuedWorkspaceDomain := λ r,
  mkIssuedWorkspaceDomain (IssuedWorkspaceDomain_Domain r) (IssuedWorkspaceDomain_Challenge r).
Definition IssuedWorkspaceDomain_zero : IssuedWorkspaceDomain :=
  mkIssuedWorkspaceDomain WorkspaceDomain_zero EmptyString.

(** [type WorkspaceDomainPolicyInput struct], types.go:551 *)
Record WorkspaceDomainPolicyInput := mkWorkspaceDomainPolicyInput {
  WorkspaceDomainPolicyInput_AutoJoin : bool; WorkspaceDomainPolicyInput_AutoJoinRole : Role;
  WorkspaceDomainPolicyInput_SSOProviderConfigurationID : UUID;
  WorkspaceDomainPolicyInput_EnforceSSO : bool }.
#[export] Instance WorkspaceDomainPolicyInput_eta : Settable WorkspaceDomainPolicyInput := λ r,
  mkWorkspaceDomainPolicyInput (WorkspaceDomainPolicyInput_AutoJoin r)
  (WorkspaceDomainPolicyInput_AutoJoinRole r)
  (WorkspaceDomainPolicyInput_SSOProviderConfigurationID r)
  (WorkspaceDomainPolicyInput_EnforceSSO r).
Definition WorkspaceDomainPolicyInput_zero : WorkspaceDomainPolicyInput :=
  mkWorkspaceDomainPolicyInput false EmptyString Nil false.

(** [type RegisterFromInvitationInput struct], types.go:561 *)
Record RegisterFromInvitationInput := mkRegisterFromInvitationInput {
  RegisterFromInvitationInput_DisplayName : string;
  RegisterFromInvitationInput_Password : string }.
#[export] Instance RegisterFromInvitationInput_eta : Settable RegisterFromInvitationInput := λ r,
  mkRegisterFromInvitationInput (RegisterFromInvitationInput_DisplayName r)
  (RegisterFromInvitationInput_Password r).
Definition RegisterFromInvitationInput_zero : RegisterFromInvitationInput :=
  mkRegisterFromInvitationInput EmptyString EmptyString.

(** [type LoginThrottle struct], types.go:569 *)
Record LoginThrottle := mkLoginThrottle {
  LoginThrottle_UserID : UUID; LoginThrottle_FailedAttempts : Z;
  LoginThrottle_LockedUntil : option Z; LoginThrottle_UpdatedAt : Z }.
#[export] Instance LoginThrottle_eta : Settable LoginThrottle := λ r,
  mkLoginThrottle (LoginThrottle_UserID r) (LoginThrottle_FailedAttempts r)
  (LoginThrottle_LockedUntil r) (LoginThrottle_UpdatedAt r).
Definition LoginThrottle_zero : LoginThrottle :=
  mkLoginThrottle Nil 0%Z None zero_time.

(** [type TOTPStatus struct], types.go:578 *)
Record TOTPStatus := mkTOTPStatus {
  TOTPStatus_Enrolled : bool; TOTPStatus_Active : bool; TOTPStatus_UnusedRecoveryCodes : Z;
  TOTPStatus_CreatedAt : Z; TOTPStatus_UpdatedAt : Z }.
#[export] Instance TOTPStatus_eta : Settable TOTPStatus := λ r,
  mkTOTPStatus (TOTPStatus_Enrolled r) (TOTPStatus_Active r) (TOTPStatus_UnusedRecoveryCodes r)
  (TOTPStatus_CreatedAt r) (TOTPStatus_UpdatedAt r).
Definition TOTPStatus_zero : TOTPStatus :=
  mkTOTPStatus false false 0%Z zero_time zero_time.

(** [type PAT struct], types.go:591 *)
Record PAT := mkPAT {
  PAT_ID : UUID; PAT_UserID : UUID; PAT_Name : string; PAT_Prefix : string; PAT_Digest : string;
  PAT_WorkspaceID : UUID; PAT_Scopes : list string; PAT_CreatedAt : Z; PAT_ExpiresAt : option Z;
  PAT_LastUsedAt : option Z; PAT_RevokedAt : option Z }.
#[export] Instance PAT_eta : Settable PAT := λ r,
  mkPAT (PAT_ID r) (PAT_UserID r) (PAT_Name r) (PAT_Prefix r) (PAT_Digest r) (PAT_WorkspaceID r)
  (PAT_Scopes r) (PAT_CreatedAt r) (PAT_ExpiresAt r) (PAT_LastUsedAt r) (PAT_RevokedAt r).
Definition PAT_zero : PAT :=
  mkPAT Nil Nil EmptyString EmptyString EmptyString Nil [] zero_time None None None.

(** [type IssuedPAT struct], types.go:607 *)
Record IssuedPAT := mkIssuedPAT {
  IssuedPAT_PAT : PAT; IssuedPAT_Token : string }.
#[export] Instance IssuedPAT_eta : Settable IssuedPAT := λ r,
  mkIssuedPAT (IssuedPAT_PAT r) (IssuedPAT_Token r).
Definition IssuedPAT_zero : IssuedPAT :=
  mkIssuedPAT PAT_zero EmptyString.

(** [type Authentication struct], types.go:618 *)
Record Authentication := mkAuthentication {
  Authentication_UserID : UUID; Authentication_Method : AuthMethod;
  Authentication_Level : AssuranceLevel; Authentication_AuthenticatedAt : Z;
  Authentication_SecondFactorRequired : bool; Authentication_WorkspaceID : UUID;
  Authentication_Scopes : list string; Authentication_CredentialDigest : string }.
#[export] Instance Authentication_eta : Settable Authentication := λ r,
  mkAuthentication (Authentication_UserID r) (Authentication_Method r) (Authentication_Level r)
  (Authentication_AuthenticatedAt r) (Authentication_SecondFactorRequired r)
  (Authentication_WorkspaceID r) (Authentication_Scopes r) (Authentication_CredentialDigest r).
Definition Authentication_zero : Authentication :=
  mkAuthentication Nil EmptyString 0%Z zero_time false Nil [] EmptyString.

(** [type Session struct], types.go:697 *)
Record Session := mkSession {
  Session_ID : UUID; Session_UserID : UUID; Session_Method : AuthMethod;
  Session_Level : AssuranceLevel; Session_AuthenticatedAt : Z;
  Session_SecondFactorRequired : bool; Session_UserAgent : string; Session_IPAddress : string;
  Session_Digest : string; Session_CreatedAt : Z; Session_LastSeenAt : Z; Session_ExpiresAt : Z;
  Session_RevokedAt : option Z }.
#[export] Instance Session_eta : Settable Session := λ r,
  mkSession (Session_ID r) (Session_UserID r) (Session_Method r) (Session_Level r)
  (Session_AuthenticatedAt r) (Session_SecondFactorRequired r) (Session_UserAgent r)
  (Session_IPAddress r) (Session_Digest r) (Session_CreatedAt r) (Session_LastSeenAt r)
  (Session_ExpiresAt r) (Session_RevokedAt r).
Definition Session_zero : Session :=
  mkSession Nil Nil EmptyString 0%Z zero_time false EmptyString EmptyString EmptyString zero_time zero_time zero_time None.

(** [type IssuedSession struct], types.go:727 *)
Record IssuedSession := mkIssuedSession {
  IssuedSession_Session : Session; IssuedSession_Token : string }.
#[export] Instance IssuedSession_eta : Settable IssuedSession := λ r,
  mkIssuedSession (IssuedSession_Session r) (IssuedSession_Token r).
Definition IssuedSession_zero : IssuedSession :=
  mkIssuedSession Session_zero EmptyString.

(** [type RequestMetadata struct], types.go:759 *)
Record RequestMetadata := mkRequestMetadata {
  RequestMetadata_IPAddress : string; RequestMetadata_UserAgent : string }.
#[export] Instance RequestMetadata_eta : Settable RequestMetadata := λ r,
  mkRequestMetadata (RequestMetadata_IPAddress r) (RequestMetadata_UserAgent r).
Definition RequestMetadata_zero : RequestMetadata :=
  mkRequestMetadata EmptyString EmptyString.

(** [type AuditEvent struct], types.go:767 *)
Record AuditEvent := mkAuditEvent {
  AuditEvent_ID : UUID; AuditEvent_OccurredAt : Z; AuditEvent_ActorKind : ActorKind;
  AuditEvent_ActorID : UUID; AuditEvent_Action : string; AuditEvent_ResourceType : string;
  AuditEvent_ResourceID : string; AuditEvent_WorkspaceID : UUID;
  AuditEvent_Outcome : AuditOutcome; AuditEvent_Reason : string; AuditEvent_IPAddress : string;
  AuditEvent_UserAgent : string; AuditEvent_Sequence : Z; AuditEvent_PreviousHash : string;
  AuditEvent_Hash : string }.
#[export] Instance AuditEvent_eta : Settable AuditEvent := λ r,
  mkAuditEvent (AuditEvent_ID r) (AuditEvent_OccurredAt r) (AuditEvent_ActorKind r)
  (AuditEvent_ActorID r) (AuditEvent_Action r) (AuditEvent_ResourceType r)
  (AuditEvent_ResourceID r) (AuditEvent_WorkspaceID r) (AuditEvent_Outcome r) (AuditEvent_Reason
  r) (AuditEvent_IPAddress r) (AuditEvent_UserAgent r) (AuditEvent_Sequence r)
  (AuditEvent_PreviousHash r) (AuditEvent_Hash r).
Definition AuditEvent_zero : AuditEvent :=
  mkAuditEvent Nil zero_time EmptyString Nil EmptyString EmptyString EmptyString Nil EmptyString EmptyString EmptyString EmptyString 0%Z EmptyString EmptyString.

(** [type AuditChainReport struct], types.go:791 *)
Record AuditChainReport := mkAuditChainReport {
  AuditChainReport_Events : Z; AuditChainReport_HeadSequence : Z;
  AuditChainReport_HeadHash : string }.
#[export] Instance AuditChainReport_eta : Settable AuditChainReport := λ r,
  mkAuditChainReport (AuditChainReport_Events r) (AuditChainReport_HeadSequence r)
  (AuditChainReport_HeadHash r).
Definition AuditChainReport_zero : AuditChainReport :=
  mkAuditChainReport 0%Z 0%Z EmptyString.

(** [type AuditChainCheckpoint struct], types.go:800 *)
Record AuditChainCheckpoint := mkAuditChainCheckpoint {
  AuditChainCheckpoint_Sequence : Z; AuditChainCheckpoint_Hash : string }.
#[export] Instance AuditChainCheckpoint_eta : Settable AuditChainCheckpoint := λ r,
  mkAuditChainCheckpoint (AuditChainCheckpoint_Sequence r) (AuditChainCheckpoint_Hash r).
Definition AuditChainCheckpoint_zero : AuditChainCheckpoint :=
  mkAuditChainCheckpoint 0%Z EmptyString.

(** [type SCIMGroupRoleMapping struct], types.go:809 *)
Record SCIMGroupRoleMapping := mkSCIMGroupRoleMapping {
  SCIMGroupRoleMapping_ExternalID : string; SCIMGroupRoleMapping_Role : Role;
  SCIMGroupRoleMapping_Priority : Z }.
#[export] Instance SCIMGroupRoleMapping_eta : Settable SCIMGroupRoleMapping := λ r,
  mkSCIMGroupRoleMapping (SCIMGroupRoleMapping_ExternalID r) (SCIMGroupRoleMapping_Role r)
  (SCIMGroupRoleMapping_Priority r).
Definition SCIMGroupRoleMapping_zero : SCIMGroupRoleMapping :=
  mkSCIMGroupRoleMapping EmptyString EmptyString 0%Z.

(** [type SCIMConfiguration struct], types.go:818 *)
Record SCIMConfiguration := mkSCIMConfiguration {
  SCIMConfiguration_ID : UUID; SCIMConfiguration_WorkspaceID : UUID;
  SCIMConfiguration_Enabled : bool; SCIMConfiguration_DefaultRole : Role;
  SCIMConfiguration_TrustDirectoryEmails : bool;
  SCIMConfiguration_GroupRoleMappings : list SCIMGroupRoleMapping;
  SCIMConfiguration_CreatedAt : Z; SCIMConfiguration_UpdatedAt : Z }.
#[export] Instance SCIMConfiguration_eta : Settable SCIMConfiguration := λ r,
  mkSCIMConfiguration (SCIMConfiguration_ID r) (SCIMConfiguration_WorkspaceID r)
  (SCIMConfiguration_Enabled r) (SCIMConfiguration_DefaultRole r)
  (SCIMConfiguration_TrustDirectoryEmails r) (SCIMConfiguration_GroupRoleMappings r)
  (SCIMConfiguration_CreatedAt r) (SCIMConfiguration_UpdatedAt r).
Definition SCIMConfiguration_zero : SCIMConfiguration :=
  mkSCIMConfiguration Nil Nil false EmptyString false [] zero_time zero_time.

(** [type SCIMCredential struct], types.go:835 *)
Record SCIMCredential := mkSCIMCredential {
  SCIMCredential_ID : UUID; SCIMCredential_ConfigurationID : UUID;
  SCIMCredential_Prefix : string; SCIMCredential_Digest : string; SCIMCredential_CreatedAt : Z;
  SCIMCredential_ExpiresAt : option Z; SCIMCredential_LastUsedAt : option Z;
  SCIMCredential_RevokedAt : option Z }.
#[export] Instance SCIMCredential_eta : Settable SCIMCredential := λ r,
  mkSCIMCredential (SCIMCredential_ID r) (SCIMCredential_ConfigurationID r)
  (SCIMCredential_Prefix r) (SCIMCredential_Digest r) (SCIMCredential_CreatedAt r)
  (SCIMCredential_ExpiresAt r) (SCIMCredential_LastUsedAt r) (SCIMCredential_RevokedAt r).
Definition SCIMCredential_zero : SCIMCredential :=
  mkSCIMCredential Nil Nil EmptyString EmptyString zero_time None None None.

(** [type SCIMEmail struct], types.go:869 *)
Record SCIMEmail := mkSCIMEmail {
  SCIMEmail_Value : string; SCIMEmail_Type : string; SCIMEmail_Primary : bool }.
#[export] Instance SCIMEmail_eta : Settable SCIMEmail := λ r,
  mkSCIMEmail (SCIMEmail_Value r) (SCIMEmail_Type r) (SCIMEmail_Primary r).
Definition SCIMEmail_zero : SCIMEmail :=
  mkSCIMEmail EmptyString EmptyString false.

(** [type SCIMUser struct], types.go:879 *)
Record SCIMUser := mkSCIMUser {
  SCIMUser_ID : UUID; SCIMUser_ConfigurationID : UUID; SCIMUser_UserID : UUID;
  SCIMUser_Schemas : list string; SCIMUser_ExternalID : string; SCIMUser_UserName : string;
  SCIMUser_DisplayName : string; SCIMUser_Emails : list SCIMEmail;
  SCIMUser_Attributes : gmap string string; SCIMUser_Active : bool; SCIMUser_CreatedAt : Z;
  SCIMUser_UpdatedAt : Z; SCIMUser_DeprovisionedAt : option Z }.
#[export] Instance SCIMUser_eta : Settable SCIMUser := λ r,
  mkSCIMUser (SCIMUser_ID r) (SCIMUser_ConfigurationID r) (SCIMUser_UserID r) (SCIMUser_Schemas
  r) (SCIMUser_ExternalID r) (SCIMUser_UserName r) (SCIMUser_DisplayName r) (SCIMUser_Emails r)
  (SCIMUser_Attributes r) (SCIMUser_Active r) (SCIMUser_CreatedAt r) (SCIMUser_UpdatedAt r)
  (SCIMUser_DeprovisionedAt r).
Definition SCIMUser_zero : SCIMUser :=
  mkSCIMUser Nil Nil Nil [] EmptyString EmptyString EmptyString [] ∅ false zero_time zero_time None.

(** [type SCIMGroup struct], types.go:897 *)
Record SCIMGroup := mkSCIMGroup {
  SCIMGroup_ID : UUID; SCIMGroup_ConfigurationID : UUID; SCIMGroup_ExternalID : string;
  SCIMGroup_DisplayName : string; SCIMGroup_MemberIDs : list UUID; SCIMGroup_CreatedAt : Z;
  SCIMGroup_UpdatedAt : Z; SCIMGroup_DeletedAt : option Z }.
#[export] Instance SCIMGroup_eta : Settable SCIMGroup := λ r,
  mkSCIMGroup (SCIMGroup_ID r) (SCIMGroup_ConfigurationID r) (SCIMGroup_ExternalID r)
  (SCIMGroup_DisplayName r) (SCIMGroup_MemberIDs r) (SCIMGroup_CreatedAt r) (SCIMGroup_UpdatedAt
  r) (SCIMGroup_DeletedAt r).
Definition SCIMGroup_zero : SCIMGroup :=
  mkSCIMGroup Nil Nil EmptyString EmptyString [] zero_time zero_time None.

(** [type SCIMFilter struct], types.go:949 *)
Record SCIMFilter := mkSCIMFilter {
  SCIMFilter_Attribute : string; SCIMFilter_Value : string }.
#[export] Instance SCIMFilter_eta : Settable SCIMFilter := λ r,
  mkSCIMFilter (SCIMFilter_Attribute r) (SCIMFilter_Value r).
Definition SCIMFilter_zero : SCIMFilter :=
  mkSCIMFilter EmptyString EmptyString.

(** [type AuditInput struct], types.go:956 *)
Record AuditInput := mkAuditInput {
  AuditInput_Action : string; AuditInput_ResourceType : string; AuditInput_ResourceID : string;
  AuditInput_WorkspaceID : UUID; AuditInput_Outcome : AuditOutcome; AuditInput_Reason : string
  }.
#[export] Instance AuditInput_eta : Settable AuditInput := λ r,
  mkAuditInput (AuditInput_Action r) (AuditInput_ResourceType r) (AuditInput_ResourceID r)
  (AuditInput_WorkspaceID r) (AuditInput_Outcome r) (AuditInput_Reason r).
Definition AuditInput_zero : AuditInput :=
  mkAuditInput EmptyString EmptyString EmptyString Nil EmptyString EmptyString.

(** [type SSOIdentity struct], types.go:1069 *)
Record SSOIdentity := mkSSOIdentity {
  SSOIdentity_ID : UUID; SSOIdentity_UserID : UUID; SSOIdentity_ProviderConfigurationID : UUID;
  SSOIdentity_ProviderKind : SSOProviderKind; SSOIdentity_Issuer : string;
  SSOIdentity_Subject : string; SSOIdentity_Email : string; SSOIdentity_CreatedAt : Z;
  SSOIdentity_LastUsedAt : option Z }.
#[export] Instance SSOIdentity_eta : Settable SSOIdentity := λ r,
  mkSSOIdentity (SSOIdentity_ID r) (SSOIdentity_UserID r) (SSOIdentity_ProviderConfigurationID
  r) (SSOIdentity_ProviderKind r) (SSOIdentity_Issuer r) (SSOIdentity_Subject r)
  (SSOIdentity_Email r) (SSOIdentity_CreatedAt r) (SSOIdentity_LastUsedAt r).
Definition SSOIdentity_zero : SSOIdentity :=
  mkSSOIdentity Nil Nil Nil EmptyString EmptyString EmptyString EmptyString zero_time None.

(** [type PageRequest struct], types.go:1084 *)
Record PageRequest := mkPageRequest {
  PageRequest_Cursor : string; PageRequest_Limit : Z }.
#[export] Instance PageRequest_eta : Settable PageRequest := λ r,
  mkPageRequest (PageRequest_Cursor r) (PageRequest_Limit r).
Definition PageRequest_zero : PageRequest :=
  mkPageRequest EmptyString 0%Z.

(** [type PageEnd struct], types.go:1091 *)
Record PageEnd := mkPageEnd {
  PageEnd_NextCursor : string; PageEnd_HasMore : bool }.
#[export] Instance PageEnd_eta : Settable PageEnd := λ r,
  mkPageEnd (PageEnd_NextCursor r) (PageEnd_HasMore r).
Definition PageEnd_zero : PageEnd :=
  mkPageEnd EmptyString false.

(** [type BootstrapInput struct], types.go:1143 *)
Record BootstrapInput := mkBootstrapInput {
  BootstrapInput_Email : string; BootstrapInput_DisplayName : string;
  BootstrapInput_Password : string; BootstrapInput_WorkspaceName : string }.
#[export] Instance BootstrapInput_eta : Settable BootstrapInput := λ r,
  mkBootstrapInput (BootstrapInput_Email r) (BootstrapInput_DisplayName r)
  (BootstrapInput_Password r) (BootstrapInput_WorkspaceName r).
Definition BootstrapInput_zero : BootstrapInput :=
  mkBootstrapInput EmptyString EmptyString EmptyString EmptyString.

(** [type CreateUserInput struct], types.go:1178 *)
Record CreateUserInput := mkCreateUserInput {
  CreateUserInput_Email : string; CreateUserInput_DisplayName : string;
  CreateUserInput_Password : string; CreateUserInput_Role : Role }.
#[export] Instance CreateUserInput_eta : Settable CreateUserInput := λ r,
  mkCreateUserInput (CreateUserInput_Email r) (CreateUserInput_DisplayName r)
  (CreateUserInput_Password r) (CreateUserInput_Role r).
Definition CreateUserInput_zero : CreateUserInput :=
  mkCreateUserInput EmptyString EmptyString EmptyString EmptyString.

(** [type CreateWorkspaceInput struct], types.go:1187 *)
Record CreateWorkspaceInput := mkCreateWorkspaceInput {
  CreateWorkspaceInput_Name : string; CreateWorkspaceInput_RequireMFA : bool }.
#[export] Instance CreateWorkspaceInput_eta : Settable CreateWorkspaceInput := λ r,
  mkCreateWorkspaceInput (CreateWorkspaceInput_Name r) (CreateWorkspaceInput_RequireMFA r).
Definition CreateWorkspaceInput_zero : CreateWorkspaceInput :=
  mkCreateWorkspaceInput EmptyString false.

(** [type UpdateWorkspaceInput struct], types.go:1193 *)
Record UpdateWorkspaceInput := mkUpdateWorkspaceInput {
  UpdateWorkspaceInput_Name : string; UpdateWorkspaceInput_RequireMFA : option bool }.
#[export] Instance UpdateWorkspaceInput_eta : Settable UpdateWorkspaceInput := λ r,
  mkUpdateWorkspaceInput (UpdateWorkspaceInput_Name r) (UpdateWorkspaceInput_RequireMFA r).
Definition UpdateWorkspaceInput_zero : UpdateWorkspaceInput :=
  mkUpdateWorkspaceInput EmptyString None.

(** [type UpdateUserInput struct], types.go:1203 *)
Record UpdateUserInput := mkUpdateUserInput {
  UpdateUserInput_DisplayName : string }.
#[export] Instance UpdateUserInput_eta : Settable UpdateUserInput := λ r,
  mkUpdateUserInput (UpdateUserInput_DisplayName r).
Definition UpdateUserInput_zero : UpdateUserInput :=
  mkUpdateUserInput EmptyString.

(** [type CreatePATInput struct], types.go:1218 *)
Record CreatePATInput := mkCreatePATInput {
  CreatePATInput_Name : string; CreatePATInput_WorkspaceID : UUID;
  CreatePATInput_Scopes : list string; CreatePATInput_ExpiresAt : option Z }.
#[export] Instance CreatePATInput_eta : Settable CreatePATInput := λ r,
  mkCreatePATInput (CreatePATInput_Name r) (CreatePATInput_WorkspaceID r) (CreatePATInput_Scopes
  r) (CreatePATInput_ExpiresAt r).
Definition CreatePATInput_zero : CreatePATInput :=
  mkCreatePATInput EmptyString Nil [] None.

(** [type SSOClaims struct], types.go:995 *)
Record SSOClaims := mkSSOClaims {
  SSOClaims_Issuer : string; SSOClaims_Subject : string; SSOClaims_Email : string;
  SSOClaims_EmailVerified : bool; SSOClaims_ACR : string; SSOClaims_AMR : list string }.
#[export] Instance SSOClaims_eta : Settable SSOClaims := λ r,
  mkSSOClaims (SSOClaims_Issuer r) (SSOClaims_Subject r) (SSOClaims_Email r)
  (SSOClaims_EmailVerified r) (SSOClaims_ACR r) (SSOClaims_AMR r).
Definition SSOClaims_zero : SSOClaims :=
  mkSSOClaims EmptyString EmptyString EmptyString false EmptyString [].

(** [type SSOAssurancePolicy struct], types.go:1025 *)
Record SSOAssurancePolicy := mkSSOAssurancePolicy {
  SSOAssurancePolicy_AcceptedACR : list string; SSOAssurancePolicy_RequiredAMR : list string;
  SSOAssurancePolicy_TrustUnverified : bool }.
#[export] Instance SSOAssurancePolicy_eta : Settable SSOAssurancePolicy := λ r,
  mkSSOAssurancePolicy (SSOAssurancePolicy_AcceptedACR r) (SSOAssurancePolicy_RequiredAMR r)
  (SSOAssurancePolicy_TrustUnverified r).
Definition SSOAssurancePolicy_zero : SSOAssurancePolicy :=
  mkSSOAssurancePolicy [] [] false.

(** [type SignUpInput struct], types.go:1152 *)
Record SignUpInput := mkSignUpInput {
  SignUpInput_Email : string; SignUpInput_DisplayName : string; SignUpInput_Password : string;
  SignUpInput_WorkspaceName : string }.
#[export] Instance SignUpInput_eta : Settable SignUpInput := λ r,
  mkSignUpInput (SignUpInput_Email r) (SignUpInput_DisplayName r) (SignUpInput_Password r)
  (SignUpInput_WorkspaceName r).
Definition SignUpInput_zero : SignUpInput :=
  mkSignUpInput EmptyString EmptyString EmptyString EmptyString.

(** [type SignUpResult struct], types.go:1167 *)
Record SignUpResult := mkSignUpResult {
  SignUpResult_User : User; SignUpResult_Workspace : Workspace;
  SignUpResult_Authentication : Authentication;
  SignUpResult_EmailVerification : IssuedEmailVerification; SignUpResult_ExistingAccount : bool
  }.
#[export] Instance SignUpResult_eta : Settable SignUpResult := λ r,
  mkSignUpResult (SignUpResult_User r) (SignUpResult_Workspace r) (SignUpResult_Authentication
  r) (SignUpResult_EmailVerification r) (SignUpResult_ExistingAccount r).
Definition SignUpResult_zero : SignUpResult :=
  mkSignUpResult User_zero Workspace_zero Authentication_zero IssuedEmailVerification_zero false.

(** [type TOTPEnrollment struct], types.go:1211 *)
Record TOTPEnrollment := mkTOTPEnrollment {
  TOTPEnrollment_URI : string }.
#[export] Instance TOTPEnrollment_eta : Settable TOTPEnrollment := λ r,
  mkTOTPEnrollment (TOTPEnrollment_URI r).
Definition TOTPEnrollment_zero : TOTPEnrollment :=
  mkTOTPEnrollment EmptyString.

(** [type IssuedEmailOTP struct], types.go:385 *)
Record IssuedEmailOTP := mkIssuedEmailOTP {
  IssuedEmailOTP_UserID : UUID; IssuedEmailOTP_EmailID : UUID; IssuedEmailOTP_Code : string;
  IssuedEmailOTP_Continuation : string; IssuedEmailOTP_ExpiresAt : Z;
  IssuedEmailOTP_Deliverable : bool }.
#[export] Instance IssuedEmailOTP_eta : Settable IssuedEmailOTP := λ r,
  mkIssuedEmailOTP (IssuedEmailOTP_UserID r) (IssuedEmailOTP_EmailID r) (IssuedEmailOTP_Code r)
  (IssuedEmailOTP_Continuation r) (IssuedEmailOTP_ExpiresAt r) (IssuedEmailOTP_Deliverable r).
Definition IssuedEmailOTP_zero : IssuedEmailOTP :=
  mkIssuedEmailOTP Nil Nil EmptyString EmptyString zero_time false.

(** [type IssuedSCIMCredential struct], types.go:849 *)
Record IssuedSCIMCredential := mkIssuedSCIMCredential {
  IssuedSCIMCredential_Configuration : SCIMConfiguration;
  IssuedSCIMCredential_Credential : SCIMCredential; IssuedSCIMCredential_Token : string }.
#[export] Instance IssuedSCIMCredential_eta : Settable IssuedSCIMCredential := λ r,
  mkIssuedSCIMCredential (IssuedSCIMCredential_Configuration r) (IssuedSCIMCredential_Credential
  r) (IssuedSCIMCredential_Token r).
Definition IssuedSCIMCredential_zero : IssuedSCIMCredential :=
  mkIssuedSCIMCredential SCIMConfiguration_zero SCIMCredential_zero EmptyString.

(** [type SCIMAuthentication struct], types.go:859 *)
Record SCIMAuthentication := mkSCIMAuthentication {
  SCIMAuthentication_ConfigurationID : UUID; SCIMAuthentication_WorkspaceID : UUID;
  SCIMAuthentication_CredentialID : UUID; SCIMAuthentication_AuthenticatedAt : Z }.
#[export] Instance SCIMAuthentication_eta : Settable SCIMAuthentication := λ r,
  mkSCIMAuthentication (SCIMAuthentication_ConfigurationID r) (SCIMAuthentication_WorkspaceID r)
  (SCIMAuthentication_CredentialID r) (SCIMAuthentication_AuthenticatedAt r).
Definition SCIMAuthentication_zero : SCIMAuthentication :=
  mkSCIMAuthentication Nil Nil Nil zero_time.

(** [type CreateSCIMConfigurationInput struct], types.go:911 *)
Record CreateSCIMConfigurationInput := mkCreateSCIMConfigurationInput {
  CreateSCIMConfigurationInput_DefaultRole : Role;
  CreateSCIMConfigurationInput_TrustDirectoryEmails : bool;
  CreateSCIMConfigurationInput_GroupRoleMappings : list SCIMGroupRoleMapping;
  CreateSCIMConfigurationInput_CredentialExpiresAt : option Z }.
#[export] Instance CreateSCIMConfigurationInput_eta : Settable CreateSCIMConfigurationInput := λ r,
  mkCreateSCIMConfigurationInput (CreateSCIMConfigurationInput_DefaultRole r)
  (CreateSCIMConfigurationInput_TrustDirectoryEmails r)
  (CreateSCIMConfigurationInput_GroupRoleMappings r)
  (CreateSCIMConfigurationInput_CredentialExpiresAt r).
Definition CreateSCIMConfigurationInput_zero : CreateSCIMConfigurationInput :=
  mkCreateSCIMConfigurationInput EmptyString false [] None.

(** [type UpdateSCIMConfigurationInput struct], types.go:920 *)
Record UpdateSCIMConfigurationInput := mkUpdateSCIMConfigurationInput {
  UpdateSCIMConfigurationInput_DefaultRole : Role;
  UpdateSCIMConfigurationInput_TrustDirectoryEmails : bool;
  UpdateSCIMConfigurationInput_GroupRoleMappings : list SCIMGroupRoleMapping }.
#[export] Instance UpdateSCIMConfigurationInput_eta : Settable UpdateSCIMConfigurationInput := λ r,
  mkUpdateSCIMConfigurationInput (UpdateSCIMConfigurationInput_DefaultRole r)
  (UpdateSCIMConfigurationInput_TrustDirectoryEmails r)
  (UpdateSCIMConfigurationInput_GroupRoleMappings r).
Definition UpdateSCIMConfigurationInput_zero : UpdateSCIMConfigurationInput :=
  mkUpdateSCIMConfigurationInput EmptyString false [].

(** [type SCIMUserInput struct], types.go:929 *)
Record SCIMUserInput := mkSCIMUserInput {
  SCIMUserInput_Schemas : list string; SCIMUserInput_ExternalID : string;
  SCIMUserInput_UserName : string; SCIMUserInput_DisplayName : string;
  SCIMUserInput_Emails : list SCIMEmail; SCIMUserInput_Attributes : gmap string string;
  SCIMUserInput_Active : bool }.
#[export] Instance SCIMUserInput_eta : Settable SCIMUserInput := λ r,
  mkSCIMUserInput (SCIMUserInput_Schemas r) (SCIMUserInput_ExternalID r) (SCIMUserInput_UserName
  r) (SCIMUserInput_DisplayName r) (SCIMUserInput_Emails r) (SCIMUserInput_Attributes r)
  (SCIMUserInput_Active r).
Definition SCIMUserInput_zero : SCIMUserInput :=
  mkSCIMUserInput [] EmptyString EmptyString EmptyString [] ∅ false.

(** [type SCIMGroupInput struct], types.go:941 *)
Record SCIMGroupInput := mkSCIMGroupInput {
  SCIMGroupInput_ExternalID : string; SCIMGroupInput_DisplayName : string;
  SCIMGroupInput_MemberIDs : list UUID }.
#[export] Instance SCIMGroupInput_eta : Settable SCIMGroupInput := λ r,
  mkSCIMGroupInput (SCIMGroupInput_ExternalID r) (SCIMGroupInput_DisplayName r)
  (SCIMGroupInput_MemberIDs r).
Definition SCIMGroupInput_zero : SCIMGroupInput :=
  mkSCIMGroupInput EmptyString EmptyString [].

(** [type SSORequest struct], types.go:980 *)
Record SSORequest := mkSSORequest {
  SSORequest_ForceReauthentication : bool }.
#[export] Instance SSORequest_eta : Settable SSORequest := λ r,
  mkSSORequest (SSORequest_ForceReauthentication r).
Definition SSORequest_zero : SSORequest :=
  mkSSORequest false.

(** [type SSOProviderChallenge struct], types.go:987 *)
Record SSOProviderChallenge := mkSSOProviderChallenge {
  SSOProviderChallenge_RedirectURL : string; SSOProviderChallenge_Session : string }.
#[export] Instance SSOProviderChallenge_eta : Settable SSOProviderChallenge := λ r,
  mkSSOProviderChallenge (SSOProviderChallenge_RedirectURL r) (SSOProviderChallenge_Session r).
Definition SSOProviderChallenge_zero : SSOProviderChallenge :=
  mkSSOProviderChallenge EmptyString EmptyString.

(** [type SSOChallenge struct], types.go:1061 *)
Record SSOChallenge := mkSSOChallenge {
  SSOChallenge_RedirectURL : string; SSOChallenge_Continuation : string }.
#[export] Instance SSOChallenge_eta : Settable SSOChallenge := λ r,
  mkSSOChallenge (SSOChallenge_RedirectURL r) (SSOChallenge_Continuation r).
Definition SSOChallenge_zero : SSOChallenge :=
  mkSSOChallenge EmptyString EmptyString.

(** [type PasskeyChallenge struct], types.go:1228 *)
Record PasskeyChallenge := mkPasskeyChallenge {
  PasskeyChallenge_Options : string; PasskeyChallenge_Continuation : string }.
#[export] Instance PasskeyChallenge_eta : Settable PasskeyChallenge := λ r,
  mkPasskeyChallenge (PasskeyChallenge_Options r) (PasskeyChallenge_Continuation r).
Definition PasskeyChallenge_zero : PasskeyChallenge :=
  mkPasskeyChallenge EmptyString EmptyString.

(** [PageEvent[T]]: an item of a page or its end marker. *)
Inductive PageEvent (T : Type) :=
| ItemEvent (value : T)
| EndEvent (e : PageEnd).
Arguments ItemEvent {T} value.
Arguments EndEvent {T} e.

(** [CollectPage], over the finite sequence a page is. *)
Fixpoint CollectPage {T} (seq : list (result (PageEvent T))) (items : list T) (e : PageEnd) :
    result (list T * PageEnd) :=
  match seq with
  | [] => Ok (items, e)
  | Error err :: _ => Error err
  | Ok (ItemEvent v) :: seq' => CollectPage seq' (items ++ [v]) e
  | Ok (EndEvent e') :: seq' => CollectPage seq' items e'
  end.

(** ** Step-up policies *)
Definition StepUpPolicies_resolve (p : StepUpPolicies) : StepUpPolicies :=
  let d := if bool_decide (StepUpPolicies_Default p = EmptyString)
           then StepUpPolicyRequired else StepUpPolicies_Default p in
  let fill f := if bool_decide (f = EmptyString) then d else f in
  mkStepUpPolicies d (fill (StepUpPolicies_PAT p)) (fill (StepUpPolicies_Workspace p))
    (fill (StepUpPolicies_Account p)) (fill (StepUpPolicies_Admin p)).

Definition policyFor (p : StepUpPolicies) (scope : StepUpScope) : StepUpPolicy :=
  if bool_decide (scope = StepUpScopePAT) then StepUpPolicies_PAT p
  else if bool_decide (scope = StepUpScopeWorkspace) then StepUpPolicies_Workspace p
  else if bool_decide (scope = StepUpScopeAccount) then StepUpPolicies_Account p
  else if bool_decide (scope = StepUpScopeAdmin) then StepUpPolicies_Admin p
  else StepUpPolicyRequired.

(** [StepUpPolicy.valid] and [StepUpPolicies.fields] *)
Definition StepUpPolicy_valid (p : StepUpPolicy) : bool :=
  bool_decide (p = StepUpPolicyNone) || bool_decide (p = StepUpPolicyUserCapable) ||
  bool_decide (p = StepUpPolicyRequired).
Definition StepUpPolicies_fields (p : StepUpPolicies) : list (string * StepUpPolicy) :=
  [("StepUp.Default", StepUpPolicies_Default p); ("StepUp.PAT", StepUpPolicies_PAT p);
   ("StepUp.Workspace", StepUpPolicies_Workspace p); ("StepUp.Account", StepUpPolicies_Account p);
   ("StepUp.Admin", StepUpPolicies_Admin p)].

(** ** Assurance of SSO sign-ins *)
Definition SSOAssurancePolicy_empty (p : SSOAssurancePolicy) : bool :=
  bool_decide (SSOAssurancePolicy_AcceptedACR p = []) &&
  bool_decide (SSOAssurancePolicy_RequiredAMR p = []) &&
  negb (SSOAssurancePolicy_TrustUnverified p).

Definition SSOAssurancePolicy_satisfiedBy (p : SSOAssurancePolicy) (claims : SSOClaims) : bool :=
  if SSOAssurancePolicy_TrustUnverified p then true
  else if bool_decide (SSOAssurancePolicy_AcceptedACR p ≠ []) &&
          negb (bool_decide (SSOClaims_ACR claims ∈ SSOAssurancePolicy_AcceptedACR p)) then false
  else forallb (λ required, bool_decide (required ∈ SSOClaims_AMR claims))
         (SSOAssurancePolicy_RequiredAMR p).

(** ** Authentication contexts *)
Definition CredentialFingerprint (hash : string) : string :=
  sha256_Sum ("credbound-credential-v1:" +:+ hash).

Definition Interactive (a : Authentication) : bool :=
  bool_decide (Authentication_Method a = MethodPassword) ||
  bool_decide (Authentication_Method a = MethodTOTP) ||
  bool_decide (Authentication_Method a = MethodPasskey) ||
  bool_decide (Authentication_Method a = MethodSSO) ||
  bool_decide (Authentication_Method a = MethodEmail).

Definition HasScope (a : Authentication) (required : string) : bool :=
  if bool_decide (required = EmptyString) then true
  else existsb (λ scope, bool_decide (scope = required) || bool_decide (scope = "*"))
         (Authentication_Scopes a).
