(* ===== verification/OAuthTypes.v ===== *)
(** * OAuth records (src/oauth_types.go)

    The structs of the embedded authorization server that the store keeps and
    those its operations take and answer, with the conventions of [Types]. *)
From stdpp Require Import base gmap list strings numbers.
From Stdlib Require Import ZArith.
From S2P Require Import Prelude Bytes Uuid Types.

Abbreviation OAuthCIMDMode := string (only parsing).
Abbreviation OAuthDCRMode := string (only parsing).
Abbreviation OAuthClientSource := string (only parsing).
Abbreviation OAuthApplicationType := string (only parsing).
Abbreviation OAuthTokenEndpointAuthMethod := string (only parsing).

(** [type OAuthScopeDefinition struct], oauth_types.go:73 *)
Record OAuthScopeDefinition := mkOAuthScopeDefinition {
  OAuthScopeDefinition_Name : string; OAuthScopeDefinition_Description : string;
  OAuthScopeDefinition_Permissions : list WorkspacePermission;
  OAuthScopeDefinition_MinimumAAL : AssuranceLevel; OAuthScopeDefinition_MaxAuthAge : Z }.
#[export] Instance OAuthScopeDefinition_eta : Settable OAuthScopeDefinition := λ r,
  mkOAuthScopeDefinition (OAuthScopeDefinition_Name r) (OAuthScopeDefinition_Description r)
  (OAuthScopeDefinition_Permissions r) (OAuthScopeDefinition_MinimumAAL r)
  (OAuthScopeDefinition_MaxAuthAge r).
Definition OAuthScopeDefinition_zero : OAuthScopeDefinition :=
  mkOAuthScopeDefinition EmptyString EmptyString [] 0%Z 0%Z.

(** [type OAuthIssuer struct], oauth_types.go:90 *)
Record OAuthIssuer := mkOAuthIssuer {
  OAuthIssuer_ID : UUID; OAuthIssuer_Issuer : string; OAuthIssuer_OIDCEnabled : bool;
  OAuthIssuer_CIMDMode : OAuthCIMDMode; OAuthIssuer_CIMDAllowedOrigins : list string;
  OAuthIssuer_DCRMode : OAuthDCRMode; OAuthIssuer_DCRAllowClientSecrets : bool;
  OAuthIssuer_DCROpenRegistrationLimit : Z; OAuthIssuer_CodeTTL : Z;
  OAuthIssuer_AccessTokenTTL : Z; OAuthIssuer_RefreshTokenTTL : Z; OAuthIssuer_CreatedAt : Z;
  OAuthIssuer_UpdatedAt : Z; OAuthIssuer_DisabledAt : option Z }.
#[export] Instance OAuthIssuer_eta : Settable OAuthIssuer := λ r,
  mkOAuthIssuer (OAuthIssuer_ID r) (OAuthIssuer_Issuer r) (OAuthIssuer_OIDCEnabled r)
  (OAuthIssuer_CIMDMode r) (OAuthIssuer_CIMDAllowedOrigins r) (OAuthIssuer_DCRMode r)
  (OAuthIssuer_DCRAllowClientSecrets r) (OAuthIssuer_DCROpenRegistrationLimit r)
  (OAuthIssuer_CodeTTL r) (OAuthIssuer_AccessTokenTTL r) (OAuthIssuer_RefreshTokenTTL r)
  (OAuthIssuer_CreatedAt r) (OAuthIssuer_UpdatedAt r) (OAuthIssuer_DisabledAt r).
Definition OAuthIssuer_zero : OAuthIssuer :=
  mkOAuthIssuer Nil EmptyString false EmptyString [] EmptyString false 0%Z 0%Z 0%Z 0%Z zero_time zero_time None.

(** [type OAuthProtectedResource struct], oauth_types.go:110 *)
Record OAuthProtectedResource := mkOAuthProtectedResource {
  OAuthProtectedResource_ID : UUID; OAuthProtectedResource_IssuerID : UUID;
  OAuthProtectedResource_WorkspaceID : UUID; OAuthProtectedResource_Resource : string;
  OAuthProtectedResource_Scopes : list OAuthScopeDefinition;
  OAuthProtectedResource_CreatedAt : Z; OAuthProtectedResource_UpdatedAt : Z;
  OAuthProtectedResource_DisabledAt : option Z }.
#[export] Instance OAuthProtectedResource_eta : Settable OAuthProtectedResource := λ r,
  mkOAuthProtectedResource (OAuthProtectedResource_ID r) (OAuthProtectedResource_IssuerID r)
  (OAuthProtectedResource_WorkspaceID r) (OAuthProtectedResource_Resource r)
  (OAuthProtectedResource_Scopes r) (OAuthProtectedResource_CreatedAt r)
  (OAuthProtectedResource_UpdatedAt r) (OAuthProtectedResource_DisabledAt r).
Definition OAuthProtectedResource_zero : OAuthProtectedResource :=
  mkOAuthProtectedResource Nil Nil Nil EmptyString [] zero_time zero_time None.

(** [type OAuthClient struct], oauth_types.go:125 *)
Record OAuthClient := mkOAuthClient {
  OAuthClient_ID : UUID; OAuthClient_IssuerID : UUID; OAuthClient_ClientID : string;
  OAuthClient_Source : OAuthClientSource; OAuthClient_Name : string;
  OAuthClient_ApplicationType : OAuthApplicationType; OAuthClient_RedirectURIs : list string;
  OAuthClient_SectorIdentifier : string; OAuthClient_GrantTypes : list string;
  OAuthClient_ResponseTypes : list string; OAuthClient_Scopes : list string;
  OAuthClient_ClientCredentialsResources : list string;
  OAuthClient_TokenEndpointAuthMethod : OAuthTokenEndpointAuthMethod;
  OAuthClient_JWKSURI : string; OAuthClient_JWKS : string; OAuthClient_Trusted : bool;
  OAuthClient_SecretDigest : string; OAuthClient_MetadataHash : string;
  OAuthClient_MetadataExpiresAt : option Z; OAuthClient_CreatedAt : Z;
  OAuthClient_UpdatedAt : Z; OAuthClient_DisabledAt : option Z }.
#[export] Instance OAuthClient_eta : Settable OAuthClient := λ r,
  mkOAuthClient (OAuthClient_ID r) (OAuthClient_IssuerID r) (OAuthClient_ClientID r)
  (OAuthClient_Source r) (OAuthClient_Name r) (OAuthClient_ApplicationType r)
  (OAuthClient_RedirectURIs r) (OAuthClient_SectorIdentifier r) (OAuthClient_GrantTypes r)
  (OAuthClient_ResponseTypes r) (OAuthClient_Scopes r) (OAuthClient_ClientCredentialsResources
  r) (OAuthClient_TokenEndpointAuthMethod r) (OAuthClient_JWKSURI r) (OAuthClient_JWKS r)
  (OAuthClient_Trusted r) (OAuthClient_SecretDigest r) (OAuthClient_MetadataHash r)
  (OAuthClient_MetadataExpiresAt r) (OAuthClient_CreatedAt r) (OAuthClient_UpdatedAt r)
  (OAuthClient_DisabledAt r).
Definition OAuthClient_zero : OAuthClient :=
  mkOAuthClient Nil Nil EmptyString EmptyString EmptyString EmptyString [] EmptyString [] [] [] [] EmptyString EmptyString EmptyString false EmptyString EmptyString None zero_time zero_time None.

(** [type OAuthInitialAccessToken struct], oauth_types.go:176 *)
Record OAuthInitialAccessToken := mkOAuthInitialAccessToken {
  OAuthInitialAccessToken_ID : UUID; OAuthInitialAccessToken_IssuerID : UUID;
  OAuthInitialAccessToken_Prefix : string; OAuthInitialAccessToken_Digest : string;
  OAuthInitialAccessToken_MaxRegistrations : Z; OAuthInitialAccessToken_RegistrationCount : Z;
  OAuthInitialAccessToken_CreatedAt : Z; OAuthInitialAccessToken_ExpiresAt : Z;
  OAuthInitialAccessToken_RevokedAt : option Z }.
#[export] Instance OAuthInitialAccessToken_eta : Settable OAuthInitialAccessToken := λ r,
  mkOAuthInitialAccessToken (OAuthInitialAccessToken_ID r) (OAuthInitialAccessToken_IssuerID r)
  (OAuthInitialAccessToken_Prefix r) (OAuthInitialAccessToken_Digest r)
  (OAuthInitialAccessToken_MaxRegistrations r) (OAuthInitialAccessToken_RegistrationCount r)
  (OAuthInitialAccessToken_CreatedAt r) (OAuthInitialAccessToken_ExpiresAt r)
  (OAuthInitialAccessToken_RevokedAt r).
Definition OAuthInitialAccessToken_zero : OAuthInitialAccessToken :=
  mkOAuthInitialAccessToken Nil Nil EmptyString EmptyString 0%Z 0%Z zero_time zero_time None.

(** [type OAuthGrant struct], oauth_types.go:199 *)
Record OAuthGrant := mkOAuthGrant {
  OAuthGrant_ID : UUID; OAuthGrant_IssuerID : UUID; OAuthGrant_ClientRecordID : UUID;
  OAuthGrant_UserID : UUID; OAuthGrant_WorkspaceID : UUID; OAuthGrant_ResourceID : UUID;
  OAuthGrant_Scopes : list string; OAuthGrant_MetadataHash : string; OAuthGrant_AuthTime : Z;
  OAuthGrant_AuthMethod : AuthMethod; OAuthGrant_AAL : AssuranceLevel; OAuthGrant_CreatedAt : Z;
  OAuthGrant_UpdatedAt : Z; OAuthGrant_RevokedAt : option Z }.
#[export] Instance OAuthGrant_eta : Settable OAuthGrant := λ r,
  mkOAuthGrant (OAuthGrant_ID r) (OAuthGrant_IssuerID r) (OAuthGrant_ClientRecordID r)
  (OAuthGrant_UserID r) (OAuthGrant_WorkspaceID r) (OAuthGrant_ResourceID r) (OAuthGrant_Scopes
  r) (OAuthGrant_MetadataHash r) (OAuthGrant_AuthTime r) (OAuthGrant_AuthMethod r)
  (OAuthGrant_AAL r) (OAuthGrant_CreatedAt r) (OAuthGrant_UpdatedAt r) (OAuthGrant_RevokedAt r).
Definition OAuthGrant_zero : OAuthGrant :=
  mkOAuthGrant Nil Nil Nil Nil Nil Nil [] EmptyString zero_time EmptyString 0%Z zero_time zero_time None.

(** [type OAuthAuthorizationCode struct], oauth_types.go:219 *)
Record OAuthAuthorizationCode := mkOAuthAuthorizationCode {
  OAuthAuthorizationCode_ID : UUID; OAuthAuthorizationCode_Prefix : string;
  OAuthAuthorizationCode_Digest : string; OAuthAuthorizationCode_GrantID : UUID;
  OAuthAuthorizationCode_ClientRecordID : UUID; OAuthAuthorizationCode_RedirectURI : string;
  OAuthAuthorizationCode_ResourceID : UUID; OAuthAuthorizationCode_Scopes : list string;
  OAuthAuthorizationCode_CodeChallenge : string; OAuthAuthorizationCode_Nonce : string;
  OAuthAuthorizationCode_CreatedAt : Z; OAuthAuthorizationCode_ExpiresAt : Z;
  OAuthAuthorizationCode_UsedAt : option Z }.
#[export] Instance OAuthAuthorizationCode_eta : Settable OAuthAuthorizationCode := λ r,
  mkOAuthAuthorizationCode (OAuthAuthorizationCode_ID r) (OAuthAuthorizationCode_Prefix r)
  (OAuthAuthorizationCode_Digest r) (OAuthAuthorizationCode_GrantID r)
  (OAuthAuthorizationCode_ClientRecordID r) (OAuthAuthorizationCode_RedirectURI r)
  (OAuthAuthorizationCode_ResourceID r) (OAuthAuthorizationCode_Scopes r)
  (OAuthAuthorizationCode_CodeChallenge r) (OAuthAuthorizationCode_Nonce r)
  (OAuthAuthorizationCode_CreatedAt r) (OAuthAuthorizationCode_ExpiresAt r)
  (OAuthAuthorizationCode_UsedAt r).
Definition OAuthAuthorizationCode_zero : OAuthAuthorizationCode :=
  mkOAuthAuthorizationCode Nil EmptyString EmptyString Nil Nil EmptyString Nil [] EmptyString EmptyString zero_time zero_time None.

(** [type OAuthAccessToken struct], oauth_types.go:238 *)
Record OAuthAccessToken := mkOAuthAccessToken {
  OAuthAccessToken_ID : UUID; OAuthAccessToken_Prefix : string;
  OAuthAccessToken_Digest : string; OAuthAccessToken_GrantID : UUID;
  OAuthAccessToken_ClientRecordID : UUID; OAuthAccessToken_UserID : UUID;
  OAuthAccessToken_WorkspaceID : UUID; OAuthAccessToken_ResourceID : UUID;
  OAuthAccessToken_Scopes : list string; OAuthAccessToken_CreatedAt : Z;
  OAuthAccessToken_ExpiresAt : Z; OAuthAccessToken_RevokedAt : option Z }.
#[export] Instance OAuthAccessToken_eta : Settable OAuthAccessToken := λ r,
  mkOAuthAccessToken (OAuthAccessToken_ID r) (OAuthAccessToken_Prefix r)
  (OAuthAccessToken_Digest r) (OAuthAccessToken_GrantID r) (OAuthAccessToken_ClientRecordID r)
  (OAuthAccessToken_UserID r) (OAuthAccessToken_WorkspaceID r) (OAuthAccessToken_ResourceID r)
  (OAuthAccessToken_Scopes r) (OAuthAccessToken_CreatedAt r) (OAuthAccessToken_ExpiresAt r)
  (OAuthAccessToken_RevokedAt r).
Definition OAuthAccessToken_zero : OAuthAccessToken :=
  mkOAuthAccessToken Nil EmptyString EmptyString Nil Nil Nil Nil Nil [] zero_time zero_time None.

(** [type OAuthClientAccessToken struct], oauth_types.go:258 *)
Record OAuthClientAccessToken := mkOAuthClientAccessToken {
  OAuthClientAccessToken_ID : UUID; OAuthClientAccessToken_Prefix : string;
  OAuthClientAccessToken_Digest : string; OAuthClientAccessToken_ClientRecordID : UUID;
  OAuthClientAccessToken_IssuerID : UUID; OAuthClientAccessToken_ResourceID : UUID;
  OAuthClientAccessToken_WorkspaceID : UUID; OAuthClientAccessToken_Scopes : list string;
  OAuthClientAccessToken_CreatedAt : Z; OAuthClientAccessToken_ExpiresAt : Z;
  OAuthClientAccessToken_RevokedAt : option Z }.
#[export] Instance OAuthClientAccessToken_eta : Settable OAuthClientAccessToken := λ r,
  mkOAuthClientAccessToken (OAuthClientAccessToken_ID r) (OAuthClientAccessToken_Prefix r)
  (OAuthClientAccessToken_Digest r) (OAuthClientAccessToken_ClientRecordID r)
  (OAuthClientAccessToken_IssuerID r) (OAuthClientAccessToken_ResourceID r)
  (OAuthClientAccessToken_WorkspaceID r) (OAuthClientAccessToken_Scopes r)
  (OAuthClientAccessToken_CreatedAt r) (OAuthClientAccessToken_ExpiresAt r)
  (OAuthClientAccessToken_RevokedAt r).
Definition OAuthClientAccessToken_zero : OAuthClientAccessToken :=
  mkOAuthClientAccessToken Nil EmptyString EmptyString Nil Nil Nil Nil [] zero_time zero_time None.

(** [type OAuthRefreshToken struct], oauth_types.go:275 *)
Record OAuthRefreshToken := mkOAuthRefreshToken {
  OAuthRefreshToken_ID : UUID; OAuthRefreshToken_FamilyID : UUID;
  OAuthRefreshToken_Prefix : string; OAuthRefreshToken_Digest : string;
  OAuthRefreshToken_GrantID : UUID; OAuthRefreshToken_ClientRecordID : UUID;
  OAuthRefreshToken_UserID : UUID; OAuthRefreshToken_WorkspaceID : UUID;
  OAuthRefreshToken_ResourceID : UUID; OAuthRefreshToken_Scopes : list string;
  OAuthRefreshToken_CreatedAt : Z; OAuthRefreshToken_ExpiresAt : Z;
  OAuthRefreshToken_UsedAt : option Z; OAuthRefreshToken_ReplacedByID : UUID;
  OAuthRefreshToken_RevokedAt : option Z }.
#[export] Instance OAuthRefreshToken_eta : Settable OAuthRefreshToken := λ r,
  mkOAuthRefreshToken (OAuthRefreshToken_ID r) (OAuthRefreshToken_FamilyID r)
  (OAuthRefreshToken_Prefix r) (OAuthRefreshToken_Digest r) (OAuthRefreshToken_GrantID r)
  (OAuthRefreshToken_ClientRecordID r) (OAuthRefreshToken_UserID r)
  (OAuthRefreshToken_WorkspaceID r) (OAuthRefreshToken_ResourceID r) (OAuthRefreshToken_Scopes
  r) (OAuthRefreshToken_CreatedAt r) (OAuthRefreshToken_ExpiresAt r) (OAuthRefreshToken_UsedAt
  r) (OAuthRefreshToken_ReplacedByID r) (OAuthRefreshToken_RevokedAt r).
Definition OAuthRefreshToken_zero : OAuthRefreshToken :=
  mkOAuthRefreshToken Nil Nil EmptyString EmptyString Nil Nil Nil Nil Nil [] zero_time zero_time None Nil None.

(** [type IssuedOAuthClient struct], oauth_types.go:167 *)
Record IssuedOAuthClient := mkIssuedOAuthClient {
  IssuedOAuthClient_Client : OAuthClient; IssuedOAuthClient_ClientSecret : string }.
#[export] Instance IssuedOAuthClient_eta : Settable IssuedOAuthClient := λ r,
  mkIssuedOAuthClient (IssuedOAuthClient_Client r) (IssuedOAuthClient_ClientSecret r).
Definition IssuedOAuthClient_zero : IssuedOAuthClient :=
  mkIssuedOAuthClient OAuthClient_zero EmptyString.

(** [type IssuedOAuthInitialAccessToken struct], oauth_types.go:190 *)
Record IssuedOAuthInitialAccessToken := mkIssuedOAuthInitialAccessToken {
  IssuedOAuthInitialAccessToken_Credential : OAuthInitialAccessToken;
  IssuedOAuthInitialAccessToken_Token : string }.
#[export] Instance IssuedOAuthInitialAccessToken_eta : Settable IssuedOAuthInitialAccessToken := λ r,
  mkIssuedOAuthInitialAccessToken (IssuedOAuthInitialAccessToken_Credential r)
  (IssuedOAuthInitialAccessToken_Token r).
Definition IssuedOAuthInitialAccessToken_zero : IssuedOAuthInitialAccessToken :=
  mkIssuedOAuthInitialAccessToken OAuthInitialAccessToken_zero EmptyString.

(** [type OAuthAuthentication struct], oauth_types.go:297 *)
Record OAuthAuthentication := mkOAuthAuthentication {
  OAuthAuthentication_TokenID : UUID; OAuthAuthentication_GrantID : UUID;
  OAuthAuthentication_ClientRecordID : UUID; OAuthAuthentication_ClientID : string;
  OAuthAuthentication_UserID : UUID; OAuthAuthentication_WorkspaceID : UUID;
  OAuthAuthentication_Resource : string; OAuthAuthentication_Scopes : list string;
  OAuthAuthentication_AuthenticatedAt : Z }.
#[export] Instance OAuthAuthentication_eta : Settable OAuthAuthentication := λ r,
  mkOAuthAuthentication (OAuthAuthentication_TokenID r) (OAuthAuthentication_GrantID r)
  (OAuthAuthentication_ClientRecordID r) (OAuthAuthentication_ClientID r)
  (OAuthAuthentication_UserID r) (OAuthAuthentication_WorkspaceID r)
  (OAuthAuthentication_Resource r) (OAuthAuthentication_Scopes r)
  (OAuthAuthentication_AuthenticatedAt r).
Definition OAuthAuthentication_zero : OAuthAuthentication :=
  mkOAuthAuthentication Nil Nil Nil EmptyString Nil Nil EmptyString [] zero_time.

(** [type OAuthClientMetadataDocument struct], oauth_types.go:318 *)
Record OAuthClientMetadataDocument := mkOAuthClientMetadataDocument {
  OAuthClientMetadataDocument_ClientID : string;
  OAuthClientMetadataDocument_ClientName : string;
  OAuthClientMetadataDocument_ApplicationType : OAuthApplicationType;
  OAuthClientMetadataDocument_RedirectURIs : list string;
  OAuthClientMetadataDocument_GrantTypes : list string;
  OAuthClientMetadataDocument_ResponseTypes : list string;
  OAuthClientMetadataDocument_Scope : string;
  OAuthClientMetadataDocument_TokenEndpointAuthMethod : OAuthTokenEndpointAuthMethod;
  OAuthClientMetadataDocument_JWKSURI : string; OAuthClientMetadataDocument_JWKS : string;
  OAuthClientMetadataDocument_FetchedAt : Z; OAuthClientMetadataDocument_ExpiresAt : Z }.
#[export] Instance OAuthClientMetadataDocument_eta : Settable OAuthClientMetadataDocument := λ r,
  mkOAuthClientMetadataDocument (OAuthClientMetadataDocument_ClientID r)
  (OAuthClientMetadataDocument_ClientName r) (OAuthClientMetadataDocument_ApplicationType r)
  (OAuthClientMetadataDocument_RedirectURIs r) (OAuthClientMetadataDocument_GrantTypes r)
  (OAuthClientMetadataDocument_ResponseTypes r) (OAuthClientMetadataDocument_Scope r)
  (OAuthClientMetadataDocument_TokenEndpointAuthMethod r) (OAuthClientMetadataDocument_JWKSURI
  r) (OAuthClientMetadataDocument_JWKS r) (OAuthClientMetadataDocument_FetchedAt r)
  (OAuthClientMetadataDocument_ExpiresAt r).
Definition OAuthClientMetadataDocument_zero : OAuthClientMetadataDocument :=
  mkOAuthClientMetadataDocument EmptyString EmptyString EmptyString [] [] [] EmptyString EmptyString EmptyString EmptyString zero_time zero_time.

(** [type OIDCClaims struct], oauth_types.go:352 *)
Record OIDCClaims := mkOIDCClaims {
  OIDCClaims_Issuer : string; OIDCClaims_Subject : string; OIDCClaims_Audience : string;
  OIDCClaims_ExpiresAt : Z; OIDCClaims_IssuedAt : Z; OIDCClaims_AuthTime : Z;
  OIDCClaims_Nonce : string; OIDCClaims_ACR : string; OIDCClaims_AMR : list string;
  OIDCClaims_Email : string; OIDCClaims_EmailVerified : option bool }.
#[export] Instance OIDCClaims_eta : Settable OIDCClaims := λ r,
  mkOIDCClaims (OIDCClaims_Issuer r) (OIDCClaims_Subject r) (OIDCClaims_Audience r)
  (OIDCClaims_ExpiresAt r) (OIDCClaims_IssuedAt r) (OIDCClaims_AuthTime r) (OIDCClaims_Nonce r)
  (OIDCClaims_ACR r) (OIDCClaims_AMR r) (OIDCClaims_Email r) (OIDCClaims_EmailVerified r).
Definition OIDCClaims_zero : OIDCClaims :=
  mkOIDCClaims EmptyString EmptyString EmptyString 0%Z 0%Z 0%Z EmptyString EmptyString [] EmptyString None.

(** [type OIDCUserInfo struct], oauth_types.go:378 *)
Record OIDCUserInfo := mkOIDCUserInfo {
  OIDCUserInfo_Subject : string; OIDCUserInfo_Email : string;
  OIDCUserInfo_EmailVerified : option bool }.
#[export] Instance OIDCUserInfo_eta : Settable OIDCUserInfo := λ r,
  mkOIDCUserInfo (OIDCUserInfo_Subject r) (OIDCUserInfo_Email r) (OIDCUserInfo_EmailVerified r).
Definition OIDCUserInfo_zero : OIDCUserInfo :=
  mkOIDCUserInfo EmptyString EmptyString None.

(** [type CreateOAuthIssuerInput struct], oauth_types.go:387 *)
Record CreateOAuthIssuerInput := mkCreateOAuthIssuerInput {
  CreateOAuthIssuerInput_Issuer : string; CreateOAuthIssuerInput_OIDCEnabled : bool;
  CreateOAuthIssuerInput_CIMDMode : OAuthCIMDMode;
  CreateOAuthIssuerInput_CIMDAllowedOrigins : list string;
  CreateOAuthIssuerInput_DCRMode : OAuthDCRMode;
  CreateOAuthIssuerInput_DCRAllowClientSecrets : bool;
  CreateOAuthIssuerInput_DCROpenRegistrationLimit : Z; CreateOAuthIssuerInput_CodeTTL : Z;
  CreateOAuthIssuerInput_AccessTokenTTL : Z; CreateOAuthIssuerInput_RefreshTokenTTL : Z }.
#[export] Instance CreateOAuthIssuerInput_eta : Settable CreateOAuthIssuerInput := λ r,
  mkCreateOAuthIssuerInput (CreateOAuthIssuerInput_Issuer r) (CreateOAuthIssuerInput_OIDCEnabled
  r) (CreateOAuthIssuerInput_CIMDMode r) (CreateOAuthIssuerInput_CIMDAllowedOrigins r)
  (CreateOAuthIssuerInput_DCRMode r) (CreateOAuthIssuerInput_DCRAllowClientSecrets r)
  (CreateOAuthIssuerInput_DCROpenRegistrationLimit r) (CreateOAuthIssuerInput_CodeTTL r)
  (CreateOAuthIssuerInput_AccessTokenTTL r) (CreateOAuthIssuerInput_RefreshTokenTTL r).
Definition CreateOAuthIssuerInput_zero : CreateOAuthIssuerInput :=
  mkCreateOAuthIssuerInput EmptyString false EmptyString [] EmptyString false 0%Z 0%Z 0%Z 0%Z.

(** [type CreateOAuthProtectedResourceInput struct], oauth_types.go:402 *)
Record CreateOAuthProtectedResourceInput := mkCreateOAuthProtectedResourceInput {
  CreateOAuthProtectedResourceInput_IssuerID : UUID;
  CreateOAuthProtectedResourceInput_Resource : string;
  CreateOAuthProtectedResourceInput_Scopes : list OAuthScopeDefinition }.
#[export] Instance CreateOAuthProtectedResourceInput_eta : Settable CreateOAuthProtectedResourceInput := λ r,
  mkCreateOAuthProtectedResourceInput (CreateOAuthProtectedResourceInput_IssuerID r)
  (CreateOAuthProtectedResourceInput_Resource r) (CreateOAuthProtectedResourceInput_Scopes r).
Definition CreateOAuthProtectedResourceInput_zero : CreateOAuthProtectedResourceInput :=
  mkCreateOAuthProtectedResourceInput Nil EmptyString [].

(** [type UpdateOAuthIssuerInput struct], oauth_types.go:410 *)
Record UpdateOAuthIssuerInput := mkUpdateOAuthIssuerInput {
  UpdateOAuthIssuerInput_OIDCEnabled : bool; UpdateOAuthIssuerInput_CIMDMode : OAuthCIMDMode;
  UpdateOAuthIssuerInput_CIMDAllowedOrigins : list string;
  UpdateOAuthIssuerInput_DCRMode : OAuthDCRMode;
  UpdateOAuthIssuerInput_DCRAllowClientSecrets : bool;
  UpdateOAuthIssuerInput_DCROpenRegistrationLimit : Z; UpdateOAuthIssuerInput_CodeTTL : Z;
  UpdateOAuthIssuerInput_AccessTokenTTL : Z; UpdateOAuthIssuerInput_RefreshTokenTTL : Z }.
#[export] Instance UpdateOAuthIssuerInput_eta : Settable UpdateOAuthIssuerInput := λ r,
  mkUpdateOAuthIssuerInput (UpdateOAuthIssuerInput_OIDCEnabled r)
  (UpdateOAuthIssuerInput_CIMDMode r) (UpdateOAuthIssuerInput_CIMDAllowedOrigins r)
  (UpdateOAuthIssuerInput_DCRMode r) (UpdateOAuthIssuerInput_DCRAllowClientSecrets r)
  (UpdateOAuthIssuerInput_DCROpenRegistrationLimit r) (UpdateOAuthIssuerInput_CodeTTL r)
  (UpdateOAuthIssuerInput_AccessTokenTTL r) (UpdateOAuthIssuerInput_RefreshTokenTTL r).
Definition UpdateOAuthIssuerInput_zero : UpdateOAuthIssuerInput :=
  mkUpdateOAuthIssuerInput false EmptyString [] EmptyString false 0%Z 0%Z 0%Z 0%Z.

(** [type OAuthClientRegistrationInput struct], oauth_types.go:426 *)
Record OAuthClientRegistrationInput := mkOAuthClientRegistrationInput {
  OAuthClientRegistrationInput_Name : string;
  OAuthClientRegistrationInput_ApplicationType : OAuthApplicationType;
  OAuthClientRegistrationInput_RedirectURIs : list string;
  OAuthClientRegistrationInput_GrantTypes : list string;
  OAuthClientRegistrationInput_ResponseTypes : list string;
  OAuthClientRegistrationInput_Scopes : list string;
  OAuthClientRegistrationInput_ClientCredentialsResources : list string;
  OAuthClientRegistrationInput_TokenEndpointAuthMethod : OAuthTokenEndpointAuthMethod;
  OAuthClientRegistrationInput_JWKSURI : string; OAuthClientRegistrationInput_JWKS : string;
  OAuthClientRegistrationInput_Trusted : bool }.
#[export] Instance OAuthClientRegistrationInput_eta : Settable OAuthClientRegistrationInput := λ r,
  mkOAuthClientRegistrationInput (OAuthClientRegistrationInput_Name r)
  (OAuthClientRegistrationInput_ApplicationType r) (OAuthClientRegistrationInput_RedirectURIs r)
  (OAuthClientRegistrationInput_GrantTypes r) (OAuthClientRegistrationInput_ResponseTypes r)
  (OAuthClientRegistrationInput_Scopes r)
  (OAuthClientRegistrationInput_ClientCredentialsResources r)
  (OAuthClientRegistrationInput_TokenEndpointAuthMethod r) (OAuthClientRegistrationInput_JWKSURI
  r) (OAuthClientRegistrationInput_JWKS r) (OAuthClientRegistrationInput_Trusted r).
Definition OAuthClientRegistrationInput_zero : OAuthClientRegistrationInput :=
  mkOAuthClientRegistrationInput EmptyString EmptyString [] [] [] [] [] EmptyString EmptyString EmptyString false.

(** [type CreateOAuthInitialAccessTokenInput struct], oauth_types.go:447 *)
Record CreateOAuthInitialAccessTokenInput := mkCreateOAuthInitialAccessTokenInput {
  CreateOAuthInitialAccessTokenInput_ExpiresAt : Z;
  CreateOAuthInitialAccessTokenInput_MaxRegistrations : Z }.
#[export] Instance CreateOAuthInitialAccessTokenInput_eta : Settable CreateOAuthInitialAccessTokenInput := λ r,
  mkCreateOAuthInitialAccessTokenInput (CreateOAuthInitialAccessTokenInput_ExpiresAt r)
  (CreateOAuthInitialAccessTokenInput_MaxRegistrations r).
Definition CreateOAuthInitialAccessTokenInput_zero : CreateOAuthInitialAccessTokenInput :=
  mkCreateOAuthInitialAccessTokenInput zero_time 0%Z.

(** [type BeginOAuthAuthorizationInput struct], oauth_types.go:454 *)
Record BeginOAuthAuthorizationInput := mkBeginOAuthAuthorizationInput {
  BeginOAuthAuthorizationInput_Issuer : string; BeginOAuthAuthorizationInput_ClientID : string;
  BeginOAuthAuthorizationInput_RedirectURI : string;
  BeginOAuthAuthorizationInput_Resource : string;
  BeginOAuthAuthorizationInput_Scopes : list string;
  BeginOAuthAuthorizationInput_State : string;
  BeginOAuthAuthorizationInput_CodeChallenge : string;
  BeginOAuthAuthorizationInput_CodeChallengeMethod : string;
  BeginOAuthAuthorizationInput_Nonce : string; BeginOAuthAuthorizationInput_MaxAge : Z }.
#[export] Instance BeginOAuthAuthorizationInput_eta : Settable BeginOAuthAuthorizationInput := λ r,
  mkBeginOAuthAuthorizationInput (BeginOAuthAuthorizationInput_Issuer r)
  (BeginOAuthAuthorizationInput_ClientID r) (BeginOAuthAuthorizationInput_RedirectURI r)
  (BeginOAuthAuthorizationInput_Resource r) (BeginOAuthAuthorizationInput_Scopes r)
  (BeginOAuthAuthorizationInput_State r) (BeginOAuthAuthorizationInput_CodeChallenge r)
  (BeginOAuthAuthorizationInput_CodeChallengeMethod r) (BeginOAuthAuthorizationInput_Nonce r)
  (BeginOAuthAuthorizationInput_MaxAge r).
Definition BeginOAuthAuthorizationInput_zero : BeginOAuthAuthorizationInput :=
  mkBeginOAuthAuthorizationInput EmptyString EmptyString EmptyString EmptyString [] EmptyString EmptyString EmptyString EmptyString 0%Z.

(** [type OAuthClientCredentialsInput struct], oauth_types.go:478 *)
Record OAuthClientCredentialsInput := mkOAuthClientCredentialsInput {
  OAuthClientCredentialsInput_Issuer : string; OAuthClientCredentialsInput_ClientID : string;
  OAuthClientCredentialsInput_ClientSecret : string;
  OAuthClientCredentialsInput_ClientSecretInBody : bool;
  OAuthClientCredentialsInput_ClientAssertion : string;
  OAuthClientCredentialsInput_ClientAssertionType : string;
  OAuthClientCredentialsInput_Resource : string;
  OAuthClientCredentialsInput_Scopes : list string }.
#[export] Instance OAuthClientCredentialsInput_eta : Settable OAuthClientCredentialsInput := λ r,
  mkOAuthClientCredentialsInput (OAuthClientCredentialsInput_Issuer r)
  (OAuthClientCredentialsInput_ClientID r) (OAuthClientCredentialsInput_ClientSecret r)
  (OAuthClientCredentialsInput_ClientSecretInBody r)
  (OAuthClientCredentialsInput_ClientAssertion r)
  (OAuthClientCredentialsInput_ClientAssertionType r) (OAuthClientCredentialsInput_Resource r)
  (OAuthClientCredentialsInput_Scopes r).
Definition OAuthClientCredentialsInput_zero : OAuthClientCredentialsInput :=
  mkOAuthClientCredentialsInput EmptyString EmptyString EmptyString false EmptyString EmptyString EmptyString [].

(** [type OAuthConsentScope struct], oauth_types.go:497 *)
Record OAuthConsentScope := mkOAuthConsentScope {
  OAuthConsentScope_Name : string; OAuthConsentScope_Description : string }.
#[export] Instance OAuthConsentScope_eta : Settable OAuthConsentScope := λ r,
  mkOAuthConsentScope (OAuthConsentScope_Name r) (OAuthConsentScope_Description r).
Definition OAuthConsentScope_zero : OAuthConsentScope :=
  mkOAuthConsentScope EmptyString EmptyString.

(** [type OAuthConsent struct], oauth_types.go:506 *)
Record OAuthConsent := mkOAuthConsent {
  OAuthConsent_Continuation : string; OAuthConsent_ClientID : string;
  OAuthConsent_ClientName : string; OAuthConsent_ClientHost : string;
  OAuthConsent_RedirectURI : string; OAuthConsent_RedirectHost : string;
  OAuthConsent_Resource : string; OAuthConsent_WorkspaceID : UUID;
  OAuthConsent_Scopes : list OAuthConsentScope; OAuthConsent_RequiresStepUp : bool;
  OAuthConsent_LocalhostRedirect : bool }.
#[export] Instance OAuthConsent_eta : Settable OAuthConsent := λ r,
  mkOAuthConsent (OAuthConsent_Continuation r) (OAuthConsent_ClientID r)
  (OAuthConsent_ClientName r) (OAuthConsent_ClientHost r) (OAuthConsent_RedirectURI r)
  (OAuthConsent_RedirectHost r) (OAuthConsent_Resource r) (OAuthConsent_WorkspaceID r)
  (OAuthConsent_Scopes r) (OAuthConsent_RequiresStepUp r) (OAuthConsent_LocalhostRedirect r).
Definition OAuthConsent_zero : OAuthConsent :=
  mkOAuthConsent EmptyString EmptyString EmptyString EmptyString EmptyString EmptyString EmptyString Nil [] false false.

(** [type OAuthAuthorizationResult struct], oauth_types.go:528 *)
Record OAuthAuthorizationResult := mkOAuthAuthorizationResult {
  OAuthAuthorizationResult_RedirectURI : string; OAuthAuthorizationResult_Code : string;
  OAuthAuthorizationResult_State : string; OAuthAuthorizationResult_Issuer : string;
  OAuthAuthorizationResult_Error : string }.
#[export] Instance OAuthAuthorizationResult_eta : Settable OAuthAuthorizationResult := λ r,
  mkOAuthAuthorizationResult (OAuthAuthorizationResult_RedirectURI r)
  (OAuthAuthorizationResult_Code r) (OAuthAuthorizationResult_State r)
  (OAuthAuthorizationResult_Issuer r) (OAuthAuthorizationResult_Error r).
Definition OAuthAuthorizationResult_zero : OAuthAuthorizationResult :=
  mkOAuthAuthorizationResult EmptyString EmptyString EmptyString EmptyString EmptyString.

(** [type ExchangeOAuthAuthorizationCodeInput struct], oauth_types.go:539 *)
Record ExchangeOAuthAuthorizationCodeInput := mkExchangeOAuthAuthorizationCodeInput {
  ExchangeOAuthAuthorizationCodeInput_Issuer : string;
  ExchangeOAuthAuthorizationCodeInput_ClientID : string;
  ExchangeOAuthAuthorizationCodeInput_ClientSecret : string;
  ExchangeOAuthAuthorizationCodeInput_ClientSecretInBody : bool;
  ExchangeOAuthAuthorizationCodeInput_ClientAssertion : string;
  ExchangeOAuthAuthorizationCodeInput_ClientAssertionType : string;
  ExchangeOAuthAuthorizationCodeInput_Code : string;
  ExchangeOAuthAuthorizationCodeInput_RedirectURI : string;
  ExchangeOAuthAuthorizationCodeInput_CodeVerifier : string;
  ExchangeOAuthAuthorizationCodeInput_Resource : string }.
#[export] Instance ExchangeOAuthAuthorizationCodeInput_eta : Settable ExchangeOAuthAuthorizationCodeInput := λ r,
  mkExchangeOAuthAuthorizationCodeInput (ExchangeOAuthAuthorizationCodeInput_Issuer r)
  (ExchangeOAuthAuthorizationCodeInput_ClientID r)
  (ExchangeOAuthAuthorizationCodeInput_ClientSecret r)
  (ExchangeOAuthAuthorizationCodeInput_ClientSecretInBody r)
  (ExchangeOAuthAuthorizationCodeInput_ClientAssertion r)
  (ExchangeOAuthAuthorizationCodeInput_ClientAssertionType r)
  (ExchangeOAuthAuthorizationCodeInput_Code r) (ExchangeOAuthAuthorizationCodeInput_RedirectURI
  r) (ExchangeOAuthAuthorizationCodeInput_CodeVerifier r)
  (ExchangeOAuthAuthorizationCodeInput_Resource r).
Definition ExchangeOAuthAuthorizationCodeInput_zero : ExchangeOAuthAuthorizationCodeInput :=
  mkExchangeOAuthAuthorizationCodeInput EmptyString EmptyString EmptyString false EmptyString EmptyString EmptyString EmptyString EmptyString EmptyString.

(** [type RefreshOAuthTokenInput struct], oauth_types.go:561 *)
Record RefreshOAuthTokenInput := mkRefreshOAuthTokenInput {
  RefreshOAuthTokenInput_Issuer : string; RefreshOAuthTokenInput_ClientID : string;
  RefreshOAuthTokenInput_ClientSecret : string;
  RefreshOAuthTokenInput_ClientSecretInBody : bool;
  RefreshOAuthTokenInput_ClientAssertion : string;
  RefreshOAuthTokenInput_ClientAssertionType : string;
  RefreshOAuthTokenInput_RefreshToken : string; RefreshOAuthTokenInput_Resource : string;
  RefreshOAuthTokenInput_Scopes : list string }.
#[export] Instance RefreshOAuthTokenInput_eta : Settable RefreshOAuthTokenInput := λ r,
  mkRefreshOAuthTokenInput (RefreshOAuthTokenInput_Issuer r) (RefreshOAuthTokenInput_ClientID r)
  (RefreshOAuthTokenInput_ClientSecret r) (RefreshOAuthTokenInput_ClientSecretInBody r)
  (RefreshOAuthTokenInput_ClientAssertion r) (RefreshOAuthTokenInput_ClientAssertionType r)
  (RefreshOAuthTokenInput_RefreshToken r) (RefreshOAuthTokenInput_Resource r)
  (RefreshOAuthTokenInput_Scopes r).
Definition RefreshOAuthTokenInput_zero : RefreshOAuthTokenInput :=
  mkRefreshOAuthTokenInput EmptyString EmptyString EmptyString false EmptyString EmptyString EmptyString EmptyString [].

(** [type RevokeOAuthTokenInput struct], oauth_types.go:581 *)
Record RevokeOAuthTokenInput := mkRevokeOAuthTokenInput {
  RevokeOAuthTokenInput_Issuer : string; RevokeOAuthTokenInput_ClientID : string;
  RevokeOAuthTokenInput_ClientSecret : string; RevokeOAuthTokenInput_ClientSecretInBody : bool;
  RevokeOAuthTokenInput_ClientAssertion : string;
  RevokeOAuthTokenInput_ClientAssertionType : string; RevokeOAuthTokenInput_Token : string }.
#[export] Instance RevokeOAuthTokenInput_eta : Settable RevokeOAuthTokenInput := λ r,
  mkRevokeOAuthTokenInput (RevokeOAuthTokenInput_Issuer r) (RevokeOAuthTokenInput_ClientID r)
  (RevokeOAuthTokenInput_ClientSecret r) (RevokeOAuthTokenInput_ClientSecretInBody r)
  (RevokeOAuthTokenInput_ClientAssertion r) (RevokeOAuthTokenInput_ClientAssertionType r)
  (RevokeOAuthTokenInput_Token r).
Definition RevokeOAuthTokenInput_zero : RevokeOAuthTokenInput :=
  mkRevokeOAuthTokenInput EmptyString EmptyString EmptyString false EmptyString EmptyString EmptyString.

(** [type OAuthTokenResponse struct], oauth_types.go:599 *)
Record OAuthTokenResponse := mkOAuthTokenResponse {
  OAuthTokenResponse_AccessToken : string; OAuthTokenResponse_TokenType : string;
  OAuthTokenResponse_ExpiresIn : Z; OAuthTokenResponse_RefreshToken : string;
  OAuthTokenResponse_Scope : string; OAuthTokenResponse_IDToken : string }.
#[export] Instance OAuthTokenResponse_eta : Settable OAuthTokenResponse := λ r,
  mkOAuthTokenResponse (OAuthTokenResponse_AccessToken r) (OAuthTokenResponse_TokenType r)
  (OAuthTokenResponse_ExpiresIn r) (OAuthTokenResponse_RefreshToken r) (OAuthTokenResponse_Scope
  r) (OAuthTokenResponse_IDToken r).
Definition OAuthTokenResponse_zero : OAuthTokenResponse :=
  mkOAuthTokenResponse EmptyString EmptyString 0%Z EmptyString EmptyString EmptyString.

(** [type OAuthAuthorizationServerMetadata struct], oauth_types.go:610 *)
Record OAuthAuthorizationServerMetadata := mkOAuthAuthorizationServerMetadata {
  OAuthAuthorizationServerMetadata_Issuer : string;
  OAuthAuthorizationServerMetadata_AuthorizationEndpoint : string;
  OAuthAuthorizationServerMetadata_TokenEndpoint : string;
  OAuthAuthorizationServerMetadata_RevocationEndpoint : string;
  OAuthAuthorizationServerMetadata_RegistrationEndpoint : string;
  OAuthAuthorizationServerMetadata_JWKSURI : string;
  OAuthAuthorizationServerMetadata_UserInfoEndpoint : string;
  OAuthAuthorizationServerMetadata_ScopesSupported : list string;
  OAuthAuthorizationServerMetadata_ResponseTypesSupported : list string;
  OAuthAuthorizationServerMetadata_GrantTypesSupported : list string;
  OAuthAuthorizationServerMetadata_TokenEndpointAuthMethodsSupported : list string;
  OAuthAuthorizationServerMetadata_CodeChallengeMethodsSupported : list string;
  OAuthAuthorizationServerMetadata_AuthorizationResponseIssuerParameterSupport : bool;
  OAuthAuthorizationServerMetadata_ClientIDMetadataDocumentSupported : bool;
  OAuthAuthorizationServerMetadata_SubjectTypesSupported : list string;
  OAuthAuthorizationServerMetadata_IDTokenSigningAlgValuesSupported : list string }.
#[export] Instance OAuthAuthorizationServerMetadata_eta : Settable OAuthAuthorizationServerMetadata := λ r,
  mkOAuthAuthorizationServerMetadata (OAuthAuthorizationServerMetadata_Issuer r)
  (OAuthAuthorizationServerMetadata_AuthorizationEndpoint r)
  (OAuthAuthorizationServerMetadata_TokenEndpoint r)
  (OAuthAuthorizationServerMetadata_RevocationEndpoint r)
  (OAuthAuthorizationServerMetadata_RegistrationEndpoint r)
  (OAuthAuthorizationServerMetadata_JWKSURI r)
  (OAuthAuthorizationServerMetadata_UserInfoEndpoint r)
  (OAuthAuthorizationServerMetadata_ScopesSupported r)
  (OAuthAuthorizationServerMetadata_ResponseTypesSupported r)
  (OAuthAuthorizationServerMetadata_GrantTypesSupported r)
  (OAuthAuthorizationServerMetadata_TokenEndpointAuthMethodsSupported r)
  (OAuthAuthorizationServerMetadata_CodeChallengeMethodsSupported r)
  (OAuthAuthorizationServerMetadata_AuthorizationResponseIssuerParameterSupport r)
  (OAuthAuthorizationServerMetadata_ClientIDMetadataDocumentSupported r)
  (OAuthAuthorizationServerMetadata_SubjectTypesSupported r)
  (OAuthAuthorizationServerMetadata_IDTokenSigningAlgValuesSupported r).
Definition OAuthAuthorizationServerMetadata_zero : OAuthAuthorizationServerMetadata :=
  mkOAuthAuthorizationServerMetadata EmptyString EmptyString EmptyString EmptyString EmptyString EmptyString EmptyString [] [] [] [] [] false false [] [].

(** [type OAuthProtectedResourceMetadata struct], oauth_types.go:631 *)
Record OAuthProtectedResourceMetadata := mkOAuthProtectedResourceMetadata {
  OAuthProtectedResourceMetadata_Resource : string;
  OAuthProtectedResourceMetadata_AuthorizationServers : list string;
  OAuthProtectedResourceMetadata_ScopesSupported : list string;
  OAuthProtectedResourceMetadata_BearerMethods : list string }.
#[export] Instance OAuthProtectedResourceMetadata_eta : Settable OAuthProtectedResourceMetadata := λ r,
  mkOAuthProtectedResourceMetadata (OAuthProtectedResourceMetadata_Resource r)
  (OAuthProtectedResourceMetadata_AuthorizationServers r)
  (OAuthProtectedResourceMetadata_ScopesSupported r)
  (OAuthProtectedResourceMetadata_BearerMethods r).
Definition OAuthProtectedResourceMetadata_zero : OAuthProtectedResourceMetadata :=
  mkOAuthProtectedResourceMetadata EmptyString [] [] [].
