(* ===== verification/Request.v ===== *)
(** * Request metadata and transport helpers (request.go, requesthttp.go, errors_http.go)

    Which client address and user agent the audit events of a request record,
    which requests count as local, and the HTTP status of an error. *)
From stdpp Require Import base gmap list strings numbers.
From Stdlib Require Import ZArith Lia Ascii.
From S2P Require Import Prelude Bytes GoText GoNet GoJson GoUrl GoRunes GoNetip Types.

(** What the middleware reads of an [http.Request]: the transport peer, the
    values of the X-Forwarded-For lines, the User-Agent. *)
Record ClientRequest := mkClientRequest {
  RemoteAddr : string;
  ForwardedFor : list string;
  UserAgent : string }.

(** ** request.go *)
Definition maxAuditIPLength : nat := 64.
Definition maxAuditUserAgentLength : nat := 256.

(** The host of an address that may carry a port. *)
Definition host_part (value : string) : string := default value (SplitHostPort value).

Definition TrustedRequestFromAddr (remoteAddr : string) : TrustedRequest :=
  match ParseAddr (host_part remoteAddr) with
  | None => TrustedRequest_zero
  | Some address => mkTrustedRequest (IsLoopback address)
  end.

Definition printable (character : Z) : bool :=
  negb (bool_decide (character < 0x20)%Z || bool_decide (character = 0x7f)%Z).

Definition sanitizeAuditField (value : string) (limit : nat) : string :=
  let cleaned := keep_runes printable (TrimSpace value) in
  let characters := runes cleaned in
  if bool_decide (limit < length characters) then string_of_runes (take limit characters) else cleaned.

Definition sanitizeRequestMetadata (metadata : RequestMetadata) : RequestMetadata :=
  mkRequestMetadata (sanitizeAuditField (RequestMetadata_IPAddress metadata) maxAuditIPLength)
    (sanitizeAuditField (RequestMetadata_UserAgent metadata) maxAuditUserAgentLength).

(** ** requesthttp.go *)
Definition parseHostAddr (value : string) : option Addr :=
  (λ address, WithoutZone (Unmap address)) <$> ParseAddr (TrimBrackets (host_part value)).

Definition addrInPrefixes (address : Addr) (prefixes : list Prefix) : bool :=
  existsb (λ prefix, Prefix_Contains prefix address) prefixes.

(** The walk over the hops, nearest first: the first address outside every
    trusted prefix, or nothing when a malformed entry or the end comes first. *)
Fixpoint walk_hops (trustedProxies : list Prefix) (hops : list string) : option Addr :=
  match hops with
  | [] => None
  | hop :: hops' =>
      let hop := TrimSpace hop in
      if bool_decide (hop = EmptyString) then walk_hops trustedProxies hops'
      else match parseHostAddr hop with
           | None => None
           | Some address =>
               if addrInPrefixes address trustedProxies then walk_hops trustedProxies hops' else Some address
           end
  end.

Definition clientAddress (r : ClientRequest) (trustedProxies : list Prefix) : string :=
  match parseHostAddr (RemoteAddr r) with
  | None => EmptyString
  | Some peer =>
      if negb (addrInPrefixes peer trustedProxies) then Addr_String peer
      else
        let hops := Split "," (Join "," (ForwardedFor r)) in
        Addr_String (default peer (walk_hops trustedProxies (reverse hops)))
  end.

(** The metadata [HTTPRequestMetadata] attaches to the context of a request,
    through [WithRequestMetadata]. *)
Definition HTTPRequestMetadata (trustedProxies : list Prefix) (r : ClientRequest) : RequestMetadata :=
  sanitizeRequestMetadata (mkRequestMetadata (clientAddress r trustedProxies) (UserAgent r)).

(** ** errors_http.go *)
Definition HTTPStatus (err : option error) : Z :=
  match err with
  | None => 200
  | Some err =>
      let is_ := errors_Is err in
      if is_ ErrInvalidCredentials || is_ ErrUnauthorized || is_ ErrExpired || is_ ErrPasskeyCloneDetected ||
         is_ ErrNoPasskey then 401
      else if is_ ErrForbidden || is_ ErrStepUpRequired || is_ ErrSSORequired then 403
      else if is_ ErrNotFound then 404
      else if is_ ErrConflict then 409
      else if is_ ErrInvalidInput then 400
      else if is_ ErrDomainVerification || is_ ErrTransactionRejected then 422
      else if is_ ErrLocked then 429
      else if is_ ErrNotSupported then 501
      else if is_ ErrAuditUnavailable then 503
      else 500
  end%Z.

(** ** The field recorded *)
Lemma Z_string_app k l : Z_string (k ++ l) = Z_string k +:+ Z_string l.
Proof. unfold Z_string. by rewrite fmap_app, of_bytes_app. Qed.

Lemma sanitized_runes value limit :
  runes (sanitizeAuditField value limit) = take limit (List.filter printable (runes (TrimSpace value))).
Proof.
  unfold sanitizeAuditField. cbv zeta. rewrite runes_keep. case_bool_decide as Hl.
  - apply runes_string_of_runes, forallb_take, forallb_filter, runes_scalar.
  - rewrite runes_keep, take_ge by lia. done.
Qed.

Lemma encode_ascii l : forallb (in_range 0 0x7F) l = true → l ≫= EncodeRune = l.
Proof.
  induction l as [|r l IH]; [done|]. cbn [forallb]. intros [Hr Hl]%andb_true_iff.
  rewrite bind_cons, IH by done. unfold EncodeRune. by rewrite Hr.
Qed.

Lemma is_graphic_ascii b : is_graphic b = true → in_range 0 0x7F b = true ∧ printable b = true.
Proof.
  unfold is_graphic, in_range, printable. intros H%bool_decide_eq_true.
  split; [apply bool_decide_true; lia|]. by rewrite !bool_decide_false by lia.
Qed.

(** A short graphic text is recorded as it is. *)
Lemma sanitize_graphic s limit :
  forallb is_graphic (string_Z s) = true → str_len s ≤ limit → sanitizeAuditField s limit = s.
Proof.
  intros Hg Hl. assert (is_ascii_string s = true) as Ha.
  { unfold is_ascii_string. rewrite forallb_forall in *. intros b Hb. by apply is_graphic_ascii, Hg. }
  assert (List.filter printable (string_Z s) = string_Z s) as Hp.
  { clear Ha Hl. induction (string_Z s) as [|b l IH]; [done|]. cbn [forallb] in Hg.
    apply andb_true_iff in Hg as [Hb Hl]. cbn [List.filter]. destruct (is_graphic_ascii b Hb) as [_ ->].
    by rewrite IH. }
  assert (keep_runes printable (TrimSpace s) = s) as Hk.
  { unfold keep_runes. rewrite TrimSpace_graphic, runes_ascii, Hp by done. unfold string_of_runes.
    by rewrite encode_ascii, Z_string_Z. }
  unfold sanitizeAuditField. rewrite Hk. rewrite bool_decide_false; [done|].
  rewrite runes_ascii, string_Z_length by done. lia.
Qed.

(** ** The texts of addresses *)
Definition graphic_within (n : nat) (s : string) : Prop := forallb is_graphic (string_Z s) = true ∧ str_len s ≤ n.

Lemma graphic_app n m s t : graphic_within n s → graphic_within m t → graphic_within (n + m) (s +:+ t).
Proof.
  intros [Hs Ls] [Ht Lt]. split; [|rewrite str_len_app; lia].
  rewrite string_Z_app, forallb_app. by rewrite Hs, Ht.
Qed.
Lemma graphic_le n m s : graphic_within n s → n ≤ m → graphic_within m s.
Proof. intros [Hs Ls] Hm. split; [done|lia]. Qed.

Lemma graphic_Join n sep l : graphic_within 1 sep → Forall (graphic_within n) l →
  graphic_within (length l * S n) (Join sep l).
Proof.
  intros Hsep. induction 1 as [|s l Hs Hl IH]; [by split|].
  destruct l as [|s' l]; [eapply graphic_le; [exact Hs|cbn; lia]|].
  change (Join sep (s :: s' :: l)) with (s +:+ (sep +:+ Join sep (s' :: l))).
  eapply graphic_le; [apply graphic_app; [exact Hs|apply graphic_app; [exact Hsep|exact IH]]|cbn [length]; lia].
Qed.

Definition graphic_withinb (n : nat) (s : string) : bool :=
  forallb is_graphic (string_Z s) && bool_decide (str_len s ≤ n).
Lemma graphic_within_compute n s : graphic_withinb n s = true → graphic_within n s.
Proof. intros [H1 H2%bool_decide_eq_true]%andb_true_iff. by split. Qed.

Lemma FormatInt_octet b : (0 ≤ b < 256)%Z → graphic_within 3 (FormatInt b).
Proof.
  intros Hb. apply graphic_within_compute.
  assert (forallb (λ i, graphic_withinb 3 (FormatInt (Z.of_nat i))) (seq 0 256) = true) as H by by vm_compute.
  rewrite forallb_forall in H. specialize (H (Z.to_nat b)). rewrite Z2Nat.id in H by lia.
  apply H, in_seq. lia.
Qed.
Lemma hex_text_graphic fuel v : graphic_within fuel (hex_text fuel v).
Proof.
  revert v. induction fuel as [|fuel IH]; intros v; [by split|]. cbn [hex_text].
  assert (graphic_within 1 (String (hex_digit (Z.to_nat (v mod 16))) EmptyString)) as Hd.
  { apply graphic_within_compute.
    assert (forallb (λ i, graphic_withinb 1 (String (hex_digit i) EmptyString)) (seq 0 16) = true) as H by by vm_compute.
    rewrite forallb_forall in H. apply H, in_seq. pose proof (Z.mod_pos_bound v 16). lia. }
  case_bool_decide; [eapply graphic_le; [exact Hd|lia]|].
  replace (S fuel) with (fuel + 1) by lia. by apply graphic_app.
Qed.

Lemma text4_graphic v : graphic_within 16 (text4 v).
Proof.
  unfold text4. eapply graphic_le; [apply (graphic_Join 3)|]; [by apply graphic_within_compute| |cbn; lia].
  unfold bytes_from. rewrite !Forall_fmap. apply Forall_true. intros i. cbn -[Z.land Z.shiftr].
  apply FormatInt_octet. rewrite (land_mask _ 8) by done. by apply Z.mod_pos_bound.
Qed.
Lemma text6_graphic v : graphic_within 42 (text6 v).
Proof.
  unfold text6. assert (Forall (graphic_within 4) (hex_text 4 <$> groups v)) as Hg.
  { apply Forall_fmap, Forall_true. intros g. apply hex_text_graphic. }
  assert (length (hex_text 4 <$> groups v) = 8) as Hlen by done.
  revert Hg Hlen. generalize (hex_text 4 <$> groups v) as l. intros l Hg Hlen.
  assert (graphic_within 1 ":") as Hc by by apply graphic_within_compute.
  destruct (longest_run 0 (groups v) (0, 0)) as [i n]. case_bool_decide.
  { eapply graphic_le; [by apply (graphic_Join 4)|lia]. }
  eapply graphic_le; [apply graphic_app; [apply (graphic_Join 4); [done|by apply Forall_take]|
    apply graphic_app; [by apply (graphic_within_compute 2)|apply (graphic_Join 4); [done|by apply Forall_drop]]]|].
  rewrite length_take, length_drop. lia.
Qed.
Lemma Addr_String_graphic a : a ≠ AddrInvalid → graphic_within 64 (Addr_String (WithoutZone a)).
Proof.
  destruct a as [|v|v zone]; cbn [WithoutZone Addr_String]; [done| |]; intros _.
  - eapply graphic_le; [apply text4_graphic|lia].
  - rewrite bool_decide_true by done. destruct (Is4In6 _).
    + eapply graphic_le; [apply graphic_app; [apply graphic_app; [by apply (graphic_within_compute 7)|
        apply text4_graphic]|by apply (graphic_within_compute 0)]|lia].
    + eapply graphic_le; [apply graphic_app; [apply text6_graphic|by apply (graphic_within_compute 0)]|lia].
Qed.

Lemma parseHostAddr_graphic value a : parseHostAddr value = Some a → graphic_within 64 (Addr_String a).
Proof.
  unfold parseHostAddr. intros (b & Hb & ->)%fmap_Some. apply Addr_String_graphic.
  assert (b ≠ AddrInvalid) as Hv; [|destruct b as [|v|v z]; cbn; [done..|by case_bool_decide]].
  revert Hb. unfold ParseAddr. destruct (list_find _ _) as [[i c]|]; [|done].
  repeat case_match; by intros [= <-].
Qed.

(** ** The hops *)
Lemma Split_app sep s t : Split sep (s +:+ String sep t) = Split sep s ++ Split sep t.
Proof.
  assert (∀ u, ∃ p ps, Split sep u = p :: ps) as Hne.
  { intros u. induction u as [|a u (p & ps & IH)]; [by eexists _, _|]. cbn. rewrite IH. case_bool_decide; eauto. }
  induction s as [|a s IH].
  - change (EmptyString +:+ String sep t) with (String sep t). cbn [Split].
    destruct (Hne t) as (p & ps & ->). by rewrite bool_decide_true.
  - change (String a s +:+ String sep t) with (String a (s +:+ String sep t)). cbn [Split]. rewrite IH.
    destruct (Hne s) as (p & ps & ->). cbn [app]. by case_bool_decide.
Qed.

Lemma Join_snoc lines s : lines ≠ [] → Join "," (lines ++ [s]) = Join "," lines +:+ String "," s.
Proof.
  induction lines as [|l lines IH]; [done|]. intros _. destruct lines as [|l' lines]; [done|].
  cbn [app]. change (Join "," (l :: l' :: lines ++ [s])) with (l +:+ ("," +:+ Join "," ((l' :: lines) ++ [s]))).
  rewrite IH by done. change (Join "," (l :: l' :: lines)) with (l +:+ ("," +:+ Join "," (l' :: lines))).
  apply (inj bytes_of). by rewrite !bytes_of_app, <- !(assoc (++)).
Qed.

(** An entry that ends the walk: an address outside the trusted prefixes or a
    malformed one. *)
Definition deciding (trustedProxies : list Prefix) (hop : string) : bool :=
  negb (bool_decide (TrimSpace hop = EmptyString)) &&
  match parseHostAddr (TrimSpace hop) with
  | Some address => negb (addrInPrefixes address trustedProxies)
  | None => true
  end.

Lemma walk_hops_skip trusted passed rest :
  forallb (λ hop, negb (deciding trusted hop)) passed = true →
  walk_hops trusted (passed ++ rest) = walk_hops trusted rest.
Proof.
  unfold deciding. induction passed as [|hop passed IH]; [done|]. cbn [forallb app walk_hops].
  intros [Hh Hp]%andb_true_iff. specialize (IH Hp).
  case_bool_decide; [done|]. cbn in Hh. destruct (parseHostAddr _) as [a|]; [|done].
  rewrite negb_involutive in Hh. by rewrite Hh.
Qed.

Lemma walk_hops_decided trusted hop rest : deciding trusted hop = true →
  walk_hops trusted (hop :: rest) = parseHostAddr (TrimSpace hop).
Proof.
  unfold deciding. cbn [walk_hops]. case_bool_decide; [done|]. cbn.
  destruct (parseHostAddr _) as [a|]; [|done]. by intros ->%negb_true_iff.
Qed.

Lemma walk_hops_address trusted hops a : walk_hops trusted hops = Some a → graphic_within 64 (Addr_String a).
Proof.
  induction hops as [|hop hops IH]; [done|]. cbn [walk_hops]. case_bool_decide; [done|].
  destruct (parseHostAddr _) as [b|] eqn:Hb; [|done]. destruct (addrInPrefixes _ _); [done|].
  intros [= <-]. by eapply parseHostAddr_graphic.
Qed.

Lemma recorded_address trusted r : RequestMetadata_IPAddress (HTTPRequestMetadata trusted r) = clientAddress r trusted.
Proof.
  cbn. assert (graphic_within 64 (clientAddress r trusted)) as []; [|by apply sanitize_graphic].
  unfold clientAddress.
  destruct (parseHostAddr (RemoteAddr r)) as [peer|] eqn:Hp; [|by apply graphic_within_compute].
  pose proof (parseHostAddr_graphic _ _ Hp) as Hg. destruct (negb _); [done|]. cbv zeta.
  destruct (walk_hops _ _) as [a|] eqn:Hw; [|done]. by eapply walk_hops_address.
Qed.

(** C20: a client cannot choose the address its audit events record. When the
    transport peer is outside the trusted prefixes, the recorded address is the
    peer's whatever the headers say. When the peer is trusted and what the
    trusted proxies appended ends in entries of which [hop] is the rightmost
    one that is malformed or outside the prefixes, the address recorded is that
    of [hop], or the peer's if it is malformed, whatever lines and entries a
    client put before. The user agent is recorded without control characters
    and cut to 256 characters. *)
Theorem client_address_unforgeable trusted remote peer own near hop far :
  parseHostAddr remote = Some peer →
  reverse (Split "," own) = near ++ hop :: far →
  forallb (λ h, negb (deciding trusted h)) near = true → deciding trusted hop = true →
  let recorded lines agent := HTTPRequestMetadata trusted (mkClientRequest remote lines agent) in
  (addrInPrefixes peer trusted = false → ∀ lines agent,
     RequestMetadata_IPAddress (recorded lines agent) = Addr_String peer) ∧
  (addrInPrefixes peer trusted = true → ∀ lines forged agent,
     RequestMetadata_IPAddress (recorded (lines ++ [forged +:+ String "," own]) agent) =
     Addr_String (default peer (parseHostAddr (TrimSpace hop)))) ∧
  (∀ lines agent, let kept := runes (RequestMetadata_UserAgent (recorded lines agent)) in
     length kept ≤ 256 ∧ forallb printable kept = true).
Proof.
  intros Hpeer Hown Hnear Hhop recorded. unfold recorded. split_and!.
  - intros Ht lines agent. rewrite recorded_address. unfold clientAddress. cbn [RemoteAddr].
    by rewrite Hpeer, Ht.
  - intros Ht lines forged agent. rewrite recorded_address. unfold clientAddress. cbn [RemoteAddr ForwardedFor].
    rewrite Hpeer, Ht. cbn [negb]. cbv zeta. do 2 f_equal.
    assert (∃ before, Split "," (Join "," (lines ++ [forged +:+ String "," own])) = before ++ Split "," own)
      as [before ->].
    { destruct (decide (lines = [])) as [->|Hl]; [exists (Split "," forged); apply Split_app|].
      rewrite Join_snoc, !Split_app by done. exists (Split "," (Join "," lines) ++ Split "," forged).
      by rewrite (assoc (++)). }
    rewrite reverse_app, Hown, <- (assoc (++)), walk_hops_skip by done. cbn [app]. by apply walk_hops_decided.
  - intros lines agent. cbn [HTTPRequestMetadata sanitizeRequestMetadata RequestMetadata_UserAgent UserAgent].
    cbv zeta. rewrite sanitized_runes, length_take. unfold maxAuditUserAgentLength. split; [lia|].
    apply forallb_take, forallb_forall. by intros x [_ Hx]%filter_In.
Qed.

Lemma client_address_unforgeable_witness :
  let trusted := [mkPrefix (Addr4 0x0a000000) 8] in
  RequestMetadata_IPAddress (HTTPRequestMetadata trusted
    (mkClientRequest "10.0.0.7:443" ["127.0.0.1"; "::1" +:+ String "," "198.51.100.9, 10.0.0.3"] "curl")) =
  "198.51.100.9".
Proof.
  intros trusted.
  etransitivity; [apply (proj1 (proj2 (client_address_unforgeable trusted "10.0.0.7:443" (Addr4 0x0a000007)
    "198.51.100.9, 10.0.0.3" [" 10.0.0.3"] "198.51.100.9" [] ltac:(by vm_compute) ltac:(by vm_compute)
    ltac:(by vm_compute) ltac:(by vm_compute))) ltac:(by vm_compute) ["127.0.0.1"] "::1" "curl")|].
  by vm_compute.
Defined.
