(* ===== verification/Roles.v ===== *)
(** * Workspace roles (src/workspace_roles.go)

    [buildRoleCatalog] merges the configured role definitions with the two
    built-in roles, validates names and permissions, and compiles the
    inheritance graph depth-first with a visiting set.  Go ranges over the
    definitions in an unspecified order; the order is the argument [order] of
    the model, any enumeration of the keys, and the theorems hold for all. *)
From stdpp Require Import base gmap sets list strings numbers sorting relations.
From Stdlib Require Import ZArith Lia Ascii.
From S2P Require Import Prelude Bytes Uuid Types.

(** ** Name patterns *)
Definition is_lower (a : ascii) : bool := bool_decide (97 ≤ nat_of_ascii a ≤ 122).
Definition is_name_char (a : ascii) : bool :=
  is_lower a || is_digit a || bool_decide (a = "."%char) || bool_decide (a = "_"%char) ||
  bool_decide (a = "-"%char).

(** [^[a-z][a-z0-9._-]{0,n}$] *)
Definition name_pattern (n : nat) (s : string) : bool :=
  match s with
  | EmptyString => false
  | String a s' =>
      is_lower a && forallb is_name_char (bytes_of s') && bool_decide (str_len s' ≤ n)
  end.
Definition roleNamePattern : string → bool := name_pattern 63.
Definition workspacePermissionPattern : string → bool := name_pattern 127.

(** ** slices.Sort and slices.Compact *)
Definition str_le (a b : string) : Prop := String.leb a b = true.
#[export] Instance str_le_dec : RelDecision str_le := λ a b, decide (String.leb a b = true).

Fixpoint slices_Compact (l : list string) : list string :=
  match l with
  | a :: (b :: _) as l' => if bool_decide (a = b) then slices_Compact l' else a :: slices_Compact l'
  | _ => l
  end.
Definition uniqueWorkspacePermissions (values : list WorkspacePermission) :
    list WorkspacePermission := slices_Compact (merge_sort str_le values).
Definition uniqueRoles (values : list Role) : list Role :=
  slices_Compact (merge_sort str_le values).

(** ** Catalogue *)
Record compiledRole := mkCompiledRole {
  compiledRole_definition : RoleDefinition;
  compiledRole_roles : gset Role;
  compiledRole_permissions : gset WorkspacePermission }.
#[export] Instance compiledRole_eta : Settable compiledRole := λ r,
  mkCompiledRole (compiledRole_definition r) (compiledRole_roles r) (compiledRole_permissions r).
Definition compiledRole_zero : compiledRole := mkCompiledRole RoleDefinition_zero ∅ ∅.

Record roleCatalog := mkRoleCatalog {
  roleCatalog_roles : gmap Role compiledRole;
  roleCatalog_permissions : gset WorkspacePermission }.

Definition builtin_definitions : gmap Role RoleDefinition :=
  <[RoleMember := mkRoleDefinition RoleMember [PermissionWorkspaceAccess] []]>
  (<[RoleAdmin := mkRoleDefinition RoleAdmin
     [PermissionWorkspaceAccess; PermissionWorkspaceUsersRead; PermissionWorkspaceUsersWrite;
      PermissionWorkspaceSettingsWrite; PermissionWorkspaceRBACWrite;
      PermissionWorkspaceAuditRead; PermissionWorkspaceCredentialsManage;
      PermissionOAuthResourceManage] [RoleMember]]> ∅).

(** The body of the loop over the configured roles. *)
Definition add_definition (definitions : gmap Role RoleDefinition) (raw : RoleDefinition) :
    result (gmap Role RoleDefinition) :=
  let role := RoleDefinition_Role raw in
  if negb (roleNamePattern role) then Error (Wrapped "invalid workspace role" ErrInvalidInput)
  else
    let d := default RoleDefinition_zero (definitions !! role) in
    let inherits := RoleDefinition_Inherits d ++ RoleDefinition_Inherits raw in
    let inherits :=
      if bool_decide (role ≠ RoleMember) && bool_decide (role ≠ RoleAdmin) &&
         negb (bool_decide (RoleMember ∈ inherits))
      then inherits ++ [RoleMember] else inherits in
    Ok (<[role := mkRoleDefinition role
                    (RoleDefinition_Permissions d ++ RoleDefinition_Permissions raw)
                    inherits]> definitions).

Fixpoint add_definitions (definitions : gmap Role RoleDefinition) (l : list RoleDefinition) :
    result (gmap Role RoleDefinition) :=
  match l with
  | [] => Ok definitions
  | raw :: l' =>
      match add_definition definitions raw with
      | Ok definitions' => add_definitions definitions' l'
      | Error e => Error e
      end
  end.

(** The loop that removes duplicates and validates and collects permissions. *)
Fixpoint normalize_definitions (definitions : gmap Role RoleDefinition)
    (all : gset WorkspacePermission) (roles : list Role) :
    result (gmap Role RoleDefinition * gset WorkspacePermission) :=
  match roles with
  | [] => Ok (definitions, all)
  | role :: roles' =>
      let d := default RoleDefinition_zero (definitions !! role) in
      let permissions := uniqueWorkspacePermissions (RoleDefinition_Permissions d) in
      if forallb workspacePermissionPattern permissions then
        normalize_definitions
          (<[role := mkRoleDefinition (RoleDefinition_Role d) permissions
                       (uniqueRoles (RoleDefinition_Inherits d))]> definitions)
          (list_to_set permissions ∪ all) roles'
      else Error (Wrapped "invalid workspace permission" ErrInvalidInput)
  end.

(** The administrator role is granted every permission. *)
Definition grant_admin (all : gset WorkspacePermission)
    (definitions : gmap Role RoleDefinition) : gmap Role RoleDefinition :=
  let admin := default RoleDefinition_zero (definitions !! RoleAdmin) in
  <[RoleAdmin := admin <| RoleDefinition_Permissions :=
     uniqueWorkspacePermissions (RoleDefinition_Permissions admin ++ elements all) |>]> definitions.

(** ** Compilation *)
Record CompileState := mkCompileState {
  cs_roles : gmap Role compiledRole;
  cs_visiting : gset Role;
  cs_visited : gset Role }.
#[export] Instance CompileState_eta : Settable CompileState := λ r,
  mkCompileState (cs_roles r) (cs_visiting r) (cs_visited r).

Definition OutOfFuel : error := Opaque "out of fuel".

Definition merge_role (acc inherited : compiledRole) : compiledRole :=
  acc <| compiledRole_roles ::= (.∪ compiledRole_roles inherited) |>
      <| compiledRole_permissions ::= (.∪ compiledRole_permissions inherited) |>.

(** The loop over the inherited roles. *)
Fixpoint inherit (compile : Role → M CompileState compiledRole) (roles : list Role)
    (acc : compiledRole) : M CompileState compiledRole :=
  match roles with
  | [] => mret acc
  | role :: roles' =>
      inherited ← compile role;
      inherit compile roles' (merge_role acc inherited)
  end.

(** The recursive closure [compile]; its recursion depth is bounded by the
    number of definitions, the fuel. *)
Fixpoint compile (definitions : gmap Role RoleDefinition) (fuel : nat) (role : Role) :
    M CompileState compiledRole :=
  match fuel with
  | O => throw OutOfFuel
  | S fuel' =>
      s ← get;
      match cs_roles s !! role with
      | Some compiled => mret compiled
      | None =>
          definition ← ok_or (definitions !! role)
            (Wrapped "unknown inherited workspace role" ErrInvalidInput);
          throw_if (bool_decide (role ∈ cs_visiting s))
            (Wrapped "cyclic workspace role inheritance" ErrInvalidInput);;
          if bool_decide (role ∈ cs_visited s)
          then mret (default compiledRole_zero (cs_roles s !! role))
          else
            modify (λ s, s <| cs_visiting ::= ({[role]} ∪.) |>);;
            result ← inherit (compile definitions fuel')
              (RoleDefinition_Inherits definition)
              (mkCompiledRole definition {[role]}
                (list_to_set (RoleDefinition_Permissions definition)));
            modify (λ s, s <| cs_visiting ::= (.∖ {[role]}) |>
                           <| cs_visited ::= ({[role]} ∪.) |>
                           <| cs_roles ::= <[role := result]> |>);;
            mret result
      end
  end.

Fixpoint compile_all (definitions : gmap Role RoleDefinition) (fuel : nat)
    (roles : list Role) : M CompileState unit :=
  match roles with
  | [] => mret tt
  | role :: roles' => compile definitions fuel role;; compile_all definitions fuel roles'
  end.

(** Iteration orders over a map. *)
Definition IterationOrder : Type := gmap Role RoleDefinition → list Role.
Definition enumerates (order : IterationOrder) : Prop :=
  ∀ m, order m ≡ₚ (map_to_list m).*1.
Definition key_order : IterationOrder := λ m, (map_to_list m).*1.

Definition mergedDefinitions (order : IterationOrder) (configured : list RoleDefinition) :
    result (gmap Role RoleDefinition * gset WorkspacePermission) :=
  match add_definitions builtin_definitions configured with
  | Error e => Error e
  | Ok definitions =>
      match normalize_definitions definitions ∅ (order definitions) with
      | Error e => Error e
      | Ok (definitions, all) => Ok (grant_admin all definitions, all)
      end
  end.

Definition buildRoleCatalog (order : IterationOrder) (configured : list RoleDefinition) :
    result roleCatalog :=
  match mergedDefinitions order configured with
  | Error e => Error e
  | Ok (definitions, all) =>
      match compile_all definitions (S (size definitions)) (order definitions)
              (mkCompileState ∅ ∅ ∅) with
      | (Ok _, s) => Ok (mkRoleCatalog (cs_roles s) all)
      | (Error e, _) => Error e
      end
  end.

Definition roleCatalog_normalize (c : roleCatalog) (role : Role) : result Role :=
  match roleCatalog_roles c !! role with
  | None => Error (ValidationError "role" "unknown" "unknown workspace role")
  | Some _ => Ok role
  end.

Definition includes (c : roleCatalog) (role required : Role) : bool :=
  match roleCatalog_roles c !! role with
  | None => false
  | Some compiled => bool_decide (required ∈ compiledRole_roles compiled)
  end.

Definition allows (c : roleCatalog) (role : Role) (permission : WorkspacePermission) : bool :=
  match roleCatalog_roles c !! role with
  | None => false
  | Some compiled => bool_decide (permission ∈ compiledRole_permissions compiled)
  end.

(** ** Inheritance, declaratively *)
Section inheritance.
Context (definitions : gmap Role RoleDefinition).

Definition inherits (r r' : Role) : Prop :=
  ∃ d, definitions !! r = Some d ∧ r' ∈ RoleDefinition_Inherits d.

(** Every inherited role is defined. *)
Definition closed : Prop := ∀ r r', inherits r r' → is_Some (definitions !! r').

(** No role inherits from itself, directly or not. *)
Definition acyclic : Prop := ∀ r, ¬ tc inherits r r.

(** The permissions of a role: its own and those of all it inherits from. *)
Definition granted (r : Role) (p : WorkspacePermission) : Prop :=
  ∃ r' d, rtc inherits r r' ∧ definitions !! r' = Some d ∧ p ∈ RoleDefinition_Permissions d.

(** A compiled role is the transitive closure of its definition. *)
Record compiled_ok (r : Role) (c : compiledRole) : Prop := {
  compiled_defined : is_Some (definitions !! r);
  compiled_roles : ∀ r', r' ∈ compiledRole_roles c ↔ rtc inherits r r';
  compiled_permissions : ∀ p, p ∈ compiledRole_permissions c ↔ granted r p;
  compiled_acc : Acc (flip inherits) r;
  compiled_closed : ∀ r', rtc inherits r r' → is_Some (definitions !! r') }.

(** What is compiled so far is correct and is what [visited] records; roles
    being visited are defined and not compiled yet. *)
Record compile_inv (s : CompileState) : Prop := {
  inv_ok : ∀ r c, cs_roles s !! r = Some c → compiled_ok r c;
  inv_visited : cs_visited s = dom (cs_roles s);
  inv_visiting : cs_visiting s ⊆ dom definitions;
  inv_disjoint : cs_visiting s ## dom (cs_roles s) }.

Lemma rtc_inherits_step r r' : rtc inherits r r' ↔ r' = r ∨ ∃ r1, inherits r r1 ∧ rtc inherits r1 r'.
Proof.
  split.
  - intros H. destruct (rtc_inv _ _ H) as [->|(r1 & ? & ?)]; eauto.
  - intros [->|(r1 & ? & ?)]; [done|by eapply rtc_l].
Qed.

Lemma granted_step r d p :
  definitions !! r = Some d →
  granted r p ↔ p ∈ RoleDefinition_Permissions d ∨
    ∃ r1, r1 ∈ RoleDefinition_Inherits d ∧ granted r1 p.
Proof.
  intros Hd. unfold granted. split.
  - intros (r' & d' & [->|(r1 & (d1 & Hd1 & Hin) & Hr)]%rtc_inherits_step & Hd' & Hp).
    + left. congruence.
    + right. exists r1. split; [congruence|eauto].
  - intros [Hp|(r1 & Hin & r' & d' & Hr & Hd' & Hp)].
    + exists r, d. eauto using rtc_refl.
    + exists r', d'. split_and!; [|done..]. eapply rtc_l; [|done]. by exists d.
Qed.

(** The loop over inherited roles accumulates the union of what they compile
    to. *)
Lemma inherit_spec (comp : Role → M CompileState compiledRole) (Post : CompileState → CompileState → Prop)
    (Inv : CompileState → Prop) roles acc s :
  (∀ s, Post s s) → (∀ s1 s2 s3, Post s1 s2 → Post s2 s3 → Post s1 s3) →
  (∀ r s, r ∈ roles → Inv s → wp (comp r) (λ res s', match res with
     | Ok c => compiled_ok r c ∧ Inv s' ∧ Post s s' | Error _ => True end) s) →
  Inv s →
  wp (inherit comp roles acc) (λ res s', match res with
    | Ok c =>
        Inv s' ∧ Post s s' ∧ compiledRole_definition c = compiledRole_definition acc ∧
        (∀ r', r' ∈ compiledRole_roles c ↔
           r' ∈ compiledRole_roles acc ∨ ∃ r, r ∈ roles ∧ rtc inherits r r') ∧
        (∀ p, p ∈ compiledRole_permissions c ↔
           p ∈ compiledRole_permissions acc ∨ ∃ r, r ∈ roles ∧ granted r p) ∧
        (∀ r, r ∈ roles → Acc (flip inherits) r ∧
           ∀ r', rtc inherits r r' → is_Some (definitions !! r'))
    | Error _ => True end) s.
Proof.
  intros Hrefl Htrans Hcomp. revert acc s.
  induction roles as [|r roles IH]; intros acc s Hinv; cbn [inherit].
  - apply wp_ret. split_and!; auto; set_solver.
  - apply wp_bind. eapply wp_mono; [apply Hcomp; [by left|done]|].
    intros [c|e] s1; [|done]. intros (Hc & Hinv1 & Hp1).
    eapply wp_mono; [apply IH; [|done]|].
    { intros r' s' Hr' ?. apply Hcomp; [by right|done]. }
    intros [c'|e'] s2; [|done]. intros (Hinv2 & Hp2 & Hdef & Hroles & Hperms & Hacc).
    destruct Hc as [_ Hr Hg Ha Hcl].
    split_and!; [done|by eapply Htrans|done| | |].
    + intros r'. rewrite Hroles. cbn. rewrite elem_of_union, Hr. set_solver.
    + intros p. rewrite Hperms. cbn. rewrite elem_of_union, Hg. set_solver.
    + intros r' [->|?]%elem_of_cons; [done|auto].
Qed.

(** States only grow, and the visiting set is restored. *)
Definition compile_post (s s' : CompileState) : Prop :=
  cs_roles s ⊆ cs_roles s' ∧ cs_visiting s' = cs_visiting s.

Lemma compile_sound fuel role s :
  compile_inv s →
  wp (compile definitions fuel role) (λ res s', match res with
    | Ok c => compiled_ok role c ∧ compile_inv s' ∧ compile_post s s' ∧
              cs_roles s' !! role = Some c
    | Error _ => True end) s.
Proof.
  revert role s. induction fuel as [|fuel IH]; intros role s Hinv; cbn [compile]; [done|].
  apply wp_bind, wp_get. destruct (cs_roles s !! role) as [c|] eqn:Hrole.
  { apply wp_ret. split_and!; [by eapply inv_ok|done|done|done]. }
  apply wp_bind, wp_ok_or; [done|intros d Hd].
  apply wp_bind, wp_throw_if; [done|intros Hv]. bool_cases.
  rewrite bool_decide_eq_false_2
    by (rewrite (inv_visited _ Hinv), not_elem_of_dom; done).
  apply wp_bind, wp_modify, wp_bind.
  set (s1 := set_field _ _ s).
  eapply wp_mono; [apply (inherit_spec (compile definitions fuel) compile_post
    (λ t, compile_inv t ∧ cs_visiting t = cs_visiting s1))|].
  - done.
  - intros ??? [??] [??]. split; [by etrans|congruence].
  - intros r t Hr [Ht Hvt]. eapply wp_mono; [by apply IH|].
    intros [c|e] t'; [|done]. intros (? & ? & [? Hv'] & ?). split_and!; try done. congruence.
  - split; [|done]. destruct Hinv. split; unfold s1; cbn; try done.
    + apply union_subseteq. split; [|done]. apply singleton_subseteq_l, elem_of_dom. eauto.
    + apply disjoint_union_l. split; [|done].
      apply disjoint_singleton_l, not_elem_of_dom. done.
  - intros [c|e] t; [|done].
    intros ([Ht Hvt] & [Hsub _] & _ & Hroles & Hperms & Hacc). cbn in Hroles, Hperms.
    apply wp_bind, wp_modify, wp_ret.
    assert (cs_roles t !! role = None) as Hnone.
    { apply not_elem_of_dom. intros Hin. destruct Ht as [_ _ _ Hdis].
      apply (Hdis role); [|done]. rewrite Hvt. unfold s1. cbn. set_solver. }
    assert (compiled_ok role c) as Hok.
    { split; [eauto| | | |].
      - intros r'. rewrite Hroles, elem_of_singleton, rtc_inherits_step.
        unfold inherits at 2. setoid_rewrite Hd. naive_solver.
      - intros p. rewrite Hperms, elem_of_list_to_set, (granted_step role d) by done. done.
      - constructor. intros r' (d' & ? & ?). simplify_eq. by apply Hacc.
      - intros r' [->|(r1 & (d' & ? & ?) & ?)]%rtc_inherits_step; [eauto|].
        simplify_eq. by eapply Hacc. }
    split_and!; [done| | |].
    + destruct Ht as [Hti Htv Htg Htd]. split; cbn.
      * intros r c' [[<- <-]|[? ?]]%lookup_insert_Some; [done|eauto].
      * rewrite dom_insert_L, Htv. done.
      * set_solver.
      * rewrite dom_insert_L. set_solver.
    + split; cbn.
      * etrans; [exact Hsub|]. by apply insert_subseteq.
      * rewrite Hvt. unfold s1. cbn. set_solver.
    + cbn. by rewrite lookup_insert_eq.
Qed.

Lemma wp_compile_inv fuel role s :
  compile_inv s →
  wp (compile definitions fuel role) (λ res s', match res with
    | Ok c => compile_inv s' ∧ cs_visiting s' = cs_visiting s | Error _ => True end) s.
Proof.
  intros Hinv. eapply wp_mono; [by apply compile_sound|].
  intros [c|e] s'; [|done]. by intros (_ & ? & [_ ?] & _).
Qed.

Lemma inherit_errors (comp : Role → M CompileState compiledRole) (Inv : CompileState → Prop)
    (P : error → Prop) roles acc s :
  (∀ r s, r ∈ roles → Inv s → wp (comp r) (λ res s', match res with
     | Ok _ => Inv s' | Error e => P e end) s) →
  Inv s →
  wp (inherit comp roles acc) (λ res s', match res with Ok _ => True | Error e => P e end) s.
Proof.
  intros Hcomp. revert acc s. induction roles as [|r roles IH]; intros acc s Hinv; [done|].
  cbn [inherit]. apply wp_bind. eapply wp_mono; [apply Hcomp; [by left|done]|].
  intros [c|e] s1 ?; [|done]. apply IH; [|done]. intros. apply Hcomp; [by right|done].
Qed.

(** Compilation only fails on an undefined or a cyclic inheritance, and the
    number of definitions is enough fuel. *)
Lemma compile_errors fuel role s :
  compile_inv s → (closed → is_Some (definitions !! role)) →
  (∀ v, v ∈ cs_visiting s → tc inherits v role) →
  S (size definitions) ≤ fuel + size (cs_visiting s) →
  wp (compile definitions fuel role) (λ res _, match res with
    | Ok _ => True
    | Error e => e ≠ OutOfFuel ∧ ¬ (closed ∧ acyclic) end) s.
Proof.
  revert role s. induction fuel as [|fuel IH]; intros role s Hinv Hdef Hpath Hfuel; cbn [compile].
  { apply wp_throw. exfalso. pose proof (subseteq_size _ _ (inv_visiting _ Hinv)) as Hs.
    rewrite size_dom in Hs. lia. }
  apply wp_bind, wp_get. destruct (cs_roles s !! role) as [c|] eqn:Hrole; [by apply wp_ret|].
  apply wp_bind, wp_ok_or.
  { intros Hnone. split; [done|]. intros [Hc _]. destruct (Hdef Hc). congruence. }
  intros d Hd. apply wp_bind, wp_throw_if.
  { intros Hv. bool_cases. split; [done|]. intros [_ Ha]. by apply (Ha role), Hpath. }
  intros Hv. bool_cases. rewrite bool_decide_eq_false_2
    by (rewrite (inv_visited _ Hinv), not_elem_of_dom; done).
  apply wp_bind, wp_modify, wp_bind. set (s1 := set_field _ _ s).
  assert (compile_inv s1) as Hinv1.
  { destruct Hinv. split; unfold s1; cbn; try done.
    - apply union_subseteq. split; [|done]. apply singleton_subseteq_l, elem_of_dom. eauto.
    - apply disjoint_union_l. split; [|done]. by apply disjoint_singleton_l, not_elem_of_dom. }
  eapply wp_mono; [apply (inherit_errors _ (λ t, compile_inv t ∧ cs_visiting t = cs_visiting s1)
    (λ e, e ≠ OutOfFuel ∧ ¬ (closed ∧ acyclic)))|].
  - intros r t Hr [Ht Hvt].
    assert (wp (compile definitions fuel r) (λ res _, match res with
      | Ok _ => True | Error e => e ≠ OutOfFuel ∧ ¬ (closed ∧ acyclic) end) t) as Herr.
    { apply IH; [done| | |].
      - intros Hc. apply (Hc role). by exists d.
      - assert (inherits role r) as Hir by (by exists d).
        rewrite Hvt. unfold s1. cbn. intros v [->%elem_of_singleton|Hin]%elem_of_union;
          [by apply tc_once|]. eapply tc_r; [by apply Hpath|done].
      - rewrite Hvt. unfold s1. cbn. rewrite size_union, size_singleton by set_solver. lia. }
    pose proof (wp_compile_inv fuel r t Ht) as Hok. revert Herr Hok. unfold wp.
    destruct (compile definitions fuel r t) as [[c|e] t']; [|done].
    cbn. intros _ [? ?]. split; [done|by etrans].
  - done.
  - intros [c|e] t; [|done]. intros _. by apply wp_bind, wp_modify, wp_ret.
Qed.

Lemma compile_all_spec fuel roles s :
  compile_inv s → cs_visiting s = ∅ → S (size definitions) ≤ fuel →
  (∀ r, r ∈ roles → is_Some (definitions !! r)) →
  wp (compile_all definitions fuel roles) (λ res s', match res with
    | Ok _ => compile_inv s' ∧ cs_roles s ⊆ cs_roles s' ∧
              (∀ r, r ∈ roles → is_Some (cs_roles s' !! r))
    | Error e => e ≠ OutOfFuel ∧ ¬ (closed ∧ acyclic) end) s.
Proof.
  intros Hinv Hvis Hfuel. revert s Hinv Hvis.
  induction roles as [|r roles IH]; intros s Hinv Hvis Hdef; cbn [compile_all].
  { apply wp_ret. split_and!; [done..|]. by intros r ?%not_elem_of_nil. }
  apply wp_bind.
  pose proof (compile_sound fuel r s Hinv) as Hs.
  assert (wp (compile definitions fuel r) (λ res _, match res with
      | Ok _ => True | Error e => e ≠ OutOfFuel ∧ ¬ (closed ∧ acyclic) end) s) as He.
  { apply compile_errors; [done| | |].
    - intros _. apply Hdef. by left.
    - rewrite Hvis. set_solver.
    - rewrite Hvis, size_empty. lia. }
  revert Hs He. unfold wp at 1 2 3.
  destruct (compile definitions fuel r s) as [[c|e] s1]; [|done]. cbn.
  intros (_ & Hinv1 & [Hsub1 Hvis1] & Hr) _.
  eapply wp_mono; [apply IH; [done|congruence|]|].
  { intros. apply Hdef. by right. }
  intros [?|e] s2; [|done]. intros (? & Hsub2 & Hall). split_and!; [done|by etrans|].
  intros r' [->|?]%elem_of_cons; [|by auto]. exists c. by eapply lookup_weaken.
Qed.

End inheritance.

(** ** The configuration, declaratively *)
Section configuration.
Context (decls : list RoleDefinition).

(** A role is defined when some declaration names it. *)
Definition spec_defined (r : Role) : Prop := ∃ d, d ∈ decls ∧ RoleDefinition_Role d = r.

(** Declared inheritance, plus every custom role inheriting from member. *)
Definition spec_inherits (r r' : Role) : Prop :=
  (∃ d, d ∈ decls ∧ RoleDefinition_Role d = r ∧ r' ∈ RoleDefinition_Inherits d) ∨
  (spec_defined r ∧ r ≠ RoleMember ∧ r ≠ RoleAdmin ∧ r' = RoleMember).

Definition spec_declares (r : Role) (p : WorkspacePermission) : Prop :=
  ∃ d, d ∈ decls ∧ RoleDefinition_Role d = r ∧ p ∈ RoleDefinition_Permissions d.

(** Declared permissions, the administrator holding all of them. *)
Definition spec_holds (r : Role) (p : WorkspacePermission) : Prop :=
  spec_declares r p ∨ r = RoleAdmin ∧ ∃ r', spec_declares r' p.

Definition spec_granted (r : Role) (p : WorkspacePermission) : Prop :=
  ∃ r', rtc spec_inherits r r' ∧ spec_holds r' p.

End configuration.

Definition builtin_declarations : list RoleDefinition :=
  [mkRoleDefinition RoleMember [PermissionWorkspaceAccess] [];
   mkRoleDefinition RoleAdmin
     [PermissionWorkspaceAccess; PermissionWorkspaceUsersRead; PermissionWorkspaceUsersWrite;
      PermissionWorkspaceSettingsWrite; PermissionWorkspaceRBACWrite;
      PermissionWorkspaceAuditRead; PermissionWorkspaceCredentialsManage;
      PermissionOAuthResourceManage] [RoleMember]].

Definition declarations (configured : list RoleDefinition) : list RoleDefinition :=
  builtin_declarations ++ configured.

(** A configuration the catalogue accepts. *)
Record valid_configuration (configured : list RoleDefinition) : Prop := {
  valid_names : ∀ d, d ∈ configured → roleNamePattern (RoleDefinition_Role d) = true;
  valid_permissions : ∀ d p, d ∈ configured → p ∈ RoleDefinition_Permissions d →
    workspacePermissionPattern p = true;
  valid_inherits : ∀ r r', spec_inherits (declarations configured) r r' →
    spec_defined (declarations configured) r';
  valid_acyclic : ∀ r, ¬ tc (spec_inherits (declarations configured)) r r }.

(** A definition map holds what the declarations say. *)
Record represents (defs : gmap Role RoleDefinition) (decls : list RoleDefinition) : Prop := {
  rep_defined : ∀ r, is_Some (defs !! r) ↔ spec_defined decls r;
  rep_inherits : ∀ r r', inherits defs r r' ↔ spec_inherits decls r r';
  rep_permissions : ∀ r p,
    (∃ d, defs !! r = Some d ∧ p ∈ RoleDefinition_Permissions d) ↔ spec_declares decls r p }.

Lemma represents_builtin : represents builtin_definitions builtin_declarations.
Proof.
  assert (∀ r, builtin_definitions !! r =
    if bool_decide (r = RoleMember) then Some (mkRoleDefinition RoleMember [PermissionWorkspaceAccess] [])
    else if bool_decide (r = RoleAdmin) then
      builtin_definitions !! RoleAdmin else None) as Hl.
  { intros r. unfold builtin_definitions. case_bool_decide; [by simplify_map_eq|].
    case_bool_decide; by simplify_map_eq. }
  assert (builtin_definitions !! RoleAdmin = builtin_declarations !! 1%nat) as Ha by done.
  split.
  - intros r. rewrite Hl, Ha. unfold spec_defined, builtin_declarations.
    setoid_rewrite elem_of_cons. repeat case_bool_decide; set_solver.
  - intros r r'. unfold inherits, spec_inherits, spec_defined. setoid_rewrite Hl. rewrite Ha.
    unfold builtin_declarations. setoid_rewrite elem_of_cons. repeat case_bool_decide; set_solver.
  - intros r p. unfold spec_declares. setoid_rewrite Hl. rewrite Ha.
    unfold builtin_declarations. setoid_rewrite elem_of_cons. repeat case_bool_decide; set_solver.
Qed.

Lemma spec_defined_snoc decls d r :
  spec_defined (decls ++ [d]) r ↔ spec_defined decls r ∨ RoleDefinition_Role d = r.
Proof. unfold spec_defined. set_solver. Qed.

Lemma spec_declares_snoc decls d r p :
  spec_declares (decls ++ [d]) r p ↔
  spec_declares decls r p ∨ RoleDefinition_Role d = r ∧ p ∈ RoleDefinition_Permissions d.
Proof. unfold spec_declares. set_solver. Qed.

Lemma spec_inherits_snoc decls d r r' :
  spec_inherits (decls ++ [d]) r r' ↔
  spec_inherits decls r r' ∨ RoleDefinition_Role d = r ∧
    (r' ∈ RoleDefinition_Inherits d ∨ r ≠ RoleMember ∧ r ≠ RoleAdmin ∧ r' = RoleMember).
Proof. unfold spec_inherits. rewrite spec_defined_snoc. set_solver. Qed.

Lemma with_member_elem role inh r' :
  r' ∈ (if bool_decide (role ≠ RoleMember) && bool_decide (role ≠ RoleAdmin) &&
           negb (bool_decide (RoleMember ∈ inh)) then inh ++ [RoleMember] else inh) ↔
  r' ∈ inh ∨ role ≠ RoleMember ∧ role ≠ RoleAdmin ∧ r' = RoleMember.
Proof.
  destruct (decide (role = RoleMember)), (decide (role = RoleAdmin)),
    (decide (RoleMember ∈ inh)); repeat case_bool_decide; cbn;
    rewrite ?elem_of_app, ?list_elem_of_singleton; naive_solver.
Qed.

Lemma represents_add defs decls raw defs' :
  represents defs decls → add_definition defs raw = Ok defs' →
  represents defs' (decls ++ [raw]).
Proof.
  intros [Hd Hi Hp] Hadd. unfold add_definition in Hadd.
  destruct (roleNamePattern _); [|done]. cbn [negb] in Hadd.
  injection Hadd as <-. set (role := RoleDefinition_Role raw) in *.
  assert (∀ P : RoleDefinition → Prop, ¬ P RoleDefinition_zero →
    P (default RoleDefinition_zero (defs !! role)) ↔ ∃ d, defs !! role = Some d ∧ P d) as Hdef.
  { intros P HP. destruct (defs !! role); cbn; naive_solver. }
  split.
  - intros r. rewrite lookup_insert_is_Some', spec_defined_snoc, Hd. fold role. naive_solver.
  - intros r r'. rewrite spec_inherits_snoc, <- Hi. fold role. unfold inherits.
    destruct (decide (role = r)) as [<-|Hne]; [|rewrite lookup_insert_ne by done; naive_solver].
    rewrite lookup_insert_eq.
    pose proof (Hdef (λ d, r' ∈ RoleDefinition_Inherits d) ltac:(cbn; set_solver)) as Hr'.
    cbn beta in Hr'. rewrite <- Hr'.
    transitivity (r' ∈ RoleDefinition_Inherits (default RoleDefinition_zero (defs !! role)) ++
      RoleDefinition_Inherits raw ∨ role ≠ RoleMember ∧ role ≠ RoleAdmin ∧ r' = RoleMember).
    + rewrite <- with_member_elem. naive_solver.
    + rewrite elem_of_app. naive_solver.
  - intros r p. rewrite spec_declares_snoc, <- Hp. fold role.
    destruct (decide (role = r)) as [<-|Hne]; [|rewrite lookup_insert_ne by done; naive_solver].
    rewrite lookup_insert_eq.
    pose proof (Hdef (λ d, p ∈ RoleDefinition_Permissions d) ltac:(cbn; set_solver)) as Hr'.
    cbn beta in Hr'. rewrite <- Hr'.
    transitivity (p ∈ RoleDefinition_Permissions (default RoleDefinition_zero (defs !! role)) ++
      RoleDefinition_Permissions raw); [naive_solver|]. rewrite elem_of_app. naive_solver.
Qed.

Lemma represents_add_all decls defs l defs' :
  represents defs decls → add_definitions defs l = Ok defs' →
  represents defs' (decls ++ l).
Proof.
  revert decls defs. induction l as [|raw l IH]; intros decls defs Hrep Hadd; cbn in Hadd.
  { simplify_eq. by rewrite app_nil_r. }
  destruct (add_definition defs raw) as [defs1|] eqn:Hr; [|done].
  rewrite cons_middle, (assoc_L (++)). eapply IH; [by eapply represents_add|done].
Qed.

Lemma add_definitions_ok defs l :
  is_ok (add_definitions defs l) = true ↔
  ∀ d, d ∈ l → roleNamePattern (RoleDefinition_Role d) = true.
Proof.
  revert defs. induction l as [|raw l IH]; intros defs; cbn; [set_solver|].
  unfold add_definition. destruct (roleNamePattern _) eqn:E; cbn.
  - rewrite IH. set_solver.
  - split; [done|]. intros H. rewrite (H raw) in E; [done|by left].
Qed.

(** ** Normalisation of the definitions *)
Lemma slices_Compact_elem l x : x ∈ slices_Compact l ↔ x ∈ l.
Proof.
  induction l as [|a [|b l] IH]; [done|done|].
  cbn [slices_Compact]. case_bool_decide as Hab.
  - cbn in IH. rewrite IH. set_solver.
  - rewrite !(elem_of_cons _ x a). cbn in IH. by rewrite IH.
Qed.

Lemma unique_elem l x : x ∈ slices_Compact (merge_sort str_le l) ↔ x ∈ l.
Proof. by rewrite slices_Compact_elem, merge_sort_Permutation. Qed.

Lemma forallb_spec {A} (f : A → bool) l : forallb f l = true ↔ ∀ x, x ∈ l → f x = true.
Proof. rewrite forallb_forall. by setoid_rewrite list_elem_of_In. Qed.

Lemma represents_update defs decls r d d' :
  represents defs decls → defs !! r = Some d →
  (∀ x, x ∈ RoleDefinition_Inherits d' ↔ x ∈ RoleDefinition_Inherits d) →
  (∀ x, x ∈ RoleDefinition_Permissions d' ↔ x ∈ RoleDefinition_Permissions d) →
  represents (<[r := d']> defs) decls.
Proof.
  intros [Hd Hi Hp] Hr Hin Hpe. split.
  - intros r0. rewrite lookup_insert_is_Some', Hd.
    assert (spec_defined decls r) by (apply Hd; eauto). naive_solver.
  - intros r0 r'. rewrite <- Hi. unfold inherits.
    destruct (decide (r = r0)) as [<-|]; [|by rewrite lookup_insert_ne].
    rewrite lookup_insert_eq. naive_solver.
  - intros r0 p. rewrite <- Hp.
    destruct (decide (r = r0)) as [<-|]; [|by rewrite lookup_insert_ne].
    rewrite lookup_insert_eq. naive_solver.
Qed.

Lemma normalize_definitions_spec decls defs all roles :
  represents defs decls → (∀ r, r ∈ roles → spec_defined decls r) →
  match normalize_definitions defs all roles with
  | Ok (defs', all') =>
      represents defs' decls ∧
      (∀ p, p ∈ all' ↔ p ∈ all ∨ ∃ r, r ∈ roles ∧ spec_declares decls r p) ∧
      (∀ r p, r ∈ roles → spec_declares decls r p → workspacePermissionPattern p = true)
  | Error _ =>
      ∃ r p, r ∈ roles ∧ spec_declares decls r p ∧ workspacePermissionPattern p = false
  end.
Proof.
  revert defs all. induction roles as [|r roles IH]; intros defs all Hrep Hdef; cbn.
  { split; [done|]. set_solver. }
  destruct (proj2 (rep_defined _ _ Hrep r)) as [d Hd]; [apply Hdef; by left|].
  rewrite Hd. cbn.
  assert (∀ p, p ∈ uniqueWorkspacePermissions (RoleDefinition_Permissions d) ↔
    spec_declares decls r p) as Hperm.
  { intros p. unfold uniqueWorkspacePermissions. rewrite unique_elem, <- (rep_permissions _ _ Hrep).
    naive_solver. }
  destruct (forallb _ _) eqn:Hall.
  - rewrite forallb_spec in Hall. setoid_rewrite Hperm in Hall.
    specialize (IH (<[r := mkRoleDefinition (RoleDefinition_Role d)
       (uniqueWorkspacePermissions (RoleDefinition_Permissions d))
       (uniqueRoles (RoleDefinition_Inherits d))]> defs)
      (list_to_set (uniqueWorkspacePermissions (RoleDefinition_Permissions d)) ∪ all)).
    destruct (normalize_definitions _ _ roles) as [[defs' all']|e].
    + destruct IH as (IH1 & IH2 & IH3).
      { eapply represents_update; [done..| |]; intros x; apply unique_elem. }
      { intros. apply Hdef. by right. }
      split_and!; [done| |].
      * intros p. rewrite IH2, elem_of_union, elem_of_list_to_set, Hperm.
        setoid_rewrite elem_of_cons. naive_solver.
      * intros r' p [->|?]%elem_of_cons ?; eauto.
    + destruct IH as (r' & p & ? & ? & ?).
      { eapply represents_update; [done..| |]; intros x; apply unique_elem. }
      { intros. apply Hdef. by right. }
      exists r', p. split_and!; [by right|done|done].
  - assert (¬ Forall (λ p, workspacePermissionPattern p = true)
      (uniqueWorkspacePermissions (RoleDefinition_Permissions d))) as Hn.
    { intros Hf. rewrite Forall_forall in Hf. apply not_true_iff_false in Hall. apply Hall.
      by apply forallb_spec. }
    apply not_Forall_Exists in Hn; [|apply _]. apply Exists_exists in Hn as (p & Hin & Hp).
    exists r, p. split_and!; [by left|by apply Hperm|by apply not_true_iff_false].
Qed.

Lemma grant_admin_inherits all defs r r' :
  is_Some (defs !! RoleAdmin) → inherits (grant_admin all defs) r r' ↔ inherits defs r r'.
Proof.
  intros [d Hd]. unfold inherits, grant_admin. rewrite Hd. cbn.
  destruct (decide (RoleAdmin = r)) as [<-|]; [|by rewrite lookup_insert_ne].
  rewrite lookup_insert_eq. naive_solver.
Qed.

Lemma grant_admin_defined all defs r :
  is_Some (defs !! RoleAdmin) → is_Some (grant_admin all defs !! r) ↔ is_Some (defs !! r).
Proof. intros Ha. unfold grant_admin. rewrite lookup_insert_is_Some'. naive_solver. Qed.

Lemma grant_admin_permissions all defs decls r p :
  represents defs decls → spec_defined decls RoleAdmin →
  (∀ p, p ∈ all ↔ ∃ r, spec_declares decls r p) →
  (∃ d, grant_admin all defs !! r = Some d ∧ p ∈ RoleDefinition_Permissions d) ↔
  spec_holds decls r p.
Proof.
  intros Hrep Ha Hall. pose proof (rep_permissions _ _ Hrep) as Hp.
  apply (rep_defined _ _ Hrep) in Ha as [d Hd].
  unfold grant_admin, spec_holds. rewrite Hd. cbn.
  destruct (decide (RoleAdmin = r)) as [<-|Hne].
  - rewrite lookup_insert_eq, <- Hp. transitivity
      (p ∈ RoleDefinition_Permissions d ++ elements all).
    { rewrite <- unique_elem. naive_solver. }
    rewrite elem_of_app, elem_of_elements, Hall. naive_solver.
  - rewrite lookup_insert_ne, <- Hp by done. naive_solver.
Qed.

(** ** The catalogue *)
Lemma rtc_iff {A} (R S : relation A) x y : (∀ x y, R x y ↔ S x y) → rtc R x y ↔ rtc S x y.
Proof.
  intros HRS. split; induction 1; try done; (eapply rtc_l; [|done]); by apply HRS.
Qed.

Lemma tc_iff {A} (R S : relation A) x y : (∀ x y, R x y ↔ S x y) → tc R x y ↔ tc S x y.
Proof.
  intros HRS. split; (induction 1; [apply tc_once; by apply HRS|]);
    (eapply tc_l; [|done]); by apply HRS.
Qed.

Lemma tc_cases {A} (R : relation A) x y : tc R x y → R x y ∨ ∃ z, R x z ∧ tc R z y.
Proof. destruct 1; eauto. Qed.

Lemma Acc_not_cyclic {A} (R : relation A) x : Acc (flip R) x → ¬ tc R x x.
Proof.
  induction 1 as [x _ IH]. intros Hc.
  apply tc_cases in Hc as [Hxx|(y & Hxy & Hyx)]; [by eapply IH, tc_once|].
  eapply (IH y); [done|]. by eapply tc_r.
Qed.

Lemma enumerates_elem order m r :
  enumerates order → r ∈ order m ↔ is_Some (m !! r).
Proof.
  intros Ho. rewrite (Ho m), list_elem_of_fmap. split.
  - intros ([k v] & -> & Hk%elem_of_map_to_list). by exists v.
  - intros [v Hv]. exists (r, v). by rewrite elem_of_map_to_list.
Qed.

Lemma builtin_permissions_ok d p :
  d ∈ builtin_declarations → p ∈ RoleDefinition_Permissions d →
  workspacePermissionPattern p = true.
Proof.
  assert (forallb (λ d, forallb workspacePermissionPattern (RoleDefinition_Permissions d))
    builtin_declarations = true) as Hall by reflexivity.
  rewrite forallb_spec in Hall. intros Hd. specialize (Hall d Hd). cbn beta in Hall.
  rewrite forallb_spec in Hall. auto.
Qed.

Lemma mergedDefinitions_spec order configured :
  enumerates order →
  match mergedDefinitions order configured with
  | Ok (defs, all) =>
      (∀ r, is_Some (defs !! r) ↔ spec_defined (declarations configured) r) ∧
      (∀ r r', inherits defs r r' ↔ spec_inherits (declarations configured) r r') ∧
      (∀ r p, (∃ d, defs !! r = Some d ∧ p ∈ RoleDefinition_Permissions d) ↔
        spec_holds (declarations configured) r p) ∧
      (∀ p, p ∈ all ↔ ∃ r, spec_declares (declarations configured) r p) ∧
      (∀ d, d ∈ configured → roleNamePattern (RoleDefinition_Role d) = true) ∧
      (∀ d p, d ∈ configured → p ∈ RoleDefinition_Permissions d →
        workspacePermissionPattern p = true)
  | Error e => e ≠ OutOfFuel ∧ ¬ valid_configuration configured
  end.
Proof.
  intros Ho. unfold mergedDefinitions.
  pose proof (add_definitions_ok builtin_definitions configured) as Hok.
  destruct (add_definitions builtin_definitions configured) as [defs|e] eqn:Hadd.
  2: { split; [|intros [Hn _ _ _]; by apply Hok in Hn].
       clear Hok. revert Hadd. generalize builtin_definitions as m.
       induction configured as [|raw l IH]; intros m; cbn; [done|].
       unfold add_definition. destruct (roleNamePattern _); cbn; [apply IH|by intros [= <-]]. }
  pose proof (represents_add_all _ _ _ _ represents_builtin Hadd) as Hrep.
  fold (declarations configured) in Hrep.
  pose proof (normalize_definitions_spec _ _ ∅ (order defs) Hrep) as Hn.
  assert (∀ r, r ∈ order defs ↔ spec_defined (declarations configured) r) as Hdom
    by (intros r; by rewrite enumerates_elem, (rep_defined _ _ Hrep)).
  assert (∀ r p, spec_declares (declarations configured) r p → r ∈ order defs) as Hdecl.
  { intros r p (d & ? & <- & ?). apply Hdom. by exists d. }
  assert (spec_defined (declarations configured) RoleAdmin) as Hadmin
    by (eexists; split; [right; left|done]).
  destruct (normalize_definitions defs ∅ (order defs)) as [[defs' all]|e] eqn:Hnorm.
  - destruct Hn as (Hrep' & Hall & Hpat); [by intros; apply Hdom|].
    assert (∀ p, p ∈ all ↔ ∃ r, spec_declares (declarations configured) r p) as Hall'
      by (intros p; rewrite Hall; split;
          [intros [?%elem_of_empty|(r & _ & ?)]; [done|eauto]|intros [r ?]; right; eauto]).
    assert (is_Some (defs' !! RoleAdmin)) by (by apply (rep_defined _ _ Hrep')).
    split_and!.
    + intros r. rewrite grant_admin_defined by done. apply Hrep'.
    + intros r r'. rewrite grant_admin_inherits by done. apply Hrep'.
    + intros r p. by apply grant_admin_permissions.
    + done.
    + by apply Hok.
    + intros d p Hd Hp. apply (Hpat (RoleDefinition_Role d)).
      * apply Hdom. exists d. split; [by apply elem_of_app; right|done].
      * exists d. split; [by apply elem_of_app; right|done].
  - destruct Hn as (r & p & Hr & Hp & Hpat); [by intros; apply Hdom|].
    split.
    { clear -Hnorm. revert Hnorm. generalize (∅ : gset WorkspacePermission) as g.
      generalize (order defs) as l. intros l g. revert defs g. induction l as [|x l IH]; intros defs g; cbn; [done|].
      destruct (forallb _ _); [apply IH|by intros [= <-]]. }
    intros [_ Hv _ _]. destruct Hp as (d & [Hd|Hd]%elem_of_app & _ & Hp).
    + by rewrite (builtin_permissions_ok d p) in Hpat.
    + by rewrite (Hv d p) in Hpat.
Qed.

Lemma compile_inv_initial defs : compile_inv defs (mkCompileState ∅ ∅ ∅).
Proof. split; cbn; [by intros ?? ?%lookup_empty_Some|by rewrite dom_empty_L|set_solver..]. Qed.

Lemma granted_spec defs decls r p :
  (∀ r r', inherits defs r r' ↔ spec_inherits decls r r') →
  (∀ r p, (∃ d, defs !! r = Some d ∧ p ∈ RoleDefinition_Permissions d) ↔ spec_holds decls r p) →
  granted defs r p ↔ spec_granted decls r p.
Proof.
  intros Hi Hp. unfold granted, spec_granted. setoid_rewrite (rtc_iff _ _ _ _ Hi).
  setoid_rewrite <- Hp. naive_solver.
Qed.

(** The catalogue of a valid configuration, and the rejection of any other. *)
Lemma buildRoleCatalog_spec order configured :
  enumerates order →
  match buildRoleCatalog order configured with
  | Ok c =>
      valid_configuration configured ∧
      (∀ r, is_Some (roleCatalog_roles c !! r) ↔ spec_defined (declarations configured) r) ∧
      (∀ r k, roleCatalog_roles c !! r = Some k →
        (∀ r', r' ∈ compiledRole_roles k ↔ rtc (spec_inherits (declarations configured)) r r') ∧
        (∀ p, p ∈ compiledRole_permissions k ↔ spec_granted (declarations configured) r p)) ∧
      (∀ p, p ∈ roleCatalog_permissions c ↔ ∃ r, spec_declares (declarations configured) r p)
  | Error e => e ≠ OutOfFuel ∧ ¬ valid_configuration configured
  end.
Proof.
  intros Ho. unfold buildRoleCatalog.
  pose proof (mergedDefinitions_spec order configured Ho) as Hm.
  destruct (mergedDefinitions order configured) as [[defs all]|e]; [|done].
  destruct Hm as (Hdef & Hinh & Hperm & Hall & Hnames & Hpats).
  assert (closed defs ↔ ∀ r r', spec_inherits (declarations configured) r r' →
    spec_defined (declarations configured) r') as Hclosed.
  { unfold closed. setoid_rewrite Hinh. by setoid_rewrite Hdef. }
  assert (acyclic defs ↔ ∀ r, ¬ tc (spec_inherits (declarations configured)) r r) as Hacyclic.
  { unfold acyclic. by setoid_rewrite (tc_iff _ _ _ _ Hinh). }
  pose proof (compile_all_spec defs (S (size defs)) (order defs) _ (compile_inv_initial defs)
    eq_refl ltac:(lia) (λ r Hr, proj1 (enumerates_elem _ _ _ Ho) Hr)) as Hc.
  apply wp_run with (r := (compile_all defs (S (size defs)) (order defs)
    (mkCompileState ∅ ∅ ∅)).1) (s' := (compile_all defs (S (size defs)) (order defs)
    (mkCompileState ∅ ∅ ∅)).2) in Hc; [|by destruct (compile_all _ _ _ _)].
  destruct (compile_all _ _ _ _) as [[[]|e] s]; cbn in Hc.
  2: { destruct Hc as [? Hc]. split; [done|]. intros [_ _ Hcl Hac]. apply Hc. tauto. }
  destruct Hc as ([Hok _ _ _] & _ & Hcompiled). cbn.
  assert (∀ r, is_Some (defs !! r) → is_Some (cs_roles s !! r)) as Hsub
    by (intros r Hr; by apply Hcompiled, enumerates_elem).
  split_and!.
  - split; [done|done| |].
    + apply Hclosed. intros r r' Hrr'.
      destruct (Hsub r) as [k Hk]; [destruct Hrr' as (d & ? & _); eauto|].
      eapply (compiled_closed _ _ _ (Hok _ _ Hk)). by apply rtc_once.
    + apply Hacyclic. intros r Hr.
      destruct (Hsub r) as [k Hk].
      { apply tc_cases in Hr as [(d & ? & _)|(? & (d & ? & _) & _)]; eauto. }
      by eapply Acc_not_cyclic; [apply (compiled_acc _ _ _ (Hok _ _ Hk))|].
  - intros r. rewrite <- Hdef. split; [|apply Hsub].
    intros [k Hk]. apply (compiled_defined _ _ _ (Hok _ _ Hk)).
  - intros r k Hk. destruct (Hok _ _ Hk) as [_ Hr Hp _ _]. split.
    + intros r'. by rewrite Hr, (rtc_iff _ _ _ _ Hinh).
    + intros p. by rewrite Hp, (granted_spec _ (declarations configured)).
  - done.
Qed.

(** C36: [buildRoleCatalog] succeeds exactly on the valid configurations
    (well-formed role and permission names, every inherited role defined, no
    cyclic inheritance), whatever order the definitions are iterated in; its
    recursion always ends, the number of definitions being enough fuel. *)
Theorem buildRoleCatalog_accepts order configured :
  enumerates order →
  (is_ok (buildRoleCatalog order configured) = true ↔ valid_configuration configured) ∧
  buildRoleCatalog order configured ≠ Error OutOfFuel.
Proof.
  intros Ho. pose proof (buildRoleCatalog_spec order configured Ho) as Hs.
  destruct (buildRoleCatalog order configured) as [c|e]; naive_solver.
Qed.

(** C35: the compiled catalogue decides declarative inheritance: a role
    includes exactly the roles reachable through declared inheritance (custom
    roles inheriting from member), and allows exactly the permissions declared
    by those roles, the administrator holding every declared permission. *)
Theorem buildRoleCatalog_closure order configured c :
  enumerates order → buildRoleCatalog order configured = Ok c →
  ∀ r r' p,
    (includes c r r' = true ↔
      spec_defined (declarations configured) r ∧
      rtc (spec_inherits (declarations configured)) r r') ∧
    (allows c r p = true ↔
      spec_defined (declarations configured) r ∧ spec_granted (declarations configured) r p).
Proof.
  intros Ho Hb r r' p. pose proof (buildRoleCatalog_spec order configured Ho) as Hs.
  rewrite Hb in Hs. destruct Hs as (_ & Hdef & Hroles & _). rewrite <- Hdef.
  unfold includes, allows. destruct (roleCatalog_roles c !! r) as [k|] eqn:Hk.
  - destruct (Hroles r k Hk) as [Hr Hp]. rewrite !bool_decide_eq_true, Hr, Hp. naive_solver.
  - split; (split; [done|intros [[? ?] _]; done]).
Qed.

(** In any catalogue every role includes member and its basic access
    permission, and the administrator is allowed every registered permission,
    hence all that any role is allowed. *)
Theorem buildRoleCatalog_hierarchy order configured c :
  enumerates order → buildRoleCatalog order configured = Ok c →
  (∀ r, spec_defined (declarations configured) r →
    includes c r RoleMember = true ∧ allows c r PermissionWorkspaceAccess = true) ∧
  (∀ p, p ∈ roleCatalog_permissions c → allows c RoleAdmin p = true) ∧
  (∀ r p, allows c r p = true → p ∈ roleCatalog_permissions c).
Proof.
  intros Ho Hb. pose proof (buildRoleCatalog_spec order configured Ho) as Hs.
  rewrite Hb in Hs. destruct Hs as (_ & Hdef & Hroles & Hperm).
  assert (∀ d, d ∈ builtin_declarations → d ∈ declarations configured) as Hbuiltin
    by (intros; apply elem_of_app; by left).
  unfold includes, allows. split_and!.
  - intros r Hr. destruct (proj2 (Hdef r) Hr) as [k Hk]. rewrite Hk, !bool_decide_eq_true.
    destruct (Hroles r k Hk) as [Hin Hg]. rewrite Hin, Hg.
    assert (rtc (spec_inherits (declarations configured)) r RoleMember) as Hm.
    { destruct (decide (r = RoleMember)) as [->|]; [done|]. apply rtc_once.
      destruct (decide (r = RoleAdmin)) as [->|]; [|by right].
      left. eexists. split_and!; [apply Hbuiltin; right; left|done|left]. }
    split; [done|]. exists RoleMember. split; [done|]. left.
    eexists. split_and!; [apply Hbuiltin; left|done|left].
  - intros p Hp. destruct (proj2 (Hdef RoleAdmin)) as [k Hk].
    { eexists. split; [apply Hbuiltin; right; left|done]. }
    rewrite Hk, bool_decide_eq_true. apply (Hroles _ _ Hk). exists RoleAdmin.
    split; [done|]. right. split; [done|]. by apply Hperm.
  - intros r p. destruct (roleCatalog_roles c !! r) as [k|] eqn:Hk; [|done].
    rewrite bool_decide_eq_true. intros Hp. apply (Hroles _ _ Hk) in Hp as (r' & _ & Hp).
    apply Hperm. destruct Hp as [?|(_ & ?)]; eauto.
Qed.

(** ** Witnesses *)
Definition example_roles : list RoleDefinition :=
  [mkRoleDefinition "editor" ["docs.write"] ["viewer"];
   mkRoleDefinition "viewer" ["docs.read"] []].

Definition example_catalog : roleCatalog :=
  match buildRoleCatalog key_order example_roles with
  | Ok c => c
  | Error _ => mkRoleCatalog ∅ ∅
  end.

Lemma example_catalog_ok : buildRoleCatalog key_order example_roles = Ok example_catalog.
Proof. vm_compute. reflexivity. Qed.

Lemma key_order_enumerates : enumerates key_order.
Proof. intros m. reflexivity. Qed.

Lemma buildRoleCatalog_accepts_witness :
  enumerates key_order ∧ valid_configuration example_roles ∧
  ¬ valid_configuration [mkRoleDefinition "a" [] ["b"]; mkRoleDefinition "b" [] ["a"]].
Proof.
  split_and!.
  - apply key_order_enumerates.
  - apply (buildRoleCatalog_accepts key_order example_roles); [apply key_order_enumerates|].
    vm_compute. reflexivity.
  - intros Hv. apply (buildRoleCatalog_accepts key_order) in Hv; [|apply key_order_enumerates].
    vm_compute in Hv. discriminate.
Defined.

Lemma buildRoleCatalog_closure_witness :
  includes example_catalog "editor" "viewer" = true ∧
  spec_granted (declarations example_roles) "editor" "docs.read".
Proof.
  split; [vm_compute; reflexivity|].
  apply (buildRoleCatalog_closure key_order example_roles example_catalog
    key_order_enumerates example_catalog_ok "editor" "viewer" "docs.read").
  vm_compute. reflexivity.
Defined.

Lemma buildRoleCatalog_hierarchy_witness :
  "docs.write" ∈ roleCatalog_permissions example_catalog ∧
  allows example_catalog RoleAdmin "docs.write" = true.
Proof.
  split; [apply (bool_decide_eq_true _); vm_compute; reflexivity|].
  apply (buildRoleCatalog_hierarchy key_order example_roles example_catalog
    key_order_enumerates example_catalog_ok).
  apply (bool_decide_eq_true _). vm_compute. reflexivity.
Defined.
