(* ===== verification/AuditChain.v ===== *)
(** * The audit hash chain (src/audit.go)

    The canonical encoding of an audit event, the hash that chains it to its
    predecessor, and the verification loop of [VerifyAuditChainFrom].  The
    theorems show that the encoding determines the event (up to sub-microsecond
    time) and that two chains ending in the same head agree, or else exhibit a
    collision of SHA-256. *)
From stdpp Require Import base gmap list strings numbers.
From Stdlib Require Import ZArith Lia Ascii.
From S2P Require Import Prelude Bytes Uuid Types.

(** [auditChainGenesis = make([]byte, sha256.Size)] *)
Definition auditChainGenesis : string := of_bytes (replicate 32 Ascii.zero).

Definition hashedID (id : UUID) : string :=
  if bool_decide (id = Nil) then EmptyString else UUID_String id.

(** The closure [write]: a length-prefixed, terminated field. *)
Definition frame (value : string) : string :=
  Itoa (str_len value) +:+ String ":" (value +:+ ";").

(** The fields in the order they are written. *)
Definition audit_fields (event : AuditEvent) : list string :=
  [FormatInt (AuditEvent_Sequence event);
   hashedID (AuditEvent_ID event);
   FormatInt (UnixMicro (AuditEvent_OccurredAt event));
   AuditEvent_ActorKind event;
   hashedID (AuditEvent_ActorID event);
   AuditEvent_Action event;
   AuditEvent_ResourceType event;
   AuditEvent_ResourceID event;
   hashedID (AuditEvent_WorkspaceID event);
   AuditEvent_Outcome event;
   AuditEvent_Reason event;
   AuditEvent_IPAddress event;
   AuditEvent_UserAgent event].

Fixpoint frames (l : list string) : string :=
  match l with
  | [] => EmptyString
  | v :: l' => frame v +:+ frames l'
  end.

(** All the bytes written to the hash. *)
Definition audit_preimage (previous : string) (event : AuditEvent) : string :=
  (if bool_decide (str_len previous = 0) then auditChainGenesis else previous) +:+
  frames (audit_fields event).

Definition ComputeAuditHash (previous : string) (event : AuditEvent) : string :=
  sha256_Sum (audit_preimage previous event).

(** ** Verification *)

(** The loop over the chained events: the sequence and the hash reached. *)
Fixpoint verify_events (previous : string) (sequence : Z) (events : list AuditEvent) :
    result (Z * string) :=
  match events with
  | [] => Ok (sequence, previous)
  | event :: events' =>
      let sequence := wrap64 (sequence + 1) in
      if bool_decide (AuditEvent_Sequence event ≠ sequence) then
        Error (Wrapped "unexpected sequence" ErrAuditCompromised)
      else if bool_decide (AuditEvent_PreviousHash event ≠ previous) ||
              bool_decide (AuditEvent_Hash event ≠ ComputeAuditHash previous event) then
        Error (Wrapped "audit event does not extend its predecessor" ErrAuditCompromised)
      else verify_events (AuditEvent_Hash event) sequence events'
  end.

(** Where [VerifyAuditChainFrom] starts: the hash and the sequence number of
    the checkpoint, or those of the genesis. *)
Definition checkpoint_start (checkpoint : AuditChainCheckpoint) : result (string * Z) :=
  let cs := AuditChainCheckpoint_Sequence checkpoint in
  let ch := AuditChainCheckpoint_Hash checkpoint in
  if bool_decide (cs < 0)%Z ||
     negb (Bool.eqb (bool_decide (cs = 0)%Z) (bool_decide (str_len ch = 0))) then
    Error (Wrapped "an audit checkpoint pairs a positive sequence with its hash" ErrInvalidInput)
  else if bool_decide (0 < cs)%Z then Ok (ch, cs) else Ok (auditChainGenesis, 0%Z).

(** The comparison with the head the store persists. *)
Definition check_head (sequence : Z) (previous : string) (headSequence : Z) (headHash : string) :
    result AuditChainReport :=
  if bool_decide (headSequence ≠ sequence) || bool_decide (headHash ≠ previous) then
    Error (Wrapped "chain head does not match the last chained event" ErrAuditCompromised)
  else Ok (mkAuditChainReport sequence headSequence headHash).

(** [VerifyAuditChainFrom] once authorized, over the events and the head the
    store answers. *)
Definition verify_chain_from (checkpoint : AuditChainCheckpoint)
    (chained : Z → list AuditEvent) (headSequence : Z) (headHash : string) :
    result AuditChainReport :=
  match checkpoint_start checkpoint with
  | Error e => Error e
  | Ok (previous, sequence) =>
      match verify_events previous sequence (chained sequence) with
      | Error e => Error e
      | Ok (sequence, previous) => check_head sequence previous headSequence headHash
      end
  end.

(** ** The encoding is injective *)
Lemma digits_app_inj (l1 l2 r1 r2 : list ascii) :
  Forall (λ a, is_digit a = true) l1 → Forall (λ a, is_digit a = true) l2 →
  l1 ++ ":"%char :: r1 = l2 ++ ":"%char :: r2 → l1 = l2 ∧ r1 = r2.
Proof.
  intros H1. revert l2. induction H1 as [|a l1 Ha H1 IH]; intros l2 H2 He.
  - destruct H2 as [|b l2 Hb H2]; simpl in He; [by simplify_eq|]. by simplify_eq.
  - destruct H2 as [|b l2 Hb H2]; simpl in He; [by simplify_eq|].
    injection He as -> He. destruct (IH l2 H2 He) as [-> ->]. done.
Qed.

Lemma frame_app_inj v1 v2 t1 t2 : frame v1 +:+ t1 = frame v2 +:+ t2 → v1 = v2 ∧ t1 = t2.
Proof.
  intros He. apply (f_equal bytes_of) in He. unfold frame in He.
  repeat (rewrite bytes_of_app in He || rewrite bytes_of_cons in He).
  rewrite <- !(assoc_L (++)) in He. cbn [app] in He.
  apply digits_app_inj in He as [Hl He]; [|apply Itoa_digits..].
  apply (inj bytes_of), (inj Itoa) in Hl. rewrite <- !(assoc_L (++)) in He.
  apply app_inj_1 in He as [Hv He]; [|by rewrite !bytes_of_length].
  injection He as He. by split; apply (inj bytes_of).
Qed.

Lemma frames_inj l1 l2 : length l1 = length l2 → frames l1 = frames l2 → l1 = l2.
Proof.
  revert l2. induction l1 as [|v l1 IH]; intros [|w l2] Hlen He; simplify_eq/=; [done|].
  apply frame_app_inj in He as [-> He]. f_equal. by apply IH.
Qed.

#[export] Instance hashedID_inj : Inj (=) (=) hashedID.
Proof.
  intros u v. unfold hashedID. repeat case_bool_decide; intros Huv; subst; try done.
  by apply (inj UUID_String).
Qed.

(** What the chain protects of an event: everything but the chaining columns
    themselves, with the time of occurrence at microsecond precision. *)
Record same_content (a b : AuditEvent) : Prop := {
  same_Sequence : AuditEvent_Sequence a = AuditEvent_Sequence b;
  same_ID : AuditEvent_ID a = AuditEvent_ID b;
  same_OccurredAt : UnixMicro (AuditEvent_OccurredAt a) = UnixMicro (AuditEvent_OccurredAt b);
  same_ActorKind : AuditEvent_ActorKind a = AuditEvent_ActorKind b;
  same_ActorID : AuditEvent_ActorID a = AuditEvent_ActorID b;
  same_Action : AuditEvent_Action a = AuditEvent_Action b;
  same_ResourceType : AuditEvent_ResourceType a = AuditEvent_ResourceType b;
  same_ResourceID : AuditEvent_ResourceID a = AuditEvent_ResourceID b;
  same_WorkspaceID : AuditEvent_WorkspaceID a = AuditEvent_WorkspaceID b;
  same_Outcome : AuditEvent_Outcome a = AuditEvent_Outcome b;
  same_Reason : AuditEvent_Reason a = AuditEvent_Reason b;
  same_IPAddress : AuditEvent_IPAddress a = AuditEvent_IPAddress b;
  same_UserAgent : AuditEvent_UserAgent a = AuditEvent_UserAgent b }.

Lemma audit_fields_inj a b : audit_fields a = audit_fields b ↔ same_content a b.
Proof.
  split.
  - unfold audit_fields. intros H. injection H as ? ? ? ? ? ? ? ? ? ? ? ? ?.
    split; try done; by (apply (inj hashedID) || apply (inj FormatInt)).
  - intros []. unfold audit_fields. congruence.
Qed.

Lemma audit_preimage_inj p q a b :
  str_len p = 32 → str_len q = 32 →
  audit_preimage p a = audit_preimage q b ↔ p = q ∧ same_content a b.
Proof.
  intros Hp Hq. unfold audit_preimage. rewrite !bool_decide_eq_false_2 by lia.
  rewrite <- audit_fields_inj. split; [|by intros [-> ->]].
  intros He. apply app_inj_len in He as [-> He]; [|congruence].
  split; [done|]. by apply frames_inj.
Qed.

(** ** Collisions *)

(** The first position at which two chains hash different bytes to the same
    digest. *)
Fixpoint find_collision (p q : string) (l k : list AuditEvent) : option (string * string) :=
  match l, k with
  | a :: l', b :: k' =>
      let x := audit_preimage p a in
      let y := audit_preimage q b in
      if bool_decide (x ≠ y) && bool_decide (sha256_Sum x = sha256_Sum y) then Some (x, y)
      else find_collision (AuditEvent_Hash a) (AuditEvent_Hash b) l' k'
  | _, _ => None
  end.

Lemma find_collision_sound p q l k x y :
  find_collision p q l k = Some (x, y) → x ≠ y ∧ sha256_Sum x = sha256_Sum y.
Proof.
  revert p q k. induction l as [|a l IH]; intros p q [|b k]; cbn; try done.
  destruct (bool_decide _ && bool_decide _) eqn:E; [|apply IH].
  intros [= <- <-]. by bool_cases.
Qed.

Lemma verify_events_cons previous sequence event events r :
  verify_events previous sequence (event :: events) = Ok r →
  AuditEvent_Sequence event = wrap64 (sequence + 1) ∧
  AuditEvent_PreviousHash event = previous ∧
  AuditEvent_Hash event = ComputeAuditHash previous event ∧
  verify_events (AuditEvent_Hash event) (wrap64 (sequence + 1)) events = Ok r.
Proof. cbn. repeat case_bool_decide; naive_solver. Qed.

Lemma verify_events_app previous sequence l k n h :
  verify_events previous sequence l = Ok (n, h) →
  verify_events previous sequence (l ++ k) = verify_events h n k.
Proof.
  revert previous sequence. induction l as [|a l IH]; intros previous sequence.
  - by intros [= -> ->].
  - intros (Hs & Hp & Hh & Hv)%verify_events_cons. cbn.
    rewrite !bool_decide_eq_false_2 by (intros []; done). by apply IH.
Qed.

(** Two verified chains of the same length with the same head started from the
    same digest and hold the same events, or a collision is found. *)
Lemma verify_events_agree p q s l k n m h :
  length l = length k → str_len p = 32 → str_len q = 32 →
  verify_events p s l = Ok (n, h) → verify_events q s k = Ok (m, h) →
  find_collision p q l k = None →
  p = q ∧ Forall2 same_content l k.
Proof.
  revert p q s k. induction l as [|a l IH]; intros p q s [|b k] Hlen Hp Hq Hl Hk Hc;
    simplify_eq/=; [by split; [congruence|constructor]|].
  apply verify_events_cons in Hl as (Hsa & Hpa & Hha & Hl).
  apply verify_events_cons in Hk as (Hsb & Hpb & Hhb & Hk).
  destruct (bool_decide _ && bool_decide _) eqn:E; [done|].
  assert (str_len (AuditEvent_Hash a) = 32 ∧ str_len (AuditEvent_Hash b) = 32) as [Ha Hb]
    by (rewrite Hha, Hhb; split; apply sha256_Sum_len).
  destruct (IH _ _ _ _ Hlen Ha Hb Hl Hk Hc) as [Heq Hrest].
  rewrite Hha, Hhb in Heq. unfold ComputeAuditHash in Heq.
  rewrite (bool_decide_eq_true_2 (sha256_Sum _ = _)), andb_true_r in E by done.
  apply bool_decide_eq_false, dec_stable in E.
  apply audit_preimage_inj in E as [-> ?]; [|done..]. by split; [|constructor].
Qed.

Lemma auditChainGenesis_len : str_len auditChainGenesis = 32.
Proof. reflexivity. Qed.

(** C34: tamper evidence. Two event lists of the same length that both verify
    from the genesis and reach the same head hash hold, position by position,
    the same protected content (identifier, microsecond time, actor, action,
    resource, workspace, outcome, reason, request metadata and sequence), or
    [find_collision] computes two different byte strings with the same SHA-256
    digest from them. *)
Theorem audit_chain_tamper_evident l k n m h :
  length l = length k →
  verify_events auditChainGenesis 0 l = Ok (n, h) →
  verify_events auditChainGenesis 0 k = Ok (m, h) →
  Forall2 same_content l k ∨
  ∃ x y, find_collision auditChainGenesis auditChainGenesis l k = Some (x, y) ∧
    x ≠ y ∧ sha256_Sum x = sha256_Sum y.
Proof.
  intros Hlen Hl Hk.
  destruct (find_collision auditChainGenesis auditChainGenesis l k) as [[x y]|] eqn:Hc.
  - right. exists x, y. split; [done|]. by eapply find_collision_sound.
  - left. eapply verify_events_agree; eauto using auditChainGenesis_len.
Qed.

(** The canonical encoding hashed for an event determines the predecessor
    hash and every protected field: distinct events never share an encoding,
    except for times that differ below a microsecond. *)
Theorem audit_encoding_injective p q a b :
  str_len p = 32 → str_len q = 32 →
  audit_preimage p a = audit_preimage q b ↔ p = q ∧ same_content a b.
Proof. apply audit_preimage_inj. Qed.

(** ** Witnesses *)
Definition sample_event (nanos : Z) : AuditEvent :=
  let e := AuditEvent_zero <| AuditEvent_Action := "user.create" |>
             <| AuditEvent_OccurredAt := nanos |> <| AuditEvent_Sequence := 1%Z |>
             <| AuditEvent_PreviousHash := auditChainGenesis |> in
  e <| AuditEvent_Hash := ComputeAuditHash auditChainGenesis e |>.

Lemma audit_chain_tamper_evident_witness :
  Forall2 same_content [sample_event 1] [sample_event 2] ∨
  ∃ x y, find_collision auditChainGenesis auditChainGenesis [sample_event 1] [sample_event 2] =
    Some (x, y) ∧ x ≠ y ∧ sha256_Sum x = sha256_Sum y.
Proof.
  apply (audit_chain_tamper_evident _ _ 1 1 (AuditEvent_Hash (sample_event 1))).
  - reflexivity.
  - vm_compute. reflexivity.
  - vm_compute. reflexivity.
Defined.

Lemma audit_encoding_injective_witness :
  audit_preimage auditChainGenesis (sample_event 1) =
    audit_preimage auditChainGenesis (sample_event 2000) ↔
  auditChainGenesis = auditChainGenesis ∧ same_content (sample_event 1) (sample_event 2000).
Proof. apply audit_encoding_injective; reflexivity. Defined.
