(* ===== verification/Store.v ===== *)
(** * The in-memory store: state and commit protocol (src/memory/store.go)

    [Store] has the fields of the Go struct.  Every exported operation of the
    store takes the mutex for its whole body, so an operation is one atomic
    transition of this state, a computation of [M Store].  A mutation follows
    the same protocol: guards, [prepareCommitLocked] (audit admissibility,
    consumption of a single-use ceremony, snapshot), the update, then
    [finishCommitLocked] (transactional hook, restore on rejection, audit). *)
From stdpp Require Import base gmap sets list strings numbers sorting.
From Stdlib Require Import ZArith Lia.
From S2P Require Import Prelude Bytes Uuid Types OAuthTypes AuditChain.

(** [ctx.Err()]: the error of a context that is done. *)
Definition Context : Type := option error.

(** [type CeremonyConsumption struct], events.go:65 *)
Record CeremonyConsumption := mkCeremonyConsumption {
  CeremonyConsumption_ID : UUID;
  CeremonyConsumption_ExpiresAt : Z }.

(** [type Commit struct], events.go:36.  The memory store calls
    [Transactional] with a [Tx] that gives access to the audit event and
    nothing else, under the store's mutex: what it answers is a function of
    the event. *)
Record Commit := mkCommit {
  Commit_Audit : AuditEvent;
  Commit_Transactional : option (AuditEvent → option error);
  Commit_Ceremony : option CeremonyConsumption;
  Commit_Unchained : bool }.
#[export] Instance Commit_eta : Settable Commit := λ r,
  mkCommit (Commit_Audit r) (Commit_Transactional r) (Commit_Ceremony r) (Commit_Unchained r).

(** [type Store struct] without its mutex. *)
Record Store := mkStore {
  users : gmap UUID User;
  emails : gmap string UUID;
  emailAddresses : gmap UUID EmailAddress;
  emailIDs : gmap string UUID;
  emailVerifications : gmap UUID EmailVerificationCredential;
  passwords : gmap UUID PasswordCredential;
  workspaces : gmap UUID Workspace;
  memberships : gmap string (gmap UUID Membership);
  admins : gmap UUID InstanceAdministrator;
  ssoIdentities : gmap UUID SSOIdentity;
  ssoKeys : gmap string UUID;
  totp : gmap UUID TOTPFactor;
  recovery : gmap UUID (list RecoveryCode);
  passkeys : gmap string (gmap UUID Passkey);
  pats : gmap UUID PAT;
  patPrefixes : gmap string UUID;
  sessions : gmap UUID Session;
  ceremonies : gmap UUID Z;
  emailIssuance : gmap string Z;
  domains : gmap UUID WorkspaceDomain;
  domainNames : gmap string UUID;
  scimConfigurations : gmap UUID SCIMConfiguration;
  scimCredentials : gmap UUID SCIMCredential;
  scimCredentialKeys : gmap string UUID;
  scimUsers : gmap UUID SCIMUser;
  scimUserNames : gmap string UUID;
  scimExternalIDs : gmap string UUID;
  scimGroups : gmap UUID SCIMGroup;
  scimGroupExternal : gmap string UUID;
  oauthIssuers : gmap UUID OAuthIssuer;
  oauthIssuerURLs : gmap string UUID;
  oauthResources : gmap UUID OAuthProtectedResource;
  oauthResourceURIs : gmap string UUID;
  oauthClients : gmap UUID OAuthClient;
  oauthClientKeys : gmap string UUID;
  oauthInitialTokens : gmap UUID OAuthInitialAccessToken;
  oauthInitialKeys : gmap string UUID;
  oauthGrants : gmap UUID OAuthGrant;
  oauthCodes : gmap UUID OAuthAuthorizationCode;
  oauthCodeKeys : gmap string UUID;
  oauthAccessTokens : gmap UUID OAuthAccessToken;
  oauthAccessKeys : gmap string UUID;
  oauthClientTokens : gmap UUID OAuthClientAccessToken;
  oauthClientTokenKeys : gmap string UUID;
  oauthRefreshTokens : gmap UUID OAuthRefreshToken;
  oauthRefreshKeys : gmap string UUID;
  throttles : gmap UUID LoginThrottle;
  passwordResets : gmap UUID PasswordResetCredential;
  emailAuths : gmap UUID EmailAuthenticationCredential;
  invitations : gmap UUID WorkspaceInvitation;
  audits : list AuditEvent;
  auditIDs : gset UUID;
  auditSequence : Z;
  auditHead : string;
  auditFailure : option error }.
#[export] Instance Store_eta : Settable Store := λ r,
  mkStore (users r) (emails r) (emailAddresses r) (emailIDs r) (emailVerifications r)
  (passwords r) (workspaces r) (memberships r) (admins r) (ssoIdentities r) (ssoKeys r) (totp r)
  (recovery r) (passkeys r) (pats r) (patPrefixes r) (sessions r) (ceremonies r)
  (emailIssuance r) (domains r) (domainNames r) (scimConfigurations r) (scimCredentials r)
  (scimCredentialKeys r) (scimUsers r) (scimUserNames r) (scimExternalIDs r) (scimGroups r)
  (scimGroupExternal r) (oauthIssuers r) (oauthIssuerURLs r) (oauthResources r)
  (oauthResourceURIs r) (oauthClients r) (oauthClientKeys r) (oauthInitialTokens r)
  (oauthInitialKeys r) (oauthGrants r) (oauthCodes r) (oauthCodeKeys r) (oauthAccessTokens r)
  (oauthAccessKeys r) (oauthClientTokens r) (oauthClientTokenKeys r) (oauthRefreshTokens r)
  (oauthRefreshKeys r) (throttles r) (passwordResets r) (emailAuths r) (invitations r)
  (audits r) (auditIDs r) (auditSequence r) (auditHead r) (auditFailure r).
#[export] Instance set_users : Setter users := ltac:(solve_setter).
#[export] Instance set_emails : Setter emails := ltac:(solve_setter).
#[export] Instance set_emailAddresses : Setter emailAddresses := ltac:(solve_setter).
#[export] Instance set_emailIDs : Setter emailIDs := ltac:(solve_setter).
#[export] Instance set_emailVerifications : Setter emailVerifications := ltac:(solve_setter).
#[export] Instance set_passwords : Setter passwords := ltac:(solve_setter).
#[export] Instance set_workspaces : Setter workspaces := ltac:(solve_setter).
#[export] Instance set_memberships : Setter memberships := ltac:(solve_setter).
#[export] Instance set_admins : Setter admins := ltac:(solve_setter).
#[export] Instance set_ssoIdentities : Setter ssoIdentities := ltac:(solve_setter).
#[export] Instance set_ssoKeys : Setter ssoKeys := ltac:(solve_setter).
#[export] Instance set_totp : Setter totp := ltac:(solve_setter).
#[export] Instance set_recovery : Setter recovery := ltac:(solve_setter).
#[export] Instance set_passkeys : Setter passkeys := ltac:(solve_setter).
#[export] Instance set_pats : Setter pats := ltac:(solve_setter).
#[export] Instance set_patPrefixes : Setter patPrefixes := ltac:(solve_setter).
#[export] Instance set_sessions : Setter sessions := ltac:(solve_setter).
#[export] Instance set_ceremonies : Setter ceremonies := ltac:(solve_setter).
#[export] Instance set_emailIssuance : Setter emailIssuance := ltac:(solve_setter).
#[export] Instance set_domains : Setter domains := ltac:(solve_setter).
#[export] Instance set_domainNames : Setter domainNames := ltac:(solve_setter).
#[export] Instance set_scimConfigurations : Setter scimConfigurations := ltac:(solve_setter).
#[export] Instance set_scimCredentials : Setter scimCredentials := ltac:(solve_setter).
#[export] Instance set_scimCredentialKeys : Setter scimCredentialKeys := ltac:(solve_setter).
#[export] Instance set_scimUsers : Setter scimUsers := ltac:(solve_setter).
#[export] Instance set_scimUserNames : Setter scimUserNames := ltac:(solve_setter).
#[export] Instance set_scimExternalIDs : Setter scimExternalIDs := ltac:(solve_setter).
#[export] Instance set_scimGroups : Setter scimGroups := ltac:(solve_setter).
#[export] Instance set_scimGroupExternal : Setter scimGroupExternal := ltac:(solve_setter).
#[export] Instance set_oauthIssuers : Setter oauthIssuers := ltac:(solve_setter).
#[export] Instance set_oauthIssuerURLs : Setter oauthIssuerURLs := ltac:(solve_setter).
#[export] Instance set_oauthResources : Setter oauthResources := ltac:(solve_setter).
#[export] Instance set_oauthResourceURIs : Setter oauthResourceURIs := ltac:(solve_setter).
#[export] Instance set_oauthClients : Setter oauthClients := ltac:(solve_setter).
#[export] Instance set_oauthClientKeys : Setter oauthClientKeys := ltac:(solve_setter).
#[export] Instance set_oauthInitialTokens : Setter oauthInitialTokens := ltac:(solve_setter).
#[export] Instance set_oauthInitialKeys : Setter oauthInitialKeys := ltac:(solve_setter).
#[export] Instance set_oauthGrants : Setter oauthGrants := ltac:(solve_setter).
#[export] Instance set_oauthCodes : Setter oauthCodes := ltac:(solve_setter).
#[export] Instance set_oauthCodeKeys : Setter oauthCodeKeys := ltac:(solve_setter).
#[export] Instance set_oauthAccessTokens : Setter oauthAccessTokens := ltac:(solve_setter).
#[export] Instance set_oauthAccessKeys : Setter oauthAccessKeys := ltac:(solve_setter).
#[export] Instance set_oauthClientTokens : Setter oauthClientTokens := ltac:(solve_setter).
#[export] Instance set_oauthClientTokenKeys : Setter oauthClientTokenKeys := ltac:(solve_setter).
#[export] Instance set_oauthRefreshTokens : Setter oauthRefreshTokens := ltac:(solve_setter).
#[export] Instance set_oauthRefreshKeys : Setter oauthRefreshKeys := ltac:(solve_setter).
#[export] Instance set_throttles : Setter throttles := ltac:(solve_setter).
#[export] Instance set_passwordResets : Setter passwordResets := ltac:(solve_setter).
#[export] Instance set_emailAuths : Setter emailAuths := ltac:(solve_setter).
#[export] Instance set_invitations : Setter invitations := ltac:(solve_setter).
#[export] Instance set_audits : Setter audits := ltac:(solve_setter).
#[export] Instance set_auditIDs : Setter auditIDs := ltac:(solve_setter).
#[export] Instance set_auditSequence : Setter auditSequence := ltac:(solve_setter).
#[export] Instance set_auditHead : Setter auditHead := ltac:(solve_setter).
#[export] Instance set_auditFailure : Setter auditFailure := ltac:(solve_setter).

(** [type storeState struct], what a snapshot holds. *)
Record storeState := mkStoreState {
  state_users : gmap UUID User;
  state_emails : gmap string UUID;
  state_emailAddresses : gmap UUID EmailAddress;
  state_emailIDs : gmap string UUID;
  state_emailVerifications : gmap UUID EmailVerificationCredential;
  state_passwords : gmap UUID PasswordCredential;
  state_workspaces : gmap UUID Workspace;
  state_memberships : gmap string (gmap UUID Membership);
  state_admins : gmap UUID InstanceAdministrator;
  state_ssoIdentities : gmap UUID SSOIdentity;
  state_ssoKeys : gmap string UUID;
  state_totp : gmap UUID TOTPFactor;
  state_recovery : gmap UUID (list RecoveryCode);
  state_passkeys : gmap string (gmap UUID Passkey);
  state_pats : gmap UUID PAT;
  state_patPrefixes : gmap string UUID;
  state_sessions : gmap UUID Session;
  state_domains : gmap UUID WorkspaceDomain;
  state_domainNames : gmap string UUID;
  state_scimConfigurations : gmap UUID SCIMConfiguration;
  state_scimCredentials : gmap UUID SCIMCredential;
  state_scimCredentialKeys : gmap string UUID;
  state_scimUsers : gmap UUID SCIMUser;
  state_scimUserNames : gmap string UUID;
  state_scimExternalIDs : gmap string UUID;
  state_scimGroups : gmap UUID SCIMGroup;
  state_scimGroupExternal : gmap string UUID;
  state_oauthIssuers : gmap UUID OAuthIssuer;
  state_oauthIssuerURLs : gmap string UUID;
  state_oauthResources : gmap UUID OAuthProtectedResource;
  state_oauthResourceURIs : gmap string UUID;
  state_oauthClients : gmap UUID OAuthClient;
  state_oauthClientKeys : gmap string UUID;
  state_oauthInitialTokens : gmap UUID OAuthInitialAccessToken;
  state_oauthInitialKeys : gmap string UUID;
  state_oauthGrants : gmap UUID OAuthGrant;
  state_oauthCodes : gmap UUID OAuthAuthorizationCode;
  state_oauthCodeKeys : gmap string UUID;
  state_oauthAccessTokens : gmap UUID OAuthAccessToken;
  state_oauthAccessKeys : gmap string UUID;
  state_oauthClientTokens : gmap UUID OAuthClientAccessToken;
  state_oauthClientTokenKeys : gmap string UUID;
  state_oauthRefreshTokens : gmap UUID OAuthRefreshToken;
  state_oauthRefreshKeys : gmap string UUID;
  state_throttles : gmap UUID LoginThrottle;
  state_passwordResets : gmap UUID PasswordResetCredential;
  state_emailAuths : gmap UUID EmailAuthenticationCredential;
  state_invitations : gmap UUID WorkspaceInvitation;
  state_audits : list AuditEvent;
  state_auditIDs : gset UUID;
  state_auditSequence : Z;
  state_auditHead : string }.

(** [snapshotLocked]: a copy of every map the loops below its literal copy.
    [oauthClientKeys] is allocated and never filled: the loop in its place
    copies [oauthClientTokenKeys], a second time. *)
Definition snapshotLocked (s : Store) : storeState := {|
  state_users := users s;
  state_emails := emails s;
  state_emailAddresses := emailAddresses s;
  state_emailIDs := emailIDs s;
  state_emailVerifications := emailVerifications s;
  state_passwords := passwords s;
  state_workspaces := workspaces s;
  state_memberships := memberships s;
  state_admins := admins s;
  state_ssoIdentities := ssoIdentities s;
  state_ssoKeys := ssoKeys s;
  state_totp := totp s;
  state_recovery := recovery s;
  state_passkeys := passkeys s;
  state_pats := pats s;
  state_patPrefixes := patPrefixes s;
  state_sessions := sessions s;
  state_domains := domains s;
  state_domainNames := domainNames s;
  state_scimConfigurations := scimConfigurations s;
  state_scimCredentials := scimCredentials s;
  state_scimCredentialKeys := scimCredentialKeys s;
  state_scimUsers := scimUsers s;
  state_scimUserNames := scimUserNames s;
  state_scimExternalIDs := scimExternalIDs s;
  state_scimGroups := scimGroups s;
  state_scimGroupExternal := scimGroupExternal s;
  state_oauthIssuers := oauthIssuers s;
  state_oauthIssuerURLs := oauthIssuerURLs s;
  state_oauthResources := oauthResources s;
  state_oauthResourceURIs := oauthResourceURIs s;
  state_oauthClients := oauthClients s;
  state_oauthClientKeys := ∅;
  state_oauthInitialTokens := oauthInitialTokens s;
  state_oauthInitialKeys := oauthInitialKeys s;
  state_oauthGrants := oauthGrants s;
  state_oauthCodes := oauthCodes s;
  state_oauthCodeKeys := oauthCodeKeys s;
  state_oauthAccessTokens := oauthAccessTokens s;
  state_oauthAccessKeys := oauthAccessKeys s;
  state_oauthClientTokens := oauthClientTokens s;
  state_oauthClientTokenKeys := oauthClientTokenKeys s;
  state_oauthRefreshTokens := oauthRefreshTokens s;
  state_oauthRefreshKeys := oauthRefreshKeys s;
  state_throttles := throttles s;
  state_passwordResets := passwordResets s;
  state_emailAuths := emailAuths s;
  state_invitations := invitations s;
  state_audits := audits s;
  state_auditIDs := auditIDs s;
  state_auditSequence := auditSequence s;
  state_auditHead := auditHead s |}.

(** [restoreLocked]: every field of the state is assigned back; [ceremonies],
    [emailIssuance] and [auditFailure] are not part of it. *)
Definition restoreLocked (state : storeState) (s : Store) : Store := {|
  users := state_users state;
  emails := state_emails state;
  emailAddresses := state_emailAddresses state;
  emailIDs := state_emailIDs state;
  emailVerifications := state_emailVerifications state;
  passwords := state_passwords state;
  workspaces := state_workspaces state;
  memberships := state_memberships state;
  admins := state_admins state;
  ssoIdentities := state_ssoIdentities state;
  ssoKeys := state_ssoKeys state;
  totp := state_totp state;
  recovery := state_recovery state;
  passkeys := state_passkeys state;
  pats := state_pats state;
  patPrefixes := state_patPrefixes state;
  sessions := state_sessions state;
  ceremonies := ceremonies s;
  emailIssuance := emailIssuance s;
  domains := state_domains state;
  domainNames := state_domainNames state;
  scimConfigurations := state_scimConfigurations state;
  scimCredentials := state_scimCredentials state;
  scimCredentialKeys := state_scimCredentialKeys state;
  scimUsers := state_scimUsers state;
  scimUserNames := state_scimUserNames state;
  scimExternalIDs := state_scimExternalIDs state;
  scimGroups := state_scimGroups state;
  scimGroupExternal := state_scimGroupExternal state;
  oauthIssuers := state_oauthIssuers state;
  oauthIssuerURLs := state_oauthIssuerURLs state;
  oauthResources := state_oauthResources state;
  oauthResourceURIs := state_oauthResourceURIs state;
  oauthClients := state_oauthClients state;
  oauthClientKeys := state_oauthClientKeys state;
  oauthInitialTokens := state_oauthInitialTokens state;
  oauthInitialKeys := state_oauthInitialKeys state;
  oauthGrants := state_oauthGrants state;
  oauthCodes := state_oauthCodes state;
  oauthCodeKeys := state_oauthCodeKeys state;
  oauthAccessTokens := state_oauthAccessTokens state;
  oauthAccessKeys := state_oauthAccessKeys state;
  oauthClientTokens := state_oauthClientTokens state;
  oauthClientTokenKeys := state_oauthClientTokenKeys state;
  oauthRefreshTokens := state_oauthRefreshTokens state;
  oauthRefreshKeys := state_oauthRefreshKeys state;
  throttles := state_throttles state;
  passwordResets := state_passwordResets state;
  emailAuths := state_emailAuths state;
  invitations := state_invitations state;
  audits := state_audits state;
  auditIDs := state_auditIDs state;
  auditSequence := state_auditSequence state;
  auditHead := state_auditHead state;
  auditFailure := auditFailure s |}.

(** [storeState{}] *)
Definition storeState_zero : storeState := {|
  state_users := ∅;
  state_emails := ∅;
  state_emailAddresses := ∅;
  state_emailIDs := ∅;
  state_emailVerifications := ∅;
  state_passwords := ∅;
  state_workspaces := ∅;
  state_memberships := ∅;
  state_admins := ∅;
  state_ssoIdentities := ∅;
  state_ssoKeys := ∅;
  state_totp := ∅;
  state_recovery := ∅;
  state_passkeys := ∅;
  state_pats := ∅;
  state_patPrefixes := ∅;
  state_sessions := ∅;
  state_domains := ∅;
  state_domainNames := ∅;
  state_scimConfigurations := ∅;
  state_scimCredentials := ∅;
  state_scimCredentialKeys := ∅;
  state_scimUsers := ∅;
  state_scimUserNames := ∅;
  state_scimExternalIDs := ∅;
  state_scimGroups := ∅;
  state_scimGroupExternal := ∅;
  state_oauthIssuers := ∅;
  state_oauthIssuerURLs := ∅;
  state_oauthResources := ∅;
  state_oauthResourceURIs := ∅;
  state_oauthClients := ∅;
  state_oauthClientKeys := ∅;
  state_oauthInitialTokens := ∅;
  state_oauthInitialKeys := ∅;
  state_oauthGrants := ∅;
  state_oauthCodes := ∅;
  state_oauthCodeKeys := ∅;
  state_oauthAccessTokens := ∅;
  state_oauthAccessKeys := ∅;
  state_oauthClientTokens := ∅;
  state_oauthClientTokenKeys := ∅;
  state_oauthRefreshTokens := ∅;
  state_oauthRefreshKeys := ∅;
  state_throttles := ∅;
  state_passwordResets := ∅;
  state_emailAuths := ∅;
  state_invitations := ∅;
  state_audits := [];
  state_auditIDs := ∅;
  state_auditSequence := 0%Z;
  state_auditHead := EmptyString |}.

(** [New] *)
Definition New : Store := {|
  users := ∅;
  emails := ∅;
  emailAddresses := ∅;
  emailIDs := ∅;
  emailVerifications := ∅;
  passwords := ∅;
  workspaces := ∅;
  memberships := ∅;
  admins := ∅;
  ssoIdentities := ∅;
  ssoKeys := ∅;
  totp := ∅;
  recovery := ∅;
  passkeys := ∅;
  pats := ∅;
  patPrefixes := ∅;
  sessions := ∅;
  ceremonies := ∅;
  emailIssuance := ∅;
  domains := ∅;
  domainNames := ∅;
  scimConfigurations := ∅;
  scimCredentials := ∅;
  scimCredentialKeys := ∅;
  scimUsers := ∅;
  scimUserNames := ∅;
  scimExternalIDs := ∅;
  scimGroups := ∅;
  scimGroupExternal := ∅;
  oauthIssuers := ∅;
  oauthIssuerURLs := ∅;
  oauthResources := ∅;
  oauthResourceURIs := ∅;
  oauthClients := ∅;
  oauthClientKeys := ∅;
  oauthInitialTokens := ∅;
  oauthInitialKeys := ∅;
  oauthGrants := ∅;
  oauthCodes := ∅;
  oauthCodeKeys := ∅;
  oauthAccessTokens := ∅;
  oauthAccessKeys := ∅;
  oauthClientTokens := ∅;
  oauthClientTokenKeys := ∅;
  oauthRefreshTokens := ∅;
  oauthRefreshKeys := ∅;
  throttles := ∅;
  passwordResets := ∅;
  emailAuths := ∅;
  invitations := ∅;
  audits := [];
  auditIDs := ∅;
  auditSequence := 0%Z;
  auditHead := auditChainGenesis;
  auditFailure := None |}.

(** [if err := ctx.Err(); err != nil { return err }] *)
Definition check_ctx (ctx : Context) : M Store unit :=
  match ctx with Some e => throw e | None => mret tt end.

(** ** Commit protocol *)
Definition canAudit (s : Store) (event : AuditEvent) : option error :=
  match auditFailure s with
  | Some e => Some (Wrapped "audit failure" ErrAuditUnavailable)
  | None =>
      if bool_decide (AuditEvent_ID event = Nil) ||
         bool_decide (AuditEvent_Action event = EmptyString) ||
         Time_IsZero (AuditEvent_OccurredAt event)
      then Some (ErrAuditUnavailable : error)
      else if bool_decide (AuditEvent_ID event ∈ auditIDs s)
      then Some (ErrConflict : error)
      else None
  end.

(** The pruning of expired ceremonies: [delete] while ranging over the map. *)
Definition prune_ceremonies (now : Z) (m : gmap UUID Z) : gmap UUID Z :=
  base.filter (λ kv, Time_Before kv.2 now = false) m.

Definition prepareCommitLocked (commit : Commit) : M Store storeState :=
  s ← get;
  match canAudit s (Commit_Audit commit) with
  | Some e => throw e
  | None =>
      match Commit_Ceremony commit with
      | None => mret tt
      | Some c =>
          modify (λ s, s <| ceremonies ::=
            prune_ceremonies (AuditEvent_OccurredAt (Commit_Audit commit)) |>);;
          s ← get;
          throw_if (bool_decide (is_Some (ceremonies s !! CeremonyConsumption_ID c))) ErrConflict;;
          modify (λ s, s <| ceremonies ::=
            <[CeremonyConsumption_ID c := CeremonyConsumption_ExpiresAt c]> |>)
      end;;
      match Commit_Transactional commit with
      | None => mret storeState_zero
      | Some _ => gets snapshotLocked
      end
  end.

Definition commitAudit (event : AuditEvent) (unchained : bool) (s : Store) : Store :=
  let event :=
    if bool_decide (AuditEvent_ActorKind event = EmptyString)
    then event <| AuditEvent_ActorKind := ActorUser |> else event in
  if unchained then
    s <| audits ::= (λ l, l ++ [event]) |>
      <| auditIDs ::= ({[AuditEvent_ID event]} ∪.) |>
  else
    let event := event <| AuditEvent_Sequence := wrap64 (auditSequence s + 1) |> in
    let event := event <| AuditEvent_PreviousHash := auditHead s |> in
    let event := event <| AuditEvent_Hash :=
                   ComputeAuditHash (AuditEvent_PreviousHash event) event |> in
    s <| auditSequence := AuditEvent_Sequence event |>
      <| auditHead := AuditEvent_Hash event |>
      <| audits ::= (λ l, l ++ [event]) |>
      <| auditIDs ::= ({[AuditEvent_ID event]} ∪.) |>.

Definition finishCommitLocked (commit : Commit) (previous : storeState) : M Store unit :=
  match Commit_Transactional commit ≫= (λ hook, hook (Commit_Audit commit)) with
  | Some e => modify (restoreLocked previous);; throw e
  | None => modify (commitAudit (Commit_Audit commit) (Commit_Unchained commit))
  end.

(** The tail every mutation shares once its guards passed: a body between the
    two stages of the commit. *)
Definition commit_with (commit : Commit) (body : M Store unit) : M Store unit :=
  previous ← prepareCommitLocked commit;
  body;;
  finishCommitLocked commit previous.
Definition commit_update (commit : Commit) (upd : Store → Store) : M Store unit :=
  commit_with commit (modify upd).

(** [AppendAudit]: a commit with no mutation. *)
Definition AppendAudit (ctx : Context) (commit : Commit) : M Store unit :=
  check_ctx ctx;;
  previous ← prepareCommitLocked commit;
  finishCommitLocked commit previous.

(** [SetAuditFailure] *)
Definition SetAuditFailure (err : option error) : M Store unit :=
  modify (λ s, s <| auditFailure := err |>).

Definition AuditChainHead (ctx : Context) : M Store (Z * string) :=
  check_ctx ctx;;
  s ← get;
  mret (auditSequence s, auditHead s).

(** [ChainedAuditEvents]: the events past a sequence number, by sequence. *)
Definition sequence_le (a b : AuditEvent) : Prop :=
  (AuditEvent_Sequence a ≤ AuditEvent_Sequence b)%Z.
#[export] Instance sequence_le_dec : RelDecision sequence_le :=
  λ a b, decide (AuditEvent_Sequence a ≤ AuditEvent_Sequence b)%Z.

Definition ChainedAuditEvents (s : Store) (afterSequence : Z) : list AuditEvent :=
  merge_sort sequence_le
    (base.filter (λ e, afterSequence < AuditEvent_Sequence e)%Z (audits s)).

(** ** Helpers of the operations *)

(** [_, ok := m[k]] *)
Definition has `{Countable K} {A} (k : K) (m : gmap K A) : bool := bool_decide (is_Some (m !! k)).

Definition not_nil {A} (o : option A) : bool := bool_decide (is_Some o).

(** A loop that rewrites the entries satisfying a condition in place. *)
Definition update_where `{Countable K} {A} (p : A → bool) (f : A → A) (m : gmap K A) : gmap K A :=
  (λ v, if p v then f v else v) <$> m.

Definition normalizeMembership (value : Membership) : Membership :=
  let value := if bool_decide (Membership_Status value = EmptyString)
               then value <| Membership_Status := MembershipActive |> else value in
  if bool_decide (Membership_ProvisioningSource value = EmptyString)
  then value <| Membership_ProvisioningSource := ProvisioningSourceLocal |> else value.

(** [s.memberships[id.String()]], nil when absent. *)
Definition members_of (s : Store) (workspaceID : UUID) : gmap UUID Membership :=
  default ∅ (memberships s !! UUID_String workspaceID).

(** Assignment into the inner map, allocated when absent. *)
Definition put_membership (workspaceID userID : UUID) (m : Membership) (s : Store) : Store :=
  s <| memberships ::= <[UUID_String workspaceID := <[userID := m]> (members_of s workspaceID)]> |>.

(** Assignment into the inner map where the code does not allocate it: a nil
    map panics. *)
Definition NilMapPanic : error := Opaque "panic: assignment to entry in nil map".
Definition assign_membership (m : Membership) : M Store unit :=
  s ← get;
  throw_if (negb (bool_decide (is_Some (memberships s !! UUID_String (Membership_WorkspaceID m)))))
    NilMapPanic;;
  modify (put_membership (Membership_WorkspaceID m) (Membership_UserID m) (normalizeMembership m)).

Fixpoint assign_memberships (l : list Membership) : M Store unit :=
  match l with
  | [] => mret tt
  | m :: l' => assign_membership m;; assign_memberships l'
  end.

Definition touchLastSeenLocked (userID : UUID) (seenAt : Z) (s : Store) : Store :=
  s <| users ::= <[userID := (default User_zero (users s !! userID))
                               <| User_LastSeenAt := Some seenAt |>]> |>.

(** The condition [workspaceID == UUID{} || x.WorkspaceID == workspaceID]. *)
Definition in_scope (workspaceID w : UUID) : bool :=
  bool_decide (workspaceID = Nil) || bool_decide (w = workspaceID).

Definition revokeUserCredentialsLocked (userID workspaceID : UUID) (at_ : Z) (s : Store) : Store :=
  s <| pats ::= update_where
         (λ p, bool_decide (PAT_UserID p = userID) && negb (not_nil (PAT_RevokedAt p)) &&
               in_scope workspaceID (PAT_WorkspaceID p))
         (λ p, p <| PAT_RevokedAt := Some at_ |>) |>
    <| oauthGrants ::= update_where
         (λ g, bool_decide (OAuthGrant_UserID g = userID) && negb (not_nil (OAuthGrant_RevokedAt g)) &&
               in_scope workspaceID (OAuthGrant_WorkspaceID g))
         (λ g, g <| OAuthGrant_RevokedAt := Some at_ |>) |>
    <| oauthAccessTokens ::= update_where
         (λ t, bool_decide (OAuthAccessToken_UserID t = userID) &&
               negb (not_nil (OAuthAccessToken_RevokedAt t)) &&
               in_scope workspaceID (OAuthAccessToken_WorkspaceID t))
         (λ t, t <| OAuthAccessToken_RevokedAt := Some at_ |>) |>
    <| oauthRefreshTokens ::= update_where
         (λ t, bool_decide (OAuthRefreshToken_UserID t = userID) &&
               negb (not_nil (OAuthRefreshToken_RevokedAt t)) &&
               in_scope workspaceID (OAuthRefreshToken_WorkspaceID t))
         (λ t, t <| OAuthRefreshToken_RevokedAt := Some at_ |>) |>.

Definition revokeUserSessionsLocked (userID : UUID) (at_ : Z) (s : Store) : Store :=
  s <| sessions ::= update_where
         (λ x, bool_decide (Session_UserID x = userID) && negb (not_nil (Session_RevokedAt x)))
         (λ x, x <| Session_RevokedAt := Some at_ |>) |>.

(** The number of active administrators of a workspace. *)
Definition active_admin (m : Membership) : bool :=
  bool_decide (Membership_Role m = RoleAdmin) && bool_decide (Membership_Status m = MembershipActive).
Definition activeWorkspaceAdminsLocked (s : Store) (workspaceID : UUID) : nat :=
  map_countb (λ _, active_admin) (members_of s workspaceID).
