(* ===== verification/StoreUsers.v ===== *)
(** * The in-memory store: accounts, passwords and addresses
    (src/memory/store.go, 182-973)

    One definition per operation of the store on users, password credentials,
    login throttles, password resets, email authentications and email
    addresses: the context check, the guards in their order, the commit. *)
From stdpp Require Import base gmap sets list strings numbers.
From Stdlib Require Import ZArith Lia.
From S2P Require Import Prelude Bytes Uuid Types OAuthTypes AuditChain Store.

(** ** Users *)
Definition Bootstrap (ctx : Context) (user : User) (email : EmailAddress)
    (password : PasswordCredential) (workspace : Workspace) (membership : Membership)
    (admin : InstanceAdministrator) (commit : Commit) : M Store unit :=
  check_ctx ctx;;
  s ← get;
  throw_if (bool_decide (size (users s) ≠ 0)) ErrConflict;;
  commit_update commit (λ s,
    s <| users ::= <[User_ID user := user]> |>
      <| emails ::= <[EmailAddress_Address email := User_ID user]> |>
      <| emailAddresses ::= <[EmailAddress_ID email := email]> |>
      <| emailIDs ::= <[EmailAddress_Address email := EmailAddress_ID email]> |>
      <| passwords ::= <[User_ID user := password]> |>
      <| workspaces ::= <[Workspace_ID workspace := workspace]> |>
      <| memberships ::= <[UUID_String (Workspace_ID workspace) :=
           {[User_ID user := normalizeMembership membership]}]> |>
      <| admins ::= <[User_ID user := admin]> |>).

Definition CreateUser (ctx : Context) (user : User) (email : EmailAddress)
    (password : PasswordCredential) (membership : Membership) (commit : Commit) : M Store unit :=
  check_ctx ctx;;
  s ← get;
  throw_if (has (User_ID user) (users s)) ErrConflict;;
  throw_if (has (EmailAddress_Address email) (emailIDs s)) ErrConflict;;
  throw_if (negb (has (Membership_WorkspaceID membership) (workspaces s))) ErrNotFound;;
  commit_update commit (λ s,
    put_membership (Membership_WorkspaceID membership) (User_ID user)
      (normalizeMembership membership)
      (s <| users ::= <[User_ID user := user]> |>
         <| emails ::= <[EmailAddress_Address email := User_ID user]> |>
         <| emailAddresses ::= <[EmailAddress_ID email := email]> |>
         <| emailIDs ::= <[EmailAddress_Address email := EmailAddress_ID email]> |>
         <| passwords ::= <[User_ID user := password]> |>)).

Definition CreateSignup (ctx : Context) (user : User) (email : EmailAddress)
    (verification : option EmailVerificationCredential) (password : PasswordCredential)
    (workspace : Workspace) (membership : Membership) (commit : Commit) : M Store unit :=
  check_ctx ctx;;
  s ← get;
  throw_if (has (User_ID user) (users s)) ErrConflict;;
  throw_if (has (EmailAddress_Address email) (emailIDs s)) ErrConflict;;
  throw_if (has (Workspace_ID workspace) (workspaces s)) ErrConflict;;
  commit_update commit (λ s,
    let s := s <| users ::= <[User_ID user := user]> |>
               <| emailAddresses ::= <[EmailAddress_ID email := email]> |>
               <| emailIDs ::= <[EmailAddress_Address email := EmailAddress_ID email]> |> in
    let s := if not_nil (EmailAddress_VerifiedAt email)
             then s <| emails ::= <[EmailAddress_Address email := User_ID user]> |> else s in
    let s := match verification with
             | Some v => s <| emailVerifications ::= <[EmailAddress_ID email := v]> |>
             | None => s
             end in
    s <| passwords ::= <[User_ID user := password]> |>
      <| workspaces ::= <[Workspace_ID workspace := workspace]> |>
      <| memberships ::= <[UUID_String (Workspace_ID workspace) :=
           {[User_ID user := normalizeMembership membership]}]> |>).

Definition UserByEmail (ctx : Context) (email : string) : M Store User :=
  check_ctx ctx;;
  s ← get;
  id ← ok_or (emails s !! email) ErrNotFound;
  mret (default User_zero (users s !! id)).

Definition UserByID (ctx : Context) (id : UUID) : M Store User :=
  check_ctx ctx;;
  s ← get;
  ok_or (users s !! id) ErrNotFound.

(** [s.users[id].Disabled], false for a missing user. *)
Definition user_disabled (s : Store) (id : UUID) : bool :=
  User_Disabled (default User_zero (users s !! id)).

Definition enabled_root (s : Store) (id : UUID) (a : InstanceAdministrator) : bool :=
  bool_decide (InstanceAdministrator_Role a = InstanceRoleRoot) && negb (user_disabled s id).

(** The user is the last enabled root administrator. *)
Definition last_enabled_root (s : Store) (userID : UUID) : bool :=
  match admins s !! userID with
  | Some admin =>
      bool_decide (InstanceAdministrator_Role admin = InstanceRoleRoot) &&
      bool_decide (map_countb (enabled_root s) (admins s) ≤ 1)
  | None => false
  end.

(** The user is the only enabled active administrator among [members]. *)
Definition orphans_workspace (s : Store) (userID : UUID) (members : gmap UUID Membership) : bool :=
  match members !! userID with
  | Some candidate =>
      active_admin candidate &&
      negb (map_existsb (λ otherUserID other,
        bool_decide (otherUserID ≠ userID) && active_admin other &&
        negb (user_disabled s otherUserID)) members)
  | None => false
  end.

Definition SetUserDisabled (ctx : Context) (userID : UUID) (disabled : bool) (at_ : Z)
    (commit : Commit) : M Store unit :=
  check_ctx ctx;;
  s ← get;
  user ← ok_or (users s !! userID) ErrNotFound;
  throw_if (disabled && last_enabled_root s userID) ErrConflict;;
  throw_if (disabled && map_existsb (λ _, orphans_workspace s userID) (memberships s)) ErrConflict;;
  commit_update commit (λ s,
    let s := s <| users ::= <[userID := user <| User_Disabled := disabled |>
                                             <| User_UpdatedAt := at_ |>]> |> in
    if disabled
    then revokeUserSessionsLocked userID at_ (revokeUserCredentialsLocked userID Nil at_ s)
    else s).

Definition UpdateUser (ctx : Context) (user : User) (commit : Commit) : M Store unit :=
  check_ctx ctx;;
  s ← get;
  current ← ok_or (users s !! User_ID user) ErrNotFound;
  commit_update commit (λ s,
    s <| users ::= <[User_ID user :=
           user <| User_CreatedAt := User_CreatedAt current |>
                <| User_Disabled := User_Disabled current |>
                <| User_LastSeenAt := User_LastSeenAt current |>]> |>).

(** ** Passwords *)
Definition PasswordByUserID (ctx : Context) (userID : UUID) : M Store PasswordCredential :=
  check_ctx ctx;;
  s ← get;
  ok_or (passwords s !! userID) ErrNotFound.

Definition ChangePassword (ctx : Context) (password : PasswordCredential) (at_ : Z)
    (commit : Commit) : M Store unit :=
  check_ctx ctx;;
  s ← get;
  throw_if (negb (has (PasswordCredential_UserID password) (passwords s))) ErrNotFound;;
  commit_update commit (λ s,
    revokeUserSessionsLocked (PasswordCredential_UserID password) at_
      (s <| passwords ::= <[PasswordCredential_UserID password := password]> |>)).

(** The stored credential of the user still has the given hash. *)
Definition current_hash (s : Store) (userID : UUID) (hash : string) : bool :=
  match passwords s !! userID with
  | Some c => bool_decide (PasswordCredential_Hash c = hash)
  | None => false
  end.

Definition RehashPassword (ctx : Context) (password : PasswordCredential)
    (previousHash : string) (commit : Commit) : M Store unit :=
  check_ctx ctx;;
  s ← get;
  throw_if (negb (current_hash s (PasswordCredential_UserID password) previousHash)) ErrConflict;;
  commit_update commit (λ s,
    s <| passwords ::= <[PasswordCredential_UserID password := password]> |>).

Definition RecordAuthentication (ctx : Context) (userID : UUID) (seenAt : Z) (commit : Commit) :
    M Store unit :=
  check_ctx ctx;;
  s ← get;
  throw_if (negb (has userID (users s))) ErrNotFound;;
  commit_update commit (λ s,
    touchLastSeenLocked userID seenAt s <| throttles ::= delete userID |>).

Definition RecordPasswordAuthentication (ctx : Context) (userID : UUID) (currentHash : string)
    (seenAt : Z) (commit : Commit) : M Store unit :=
  check_ctx ctx;;
  s ← get;
  throw_if (negb (has userID (users s))) ErrNotFound;;
  throw_if (negb (current_hash s userID currentHash)) ErrConflict;;
  commit_update commit (λ s,
    touchLastSeenLocked userID seenAt s <| throttles ::= delete userID |>).

(** ** Login throttles *)
Definition LoginThrottleByUserID (ctx : Context) (userID : UUID) : M Store LoginThrottle :=
  check_ctx ctx;;
  s ← get;
  ok_or (throttles s !! userID) ErrNotFound.

(** The window a failure falls into: a lockout that ran out restarts it. *)
Definition current_throttle (current : option LoginThrottle) (at_ : Z) : LoginThrottle :=
  let throttle := default LoginThrottle_zero current in
  match LoginThrottle_LockedUntil throttle with
  | Some l => if negb (Time_Before at_ l) then LoginThrottle_zero else throttle
  | None => throttle
  end.

(** The throttle after one more failure. *)
Definition next_throttle (current : option LoginThrottle) (userID : UUID) (at_ threshold lockedUntil : Z) :
    LoginThrottle :=
  let throttle := current_throttle current at_ in
  let throttle := throttle <| LoginThrottle_UserID := userID |>
    <| LoginThrottle_FailedAttempts ::= (λ n, wrap64 (n + 1)) |>
    <| LoginThrottle_UpdatedAt := at_ |> in
  if bool_decide (0 < threshold)%Z && bool_decide (threshold ≤ LoginThrottle_FailedAttempts throttle)%Z
  then throttle <| LoginThrottle_LockedUntil := Some lockedUntil |> else throttle.

Definition RecordLoginFailure (ctx : Context) (userID : UUID) (at_ threshold lockedUntil : Z)
    (commit : Commit) : M Store LoginThrottle :=
  check_ctx ctx;;
  s ← get;
  throw_if (negb (has userID (users s))) ErrNotFound;;
  let throttle := next_throttle (throttles s !! userID) userID at_ threshold lockedUntil in
  commit_update commit (λ s, s <| throttles ::= <[userID := throttle]> |>);;
  mret throttle.

(** ** Password resets *)
Definition CreatePasswordReset (ctx : Context) (credential : PasswordResetCredential)
    (commit : Commit) : M Store unit :=
  check_ctx ctx;;
  s ← get;
  throw_if (negb (has (PasswordResetCredential_UserID credential) (users s))) ErrNotFound;;
  throw_if (has (PasswordResetCredential_ID credential) (passwordResets s)) ErrConflict;;
  commit_update commit (λ s,
    s <| passwordResets ::= <[PasswordResetCredential_ID credential := credential]> |>).

Definition PasswordResetByID (ctx : Context) (resetID : UUID) : M Store PasswordResetCredential :=
  check_ctx ctx;;
  s ← get;
  ok_or (passwordResets s !! resetID) ErrNotFound.

Definition CompletePasswordReset (ctx : Context) (resetID : UUID) (password : PasswordCredential)
    (at_ : Z) (commit : Commit) : M Store unit :=
  check_ctx ctx;;
  s ← get;
  credential ← ok_or (passwordResets s !! resetID) ErrNotFound;
  throw_if (not_nil (PasswordResetCredential_UsedAt credential)) ErrConflict;;
  throw_if (negb (has (PasswordCredential_UserID password) (users s))) ErrNotFound;;
  let userID := PasswordCredential_UserID password in
  commit_update commit (λ s,
    let s := s <| passwordResets ::= <[resetID :=
                    credential <| PasswordResetCredential_UsedAt := Some at_ |>]> |>
               <| passwordResets ::= base.filter (λ kv, ¬ (kv.1 ≠ resetID ∧
                    PasswordResetCredential_UserID kv.2 = userID)) |>
               <| passwords ::= <[userID := password]> |> in
    revokeUserSessionsLocked userID at_ (revokeUserCredentialsLocked userID Nil at_ s)
      <| throttles ::= delete userID |>).

(** ** Email authentications *)
Definition CreateEmailAuthentication (ctx : Context) (credential : EmailAuthenticationCredential)
    (commit : Commit) : M Store unit :=
  check_ctx ctx;;
  s ← get;
  throw_if (negb (has (EmailAuthenticationCredential_UserID credential) (users s))) ErrNotFound;;
  throw_if (has (EmailAuthenticationCredential_ID credential) (emailAuths s)) ErrConflict;;
  commit_update commit (λ s,
    s <| emailAuths ::= <[EmailAuthenticationCredential_ID credential := credential]> |>).

Definition EmailAuthenticationByID (ctx : Context) (tokenID : UUID) :
    M Store EmailAuthenticationCredential :=
  check_ctx ctx;;
  s ← get;
  ok_or (emailAuths s !! tokenID) ErrNotFound.

Definition ConsumeEmailAuthentication (ctx : Context) (tokenID userID : UUID) (at_ : Z)
    (completesLogin : bool) (commit : Commit) : M Store unit :=
  check_ctx ctx;;
  s ← get;
  credential ← ok_or (emailAuths s !! tokenID) ErrNotFound;
  throw_if (bool_decide (EmailAuthenticationCredential_UserID credential ≠ userID)) ErrNotFound;;
  throw_if (not_nil (EmailAuthenticationCredential_UsedAt credential)) ErrConflict;;
  commit_update commit (λ s,
    let s := s <| emailAuths ::= <[tokenID :=
                    credential <| EmailAuthenticationCredential_UsedAt := Some at_ |>]> |> in
    if completesLogin
    then touchLastSeenLocked userID at_ s <| throttles ::= delete userID |>
    else s).

(** ** Email addresses *)
Definition SaveEmail (ctx : Context) (email : EmailAddress)
    (verification : EmailVerificationCredential) (commit : Commit) : M Store unit :=
  check_ctx ctx;;
  s ← get;
  throw_if (negb (has (EmailAddress_UserID email) (users s))) ErrNotFound;;
  throw_if (has (EmailAddress_ID email) (emailAddresses s)) ErrConflict;;
  throw_if (has (EmailAddress_Address email) (emailIDs s)) ErrConflict;;
  commit_update commit (λ s,
    s <| emailAddresses ::= <[EmailAddress_ID email := email]> |>
      <| emailIDs ::= <[EmailAddress_Address email := EmailAddress_ID email]> |>
      <| emailVerifications ::= <[EmailAddress_ID email := verification]> |>).

Definition EmailVerificationByID (ctx : Context) (emailID : UUID) :
    M Store (EmailAddress * EmailVerificationCredential) :=
  check_ctx ctx;;
  s ← get;
  email ← ok_or (emailAddresses s !! emailID) ErrNotFound;
  mret (email, default EmailVerificationCredential_zero (emailVerifications s !! emailID)).

(** The key [address + "\x00" + purpose]. *)
Definition issuance_key (address purpose : string) : string :=
  address +:+ String Ascii.zero purpose.

Definition ClaimEmailIssuance (ctx : Context) (address purpose : string) (at_ notBefore : Z) :
    M Store bool :=
  check_ctx ctx;;
  modify (λ s, s <| emailIssuance ::=
    base.filter (λ kv, Time_After kv.2 notBefore = true) |>);;
  s ← get;
  let key := issuance_key address purpose in
  match emailIssuance s !! key with
  | Some last =>
      if Time_After last notBefore then mret false
      else modify (λ s, s <| emailIssuance ::= <[key := at_]> |>);; mret true
  | None => modify (λ s, s <| emailIssuance ::= <[key := at_]> |>);; mret true
  end.

Definition EmailByAddress (ctx : Context) (address : string) : M Store EmailAddress :=
  check_ctx ctx;;
  s ← get;
  emailID ← ok_or (emailIDs s !! address) ErrNotFound;
  ok_or (emailAddresses s !! emailID) ErrNotFound.

Definition ReissueEmailVerification (ctx : Context) (emailID : UUID)
    (verification : EmailVerificationCredential) (commit : Commit) : M Store unit :=
  check_ctx ctx;;
  s ← get;
  email ← ok_or (emailAddresses s !! emailID) ErrConflict;
  throw_if (not_nil (EmailAddress_VerifiedAt email)) ErrConflict;;
  commit_update commit (λ s,
    s <| emailAddresses ::= <[emailID := email <| EmailAddress_UpdatedAt :=
           AuditEvent_OccurredAt (Commit_Audit commit) |>]> |>
      <| emailVerifications ::= <[emailID := verification]> |>).

Definition VerifyEmail (ctx : Context) (emailID : UUID) (verifiedAt : Z) (commit : Commit) :
    M Store unit :=
  check_ctx ctx;;
  s ← get;
  email ← ok_or (emailAddresses s !! emailID) ErrNotFound;
  throw_if (not_nil (EmailAddress_VerifiedAt email)) ErrConflict;;
  commit_update commit (λ s,
    s <| emailAddresses ::= <[emailID := email <| EmailAddress_VerifiedAt := Some verifiedAt |>
                                               <| EmailAddress_UpdatedAt := verifiedAt |>]> |>
      <| emails ::= <[EmailAddress_Address email := EmailAddress_UserID email]> |>
      <| emailVerifications ::= delete emailID |>).

Definition SetPrimaryEmail (ctx : Context) (userID emailID : UUID) (commit : Commit) :
    M Store unit :=
  check_ctx ctx;;
  s ← get;
  target ← ok_or (emailAddresses s !! emailID) ErrNotFound;
  throw_if (bool_decide (EmailAddress_UserID target ≠ userID)) ErrNotFound;;
  throw_if (negb (not_nil (EmailAddress_VerifiedAt target))) ErrConflict;;
  let now := AuditEvent_OccurredAt (Commit_Audit commit) in
  commit_update commit (λ s,
    s <| emailAddresses ::= update_where
           (λ e, bool_decide (EmailAddress_UserID e = userID) && EmailAddress_Primary e)
           (λ e, e <| EmailAddress_Primary := false |> <| EmailAddress_UpdatedAt := now |>) |>
      <| emailAddresses ::= <[emailID := target <| EmailAddress_Primary := true |>
                                                <| EmailAddress_UpdatedAt := now |>]> |>
      <| users ::= <[userID := (default User_zero (users s !! userID))
                                 <| User_Email := EmailAddress_Address target |>
                                 <| User_UpdatedAt := now |>]> |>).

(** The verified addresses of a user. *)
Definition verified_of (userID : UUID) (e : EmailAddress) : bool :=
  bool_decide (EmailAddress_UserID e = userID) && not_nil (EmailAddress_VerifiedAt e).

Definition RemoveEmail (ctx : Context) (userID emailID : UUID) (commit : Commit) : M Store unit :=
  check_ctx ctx;;
  s ← get;
  email ← ok_or (emailAddresses s !! emailID) ErrNotFound;
  throw_if (bool_decide (EmailAddress_UserID email ≠ userID)) ErrNotFound;;
  throw_if (EmailAddress_Primary email) ErrConflict;;
  throw_if (not_nil (EmailAddress_VerifiedAt email) &&
            bool_decide (map_countb (λ _, verified_of userID) (emailAddresses s) ≤ 1)) ErrConflict;;
  commit_update commit (λ s,
    s <| emails ::= delete (EmailAddress_Address email) |>
      <| emailIDs ::= delete (EmailAddress_Address email) |>
      <| emailAddresses ::= delete emailID |>
      <| emailVerifications ::= delete emailID |>).
