(* ===== verification/StoreTokens.v ===== *)
(** * The in-memory store: second factors, tokens and sessions
    (src/memory/store.go, 975-1742)

    TOTP factors and recovery codes, passkeys, personal access tokens and
    server-side sessions. *)
From stdpp Require Import base gmap sets list strings numbers sorting.
From Stdlib Require Import ZArith Lia.
From S2P Require Import Prelude Bytes Uuid Types OAuthTypes AuditChain Store.

(** ** TOTP factors and recovery codes *)
Definition TOTPByUserID (ctx : Context) (userID : UUID) : M Store TOTPFactor :=
  check_ctx ctx;;
  s ← get;
  ok_or (totp s !! userID) ErrNotFound.

(** The user has an active factor. *)
Definition active_totp (s : Store) (userID : UUID) : bool :=
  match totp s !! userID with Some f => TOTPFactor_Active f | None => false end.

Definition SaveTOTPEnrollment (ctx : Context) (factor : TOTPFactor) (commit : Commit) :
    M Store unit :=
  check_ctx ctx;;
  s ← get;
  throw_if (active_totp s (TOTPFactor_UserID factor)) ErrConflict;;
  throw_if (negb (has (TOTPFactor_UserID factor) (users s))) ErrNotFound;;
  commit_update commit (λ s,
    s <| totp ::= <[TOTPFactor_UserID factor := factor]> |>
      <| recovery ::= delete (TOTPFactor_UserID factor) |>).

Definition ActivateTOTP (ctx : Context) (factor : TOTPFactor) (codes : list RecoveryCode)
    (commit : Commit) : M Store unit :=
  check_ctx ctx;;
  s ← get;
  existing ← ok_or (totp s !! TOTPFactor_UserID factor) ErrConflict;
  throw_if (TOTPFactor_Active existing) ErrConflict;;
  commit_update commit (λ s,
    s <| totp ::= <[TOTPFactor_UserID factor := factor]> |>
      <| recovery ::= <[TOTPFactor_UserID factor := codes]> |>).

Definition UseTOTP (ctx : Context) (userID : UUID) (step : Z) (commit : Commit) : M Store bool :=
  check_ctx ctx;;
  s ← get;
  factor ← ok_or (totp s !! userID) ErrNotFound;
  throw_if (negb (TOTPFactor_Active factor)) ErrNotFound;;
  if bool_decide (step ≤ TOTPFactor_LastUsedStep factor)%Z then mret false
  else
    let now := AuditEvent_OccurredAt (Commit_Audit commit) in
    commit_update commit (λ s,
      touchLastSeenLocked userID now
        (s <| totp ::= <[userID := factor <| TOTPFactor_LastUsedStep := step |>
                                          <| TOTPFactor_UpdatedAt := now |>]> |>)
        <| throttles ::= delete userID |>);;
    mret true.

(** The first unused code with the given digest, marked used. *)
Fixpoint consume_code (digest : string) (usedAt : Z) (codes : list RecoveryCode) :
    option (list RecoveryCode) :=
  match codes with
  | [] => None
  | c :: codes' =>
      if negb (not_nil (RecoveryCode_UsedAt c)) && bool_decide (RecoveryCode_Digest c = digest)
      then Some (c <| RecoveryCode_UsedAt := Some usedAt |> :: codes')
      else cons c <$> consume_code digest usedAt codes'
  end.

Definition ConsumeRecoveryCode (ctx : Context) (userID : UUID) (digest : string) (usedAt : Z)
    (commit : Commit) : M Store bool :=
  check_ctx ctx;;
  s ← get;
  match consume_code digest usedAt (default [] (recovery s !! userID)) with
  | None => mret false
  | Some codes =>
      commit_update commit (λ s,
        touchLastSeenLocked userID usedAt (s <| recovery ::= <[userID := codes]> |>)
          <| throttles ::= delete userID |>);;
      mret true
  end.

Definition CountUnusedRecoveryCodes (ctx : Context) (userID : UUID) : M Store Z :=
  check_ctx ctx;;
  s ← get;
  mret (Z.of_nat (length (base.filter (λ c, not_nil (RecoveryCode_UsedAt c) = false)
    (default [] (recovery s !! userID))))).

Definition DisableTOTP (ctx : Context) (userID : UUID) (commit : Commit) : M Store unit :=
  check_ctx ctx;;
  s ← get;
  throw_if (negb (has userID (totp s))) ErrNotFound;;
  commit_update commit (λ s, s <| totp ::= delete userID |> <| recovery ::= delete userID |>).

Definition ReplaceRecoveryCodes (ctx : Context) (userID : UUID) (codes : list RecoveryCode)
    (commit : Commit) : M Store unit :=
  check_ctx ctx;;
  s ← get;
  throw_if (negb (active_totp s userID)) ErrNotFound;;
  commit_update commit (λ s, s <| recovery ::= <[userID := codes]> |>).

Definition ResetSecondFactor (ctx : Context) (userID : UUID) (at_ : Z) (commit : Commit) :
    M Store unit :=
  check_ctx ctx;;
  s ← get;
  throw_if (negb (has userID (users s))) ErrNotFound;;
  commit_update commit (λ s,
    revokeUserSessionsLocked userID at_
      (s <| totp ::= delete userID |>
         <| recovery ::= delete userID |>
         <| passkeys ::= delete (UUID_String userID) |>)).

(** ** Passkeys *)

(** [s.passkeys[id.String()]], nil when absent. *)
Definition passkeys_of (s : Store) (userID : UUID) : gmap UUID Passkey :=
  default ∅ (passkeys s !! UUID_String userID).

Definition has_credential (credentialID : string) (_ : UUID) (p : Passkey) : bool :=
  bool_decide (Passkey_CredentialID p = credentialID).

Definition SavePasskey (ctx : Context) (passkey : Passkey) (commit : Commit) : M Store unit :=
  check_ctx ctx;;
  s ← get;
  throw_if (negb (has (Passkey_UserID passkey) (users s))) ErrNotFound;;
  throw_if (map_existsb (λ _, map_existsb (has_credential (Passkey_CredentialID passkey)))
              (passkeys s)) ErrConflict;;
  commit_update commit (λ s,
    s <| passkeys ::= <[UUID_String (Passkey_UserID passkey) :=
           <[Passkey_ID passkey := passkey]> (passkeys_of s (Passkey_UserID passkey))]> |>).

Definition PasskeyByCredentialID (ctx : Context) (credentialID : string) : M Store Passkey :=
  check_ctx ctx;;
  s ← get;
  byID ← ok_or (map_find (λ _, map_existsb (has_credential credentialID)) (passkeys s)) ErrNotFound;
  found ← ok_or (map_find (has_credential credentialID) byID.2) ErrNotFound;
  mret found.2.

(** [Passkeys]: the user's passkeys, oldest first. *)
Definition passkey_le (a b : Passkey) : Prop :=
  (Passkey_CreatedAt a < Passkey_CreatedAt b)%Z ∨
  (Passkey_CreatedAt a = Passkey_CreatedAt b ∧ UUID_Compare (Passkey_ID a) (Passkey_ID b) ≤ 0)%Z.
#[export] Instance passkey_le_dec : RelDecision passkey_le.
Proof. unfold passkey_le. intros a b. apply _. Defined.
Definition Passkeys (ctx : Context) (userID : UUID) : M Store (list Passkey) :=
  check_ctx ctx;;
  s ← get;
  mret (merge_sort passkey_le (map_to_list (passkeys_of s userID)).*2).

Definition TouchPasskey (ctx : Context) (userID : UUID) (credentialID credentialJSON : string)
    (usedAt : Z) (commit : Commit) : M Store unit :=
  check_ctx ctx;;
  s ← get;
  found ← ok_or (map_find (has_credential credentialID) (passkeys_of s userID)) ErrNotFound;
  let '(id, passkey) := found in
  commit_update commit (λ s,
    touchLastSeenLocked userID usedAt
      (s <| passkeys ::= <[UUID_String userID :=
              <[id := passkey <| Passkey_CredentialJSON := credentialJSON |>
                              <| Passkey_LastUsedAt := Some usedAt |>]> (passkeys_of s userID)]> |>)
      <| throttles ::= delete userID |>).

Definition DeletePasskey (ctx : Context) (userID passkeyID : UUID) (commit : Commit) :
    M Store unit :=
  check_ctx ctx;;
  s ← get;
  throw_if (negb (has passkeyID (passkeys_of s userID))) ErrNotFound;;
  commit_update commit (λ s,
    s <| passkeys ::= <[UUID_String userID := delete passkeyID (passkeys_of s userID)]> |>).

(** ** Personal access tokens *)
Definition CreatePAT (ctx : Context) (pat : PAT) (commit : Commit) : M Store unit :=
  check_ctx ctx;;
  s ← get;
  throw_if (has (PAT_ID pat) (pats s)) ErrConflict;;
  throw_if (has (PAT_Prefix pat) (patPrefixes s)) ErrConflict;;
  throw_if (negb (has (PAT_UserID pat) (users s))) ErrNotFound;;
  commit_update commit (λ s,
    s <| pats ::= <[PAT_ID pat := pat]> |>
      <| patPrefixes ::= <[PAT_Prefix pat := PAT_ID pat]> |>).

Definition PATByPrefix (ctx : Context) (prefix : string) : M Store PAT :=
  check_ctx ctx;;
  s ← get;
  id ← ok_or (patPrefixes s !! prefix) ErrNotFound;
  mret (default PAT_zero (pats s !! id)).

Definition TouchPAT (ctx : Context) (id : UUID) (usedAt : Z) (commit : Commit) : M Store unit :=
  check_ctx ctx;;
  s ← get;
  pat ← ok_or (pats s !! id) ErrNotFound;
  commit_update commit (λ s,
    touchLastSeenLocked (PAT_UserID pat) usedAt
      (s <| pats ::= <[id := pat <| PAT_LastUsedAt := Some usedAt |>]> |>)).

Definition RevokePAT (ctx : Context) (userID id : UUID) (revokedAt : Z) (commit : Commit) :
    M Store unit :=
  check_ctx ctx;;
  s ← get;
  pat ← ok_or (pats s !! id) ErrNotFound;
  throw_if (bool_decide (PAT_UserID pat ≠ userID)) ErrNotFound;;
  commit_update commit (λ s,
    s <| pats ::= <[id := pat <| PAT_RevokedAt := Some revokedAt |>]> |>).

Definition RevokeUserCredentials (ctx : Context) (userID : UUID) (at_ : Z) (commit : Commit) :
    M Store unit :=
  check_ctx ctx;;
  s ← get;
  throw_if (negb (has userID (users s))) ErrNotFound;;
  commit_update commit (λ s,
    revokeUserSessionsLocked userID at_ (revokeUserCredentialsLocked userID Nil at_ s)).

Definition PATByID (ctx : Context) (id : UUID) : M Store PAT :=
  check_ctx ctx;;
  s ← get;
  ok_or (pats s !! id) ErrNotFound.

(** ** Sessions *)

(** The currency guard: a non-empty fingerprint must be that of the user's
    current password credential. *)
Definition stale_credential (s : Store) (userID : UUID) (credentialDigest : string) : bool :=
  bool_decide (0 < str_len credentialDigest) &&
  match passwords s !! userID with
  | Some credential =>
      bool_decide (CredentialFingerprint (PasswordCredential_Hash credential) ≠ credentialDigest)
  | None => true
  end.

Definition CreateSession (ctx : Context) (session : Session) (credentialDigest : string)
    (commit : Commit) : M Store unit :=
  check_ctx ctx;;
  s ← get;
  throw_if (has (Session_ID session) (sessions s)) ErrConflict;;
  throw_if (negb (has (Session_UserID session) (users s))) ErrNotFound;;
  throw_if (stale_credential s (Session_UserID session) credentialDigest) ErrConflict;;
  commit_update commit (λ s, s <| sessions ::= <[Session_ID session := session]> |>).

Definition SessionByID (ctx : Context) (id : UUID) : M Store Session :=
  check_ctx ctx;;
  s ← get;
  ok_or (sessions s !! id) ErrNotFound.

Definition TouchSession (ctx : Context) (id : UUID) (at_ : Z) (commit : Commit) : M Store unit :=
  check_ctx ctx;;
  s ← get;
  session ← ok_or (sessions s !! id) ErrNotFound;
  throw_if (not_nil (Session_RevokedAt session)) ErrConflict;;
  commit_update commit (λ s,
    touchLastSeenLocked (Session_UserID session) at_
      (s <| sessions ::= <[id := session <| Session_LastSeenAt := at_ |>]> |>)).

Definition RevokeSession (ctx : Context) (id : UUID) (at_ : Z) (commit : Commit) : M Store unit :=
  check_ctx ctx;;
  s ← get;
  session ← ok_or (sessions s !! id) ErrNotFound;
  commit_update commit (λ s,
    if negb (not_nil (Session_RevokedAt session))
    then s <| sessions ::= <[id := session <| Session_RevokedAt := Some at_ |>]> |>
    else s).

Definition RevokeUserSessions (ctx : Context) (userID : UUID) (at_ : Z) (commit : Commit) :
    M Store unit :=
  check_ctx ctx;;
  s ← get;
  throw_if (negb (has userID (users s))) ErrNotFound;;
  commit_update commit (λ s, revokeUserSessionsLocked userID at_ s).
