(* ===== verification/StoreWorkspaces.v ===== *)
(** * The in-memory store: workspaces, members, domains, administrators, SSO
    (src/memory/store.go, 1396-1512 and 1744-2612)

    Workspaces and memberships with their last-administrator guards,
    invitations, verified domains, instance administrators, SSO identities,
    and the erasure of a user, which touches all of them. *)
From stdpp Require Import base gmap sets list strings numbers.
From Stdlib Require Import ZArith Lia.
From S2P Require Import Prelude Bytes Uuid Types OAuthTypes AuditChain Store StoreUsers.

(** ** Workspaces *)
Definition CreateWorkspace (ctx : Context) (workspace : Workspace) (owner : Membership)
    (commit : Commit) : M Store unit :=
  check_ctx ctx;;
  s ← get;
  throw_if (has (Workspace_ID workspace) (workspaces s)) ErrConflict;;
  throw_if (negb (has (Membership_UserID owner) (users s))) ErrNotFound;;
  commit_update commit (λ s,
    s <| workspaces ::= <[Workspace_ID workspace := workspace]> |>
      <| memberships ::= <[UUID_String (Workspace_ID workspace) :=
           {[Membership_UserID owner := normalizeMembership owner]}]> |>).

Definition WorkspaceByID (ctx : Context) (workspaceID : UUID) : M Store Workspace :=
  check_ctx ctx;;
  s ← get;
  ok_or (workspaces s !! workspaceID) ErrNotFound.

Definition UpdateWorkspace (ctx : Context) (workspace : Workspace) (commit : Commit) :
    M Store unit :=
  check_ctx ctx;;
  s ← get;
  current ← ok_or (workspaces s !! Workspace_ID workspace) ErrNotFound;
  commit_update commit (λ s,
    s <| workspaces ::= <[Workspace_ID workspace :=
           workspace <| Workspace_CreatedAt := Workspace_CreatedAt current |>]> |>).

(** The loop revoking the workspace credentials of every member. *)
Definition revoke_members (workspaceID : UUID) (at_ : Z) (members : list UUID) (s : Store) : Store :=
  foldl (λ s userID, revokeUserCredentialsLocked userID workspaceID at_ s) s members.

Definition SetWorkspaceDisabled (ctx : Context) (workspaceID : UUID) (disabled : bool) (at_ : Z)
    (commit : Commit) : M Store unit :=
  check_ctx ctx;;
  s ← get;
  workspace ← ok_or (workspaces s !! workspaceID) ErrNotFound;
  commit_update commit (λ s,
    let s := s <| workspaces ::= <[workspaceID :=
               workspace <| Workspace_DisabledAt := if disabled then Some at_ else None |>
                         <| Workspace_UpdatedAt := at_ |>]> |> in
    if disabled
    then revoke_members workspaceID at_ (map_to_list (members_of s workspaceID)).*1 s
    else s).

(** ** Memberships *)
Definition Membership_ (ctx : Context) (workspaceID userID : UUID) : M Store Membership :=
  check_ctx ctx;;
  s ← get;
  membership ← ok_or (members_of s workspaceID !! userID) ErrNotFound;
  mret (normalizeMembership membership).

(** Replacing or removing this membership takes the last active administrator
    away. *)
Definition last_admin (s : Store) (workspaceID : UUID) (existing : Membership) : bool :=
  active_admin existing && bool_decide (activeWorkspaceAdminsLocked s workspaceID ≤ 1).

Definition UpsertMembership (ctx : Context) (membership : Membership) (commit : Commit) :
    M Store unit :=
  check_ctx ctx;;
  s ← get;
  let workspaceID := Membership_WorkspaceID membership in
  let userID := Membership_UserID membership in
  throw_if (negb (has workspaceID (workspaces s))) ErrNotFound;;
  throw_if (negb (has userID (users s))) ErrNotFound;;
  throw_if (match members_of s workspaceID !! userID with
            | Some existing => negb (active_admin membership) && last_admin s workspaceID existing
            | None => false
            end) ErrConflict;;
  commit_update commit (λ s,
    let membership :=
      match members_of s workspaceID !! userID with
      | Some existing => membership <| Membership_CreatedAt := Membership_CreatedAt existing |>
      | None => membership
      end in
    let s := put_membership workspaceID userID (normalizeMembership membership) s in
    if bool_decide (Membership_Status membership ≠ MembershipActive)
    then revokeUserCredentialsLocked userID workspaceID
           (AuditEvent_OccurredAt (Commit_Audit commit)) s
    else s).

Definition RemoveMembership (ctx : Context) (workspaceID userID : UUID) (at_ : Z)
    (commit : Commit) : M Store unit :=
  check_ctx ctx;;
  s ← get;
  membership ← ok_or (members_of s workspaceID !! userID) ErrNotFound;
  throw_if (last_admin s workspaceID membership) ErrConflict;;
  commit_update commit (λ s,
    revokeUserCredentialsLocked userID workspaceID at_
      (s <| memberships ::=
         <[UUID_String workspaceID := delete userID (members_of s workspaceID)]> |>)).

(** ** Invitations *)
Definition closed_invitation (i : WorkspaceInvitation) : bool :=
  not_nil (WorkspaceInvitation_AcceptedAt i) || not_nil (WorkspaceInvitation_RevokedAt i).

Definition pending_for (workspaceID : UUID) (email : string) (_ : UUID) (i : WorkspaceInvitation) :
    bool :=
  bool_decide (WorkspaceInvitation_WorkspaceID i = workspaceID) &&
  bool_decide (WorkspaceInvitation_Email i = email) && negb (closed_invitation i).

Definition CreateWorkspaceInvitation (ctx : Context) (invitation : WorkspaceInvitation)
    (commit : Commit) : M Store unit :=
  check_ctx ctx;;
  s ← get;
  throw_if (negb (has (WorkspaceInvitation_WorkspaceID invitation) (workspaces s))) ErrNotFound;;
  throw_if (has (WorkspaceInvitation_ID invitation) (invitations s)) ErrConflict;;
  throw_if (map_existsb (pending_for (WorkspaceInvitation_WorkspaceID invitation)
              (WorkspaceInvitation_Email invitation)) (invitations s)) ErrConflict;;
  commit_update commit (λ s,
    s <| invitations ::= <[WorkspaceInvitation_ID invitation := invitation]> |>).

Definition WorkspaceInvitationByID (ctx : Context) (invitationID : UUID) :
    M Store WorkspaceInvitation :=
  check_ctx ctx;;
  s ← get;
  ok_or (invitations s !! invitationID) ErrNotFound.

Definition PendingWorkspaceInvitation (ctx : Context) (workspaceID : UUID) (email : string) :
    M Store WorkspaceInvitation :=
  check_ctx ctx;;
  s ← get;
  found ← ok_or (map_find (pending_for workspaceID email) (invitations s)) ErrNotFound;
  mret found.2.

Definition accept (invitationID userID : UUID) (at_ : Z) (invitation : WorkspaceInvitation)
    (s : Store) : Store :=
  s <| invitations ::= <[invitationID :=
         invitation <| WorkspaceInvitation_AcceptedAt := Some at_ |>
                    <| WorkspaceInvitation_AcceptedUserID := userID |>]> |>.

Definition AcceptWorkspaceInvitation (ctx : Context) (invitationID userID : UUID) (at_ : Z)
    (membership : Membership) (commit : Commit) : M Store unit :=
  check_ctx ctx;;
  s ← get;
  invitation ← ok_or (invitations s !! invitationID) ErrNotFound;
  throw_if (closed_invitation invitation) ErrConflict;;
  throw_if (negb (has userID (users s))) ErrNotFound;;
  commit_update commit (λ s,
    put_membership (Membership_WorkspaceID membership) userID (normalizeMembership membership)
      (accept invitationID userID at_ invitation s)).

Definition RegisterInvitedUser (ctx : Context) (invitationID : UUID) (user : User)
    (email : EmailAddress) (password : PasswordCredential) (membership : Membership) (at_ : Z)
    (commit : Commit) : M Store unit :=
  check_ctx ctx;;
  s ← get;
  invitation ← ok_or (invitations s !! invitationID) ErrNotFound;
  throw_if (closed_invitation invitation) ErrConflict;;
  throw_if (has (User_ID user) (users s)) ErrConflict;;
  throw_if (has (EmailAddress_Address email) (emailIDs s)) ErrConflict;;
  throw_if (negb (has (Membership_WorkspaceID membership) (workspaces s))) ErrNotFound;;
  commit_update commit (λ s,
    put_membership (Membership_WorkspaceID membership) (User_ID user)
      (normalizeMembership membership)
      (accept invitationID (User_ID user) at_ invitation s
         <| users ::= <[User_ID user := user]> |>
         <| emails ::= <[EmailAddress_Address email := User_ID user]> |>
         <| emailAddresses ::= <[EmailAddress_ID email := email]> |>
         <| emailIDs ::= <[EmailAddress_Address email := EmailAddress_ID email]> |>
         <| passwords ::= <[User_ID user := password]> |>)).

Definition RevokeWorkspaceInvitation (ctx : Context) (workspaceID invitationID : UUID) (at_ : Z)
    (commit : Commit) : M Store unit :=
  check_ctx ctx;;
  s ← get;
  invitation ← ok_or (invitations s !! invitationID) ErrNotFound;
  throw_if (bool_decide (WorkspaceInvitation_WorkspaceID invitation ≠ workspaceID)) ErrNotFound;;
  throw_if (closed_invitation invitation) ErrConflict;;
  commit_update commit (λ s,
    s <| invitations ::= <[invitationID :=
           invitation <| WorkspaceInvitation_RevokedAt := Some at_ |>]> |>).

(** ** Domains *)

(** The holder of a name defends it: confirmed, or claimed recently. *)
Definition defends_name (staleBefore : Z) (holder : WorkspaceDomain) : bool :=
  not_nil (WorkspaceDomain_ConfirmedAt holder) ||
  negb (Time_Before (WorkspaceDomain_CreatedAt holder) staleBefore).

(** A stale holder is deleted before the commit is prepared. *)
Definition CreateWorkspaceDomain (ctx : Context) (domain : WorkspaceDomain) (staleBefore : Z)
    (commit : Commit) : M Store unit :=
  check_ctx ctx;;
  s ← get;
  throw_if (negb (has (WorkspaceDomain_WorkspaceID domain) (workspaces s))) ErrNotFound;;
  throw_if (has (WorkspaceDomain_ID domain) (domains s)) ErrConflict;;
  match domainNames s !! WorkspaceDomain_Domain domain with
  | Some holderID =>
      let holder := default WorkspaceDomain_zero (domains s !! holderID) in
      throw_if (defends_name staleBefore holder) ErrConflict;;
      modify (λ s, s <| domains ::= delete holderID |>)
  | None => mret tt
  end;;
  commit_update commit (λ s,
    s <| domains ::= <[WorkspaceDomain_ID domain := domain]> |>
      <| domainNames ::= <[WorkspaceDomain_Domain domain := WorkspaceDomain_ID domain]> |>).

Definition WorkspaceDomainByID (ctx : Context) (id : UUID) : M Store WorkspaceDomain :=
  check_ctx ctx;;
  s ← get;
  ok_or (domains s !! id) ErrNotFound.

Definition ConfirmedWorkspaceDomainByName (ctx : Context) (name : string) :
    M Store WorkspaceDomain :=
  check_ctx ctx;;
  s ← get;
  id ← ok_or (domainNames s !! name) ErrNotFound;
  let domain := default WorkspaceDomain_zero (domains s !! id) in
  throw_if (negb (not_nil (WorkspaceDomain_ConfirmedAt domain))) ErrNotFound;;
  mret domain.

Definition ConfirmWorkspaceDomain (ctx : Context) (id : UUID) (at_ : Z) (commit : Commit) :
    M Store unit :=
  check_ctx ctx;;
  s ← get;
  domain ← ok_or (domains s !! id) ErrNotFound;
  throw_if (not_nil (WorkspaceDomain_ConfirmedAt domain)) ErrConflict;;
  commit_update commit (λ s,
    s <| domains ::= <[id := domain <| WorkspaceDomain_ConfirmedAt := Some at_ |>
                                    <| WorkspaceDomain_UpdatedAt := at_ |>]> |>).

Definition UpdateWorkspaceDomainPolicy (ctx : Context) (id : UUID)
    (policy : WorkspaceDomainPolicyInput) (at_ : Z) (commit : Commit) : M Store unit :=
  check_ctx ctx;;
  s ← get;
  domain ← ok_or (domains s !! id) ErrNotFound;
  throw_if (negb (not_nil (WorkspaceDomain_ConfirmedAt domain))) ErrConflict;;
  commit_update commit (λ s,
    s <| domains ::= <[id :=
      domain <| WorkspaceDomain_AutoJoin := WorkspaceDomainPolicyInput_AutoJoin policy |>
             <| WorkspaceDomain_AutoJoinRole := WorkspaceDomainPolicyInput_AutoJoinRole policy |>
             <| WorkspaceDomain_SSOProviderConfigurationID :=
                  WorkspaceDomainPolicyInput_SSOProviderConfigurationID policy |>
             <| WorkspaceDomain_EnforceSSO := WorkspaceDomainPolicyInput_EnforceSSO policy |>
             <| WorkspaceDomain_UpdatedAt := at_ |>]> |>).

Definition DeleteWorkspaceDomain (ctx : Context) (id : UUID) (commit : Commit) : M Store unit :=
  check_ctx ctx;;
  s ← get;
  domain ← ok_or (domains s !! id) ErrNotFound;
  commit_update commit (λ s,
    s <| domainNames ::= delete (WorkspaceDomain_Domain domain) |>
      <| domains ::= delete id |>).

(** ** Instance administrators *)
Definition InstanceAdministrator_ (ctx : Context) (userID : UUID) : M Store InstanceAdministrator :=
  check_ctx ctx;;
  s ← get;
  ok_or (admins s !! userID) ErrNotFound.

Definition is_root (a : InstanceAdministrator) : bool :=
  bool_decide (InstanceAdministrator_Role a = InstanceRoleRoot).

(** The number of root administrators, whether their accounts are enabled or
    not. *)
Definition root_count (s : Store) : nat := map_countb (λ _, is_root) (admins s).

Definition SetInstanceRole (ctx : Context) (admin : InstanceAdministrator) (commit : Commit) :
    M Store unit :=
  check_ctx ctx;;
  s ← get;
  let userID := InstanceAdministrator_UserID admin in
  throw_if (negb (has userID (users s))) ErrNotFound;;
  throw_if (match admins s !! userID with
            | Some existing =>
                is_root existing && negb (is_root admin) && bool_decide (root_count s ≤ 1)
            | None => false
            end) ErrConflict;;
  commit_update commit (λ s,
    s <| admins ::= <[userID :=
           match admins s !! userID with
           | Some existing => admin <| InstanceAdministrator_CreatedAt :=
                                InstanceAdministrator_CreatedAt existing |>
           | None => admin
           end]> |>).

Definition RemoveInstanceRole (ctx : Context) (userID : UUID) (commit : Commit) : M Store unit :=
  check_ctx ctx;;
  s ← get;
  admin ← ok_or (admins s !! userID) ErrNotFound;
  throw_if (is_root admin && bool_decide (root_count s ≤ 1)) ErrConflict;;
  commit_update commit (λ s, s <| admins ::= delete userID |>).

(** ** SSO identities *)
Definition ssoKey (providerConfigurationID issuer subject : string) : string :=
  providerConfigurationID +:+ String Ascii.zero (issuer +:+ String Ascii.zero subject).

Definition identity_key (i : SSOIdentity) : string :=
  ssoKey (UUID_String (SSOIdentity_ProviderConfigurationID i)) (SSOIdentity_Issuer i)
    (SSOIdentity_Subject i).

Definition SSOIdentity_ (ctx : Context) (providerConfigurationID : UUID)
    (issuer subject : string) : M Store SSOIdentity :=
  check_ctx ctx;;
  s ← get;
  id ← ok_or (ssoKeys s !! ssoKey (UUID_String providerConfigurationID) issuer subject) ErrNotFound;
  mret (default SSOIdentity_zero (ssoIdentities s !! id)).

Definition LinkSSO (ctx : Context) (identity : SSOIdentity) (commit : Commit) : M Store unit :=
  check_ctx ctx;;
  s ← get;
  throw_if (negb (has (SSOIdentity_UserID identity) (users s))) ErrNotFound;;
  throw_if (has (SSOIdentity_ID identity) (ssoIdentities s)) ErrConflict;;
  throw_if (has (identity_key identity) (ssoKeys s)) ErrConflict;;
  commit_update commit (λ s,
    let s := s <| ssoIdentities ::= <[SSOIdentity_ID identity := identity]> |>
               <| ssoKeys ::= <[identity_key identity := SSOIdentity_ID identity]> |> in
    match SSOIdentity_LastUsedAt identity with
    | Some at_ => touchLastSeenLocked (SSOIdentity_UserID identity) at_ s
                    <| throttles ::= delete (SSOIdentity_UserID identity) |>
    | None => s
    end).

Definition TouchSSO (ctx : Context) (userID identityID : UUID) (usedAt : Z) (commit : Commit) :
    M Store unit :=
  check_ctx ctx;;
  s ← get;
  identity ← ok_or (ssoIdentities s !! identityID) ErrNotFound;
  throw_if (bool_decide (SSOIdentity_UserID identity ≠ userID)) ErrNotFound;;
  commit_update commit (λ s,
    touchLastSeenLocked userID usedAt
      (s <| ssoIdentities ::= <[identityID :=
              identity <| SSOIdentity_LastUsedAt := Some usedAt |>]> |>)
      <| throttles ::= delete userID |>).

(** The ways a user can still sign in. *)
Definition authentication_methods (s : Store) (userID : UUID) : nat :=
  size (default ∅ (passkeys s !! UUID_String userID)) +
  (if has userID (passwords s) then 1 else 0) +
  map_countb (λ _ i, bool_decide (SSOIdentity_UserID i = userID)) (ssoIdentities s).

Definition UnlinkSSO (ctx : Context) (userID identityID : UUID) (commit : Commit) : M Store unit :=
  check_ctx ctx;;
  s ← get;
  identity ← ok_or (ssoIdentities s !! identityID) ErrNotFound;
  throw_if (bool_decide (SSOIdentity_UserID identity ≠ userID)) ErrNotFound;;
  throw_if (bool_decide (authentication_methods s userID ≤ 1)) ErrConflict;;
  commit_update commit (λ s,
    s <| ssoKeys ::= delete (identity_key identity) |>
      <| ssoIdentities ::= delete identityID |>).

Definition JITProvisionSSOUser (ctx : Context) (user : User) (email : EmailAddress)
    (membership : Membership) (identity : SSOIdentity) (commit : Commit) : M Store unit :=
  check_ctx ctx;;
  s ← get;
  throw_if (has (User_ID user) (users s)) ErrConflict;;
  throw_if (has (EmailAddress_Address email) (emailIDs s)) ErrConflict;;
  throw_if (negb (has (Membership_WorkspaceID membership) (workspaces s))) ErrNotFound;;
  throw_if (has (SSOIdentity_ID identity) (ssoIdentities s)) ErrConflict;;
  throw_if (has (identity_key identity) (ssoKeys s)) ErrConflict;;
  commit_update commit (λ s,
    put_membership (Membership_WorkspaceID membership) (User_ID user)
      (normalizeMembership membership)
      (s <| users ::= <[User_ID user := user]> |>
         <| emailAddresses ::= <[EmailAddress_ID email := email]> |>
         <| emailIDs ::= <[EmailAddress_Address email := EmailAddress_ID email]> |>
         <| emails ::= <[EmailAddress_Address email := User_ID user]> |>)
      <| ssoIdentities ::= <[SSOIdentity_ID identity := identity]> |>
      <| ssoKeys ::= <[identity_key identity := SSOIdentity_ID identity]> |>).
