(* ===== verification/StoreScim.v ===== *)
(** * The in-memory store: SCIM provisioning and erasure
    (src/memory/scim.go, and AnonymizeUser of src/memory/store.go)

    The mutations a directory performs through SCIM, and [AnonymizeUser], the
    pseudonymization of an account across every table. *)
From stdpp Require Import base gmap sets list strings numbers.
From Stdlib Require Import ZArith Lia.
From S2P Require Import Prelude Bytes Uuid Types OAuthTypes AuditChain Store StoreUsers StoreWorkspaces.

(** ** Configurations and credentials *)
Definition CreateSCIMConfiguration (ctx : Context) (configuration : SCIMConfiguration)
    (credential : SCIMCredential) (commit : Commit) : M Store unit :=
  check_ctx ctx;;
  s ← get;
  throw_if (negb (has (SCIMConfiguration_WorkspaceID configuration) (workspaces s))) ErrNotFound;;
  throw_if (has (SCIMConfiguration_ID configuration) (scimConfigurations s)) ErrConflict;;
  throw_if (has (SCIMCredential_Prefix credential) (scimCredentialKeys s)) ErrConflict;;
  commit_update commit (λ s,
    s <| scimConfigurations ::= <[SCIMConfiguration_ID configuration := configuration]> |>
      <| scimCredentials ::= <[SCIMCredential_ID credential := credential]> |>
      <| scimCredentialKeys ::= <[SCIMCredential_Prefix credential := SCIMCredential_ID credential]> |>).

Definition SCIMConfiguration_ (ctx : Context) (id : UUID) : M Store SCIMConfiguration :=
  check_ctx ctx;;
  s ← get;
  ok_or (scimConfigurations s !! id) ErrNotFound.

Definition UpdateSCIMConfiguration (ctx : Context) (configuration : SCIMConfiguration)
    (members : list Membership) (commit : Commit) : M Store unit :=
  check_ctx ctx;;
  s ← get;
  current ← ok_or (scimConfigurations s !! SCIMConfiguration_ID configuration) ErrNotFound;
  throw_if (bool_decide (SCIMConfiguration_WorkspaceID current ≠
                         SCIMConfiguration_WorkspaceID configuration)) ErrNotFound;;
  commit_update commit (λ s,
    foldl (λ s m, put_membership (Membership_WorkspaceID m) (Membership_UserID m)
                    (normalizeMembership m) s)
      (s <| scimConfigurations ::= <[SCIMConfiguration_ID configuration := configuration]> |>)
      members).

Definition SCIMConfigurationByCredentialPrefix (ctx : Context) (prefix : string) :
    M Store (SCIMConfiguration * SCIMCredential) :=
  check_ctx ctx;;
  s ← get;
  credentialID ← ok_or (scimCredentialKeys s !! prefix) ErrNotFound;
  let credential := default SCIMCredential_zero (scimCredentials s !! credentialID) in
  configuration ← ok_or (scimConfigurations s !! SCIMCredential_ConfigurationID credential)
                    ErrNotFound;
  mret (configuration, credential).

Definition SaveSCIMCredential (ctx : Context) (credential : SCIMCredential) (commit : Commit) :
    M Store unit :=
  check_ctx ctx;;
  s ← get;
  throw_if (negb (has (SCIMCredential_ConfigurationID credential) (scimConfigurations s))) ErrNotFound;;
  throw_if (has (SCIMCredential_ID credential) (scimCredentials s)) ErrConflict;;
  throw_if (has (SCIMCredential_Prefix credential) (scimCredentialKeys s)) ErrConflict;;
  commit_update commit (λ s,
    s <| scimCredentials ::= <[SCIMCredential_ID credential := credential]> |>
      <| scimCredentialKeys ::= <[SCIMCredential_Prefix credential := SCIMCredential_ID credential]> |>).

Definition RevokeSCIMCredential (ctx : Context) (configurationID id : UUID) (revokedAt : Z)
    (commit : Commit) : M Store unit :=
  check_ctx ctx;;
  s ← get;
  credential ← ok_or (scimCredentials s !! id) ErrNotFound;
  throw_if (bool_decide (SCIMCredential_ConfigurationID credential ≠ configurationID)) ErrNotFound;;
  commit_update commit (λ s,
    s <| scimCredentials ::= <[id := credential <| SCIMCredential_RevokedAt := Some revokedAt |>]> |>).

Definition TouchSCIMCredential (ctx : Context) (id : UUID) (usedAt : Z) (commit : Commit) :
    M Store unit :=
  check_ctx ctx;;
  s ← get;
  credential ← ok_or (scimCredentials s !! id) ErrNotFound;
  commit_update commit (λ s,
    s <| scimCredentials ::= <[id := credential <| SCIMCredential_LastUsedAt := Some usedAt |>]> |>).

Definition DisableSCIMConfiguration (ctx : Context) (id : UUID) (disabledAt : Z)
    (commit : Commit) : M Store unit :=
  check_ctx ctx;;
  s ← get;
  configuration ← ok_or (scimConfigurations s !! id) ErrNotFound;
  commit_update commit (λ s,
    s <| scimConfigurations ::= <[id := configuration
           <| SCIMConfiguration_Enabled := false |>
           <| SCIMConfiguration_UpdatedAt := disabledAt |>]> |>
      <| scimCredentials ::= update_where
           (λ c, bool_decide (SCIMCredential_ConfigurationID c = id) &&
                 negb (not_nil (SCIMCredential_RevokedAt c)))
           (λ c, c <| SCIMCredential_RevokedAt := Some disabledAt |>) |>).

(** ** Users *)
Definition scimKey (configurationID : UUID) (value : string) : string :=
  UUID_String configurationID +:+ String Ascii.zero value.

Definition scim_name_key (link : SCIMUser) : string :=
  scimKey (SCIMUser_ConfigurationID link) (SCIMUser_UserName link).
Definition scim_external_key (link : SCIMUser) : string :=
  scimKey (SCIMUser_ConfigurationID link) (SCIMUser_ExternalID link).

(** An index entry held by another record. *)
Definition taken_by_other (index : gmap string UUID) (key : string) (exceptID : UUID) : bool :=
  match index !! key with Some id => bool_decide (id ≠ exceptID) | None => false end.

Definition scimUserConflictLocked (s : Store) (link : SCIMUser) (exceptID : UUID) : bool :=
  taken_by_other (scimUserNames s) (scim_name_key link) exceptID ||
  (bool_decide (SCIMUser_ExternalID link ≠ EmptyString) &&
   taken_by_other (scimExternalIDs s) (scim_external_key link) exceptID).

Definition putSCIMUserLocked (link : SCIMUser) (s : Store) : Store :=
  let s := s <| scimUsers ::= <[SCIMUser_ID link := link]> |>
             <| scimUserNames ::= <[scim_name_key link := SCIMUser_ID link]> |> in
  if bool_decide (SCIMUser_ExternalID link ≠ EmptyString)
  then s <| scimExternalIDs ::= <[scim_external_key link := SCIMUser_ID link]> |> else s.

Definition deleteSCIMUserIndexesLocked (link : SCIMUser) (s : Store) : Store :=
  let s := s <| scimUserNames ::= delete (scim_name_key link) |> in
  if bool_decide (SCIMUser_ExternalID link ≠ EmptyString)
  then s <| scimExternalIDs ::= delete (scim_external_key link) |> else s.

(** The configuration of a link belongs to the membership's workspace. *)
Definition configuration_matches (s : Store) (link : SCIMUser) (membership : Membership) : bool :=
  match scimConfigurations s !! SCIMUser_ConfigurationID link with
  | Some c => bool_decide (SCIMConfiguration_WorkspaceID c = Membership_WorkspaceID membership)
  | None => false
  end.

Definition CreateSCIMUser (ctx : Context) (user : User) (email : EmailAddress)
    (membership : Membership) (link : SCIMUser) (commit : Commit) : M Store unit :=
  check_ctx ctx;;
  s ← get;
  throw_if (negb (configuration_matches s link membership)) ErrNotFound;;
  throw_if (has (User_ID user) (users s) || scimUserConflictLocked s link Nil) ErrConflict;;
  throw_if (has (EmailAddress_Address email) (emailIDs s)) ErrConflict;;
  commit_update commit (λ s,
    let s := s <| users ::= <[User_ID user := user]> |>
               <| emailAddresses ::= <[EmailAddress_ID email := email]> |>
               <| emailIDs ::= <[EmailAddress_Address email := EmailAddress_ID email]> |> in
    let s := if not_nil (EmailAddress_VerifiedAt email)
             then s <| emails ::= <[EmailAddress_Address email := User_ID user]> |> else s in
    putSCIMUserLocked link
      (put_membership (Membership_WorkspaceID membership) (User_ID user)
         (normalizeMembership membership) s)).

Definition AdoptSCIMUser (ctx : Context) (membership : Membership) (link : SCIMUser)
    (commit : Commit) : M Store unit :=
  check_ctx ctx;;
  s ← get;
  throw_if (negb (configuration_matches s link membership)) ErrNotFound;;
  throw_if (negb (has (SCIMUser_UserID link) (users s))) ErrNotFound;;
  throw_if (negb (has (Membership_UserID membership)
                    (members_of s (Membership_WorkspaceID membership)))) ErrNotFound;;
  throw_if (scimUserConflictLocked s link Nil) ErrConflict;;
  commit_update commit (λ s,
    putSCIMUserLocked link
      (put_membership (Membership_WorkspaceID membership) (Membership_UserID membership)
         (normalizeMembership membership) s)).

Definition SCIMUser_ (ctx : Context) (configurationID id : UUID) : M Store SCIMUser :=
  check_ctx ctx;;
  s ← get;
  link ← ok_or (scimUsers s !! id) ErrNotFound;
  throw_if (bool_decide (SCIMUser_ConfigurationID link ≠ configurationID)) ErrNotFound;;
  mret link.

Definition UpdateSCIMUser (ctx : Context) (link : SCIMUser) (membership : Membership)
    (revokeWorkspacePATs : bool) (commit : Commit) : M Store unit :=
  check_ctx ctx;;
  s ← get;
  current ← ok_or (scimUsers s !! SCIMUser_ID link) ErrNotFound;
  throw_if (bool_decide (SCIMUser_ConfigurationID current ≠ SCIMUser_ConfigurationID link) ||
            bool_decide (SCIMUser_UserID current ≠ SCIMUser_UserID link)) ErrNotFound;;
  throw_if (scimUserConflictLocked s link (SCIMUser_ID link)) ErrConflict;;
  commit_with commit (
    modify (λ s, putSCIMUserLocked link (deleteSCIMUserIndexesLocked current s));;
    assign_membership membership;;
    modify (λ s,
      if revokeWorkspacePATs
      then s <| pats ::= update_where
             (λ p, bool_decide (PAT_UserID p = SCIMUser_UserID link) &&
                   bool_decide (PAT_WorkspaceID p = Membership_WorkspaceID membership) &&
                   negb (not_nil (PAT_RevokedAt p)))
             (λ p, p <| PAT_RevokedAt := Some (SCIMUser_UpdatedAt link) |>) |>
      else s)).

(** ** Groups *)
Definition group_key (g : SCIMGroup) : string :=
  scimKey (SCIMGroup_ConfigurationID g) (SCIMGroup_ExternalID g).

Definition UpsertSCIMGroup (ctx : Context) (group : SCIMGroup) (members : list Membership)
    (commit : Commit) : M Store unit :=
  check_ctx ctx;;
  s ← get;
  throw_if (negb (has (SCIMGroup_ConfigurationID group) (scimConfigurations s))) ErrNotFound;;
  let current := scimGroups s !! SCIMGroup_ID group in
  throw_if (match current with
            | Some c => bool_decide (SCIMGroup_ConfigurationID c ≠ SCIMGroup_ConfigurationID group)
            | None => false
            end) ErrConflict;;
  throw_if (bool_decide (SCIMGroup_ExternalID group ≠ EmptyString) &&
            taken_by_other (scimGroupExternal s) (group_key group) (SCIMGroup_ID group)) ErrConflict;;
  commit_with commit (
    modify (λ s,
      let s := match current with
               | Some c =>
                   if bool_decide (SCIMGroup_ExternalID c ≠ EmptyString)
                   then s <| scimGroupExternal ::= delete (group_key c) |> else s
               | None => s
               end in
      let s := s <| scimGroups ::= <[SCIMGroup_ID group := group]> |> in
      if bool_decide (SCIMGroup_ExternalID group ≠ EmptyString)
      then s <| scimGroupExternal ::= <[group_key group := SCIMGroup_ID group]> |> else s);;
    assign_memberships members).

Definition SCIMGroup_ (ctx : Context) (configurationID id : UUID) : M Store SCIMGroup :=
  check_ctx ctx;;
  s ← get;
  group ← ok_or (scimGroups s !! id) ErrNotFound;
  throw_if (bool_decide (SCIMGroup_ConfigurationID group ≠ configurationID) ||
            not_nil (SCIMGroup_DeletedAt group)) ErrNotFound;;
  mret group.

Definition DeleteSCIMGroup (ctx : Context) (group : SCIMGroup) (members : list Membership)
    (commit : Commit) : M Store unit :=
  check_ctx ctx;;
  s ← get;
  current ← ok_or (scimGroups s !! SCIMGroup_ID group) ErrNotFound;
  throw_if (bool_decide (SCIMGroup_ConfigurationID current ≠ SCIMGroup_ConfigurationID group))
    ErrNotFound;;
  commit_with commit (
    modify (λ s,
      let s := s <| scimGroups ::= <[SCIMGroup_ID group := group]> |> in
      if bool_decide (SCIMGroup_ExternalID current ≠ EmptyString)
      then s <| scimGroupExternal ::= delete (group_key current) |> else s);;
    assign_memberships members).

(** ** Erasure *)
Definition tombstone_address (id : UUID) : string :=
  "anonymized-" +:+ UUID_String id +:+ "@invalid".

(** The body of the loop over addresses; the user record follows the primary
    one. *)
Definition anonymize_email (userID : UUID) (at_ : Z) (acc : User * Store)
    (kv : UUID * EmailAddress) : User * Store :=
  let '(user, s) := acc in
  let '(id, email) := kv in
  if bool_decide (EmailAddress_UserID email ≠ userID) then acc
  else
    let tombstone := tombstone_address id in
    let s := s <| emails ::= delete (EmailAddress_Address email) |>
               <| emailIDs ::= delete (EmailAddress_Address email) |>
               <| emailAddresses ::= <[id := email <| EmailAddress_Address := tombstone |>
                                                   <| EmailAddress_UpdatedAt := at_ |>]> |>
               <| emails ::= <[tombstone := userID]> |>
               <| emailIDs ::= <[tombstone := id]> |> in
    (if EmailAddress_Primary email then user <| User_Email := tombstone |> else user, s).

(** The body of the loop over directory links. *)
Definition anonymize_link (userID : UUID) (at_ : Z) (s : Store) (kv : UUID * SCIMUser) : Store :=
  let '(id, link) := kv in
  if bool_decide (SCIMUser_UserID link ≠ userID) then s
  else
    let s := deleteSCIMUserIndexesLocked link s in
    putSCIMUserLocked
      (link <| SCIMUser_ExternalID := EmptyString |>
            <| SCIMUser_UserName := "anonymized-" +:+ UUID_String id |>
            <| SCIMUser_DisplayName := EmptyString |>
            <| SCIMUser_Schemas := [] |>
            <| SCIMUser_Emails := [] |>
            <| SCIMUser_Attributes := ∅ |>
            <| SCIMUser_Active := false |>
            <| SCIMUser_DeprovisionedAt :=
                 if not_nil (SCIMUser_DeprovisionedAt link) then SCIMUser_DeprovisionedAt link
                 else Some at_ |>
            <| SCIMUser_UpdatedAt := at_ |>) s.

Definition anonymize (userID : UUID) (at_ : Z) (user : User) (s : Store) : Store :=
  let user := user <| User_DisplayName := EmptyString |> <| User_Disabled := true |>
                   <| User_UpdatedAt := at_ |> in
  let '(user, s) := foldl (anonymize_email userID at_) (user, s) (map_to_list (emailAddresses s)) in
  let s := s <| users ::= <[userID := user]> |>
             <| ssoIdentities ::= update_where (λ i, bool_decide (SSOIdentity_UserID i = userID))
                  (λ i, i <| SSOIdentity_Email := EmptyString |>) |>
             <| pats ::= update_where (λ p, bool_decide (PAT_UserID p = userID))
                  (λ p, p <| PAT_Name := EmptyString |>) |>
             <| sessions ::= update_where (λ x, bool_decide (Session_UserID x = userID))
                  (λ x, x <| Session_UserAgent := EmptyString |>
                          <| Session_IPAddress := EmptyString |>) |> in
  let s := foldl (anonymize_link userID at_) s (map_to_list (scimUsers s)) in
  let s := s <| invitations ::= map_imap (λ id i, Some
                  (if bool_decide (WorkspaceInvitation_AcceptedUserID i = userID)
                   then i <| WorkspaceInvitation_Email := tombstone_address id |> else i)) |>
             <| totp ::= delete userID |>
             <| recovery ::= delete userID |>
             <| passkeys ::= delete (UUID_String userID) |> in
  revokeUserSessionsLocked userID at_ (revokeUserCredentialsLocked userID Nil at_ s).

Definition AnonymizeUser (ctx : Context) (userID : UUID) (at_ : Z) (commit : Commit) :
    M Store unit :=
  check_ctx ctx;;
  s ← get;
  user ← ok_or (users s !! userID) ErrNotFound;
  throw_if (last_enabled_root s userID) ErrConflict;;
  throw_if (map_existsb (λ _, orphans_workspace s userID) (memberships s)) ErrConflict;;
  commit_update commit (anonymize userID at_ user).

(** ** What an erasure can touch *)
Lemma anonymize_emails_shape userID at_ l user s :
  ∃ user' em ei ea,
    foldl (anonymize_email userID at_) (user, s) l =
    (user', s <| emails := em |> <| emailIDs := ei |> <| emailAddresses := ea |>).
Proof.
  revert user s. induction l as [|[id e] l IH]; intros user s.
  { exists user, (emails s), (emailIDs s), (emailAddresses s). by destruct s. }
  cbn [foldl anonymize_email]. case_bool_decide; [apply IH|].
  match goal with |- context [foldl _ (?u, ?t)] => destruct (IH u t) as (user' & em & ei & ea & ->) end.
  by exists user', em, ei, ea.
Qed.

Lemma anonymize_links_shape userID at_ l s :
  ∃ su sn se,
    foldl (anonymize_link userID at_) s l =
    s <| scimUsers := su |> <| scimUserNames := sn |> <| scimExternalIDs := se |>.
Proof.
  revert s. induction l as [|[id e] l IH]; intros s.
  { exists (scimUsers s), (scimUserNames s), (scimExternalIDs s). by destruct s. }
  cbn [foldl]. destruct (IH (anonymize_link userID at_ s (id, e))) as (su & sn & se & ->).
  exists su, sn, se. unfold anonymize_link, putSCIMUserLocked, deleteSCIMUserIndexesLocked.
  by repeat case_match.
Qed.

(** The tables an erasure may change; all others are kept. *)
Lemma anonymize_shape userID at_ user s :
  ∃ em ei ea us so pa se su sn sx inv to rc pk og oa or,
    anonymize userID at_ user s =
    s <| emails := em |> <| emailIDs := ei |> <| emailAddresses := ea |> <| users := us |>
      <| ssoIdentities := so |> <| pats := pa |> <| sessions := se |> <| scimUsers := su |>
      <| scimUserNames := sn |> <| scimExternalIDs := sx |> <| invitations := inv |>
      <| totp := to |> <| recovery := rc |> <| passkeys := pk |> <| oauthGrants := og |>
      <| oauthAccessTokens := oa |> <| oauthRefreshTokens := or |>.
Proof.
  unfold anonymize. cbv zeta.
  match goal with |- context [foldl (anonymize_email _ _) (?u, _) ?l] =>
    destruct (anonymize_emails_shape userID at_ l u s) as (user' & em & ei & ea & ->) end.
  cbv beta iota.
  match goal with |- context [foldl (anonymize_link _ _) ?t ?l] =>
    destruct (anonymize_links_shape userID at_ l t) as (su & sn & sx & ->) end.
  match goal with |- context [revokeUserSessionsLocked ?u ?a ?t] =>
    set (x := revokeUserSessionsLocked u a t) end.
  exists (emails x), (emailIDs x), (emailAddresses x), (users x), (ssoIdentities x), (pats x),
    (sessions x), (scimUsers x), (scimUserNames x), (scimExternalIDs x), (invitations x),
    (totp x), (recovery x), (passkeys x), (oauthGrants x), (oauthAccessTokens x),
    (oauthRefreshTokens x).
  reflexivity.
Qed.
