(* ===== verification/StoreOAuth.v ===== *)
(** * The in-memory store: the OAuth authorization server
    (src/memory/oauth.go)

    Issuers, protected resources, clients, initial access tokens, grants with
    their authorization codes, access and refresh tokens. *)
From stdpp Require Import base gmap sets list strings numbers.
From Stdlib Require Import ZArith Lia.
From S2P Require Import Prelude Bytes Uuid Types OAuthTypes AuditChain Store.

Definition OAuthClientDCR : OAuthClientSource := "dcr".
Definition OAuthDCROpen : OAuthDCRMode := "open".

(** ** Issuers *)
Definition CreateOAuthIssuer (ctx : Context) (issuer : OAuthIssuer) (commit : Commit) :
    M Store unit :=
  check_ctx ctx;;
  s ← get;
  throw_if (has (OAuthIssuer_ID issuer) (oauthIssuers s)) ErrConflict;;
  throw_if (has (OAuthIssuer_Issuer issuer) (oauthIssuerURLs s)) ErrConflict;;
  commit_update commit (λ s,
    s <| oauthIssuers ::= <[OAuthIssuer_ID issuer := issuer]> |>
      <| oauthIssuerURLs ::= <[OAuthIssuer_Issuer issuer := OAuthIssuer_ID issuer]> |>).

Definition UpdateOAuthIssuer (ctx : Context) (issuer : OAuthIssuer) (commit : Commit) :
    M Store unit :=
  check_ctx ctx;;
  s ← get;
  current ← ok_or (oauthIssuers s !! OAuthIssuer_ID issuer) ErrNotFound;
  throw_if (bool_decide (OAuthIssuer_Issuer current ≠ OAuthIssuer_Issuer issuer)) ErrNotFound;;
  commit_update commit (λ s, s <| oauthIssuers ::= <[OAuthIssuer_ID issuer := issuer]> |>).

(** The tokens of a grant die with it. *)
Definition revokeOAuthGrantLocked (grantID : UUID) (at_ : Z) (s : Store) : Store :=
  match oauthGrants s !! grantID with
  | None => s
  | Some grant =>
      s <| oauthGrants ::= <[grantID := grant <| OAuthGrant_RevokedAt := Some at_ |>
                                              <| OAuthGrant_UpdatedAt := at_ |>]> |>
        <| oauthAccessTokens ::= update_where
             (λ t, bool_decide (OAuthAccessToken_GrantID t = grantID) &&
                   negb (not_nil (OAuthAccessToken_RevokedAt t)))
             (λ t, t <| OAuthAccessToken_RevokedAt := Some at_ |>) |>
        <| oauthRefreshTokens ::= update_where
             (λ t, bool_decide (OAuthRefreshToken_GrantID t = grantID) &&
                   negb (not_nil (OAuthRefreshToken_RevokedAt t)))
             (λ t, t <| OAuthRefreshToken_RevokedAt := Some at_ |>) |>
  end.

(** The loop revoking every grant that satisfies a condition. *)
Definition revoke_grants_where (p : OAuthGrant → bool) (at_ : Z) (s : Store) : Store :=
  foldl (λ s kv, if p kv.2 then revokeOAuthGrantLocked kv.1 at_ s else s) s
    (map_to_list (oauthGrants s)).

Definition SetOAuthIssuerDisabled (ctx : Context) (issuerID : UUID) (disabled : bool) (at_ : Z)
    (commit : Commit) : M Store unit :=
  check_ctx ctx;;
  s ← get;
  issuer ← ok_or (oauthIssuers s !! issuerID) ErrNotFound;
  commit_update commit (λ s,
    let s := s <| oauthIssuers ::= <[issuerID :=
               issuer <| OAuthIssuer_DisabledAt := if disabled then Some at_ else None |>
                      <| OAuthIssuer_UpdatedAt := at_ |>]> |> in
    if disabled
    then revoke_grants_where (λ g, bool_decide (OAuthGrant_IssuerID g = issuerID)) at_ s
    else s).

Definition OAuthIssuerByID (ctx : Context) (id : UUID) : M Store OAuthIssuer :=
  check_ctx ctx;;
  s ← get;
  ok_or (oauthIssuers s !! id) ErrNotFound.

Definition OAuthIssuerByURL (ctx : Context) (raw : string) : M Store OAuthIssuer :=
  check_ctx ctx;;
  s ← get;
  id ← ok_or (oauthIssuerURLs s !! raw) ErrNotFound;
  mret (default OAuthIssuer_zero (oauthIssuers s !! id)).

(** ** Protected resources *)
Definition CreateOAuthProtectedResource (ctx : Context) (resource : OAuthProtectedResource)
    (commit : Commit) : M Store unit :=
  check_ctx ctx;;
  s ← get;
  throw_if (negb (has (OAuthProtectedResource_IssuerID resource) (oauthIssuers s))) ErrNotFound;;
  throw_if (negb (has (OAuthProtectedResource_WorkspaceID resource) (workspaces s))) ErrNotFound;;
  throw_if (has (OAuthProtectedResource_ID resource) (oauthResources s)) ErrConflict;;
  throw_if (has (OAuthProtectedResource_Resource resource) (oauthResourceURIs s)) ErrConflict;;
  commit_update commit (λ s,
    s <| oauthResources ::= <[OAuthProtectedResource_ID resource := resource]> |>
      <| oauthResourceURIs ::= <[OAuthProtectedResource_Resource resource :=
           OAuthProtectedResource_ID resource]> |>).

Definition SetOAuthProtectedResourceDisabled (ctx : Context) (resourceID : UUID) (disabled : bool)
    (at_ : Z) (commit : Commit) : M Store unit :=
  check_ctx ctx;;
  s ← get;
  resource ← ok_or (oauthResources s !! resourceID) ErrNotFound;
  commit_update commit (λ s,
    let s := s <| oauthResources ::= <[resourceID :=
               resource <| OAuthProtectedResource_DisabledAt := if disabled then Some at_ else None |>
                        <| OAuthProtectedResource_UpdatedAt := at_ |>]> |> in
    if disabled
    then revoke_grants_where (λ g, bool_decide (OAuthGrant_ResourceID g = resourceID)) at_ s
    else s).

Definition OAuthProtectedResourceByID (ctx : Context) (id : UUID) :
    M Store OAuthProtectedResource :=
  check_ctx ctx;;
  s ← get;
  ok_or (oauthResources s !! id) ErrNotFound.

Definition OAuthProtectedResourceByURI (ctx : Context) (uri : string) :
    M Store OAuthProtectedResource :=
  check_ctx ctx;;
  s ← get;
  id ← ok_or (oauthResourceURIs s !! uri) ErrNotFound;
  mret (default OAuthProtectedResource_zero (oauthResources s !! id)).

(** ** Clients *)
Definition oauthClientKey (issuerID : UUID) (clientID : string) : string :=
  UUID_String issuerID +:+ String Ascii.zero clientID.

Definition client_key (c : OAuthClient) : string :=
  oauthClientKey (OAuthClient_IssuerID c) (OAuthClient_ClientID c).

(** The enabled dynamically registered clients of an issuer. *)
Definition open_registration (issuerID : UUID) (_ : UUID) (c : OAuthClient) : bool :=
  bool_decide (OAuthClient_IssuerID c = issuerID) &&
  bool_decide (OAuthClient_Source c = OAuthClientDCR) && negb (not_nil (OAuthClient_DisabledAt c)).

Definition registration_full (s : Store) (issuer : OAuthIssuer) (client : OAuthClient) : bool :=
  bool_decide (OAuthClient_Source client = OAuthClientDCR) &&
  bool_decide (OAuthIssuer_DCRMode issuer = OAuthDCROpen) &&
  bool_decide (OAuthIssuer_DCROpenRegistrationLimit issuer ≤
    Z.of_nat (map_countb (open_registration (OAuthClient_IssuerID client)) (oauthClients s)))%Z.

Definition spent_initial_token (usedAt : Z) (t : OAuthInitialAccessToken) : bool :=
  not_nil (OAuthInitialAccessToken_RevokedAt t) ||
  negb (Time_Before usedAt (OAuthInitialAccessToken_ExpiresAt t)) ||
  bool_decide (OAuthInitialAccessToken_MaxRegistrations t ≤
               OAuthInitialAccessToken_RegistrationCount t)%Z.

Definition CreateOAuthClient (ctx : Context) (client : OAuthClient) (initialAccessTokenID : UUID)
    (usedAt : Z) (commit : Commit) : M Store unit :=
  check_ctx ctx;;
  s ← get;
  issuer ← ok_or (oauthIssuers s !! OAuthClient_IssuerID client) ErrNotFound;
  throw_if (registration_full s issuer client) ErrConflict;;
  throw_if (has (OAuthClient_ID client) (oauthClients s)) ErrConflict;;
  throw_if (has (client_key client) (oauthClientKeys s)) ErrConflict;;
  initial ← (if bool_decide (initialAccessTokenID = Nil) then mret None
             else
               t ← ok_or (oauthInitialTokens s !! initialAccessTokenID) ErrNotFound;
               throw_if (bool_decide (OAuthInitialAccessToken_IssuerID t ≠
                                      OAuthClient_IssuerID client)) ErrNotFound;;
               throw_if (spent_initial_token usedAt t) ErrConflict;;
               mret (Some t));
  commit_update commit (λ s,
    let s := s <| oauthClients ::= <[OAuthClient_ID client := client]> |>
               <| oauthClientKeys ::= <[client_key client := OAuthClient_ID client]> |> in
    match initial with
    | Some t => s <| oauthInitialTokens ::= <[initialAccessTokenID :=
                  t <| OAuthInitialAccessToken_RegistrationCount ::= λ n, wrap64 (n + 1) |>]> |>
    | None => s
    end).

Definition UpsertOAuthCIMDClient (ctx : Context) (client : OAuthClient) (commit : Commit) :
    M Store unit :=
  check_ctx ctx;;
  s ← get;
  throw_if (negb (has (OAuthClient_IssuerID client) (oauthIssuers s))) ErrNotFound;;
  throw_if (match oauthClientKeys s !! client_key client with
            | Some id => bool_decide (id ≠ OAuthClient_ID client)
            | None => false
            end) ErrConflict;;
  commit_update commit (λ s,
    s <| oauthClients ::= <[OAuthClient_ID client := client]> |>
      <| oauthClientKeys ::= <[client_key client := OAuthClient_ID client]> |>).

(** A nil slice leaves the column alone. *)
Definition RotateOAuthClientCredentials (ctx : Context) (clientRecordID : UUID)
    (secretDigest jwks : option string) (metadataHash : string) (at_ : Z) (commit : Commit) :
    M Store unit :=
  check_ctx ctx;;
  s ← get;
  client ← ok_or (oauthClients s !! clientRecordID) ErrNotFound;
  commit_update commit (λ s,
    let client := match secretDigest with
                  | Some d => client <| OAuthClient_SecretDigest := d |>
                  | None => client
                  end in
    let client := match jwks with
                  | Some j => client <| OAuthClient_JWKS := j |>
                                     <| OAuthClient_MetadataHash := metadataHash |>
                  | None => client
                  end in
    s <| oauthClients ::= <[clientRecordID := client <| OAuthClient_UpdatedAt := at_ |>]> |>).

Definition SetOAuthClientDisabled (ctx : Context) (clientRecordID : UUID) (disabled : bool)
    (at_ : Z) (commit : Commit) : M Store unit :=
  check_ctx ctx;;
  s ← get;
  client ← ok_or (oauthClients s !! clientRecordID) ErrNotFound;
  commit_update commit (λ s,
    let s := s <| oauthClients ::= <[clientRecordID :=
               client <| OAuthClient_DisabledAt := if disabled then Some at_ else None |>
                      <| OAuthClient_UpdatedAt := at_ |>]> |> in
    if disabled
    then revoke_grants_where (λ g, bool_decide (OAuthGrant_ClientRecordID g = clientRecordID)) at_ s
    else s).

Definition OAuthClientByID (ctx : Context) (id : UUID) : M Store OAuthClient :=
  check_ctx ctx;;
  s ← get;
  ok_or (oauthClients s !! id) ErrNotFound.

Definition OAuthClientByClientID (ctx : Context) (issuerID : UUID) (clientID : string) :
    M Store OAuthClient :=
  check_ctx ctx;;
  s ← get;
  id ← ok_or (oauthClientKeys s !! oauthClientKey issuerID clientID) ErrNotFound;
  mret (default OAuthClient_zero (oauthClients s !! id)).

(** ** Initial access tokens *)
Definition CreateOAuthInitialAccessToken (ctx : Context) (token : OAuthInitialAccessToken)
    (commit : Commit) : M Store unit :=
  check_ctx ctx;;
  s ← get;
  throw_if (negb (has (OAuthInitialAccessToken_IssuerID token) (oauthIssuers s))) ErrNotFound;;
  throw_if (has (OAuthInitialAccessToken_ID token) (oauthInitialTokens s)) ErrConflict;;
  throw_if (has (OAuthInitialAccessToken_Prefix token) (oauthInitialKeys s)) ErrConflict;;
  commit_update commit (λ s,
    s <| oauthInitialTokens ::= <[OAuthInitialAccessToken_ID token := token]> |>
      <| oauthInitialKeys ::= <[OAuthInitialAccessToken_Prefix token :=
           OAuthInitialAccessToken_ID token]> |>).

Definition OAuthInitialAccessTokenByPrefix (ctx : Context) (prefix : string) :
    M Store OAuthInitialAccessToken :=
  check_ctx ctx;;
  s ← get;
  id ← ok_or (oauthInitialKeys s !! prefix) ErrNotFound;
  mret (default OAuthInitialAccessToken_zero (oauthInitialTokens s !! id)).

Definition RevokeOAuthInitialAccessToken (ctx : Context) (id : UUID) (at_ : Z) (commit : Commit) :
    M Store unit :=
  check_ctx ctx;;
  s ← get;
  token ← ok_or (oauthInitialTokens s !! id) ErrNotFound;
  commit_update commit (λ s,
    s <| oauthInitialTokens ::= <[id :=
           token <| OAuthInitialAccessToken_RevokedAt := Some at_ |>]> |>).

(** ** Grants and authorization codes *)
Definition CreateOAuthGrantAndCode (ctx : Context) (grant : OAuthGrant)
    (code : OAuthAuthorizationCode) (commit : Commit) : M Store unit :=
  check_ctx ctx;;
  s ← get;
  throw_if (negb (has (OAuthGrant_ClientRecordID grant) (oauthClients s))) ErrNotFound;;
  throw_if (negb (has (OAuthGrant_ResourceID grant) (oauthResources s))) ErrNotFound;;
  throw_if (has (OAuthGrant_ID grant) (oauthGrants s)) ErrConflict;;
  throw_if (has (OAuthAuthorizationCode_ID code) (oauthCodes s)) ErrConflict;;
  throw_if (has (OAuthAuthorizationCode_Prefix code) (oauthCodeKeys s)) ErrConflict;;
  commit_update commit (λ s,
    s <| oauthGrants ::= <[OAuthGrant_ID grant := grant]> |>
      <| oauthCodes ::= <[OAuthAuthorizationCode_ID code := code]> |>
      <| oauthCodeKeys ::= <[OAuthAuthorizationCode_Prefix code :=
           OAuthAuthorizationCode_ID code]> |>).

Definition OAuthGrant_ (ctx : Context) (id : UUID) : M Store OAuthGrant :=
  check_ctx ctx;;
  s ← get;
  ok_or (oauthGrants s !! id) ErrNotFound.

Definition RevokeOAuthGrant (ctx : Context) (grantID : UUID) (at_ : Z) (commit : Commit) :
    M Store unit :=
  check_ctx ctx;;
  s ← get;
  throw_if (negb (has grantID (oauthGrants s))) ErrNotFound;;
  commit_update commit (revokeOAuthGrantLocked grantID at_).

Definition OAuthAuthorizationCodeByPrefix (ctx : Context) (prefix : string) :
    M Store OAuthAuthorizationCode :=
  check_ctx ctx;;
  s ← get;
  id ← ok_or (oauthCodeKeys s !! prefix) ErrNotFound;
  mret (default OAuthAuthorizationCode_zero (oauthCodes s !! id)).

Definition put_access (access : OAuthAccessToken) (s : Store) : Store :=
  s <| oauthAccessTokens ::= <[OAuthAccessToken_ID access := access]> |>
    <| oauthAccessKeys ::= <[OAuthAccessToken_Prefix access := OAuthAccessToken_ID access]> |>.
Definition put_refresh (refresh : OAuthRefreshToken) (s : Store) : Store :=
  s <| oauthRefreshTokens ::= <[OAuthRefreshToken_ID refresh := refresh]> |>
    <| oauthRefreshKeys ::= <[OAuthRefreshToken_Prefix refresh := OAuthRefreshToken_ID refresh]> |>.

Definition ConsumeOAuthAuthorizationCode (ctx : Context) (codeID : UUID) (usedAt : Z)
    (access : OAuthAccessToken) (refresh : option OAuthRefreshToken) (commit : Commit) :
    M Store unit :=
  check_ctx ctx;;
  s ← get;
  code ← ok_or (oauthCodes s !! codeID) ErrNotFound;
  throw_if (not_nil (OAuthAuthorizationCode_UsedAt code) ||
            negb (Time_Before usedAt (OAuthAuthorizationCode_ExpiresAt code))) ErrConflict;;
  throw_if (has (OAuthAccessToken_Prefix access) (oauthAccessKeys s)) ErrConflict;;
  throw_if (match refresh with
            | Some r => has (OAuthRefreshToken_Prefix r) (oauthRefreshKeys s)
            | None => false
            end) ErrConflict;;
  commit_update commit (λ s,
    let s := put_access access (s <| oauthCodes ::= <[codeID :=
               code <| OAuthAuthorizationCode_UsedAt := Some usedAt |>]> |>) in
    match refresh with Some r => put_refresh r s | None => s end).

(** ** Tokens *)
Definition OAuthAccessTokenByPrefix (ctx : Context) (prefix : string) : M Store OAuthAccessToken :=
  check_ctx ctx;;
  s ← get;
  id ← ok_or (oauthAccessKeys s !! prefix) ErrNotFound;
  mret (default OAuthAccessToken_zero (oauthAccessTokens s !! id)).

Definition CreateOAuthClientAccessToken (ctx : Context) (value : OAuthClientAccessToken)
    (commit : Commit) : M Store unit :=
  check_ctx ctx;;
  s ← get;
  throw_if (has (OAuthClientAccessToken_Prefix value) (oauthClientTokenKeys s)) ErrConflict;;
  commit_update commit (λ s,
    s <| oauthClientTokens ::= <[OAuthClientAccessToken_ID value := value]> |>
      <| oauthClientTokenKeys ::= <[OAuthClientAccessToken_Prefix value :=
           OAuthClientAccessToken_ID value]> |>).

Definition OAuthClientAccessTokenByPrefix (ctx : Context) (prefix : string) :
    M Store OAuthClientAccessToken :=
  check_ctx ctx;;
  s ← get;
  id ← ok_or (oauthClientTokenKeys s !! prefix) ErrNotFound;
  mret (default OAuthClientAccessToken_zero (oauthClientTokens s !! id)).

Definition RevokeOAuthClientAccessToken (ctx : Context) (id : UUID) (at_ : Z) (commit : Commit) :
    M Store unit :=
  check_ctx ctx;;
  s ← get;
  token ← ok_or (oauthClientTokens s !! id) ErrNotFound;
  commit_update commit (λ s,
    s <| oauthClientTokens ::= <[id :=
           token <| OAuthClientAccessToken_RevokedAt := Some at_ |>]> |>).

Definition OAuthRefreshTokenByPrefix (ctx : Context) (prefix : string) :
    M Store OAuthRefreshToken :=
  check_ctx ctx;;
  s ← get;
  id ← ok_or (oauthRefreshKeys s !! prefix) ErrNotFound;
  mret (default OAuthRefreshToken_zero (oauthRefreshTokens s !! id)).

(** A refresh token is spent once used, revoked or expired. *)
Definition spent_refresh (usedAt : Z) (t : OAuthRefreshToken) : bool :=
  not_nil (OAuthRefreshToken_UsedAt t) || not_nil (OAuthRefreshToken_RevokedAt t) ||
  negb (Time_Before usedAt (OAuthRefreshToken_ExpiresAt t)).

Definition RotateOAuthRefreshToken (ctx : Context) (previousID : UUID) (usedAt : Z)
    (access : OAuthAccessToken) (refresh : OAuthRefreshToken) (commit : Commit) : M Store unit :=
  check_ctx ctx;;
  s ← get;
  previousToken ← ok_or (oauthRefreshTokens s !! previousID) ErrNotFound;
  throw_if (spent_refresh usedAt previousToken) ErrConflict;;
  throw_if (bool_decide (OAuthRefreshToken_FamilyID previousToken ≠ OAuthRefreshToken_FamilyID refresh) ||
            bool_decide (OAuthRefreshToken_GrantID previousToken ≠ OAuthRefreshToken_GrantID refresh))
    ErrConflict;;
  throw_if (has (OAuthAccessToken_Prefix access) (oauthAccessKeys s)) ErrConflict;;
  throw_if (has (OAuthRefreshToken_Prefix refresh) (oauthRefreshKeys s)) ErrConflict;;
  commit_update commit (λ s,
    put_refresh refresh (put_access access
      (s <| oauthRefreshTokens ::= <[previousID :=
              previousToken <| OAuthRefreshToken_UsedAt := Some usedAt |>
                            <| OAuthRefreshToken_ReplacedByID := OAuthRefreshToken_ID refresh |>]> |>))).

Definition RevokeOAuthAccessToken (ctx : Context) (id : UUID) (at_ : Z) (commit : Commit) :
    M Store unit :=
  check_ctx ctx;;
  s ← get;
  token ← ok_or (oauthAccessTokens s !! id) ErrNotFound;
  commit_update commit (λ s,
    if negb (not_nil (OAuthAccessToken_RevokedAt token))
    then s <| oauthAccessTokens ::= <[id := token <| OAuthAccessToken_RevokedAt := Some at_ |>]> |>
    else s).

(** The grants a family descends from. *)
Definition family_grants (s : Store) (familyID : UUID) : gset string :=
  list_to_set ((λ kv, UUID_String (OAuthRefreshToken_GrantID kv.2)) <$>
    base.filter (λ kv, OAuthRefreshToken_FamilyID kv.2 = familyID)
      (map_to_list (oauthRefreshTokens s))).

Definition RevokeOAuthRefreshFamily (ctx : Context) (familyID : UUID) (at_ : Z)
    (commit : Commit) : M Store unit :=
  check_ctx ctx;;
  s ← get;
  let grants := family_grants s familyID in
  throw_if (bool_decide (size grants = 0)) ErrNotFound;;
  commit_update commit (λ s,
    s <| oauthRefreshTokens ::= update_where
           (λ t, bool_decide (OAuthRefreshToken_FamilyID t = familyID) &&
                 negb (not_nil (OAuthRefreshToken_RevokedAt t)))
           (λ t, t <| OAuthRefreshToken_RevokedAt := Some at_ |>) |>
      <| oauthAccessTokens ::= update_where
           (λ t, bool_decide (UUID_String (OAuthAccessToken_GrantID t) ∈ grants) &&
                 negb (not_nil (OAuthAccessToken_RevokedAt t)))
           (λ t, t <| OAuthAccessToken_RevokedAt := Some at_ |>) |>).
