(* ===== verification/StorePages.v ===== *)
(** * Cursor pages and listings of the store
    (src/memory/store.go, src/memory/scim.go, src/memory/oauth.go)

    An iterator [iter.Seq2[T, error]] is the list of what it yields: values,
    and an error when one ends it.  A listing reads the rows under one lock;
    the listings that look at the context again before each item receive it as
    a function of the position. *)
From stdpp Require Import base gmap sets list strings numbers sorting.
From Stdlib Require Import ZArith Lia Ascii.
From S2P Require Import Prelude Bytes GoText GoJson Uuid Types OAuthTypes AuditChain Store StoreUsers StoreTokens StoreWorkspaces StoreScim StoreOAuth.

Definition Stream (A : Type) : Type := list (result A).

(** ** Cursors *)
Record pageCursor := mkpageCursor { pageCursor_UnixNano : Z; pageCursor_ID : UUID }.
Definition pageCursor_zero : pageCursor := mkpageCursor 0 Nil.

(** The text of [json.Marshal(pageCursor{...})] *)
Definition quoted (s : string) : list Z := 34%Z :: string_Z s ++ [34%Z].
Definition cursor_members (c : pageCursor) : list (string * list Z) :=
  [("t", string_Z (FormatInt (pageCursor_UnixNano c))); ("id", quoted (UUID_String (pageCursor_ID c)))].
Definition cursor_json (c : pageCursor) : list Z := object_text (cursor_members c).

Definition encodeCursor (timestamp : Z) (id : UUID) : string :=
  base64_RawURL_EncodeToString (Z_string (cursor_json (mkpageCursor (UnixNano timestamp) id))).

(** [json.Unmarshal] into a [pageCursor]; unknown fields are skipped. *)
Definition assign_cursor (key : list Z) (v : json) (c : pageCursor) : option pageCursor :=
  if is_field "t" key then
    t ← to_int64 v (pageCursor_UnixNano c); Some (mkpageCursor t (pageCursor_ID c))
  else if is_field "id" key then
    id ← to_text UnmarshalText v (pageCursor_ID c); Some (mkpageCursor (pageCursor_UnixNano c) id)
  else Some c.

Definition decodeCursor (raw : string) : result pageCursor :=
  if bool_decide (raw = EmptyString) then Ok pageCursor_zero
  else
    match payload ← base64_RawURL_DecodeString raw; v ← json_parse payload;
          json_struct assign_cursor pageCursor_zero v with
    | Some c =>
        if bool_decide (pageCursor_UnixNano c = 0)%Z || bool_decide (pageCursor_ID c = Nil)
        then Error ErrInvalidInput else Ok c
    | None => Error ErrInvalidInput
    end.

Definition afterCursor (timestamp : Z) (id : UUID) (cursor : pageCursor) : bool :=
  bool_decide (pageCursor_ID cursor = Nil) ||
  Time_Before timestamp (pageCursor_UnixNano cursor) ||
  (bool_decide (timestamp = pageCursor_UnixNano cursor) &&
   bool_decide (UUID_Compare id (pageCursor_ID cursor) < 0)%Z).

Definition newer (leftTime : Z) (leftID : UUID) (rightTime : Z) (rightID : UUID) : bool :=
  if bool_decide (leftTime = rightTime) then bool_decide (0 < UUID_Compare leftID rightID)%Z
  else Time_After leftTime rightTime.

(** ** Pages *)
Section pages.
Context {A : Type} (created : A → Z) (ident : A → UUID).

(** The order [sort.Slice] produces: no row comes before a newer one. *)
Definition newest_first (a b : A) : Prop := newer (created b) (ident b) (created a) (ident a) = false.
#[export] Instance newest_first_dec : RelDecision newest_first := λ a b,
  bool_eq_dec (newer (created b) (ident b) (created a) (ident a)) false.
Definition oldest_first (a b : A) : Prop := newest_first b a.
#[export] Instance oldest_first_dec : RelDecision oldest_first := λ a b, newest_first_dec b a.

(** The rows of a page and all the later ones. *)
Definition page_values (rows : list A) (cursor : pageCursor) : list A :=
  merge_sort newest_first
    (base.filter (λ a, afterCursor (created a) (ident a) cursor = true) rows).

Definition page_end (hasMore : bool) (values : list A) : PageEnd :=
  mkPageEnd
    (match last values with
     | Some v => if hasMore then encodeCursor (created v) (ident v) else EmptyString
     | None => EmptyString
     end) hasMore.

(** The items, with a look at the context before each, then the end marker. *)
Fixpoint yield_items (during : nat → Context) (i : nat) (values : list A) (e : PageEnd) :
    Stream (PageEvent A) :=
  match values with
  | [] => [Ok (EndEvent e)]
  | v :: values' =>
      match during i with
      | Some err => [Error err]
      | None => Ok (ItemEvent v) :: yield_items during (S i) values' e
      end
  end.

(** The page of [limit] rows.  A slice out of range panics: a negative limit,
    and a limit of zero where the code takes the last row unguarded. *)
Definition page_panic (guarded : bool) (limit : Z) : bool :=
  bool_decide (limit < 0)%Z || (negb guarded && bool_decide (limit = 0)%Z).
Definition yield_page (guarded : bool) (during : nat → Context) (limit : Z) (values : list A) :
    Stream (PageEvent A) :=
  let hasMore := bool_decide (limit < Z.of_nat (length values))%Z in
  if hasMore && page_panic guarded limit then [Error (Opaque "panic: index out of range")]
  else
    let shown := if hasMore then take (Z.to_nat limit) values else values in
    yield_items during 0 shown (page_end hasMore shown).

(** A paginated listing of the rows that [rows] selects. *)
Definition paged_with (guarded : bool) (rows : Store → list A) (ctx : Context)
    (during : nat → Context) (page : PageRequest) : M Store (Stream (PageEvent A)) :=
  match decodeCursor (PageRequest_Cursor page) with
  | Error e => mret [Error e]
  | Ok cursor =>
      match ctx with
      | Some e => mret [Error e]
      | None =>
          s ← get;
          mret (yield_page guarded during (PageRequest_Limit page) (page_values (rows s) cursor))
      end
  end.

Definition paged := paged_with true.

(** A listing without pages, oldest first. *)
Definition listed (rows : Store → list A) (ctx : Context) : M Store (Stream A) :=
  match ctx with
  | Some e => mret [Error e]
  | None => s ← get; mret (Ok <$> merge_sort oldest_first (rows s))
  end.

End pages.

Lemma ReadOnly_paged_with {A} c i b rows cx during page : ReadOnly (@paged_with A c i b rows cx during page).
Proof. unfold paged_with. readonly. Qed.
Lemma ReadOnly_paged {A} c i rows cx during page : ReadOnly (@paged A c i rows cx during page).
Proof. apply ReadOnly_paged_with. Qed.
Lemma ReadOnly_listed {A} c i rows cx : ReadOnly (@listed A c i rows cx).
Proof. unfold listed. readonly. Qed.
#[export] Hint Resolve ReadOnly_paged_with ReadOnly_paged ReadOnly_listed : cb_readonly.

(** A listing that never looks at the context again. *)
Definition unwatched : nat → Context := λ _, None.

(** The rows of a map that satisfy a condition. *)
Definition rows_where {A} (p : A → bool) (m : gmap UUID A) : list A :=
  base.filter (λ a, p a = true) (map_to_list m).*2.

(** ** The listings of store.go *)
Definition Users (ctx : Context) (page : PageRequest) : M Store (Stream (PageEvent User)) :=
  paged User_CreatedAt User_ID (λ s, (map_to_list (users s)).*2) ctx unwatched page.

Definition Emails (ctx : Context) (userID : UUID) (page : PageRequest) :
    M Store (Stream (PageEvent EmailAddress)) :=
  paged EmailAddress_CreatedAt EmailAddress_ID
    (λ s, rows_where (λ e, bool_decide (EmailAddress_UserID e = userID)) (emailAddresses s))
    ctx unwatched page.

Definition patPage (match_ : PAT → bool) (ctx : Context) (during : nat → Context)
    (page : PageRequest) : M Store (Stream (PageEvent PAT)) :=
  paged PAT_CreatedAt PAT_ID
    (λ s, (λ p, p <| PAT_Digest := EmptyString |>) <$> rows_where match_ (pats s)) ctx during page.
Lemma ReadOnly_patPage f cx d page : ReadOnly (patPage f cx d page).
Proof. apply ReadOnly_paged. Qed.
#[export] Hint Resolve ReadOnly_patPage : cb_readonly.
Definition WorkspacePATs (ctx : Context) (during : nat → Context) (workspaceID : UUID)
    (page : PageRequest) : M Store (Stream (PageEvent PAT)) :=
  patPage (λ p, bool_decide (workspaceID ≠ Nil) && bool_decide (PAT_WorkspaceID p = workspaceID))
    ctx during page.
Definition PATs (ctx : Context) (during : nat → Context) (userID : UUID) (page : PageRequest) :
    M Store (Stream (PageEvent PAT)) :=
  patPage (λ p, bool_decide (PAT_UserID p = userID)) ctx during page.

Definition Sessions (ctx : Context) (during : nat → Context) (userID : UUID) (page : PageRequest) :
    M Store (Stream (PageEvent Session)) :=
  paged Session_CreatedAt Session_ID
    (λ s, (λ x, x <| Session_Digest := EmptyString |>) <$>
       rows_where (λ x, bool_decide (Session_UserID x = userID)) (sessions s)) ctx during page.

Definition WorkspaceDomains (ctx : Context) (during : nat → Context) (workspaceID : UUID)
    (page : PageRequest) : M Store (Stream (PageEvent WorkspaceDomain)) :=
  paged WorkspaceDomain_CreatedAt WorkspaceDomain_ID
    (λ s, rows_where (λ d, bool_decide (WorkspaceDomain_WorkspaceID d = workspaceID)) (domains s))
    ctx during page.

Definition workspacesPage (ctx : Context) (userID : UUID) (page : PageRequest) :
    M Store (Stream (PageEvent Workspace)) :=
  paged Workspace_CreatedAt Workspace_ID
    (λ s, (base.filter (λ kv, bool_decide (userID = Nil) || has userID (members_of s kv.1) = true)
             (map_to_list (workspaces s))).*2) ctx unwatched page.
Lemma ReadOnly_workspacesPage cx u page : ReadOnly (workspacesPage cx u page).
Proof. apply ReadOnly_paged. Qed.
#[export] Hint Resolve ReadOnly_workspacesPage : cb_readonly.
Definition Workspaces (ctx : Context) (page : PageRequest) : M Store (Stream (PageEvent Workspace)) :=
  workspacesPage ctx Nil page.
Definition UserWorkspaces (ctx : Context) (userID : UUID) (page : PageRequest) :
    M Store (Stream (PageEvent Workspace)) :=
  workspacesPage ctx userID page.

Definition WorkspaceInvitations (ctx : Context) (workspaceID : UUID) (page : PageRequest) :
    M Store (Stream (PageEvent WorkspaceInvitation)) :=
  paged_with WorkspaceInvitation_CreatedAt WorkspaceInvitation_ID false
    (λ s, rows_where (λ i, bool_decide (WorkspaceInvitation_WorkspaceID i = workspaceID))
            (invitations s)) ctx unwatched page.

Definition Memberships (ctx : Context) (workspaceID : UUID) (page : PageRequest) :
    M Store (Stream (PageEvent Membership)) :=
  paged Membership_CreatedAt Membership_UserID
    (λ s, normalizeMembership <$> (map_to_list (members_of s workspaceID)).*2) ctx unwatched page.

Definition InstanceAdministrators (ctx : Context) : M Store (Stream InstanceAdministrator) :=
  listed InstanceAdministrator_CreatedAt InstanceAdministrator_UserID
    (λ s, (map_to_list (admins s)).*2) ctx.

Definition SSOIdentities (ctx : Context) (during : nat → Context) (userID : UUID)
    (page : PageRequest) : M Store (Stream (PageEvent SSOIdentity)) :=
  paged SSOIdentity_CreatedAt SSOIdentity_ID
    (λ s, rows_where (λ i, bool_decide (SSOIdentity_UserID i = userID)) (ssoIdentities s))
    ctx during page.

Definition auditEvents (include : AuditEvent → bool) (ctx : Context) (page : PageRequest) :
    M Store (Stream (PageEvent AuditEvent)) :=
  paged AuditEvent_OccurredAt AuditEvent_ID
    (λ s, base.filter (λ e, include e = true) (audits s)) ctx unwatched page.
Lemma ReadOnly_auditEvents f cx page : ReadOnly (auditEvents f cx page).
Proof. apply ReadOnly_paged. Qed.
#[export] Hint Resolve ReadOnly_auditEvents : cb_readonly.
Definition AuditEvents (ctx : Context) (workspaceID : UUID) (page : PageRequest) :
    M Store (Stream (PageEvent AuditEvent)) :=
  auditEvents (λ e, bool_decide (AuditEvent_WorkspaceID e = workspaceID)) ctx page.
Definition InstanceAuditEvents (ctx : Context) (page : PageRequest) :
    M Store (Stream (PageEvent AuditEvent)) :=
  auditEvents (λ _, true) ctx page.

Definition SCIMUsersByUser (ctx : Context) (userID : UUID) : M Store (Stream SCIMUser) :=
  listed SCIMUser_CreatedAt SCIMUser_ID
    (λ s, rows_where (λ l, bool_decide (SCIMUser_UserID l = userID)) (scimUsers s)) ctx.

Definition AcceptedWorkspaceInvitations (ctx : Context) (userID : UUID) :
    M Store (Stream WorkspaceInvitation) :=
  listed WorkspaceInvitation_CreatedAt WorkspaceInvitation_ID
    (λ s, rows_where (λ i, bool_decide (WorkspaceInvitation_AcceptedUserID i = userID))
            (invitations s)) ctx.

(** ** The listings of scim.go *)
Definition SCIMConfigurations (ctx : Context) (workspaceID : UUID) :
    M Store (Stream SCIMConfiguration) :=
  listed SCIMConfiguration_CreatedAt SCIMConfiguration_ID
    (λ s, rows_where (λ c, bool_decide (SCIMConfiguration_WorkspaceID c = workspaceID))
            (scimConfigurations s)) ctx.

Definition SCIMCredentials (ctx : Context) (configurationID : UUID) : M Store (Stream SCIMCredential) :=
  listed SCIMCredential_CreatedAt SCIMCredential_ID
    (λ s, (λ c, c <| SCIMCredential_Digest := EmptyString |>) <$>
       rows_where (λ c, bool_decide (SCIMCredential_ConfigurationID c = configurationID))
         (scimCredentials s)) ctx.

(** [strings.EqualFold] with an ASCII word *)
Definition EqualFold (s word : string) : bool :=
  bool_decide (fold_name (string_Z s) = fold_name (string_Z word)).

Section scim_listings.
Context (unicode_ToLower : string → string).

(** [strings.ToLower(strings.TrimSpace(v))] *)
Definition lower_trimmed (v : string) : string :=
  let v := TrimSpace v in if is_ascii_string v then str_lower v else unicode_ToLower v.

Definition matchSCIMUser (link : SCIMUser) (filter : SCIMFilter) : bool :=
  let attribute := SCIMFilter_Attribute filter in
  let value := SCIMFilter_Value filter in
  if bool_decide (attribute = EmptyString) then true
  else if bool_decide (attribute = "id") then bool_decide (UUID_String (SCIMUser_ID link) = value)
  else if bool_decide (attribute = "externalId") then bool_decide (SCIMUser_ExternalID link = value)
  else if bool_decide (attribute = "userName")
  then bool_decide (SCIMUser_UserName link = lower_trimmed value)
  else if bool_decide (attribute = "active") then
    (EqualFold value "true" && SCIMUser_Active link) ||
    (EqualFold value "false" && negb (SCIMUser_Active link))
  else if bool_decide (attribute = "emails.value") then
    existsb (λ e, bool_decide (SCIMEmail_Value e = lower_trimmed value)) (SCIMUser_Emails link)
  else false.

Definition SCIMUsers (ctx : Context) (during : nat → Context) (configurationID : UUID)
    (filter : SCIMFilter) (page : PageRequest) : M Store (Stream (PageEvent SCIMUser)) :=
  paged SCIMUser_CreatedAt SCIMUser_ID
    (λ s, rows_where (λ l, bool_decide (SCIMUser_ConfigurationID l = configurationID) &&
            negb (not_nil (SCIMUser_DeprovisionedAt l)) && matchSCIMUser l filter) (scimUsers s))
    ctx during page.
End scim_listings.

Definition matchSCIMGroup (group : SCIMGroup) (filter : SCIMFilter) : bool :=
  let attribute := SCIMFilter_Attribute filter in
  let value := SCIMFilter_Value filter in
  if bool_decide (attribute = EmptyString) then true
  else if bool_decide (attribute = "id") then bool_decide (UUID_String (SCIMGroup_ID group) = value)
  else if bool_decide (attribute = "externalId") then bool_decide (SCIMGroup_ExternalID group = value)
  else if bool_decide (attribute = "displayName") then bool_decide (SCIMGroup_DisplayName group = value)
  else false.

Definition SCIMGroups (ctx : Context) (during : nat → Context) (configurationID : UUID)
    (filter : SCIMFilter) (page : PageRequest) : M Store (Stream (PageEvent SCIMGroup)) :=
  paged SCIMGroup_CreatedAt SCIMGroup_ID
    (λ s, rows_where (λ g, bool_decide (SCIMGroup_ConfigurationID g = configurationID) &&
            negb (not_nil (SCIMGroup_DeletedAt g)) && matchSCIMGroup g filter) (scimGroups s))
    ctx during page.

(** ** The listings of oauth.go *)
Definition OAuthIssuers (ctx : Context) (page : PageRequest) :
    M Store (Stream (PageEvent OAuthIssuer)) :=
  paged OAuthIssuer_CreatedAt OAuthIssuer_ID (λ s, (map_to_list (oauthIssuers s)).*2) ctx unwatched page.

Definition OAuthProtectedResources (ctx : Context) (workspaceID : UUID) (page : PageRequest) :
    M Store (Stream (PageEvent OAuthProtectedResource)) :=
  paged OAuthProtectedResource_CreatedAt OAuthProtectedResource_ID
    (λ s, rows_where (λ r, bool_decide (OAuthProtectedResource_WorkspaceID r = workspaceID))
            (oauthResources s)) ctx unwatched page.

Definition OAuthClients (ctx : Context) (issuerID : UUID) (page : PageRequest) :
    M Store (Stream (PageEvent OAuthClient)) :=
  paged OAuthClient_CreatedAt OAuthClient_ID
    (λ s, (λ c, c <| OAuthClient_SecretDigest := EmptyString |>) <$>
       rows_where (λ c, bool_decide (OAuthClient_IssuerID c = issuerID)) (oauthClients s))
    ctx unwatched page.

Definition OAuthInitialAccessTokens (ctx : Context) (issuerID : UUID) :
    M Store (Stream OAuthInitialAccessToken) :=
  listed OAuthInitialAccessToken_CreatedAt OAuthInitialAccessToken_ID
    (λ s, (λ t, t <| OAuthInitialAccessToken_Digest := EmptyString |>) <$>
       rows_where (λ t, bool_decide (OAuthInitialAccessToken_IssuerID t = issuerID))
         (oauthInitialTokens s)) ctx.

Definition OAuthGrants (ctx : Context) (userID workspaceID : UUID) (page : PageRequest) :
    M Store (Stream (PageEvent OAuthGrant)) :=
  paged OAuthGrant_CreatedAt OAuthGrant_ID
    (λ s, rows_where (λ g,
       (bool_decide (userID = Nil) || bool_decide (OAuthGrant_UserID g = userID)) &&
       (bool_decide (workspaceID = Nil) || bool_decide (OAuthGrant_WorkspaceID g = workspaceID)))
       (oauthGrants s)) ctx unwatched page.

(** ** Cursors read back *)
Lemma hex_Encode_plain s : forallb plain_byte (string_Z (hex_Encode s)) = true.
Proof.
  induction s as [|a s IH]; [done|]. cbn [hex_Encode]. rewrite !string_Z_cons. cbn [forallb].
  rewrite IH. clear IH. by destruct a as [[] [] [] [] [] [] [] []]; vm_compute.
Qed.

Lemma UUID_String_plain u : forallb plain_byte (string_Z (UUID_String u)) = true.
Proof.
  unfold UUID_String.
  repeat (rewrite ?string_Z_app, ?string_Z_cons; cbn [forallb];
          rewrite ?forallb_app, ?hex_Encode_plain); done.
Qed.

Lemma cursor_json_bytes c : Forall (λ b, 0 ≤ b < 256)%Z (cursor_json c).
Proof.
  unfold cursor_json, cursor_members, object_text, quoted. cbn [members_text]. unfold json_key.
  repeat first [apply Forall_nil_2 | apply string_Z_bytes | apply Forall_cons_2; [lia|] |
                apply Forall_app_2].
Qed.

Lemma cursor_json_parse c :
  json_parse (Z_string (cursor_json c)) =
    Some (JObject [(string_Z "t", JNumber (string_Z (FormatInt (pageCursor_UnixNano c))));
                   (string_Z "id", JString (string_Z (UUID_String (pageCursor_ID c)))
                                           (string_Z (UUID_String (pageCursor_ID c))))]).
Proof.
  set (t := JNumber (string_Z (FormatInt (pageCursor_UnixNano c)))).
  set (i := JString (string_Z (UUID_String (pageCursor_ID c))) (string_Z (UUID_String (pageCursor_ID c)))).
  assert (renders (0 + 1) (cursor_json c) (JObject (zip (string_Z <$> ["t"; "id"]) [t; i]))) as Hr.
  { apply (renders_object 0 (cursor_members c) [t; i]); [done|by repeat constructor| |lia].
    repeat apply Forall2_cons_2; [apply renders_int|apply renders_plain, UUID_String_plain|constructor]. }
  exact (json_parse_renders _ _ _ Hr ltac:(lia) (cursor_json_bytes c)).
Qed.

Definition cursor_time (t : Z) : Prop := (int64_min ≤ t ≤ int64_max)%Z ∧ t ≠ 0%Z.
#[export] Instance cursor_time_dec t : Decision (cursor_time t).
Proof. apply _. Defined.

Lemma decode_encodeCursor t id :
  cursor_time t → id ≠ Nil → decodeCursor (encodeCursor t id) = Ok (mkpageCursor t id).
Proof.
  intros [Ht Ht0] Hid. unfold decodeCursor, encodeCursor.
  assert (UnixNano t = t) as -> by (by apply wrap64_id).
  rewrite bool_decide_false.
  2: { intros H. apply (f_equal base64_RawURL_DecodeString) in H.
       rewrite base64_Decode_Encode in H. injection H as H. apply (f_equal string_Z) in H.
       by rewrite string_Z_Z_string in H by apply cursor_json_bytes. }
  rewrite base64_Decode_Encode. cbn [mbind option_bind]. rewrite cursor_json_parse.
  cbn [mbind option_bind json_struct json_fields pageCursor_UnixNano pageCursor_ID].
  unfold assign_cursor.
  change (is_field "t" (string_Z "t")) with true. change (is_field "t" (string_Z "id")) with false.
  change (is_field "id" (string_Z "id")) with true. cbv iota.
  unfold to_int64, to_text. rewrite parse_int64_FormatInt by done. cbn [mbind option_bind].
  rewrite Z_string_Z, UnmarshalText_String. cbn [mbind option_bind pageCursor_UnixNano pageCursor_ID].
  by rewrite !bool_decide_false.
Qed.

(** ** Following the cursors *)
Section following.
Context {A : Type} (created : A → Z) (ident : A → UUID).

(** The client of a listing: ask for the next page while there is one. *)
Fixpoint follow (page : PageRequest → Stream (PageEvent A)) (limit : Z) (fuel : nat)
    (cursor : string) : result (list A) :=
  match fuel with
  | O => Error (Opaque "more pages than expected")
  | S fuel =>
      match CollectPage (page (mkPageRequest cursor limit)) [] PageEnd_zero with
      | Error e => Error e
      | Ok (items, e) =>
          if PageEnd_HasMore e
          then match follow page limit fuel (PageEnd_NextCursor e) with
               | Ok rest => Ok (items ++ rest)
               | Error e => Error e
               end
          else Ok items
      end
  end.

Definition before (a b : A) : Prop :=
  (created a < created b ∨ created a = created b ∧ UUID_value (ident a) < UUID_value (ident b))%Z.

Lemma newest_first_before a b : newest_first created ident a b ↔ ¬ before a b.
Proof.
  unfold newest_first, newer, before, Time_After. rewrite UUID_Compare_value.
  repeat case_bool_decide; naive_solver lia.
Qed.

Lemma afterCursor_before a b :
  ident b ≠ Nil →
  afterCursor (created a) (ident a) (mkpageCursor (created b) (ident b)) = true ↔ before a b.
Proof.
  intros Hb. unfold afterCursor, before, Time_Before. cbn [pageCursor_ID pageCursor_UnixNano].
  rewrite UUID_Compare_value, (bool_decide_false (ident b = Nil)) by done.
  repeat case_bool_decide; naive_solver lia.
Qed.

Lemma before_total a b : before a b ∨ before b a ∨ ident a = ident b.
Proof.
  unfold before.
  destruct (decide (UUID_value (ident a) = UUID_value (ident b))) as [?%(inj UUID_value)|];
    [by auto|lia].
Qed.

(** Rows a cursor can name, no two alike. *)
Definition pageable (rows : list A) : Prop :=
  NoDup (ident <$> rows) ∧ Forall (λ a, cursor_time (created a) ∧ ident a ≠ Nil) rows.

Abbreviation sorted := (StronglySorted (newest_first created ident)).
Abbreviation sort := (merge_sort (newest_first created ident)).

#[local] Instance newest_first_trans : Transitive (newest_first created ident).
Proof. intros a b c. rewrite !newest_first_before. unfold before. lia. Qed.
#[local] Instance newest_first_total : Total (newest_first created ident).
Proof. intros a b. rewrite !newest_first_before. unfold before. lia. Qed.

Lemma sorted_unique k l :
  NoDup (ident <$> k) → sorted k → sorted l → k ≡ₚ l → k = l.
Proof.
  intros Hnd Hk Hl Hp. eapply StronglySorted_unique_strong; [|exact Hk|exact Hl|exact Hp].
  intros a b Ha Hb H1 H2. rewrite newest_first_before in H1, H2.
  destruct (before_total a b) as [|[|Hab]]; [tauto..|].
  rewrite <- Hp in Hb. apply list_elem_of_lookup in Ha as [i Hi], Hb as [j Hj].
  assert (i = j) as ->; [|congruence].
  apply (NoDup_lookup _ i j (ident a) Hnd); rewrite list_lookup_fmap; [by rewrite Hi|].
  rewrite Hj. by rewrite Hab.
Qed.

Lemma sorted_filter (P : A → Prop) `{∀ a, Decision (P a)} l : sorted l → sorted (base.filter P l).
Proof.
  induction 1 as [|a l Hl IH Ha]; [constructor|]. rewrite filter_cons. case_decide; [|done].
  constructor; [done|]. apply Forall_forall. intros b [_ Hb]%list_elem_of_filter.
  by eapply Forall_forall in Ha.
Qed.

Lemma list_filter_none (P : A → Prop) `{∀ a, Decision (P a)} l :
  Forall (λ a, ¬ P a) l → base.filter P l = [].
Proof. induction 1; [done|]. by rewrite filter_cons, decide_False. Qed.

(** The rows after one of the sorted rows are those that follow it. *)
Lemma page_values_after rows pre a post :
  pageable rows → sort rows = pre ++ a :: post →
  page_values created ident rows (mkpageCursor (created a) (ident a)) = post.
Proof.
  intros [Hnd Hrows] Hs. pose proof (merge_sort_Permutation (newest_first created ident) rows) as Hp.
  pose proof (StronglySorted_merge_sort (newest_first created ident) rows) as Hss. rewrite Hs in Hp, Hss.
  assert (ident a ≠ Nil) as Ha.
  { eapply Forall_forall in Hrows as [_ ?]; [done|]. rewrite <- Hp. set_solver. }
  assert (NoDup (ident <$> pre ++ a :: post)) as Hnd' by (by rewrite Hp).
  set (P b := afterCursor (created b) (ident b) (mkpageCursor (created a) (ident a)) = true).
  assert (base.filter P (pre ++ a :: post) = post) as Hf.
  { rewrite filter_app, filter_cons.
    rewrite decide_False by (unfold P; rewrite afterCursor_before by done; unfold before; lia).
    rewrite (list_filter_none P pre), (list_filter_Forall P post); [done|..].
    - apply Forall_forall. intros b Hb. unfold P. rewrite afterCursor_before by done.
      assert (newest_first created ident a b) as Hab%newest_first_before.
      { apply StronglySorted_app_1_elem_of with (l1 := pre ++ [a]) (l2 := post);
          [by rewrite <- app_assoc|set_solver..]. }
      destruct (before_total a b) as [|[|Heq]]; [tauto|done|]. exfalso.
      rewrite fmap_app, fmap_cons in Hnd'. apply NoDup_app in Hnd' as (_ & _ & [Hin _]%NoDup_cons).
      apply Hin. rewrite Heq. by apply list_elem_of_fmap_2.
    - apply Forall_forall. intros b Hb. unfold P. rewrite afterCursor_before, <- newest_first_before by done.
      by eapply StronglySorted_app_1_elem_of; [exact Hss|..]; [|left]. }
  unfold page_values. apply sorted_unique.
  - rewrite merge_sort_Permutation, <- Hp. fold P. rewrite Hf.
    rewrite fmap_app, fmap_cons in Hnd'. by apply NoDup_app in Hnd' as (_ & _ & [_ ?]%NoDup_cons).
  - apply StronglySorted_merge_sort; apply _.
  - rewrite <- Hf. by apply sorted_filter.
  - rewrite merge_sort_Permutation, <- Hf. fold P. by rewrite Hp.
Qed.

(** A page of at least one row, read to its end. *)
Lemma CollectPage_items (values : list A) e items :
  CollectPage (yield_items unwatched 0 values e) items PageEnd_zero = Ok (items ++ values, e).
Proof.
  generalize 0 as i. revert items. induction values as [|v values IH]; intros items i.
  - by rewrite app_nil_r.
  - cbn. rewrite IH. by rewrite <- app_assoc.
Qed.

Lemma CollectPage_page limit values :
  (0 < limit)%Z →
  let shown := take (Z.to_nat limit) values in
  CollectPage (yield_page created ident true unwatched limit values) [] PageEnd_zero =
    Ok (shown, page_end created ident (bool_decide (limit < Z.of_nat (length values))%Z) shown).
Proof.
  intros Hl. unfold yield_page, page_panic. rewrite (bool_decide_false (limit < 0)%Z) by lia.
  rewrite andb_false_r. case_bool_decide; rewrite CollectPage_items; [done|].
  by rewrite take_ge by lia.
Qed.

(** What a listing yields on a store. *)
Definition streamed (listing : PageRequest → M Store (Stream (PageEvent A))) (s : Store)
    (page : PageRequest) : Stream (PageEvent A) :=
  match (listing page s).1 with Ok events => events | Error e => [Error e] end.

Lemma page_values_start rows : page_values created ident rows pageCursor_zero = sort rows.
Proof. unfold page_values. by rewrite list_filter_Forall by (by apply Forall_true). Qed.

(** One page: its rows, and the cursor of the rest. *)
Lemma page_step rows limit pre post :
  pageable rows → (0 < limit)%Z → sort rows = pre ++ post →
  ∃ e, CollectPage (yield_page created ident true unwatched limit post) [] PageEnd_zero =
         Ok (take (Z.to_nat limit) post, e) ∧
    if PageEnd_HasMore e
    then Z.to_nat limit < length post ∧ PageEnd_NextCursor e ≠ EmptyString ∧
      ∃ c, decodeCursor (PageEnd_NextCursor e) = Ok c ∧
        page_values created ident rows c = drop (Z.to_nat limit) post
    else take (Z.to_nat limit) post = post.
Proof.
  intros Hrows Hlimit Hs. rewrite CollectPage_page by done. eexists. split; [done|]. unfold page_end.
  case_bool_decide as Hmore; cbn [PageEnd_HasMore PageEnd_NextCursor]; [|by rewrite take_ge by lia].
  destruct (last (take (Z.to_nat limit) post)) as [a|] eqn:Ha.
  2: { apply last_None in Ha. apply (f_equal length) in Ha. rewrite length_take in Ha. cbn in Ha. lia. }
  apply last_Some in Ha as [before_a Ha].
  assert (sort rows = (pre ++ before_a) ++ a :: drop (Z.to_nat limit) post) as Hs'.
  { rewrite Hs, <- (take_drop (Z.to_nat limit) post) at 1. rewrite Ha, <- !app_assoc. done. }
  assert (cursor_time (created a) ∧ ident a ≠ Nil) as [Ht Hid].
  { eapply (proj1 (Forall_forall _ _) (proj2 Hrows)).
    rewrite <- (merge_sort_Permutation (newest_first created ident)), Hs'. set_solver. }
  pose proof (decode_encodeCursor _ _ Ht Hid) as Hd. split_and!; [lia|by intros H; rewrite H in Hd; injection Hd|].
  eexists. split; [exact Hd|]. by apply page_values_after with (pre := pre ++ before_a).
Qed.

Lemma follow_rest rows s limit fuel cursor c pre post :
  pageable (rows s) → (0 < limit)%Z → sort (rows s) = pre ++ post → length post < fuel →
  decodeCursor cursor = Ok c → page_values created ident (rows s) c = post →
  follow (streamed (paged created ident rows None unwatched) s) limit fuel cursor = Ok post.
Proof.
  intros Hrows Hlimit. revert cursor c pre post.
  induction fuel as [|fuel IH]; intros cursor c pre post Hs Hfuel Hc Hv; [lia|].
  cbn [follow].
  assert (streamed (paged created ident rows None unwatched) s (mkPageRequest cursor limit) =
          yield_page created ident true unwatched limit post) as ->.
  { unfold streamed, paged, paged_with. cbn [PageRequest_Cursor PageRequest_Limit].
    rewrite Hc, <- Hv. done. }
  destruct (page_step (rows s) limit pre post) as (e & -> & He); [done..|].
  destruct (PageEnd_HasMore e); [|by rewrite He]. destruct He as (Hlen & _ & c' & Hc' & Hv').
  erewrite (IH _ c' (pre ++ take (Z.to_nat limit) post)); [by rewrite take_drop|..]; try done.
  - by rewrite Hs, <- app_assoc, take_drop.
  - rewrite length_drop. lia.
Qed.

(** C31: the pages of a listing are complete.  Asking for one page after the
    other with the cursor each page ends with, whatever the page size, comes
    to an end and returns every row the listing selects exactly once, newest
    first; the rows have distinct identifiers and creation times a cursor can
    carry. *)
Theorem pages_complete rows s limit :
  pageable (rows s) → (0 < limit)%Z →
  ∃ all,
    follow (streamed (paged created ident rows None unwatched) s) limit
      (S (length (rows s))) EmptyString = Ok all ∧
    all ≡ₚ rows s ∧ StronglySorted (newest_first created ident) all.
Proof.
  intros Hrows Hlimit. exists (sort (rows s)). split_and!.
  - eapply (follow_rest _ _ _ _ _ pageCursor_zero []); [done..| |done|apply page_values_start].
    rewrite merge_sort_Permutation. lia.
  - apply merge_sort_Permutation.
  - apply StronglySorted_merge_sort; apply _.
Qed.
End following.

Definition sample_user (n : N) (createdAt : Z) : User :=
  User_zero <| User_ID := v7_bytes 1 (Z.of_N n) Nil |> <| User_CreatedAt := createdAt |>.
Definition sample_users : Store :=
  let put u s := s <| users ::= insert (User_ID u) u |> in
  put (sample_user 1 7) (put (sample_user 2 7) (put (sample_user 3 5) New)).

(** [pages_complete] on the listing of users, one row a page. *)
Lemma pages_complete_witness :
  ∃ all,
    follow (streamed (Users None) sample_users) 1 4 EmptyString = Ok all ∧
    all ≡ₚ (map_to_list (users sample_users)).*2 ∧
    StronglySorted (newest_first User_CreatedAt User_ID) all.
Proof.
  replace 4 with (S (length (map_to_list (users sample_users)).*2)) by (by vm_compute).
  apply (pages_complete User_CreatedAt User_ID (λ s, (map_to_list (users s)).*2) sample_users 1).
  - split.
    + apply (bool_decide_unpack _). by vm_compute.
    + apply (bool_decide_unpack _). by vm_compute.
  - lia.
Defined.
