(* ===== verification/Commit.v ===== *)
(** * The commit protocol, abstractly

    What [prepareCommitLocked], the body and [finishCommitLocked] do together:
    the outcomes of a commit as a weakest-precondition rule, the projections of
    the state other theorems need (what the audit trail sees, what a rollback
    restores), and the judgements of operations built on them. *)
From stdpp Require Import base gmap sets list strings numbers.
From Stdlib Require Import ZArith Lia.
From S2P Require Import Prelude Bytes Uuid Types OAuthTypes AuditChain Store.

(** ** Stages *)

(** The state after a successful preparation: the ceremony is burned. *)
Definition burn (c : Commit) (s : Store) : Store :=
  match Commit_Ceremony c with
  | None => s
  | Some k => s <| ceremonies ::= λ m,
      <[CeremonyConsumption_ID k := CeremonyConsumption_ExpiresAt k]>
        (prune_ceremonies (AuditEvent_OccurredAt (Commit_Audit c)) m) |>
  end.

(** The state after a ceremony was found consumed: only pruned. *)
Definition pruned (c : Commit) (s : Store) : Store :=
  s <| ceremonies ::= prune_ceremonies (AuditEvent_OccurredAt (Commit_Audit c)) |>.

(** The ceremony of the commit was consumed before and is not expired. *)
Definition replayed (c : Commit) (s : Store) : bool :=
  match Commit_Ceremony c with
  | None => false
  | Some k => bool_decide (is_Some (prune_ceremonies (AuditEvent_OccurredAt (Commit_Audit c))
                (ceremonies s) !! CeremonyConsumption_ID k))
  end.

(** The verdict of the transactional hook. *)
Definition hook_result (c : Commit) : option error :=
  Commit_Transactional c ≫= λ hook, hook (Commit_Audit c).

(** What a rejection leaves: the snapshot, with the tables outside of it. *)
Definition rolled_back (s1 s2 : Store) : Store := restoreLocked (snapshotLocked s1) s2.

Lemma rolled_back_eq s1 s2 :
  rolled_back s1 s2 =
  s1 <| oauthClientKeys := ∅ |> <| ceremonies := ceremonies s2 |>
     <| emailIssuance := emailIssuance s2 |> <| auditFailure := auditFailure s2 |>.
Proof. done. Qed.

Lemma wp_prepareCommitLocked c Q s :
  (∀ e, canAudit s (Commit_Audit c) = Some e → Q (Error e) s) →
  (canAudit s (Commit_Audit c) = None → replayed c s = true →
     Q (Error ErrConflict) (pruned c s)) →
  (canAudit s (Commit_Audit c) = None → replayed c s = false →
     Q (Ok match Commit_Transactional c with
           | Some _ => snapshotLocked (burn c s) | None => storeState_zero end) (burn c s)) →
  wp (prepareCommitLocked c) Q s.
Proof.
  intros Hrefused Hreplay Hok. unfold prepareCommitLocked.
  apply wp_bind, wp_get. destruct (canAudit s (Commit_Audit c)) as [e|] eqn:Hcan.
  { by apply wp_throw, Hrefused. }
  specialize (Hreplay eq_refl). specialize (Hok eq_refl).
  unfold replayed, burn, pruned in *. apply wp_bind.
  destruct (Commit_Ceremony c) as [k|].
  - apply wp_bind, wp_modify, wp_bind, wp_get, wp_bind, wp_throw_if.
    { intros Hr. by apply Hreplay. }
    intros Hr. apply wp_modify.
    destruct (Commit_Transactional c); [apply wp_gets|apply wp_ret]; by apply Hok.
  - apply wp_ret. destruct (Commit_Transactional c); [apply wp_gets|apply wp_ret]; by apply Hok.
Qed.

(** The outcomes of a commit: refused by the audit, refused as a replay, failed
    in its body, rejected by the hook and rolled back, or done and audited. *)
Lemma wp_commit_with c body Q s :
  (∀ e, canAudit s (Commit_Audit c) = Some e → Q (Error e) s) →
  (canAudit s (Commit_Audit c) = None → replayed c s = true →
     Q (Error ErrConflict) (pruned c s)) →
  (canAudit s (Commit_Audit c) = None → replayed c s = false →
     wp body (λ r s2, match r with
       | Error e => Q (Error e) s2
       | Ok _ => match hook_result c with
                 | Some e => Q (Error e) (rolled_back (burn c s) s2)
                 | None => Q (Ok tt) (commitAudit (Commit_Audit c) (Commit_Unchained c) s2)
                 end
       end) (burn c s)) →
  wp (commit_with c body) Q s.
Proof.
  intros Hrefused Hreplay Hbody. apply wp_bind, wp_prepareCommitLocked; [done..|].
  intros Hcan Hrep. apply wp_bind. eapply wp_mono; [by apply Hbody|].
  intros [[]|e] s2; [|done]. unfold finishCommitLocked. fold (hook_result c).
  destruct (hook_result c) as [e|] eqn:Hh; intros HQ.
  - apply wp_bind, wp_modify, wp_throw. unfold hook_result in Hh.
    by destruct (Commit_Transactional c).
  - by apply wp_modify.
Qed.

Lemma wp_commit_update c upd Q s :
  (∀ e, canAudit s (Commit_Audit c) = Some e → Q (Error e) s) →
  (canAudit s (Commit_Audit c) = None → replayed c s = true →
     Q (Error ErrConflict) (pruned c s)) →
  (∀ e, canAudit s (Commit_Audit c) = None → replayed c s = false → hook_result c = Some e →
     Q (Error e) (rolled_back (burn c s) (upd (burn c s)))) →
  (canAudit s (Commit_Audit c) = None → replayed c s = false → hook_result c = None →
     Q (Ok tt) (commitAudit (Commit_Audit c) (Commit_Unchained c) (upd (burn c s)))) →
  wp (commit_update c upd) Q s.
Proof.
  intros H1 H2 H3 H4. apply wp_commit_with; [done..|]. intros Hcan Hrep.
  apply wp_modify. destruct (hook_result c) as [e|]; eauto.
Qed.

(** [AppendAudit] is a commit with an empty body. *)
Lemma AppendAudit_commit ctx c s :
  AppendAudit ctx c s = (check_ctx ctx;; commit_with c (mret tt)) s.
Proof. done. Qed.

(** ** Views

    A view is a projection of the state that the commit protocol itself leaves
    alone: a theorem about a table only looks at the operations that update
    it. *)
Definition keeps {V A} (f : Store → V) (m : M Store A) : Prop := ∀ s, f (m s).2 = f s.

Class CommitView {V} (f : Store → V) : Prop := {
  view_ceremonies s m : f (s <| ceremonies := m |>) = f s;
  view_commitAudit e u s : f (commitAudit e u s) = f s;
  view_rolled_back s1 s2 : f (rolled_back s1 s2) = f s1 }.

Section keeps.
Context {V : Type} (f : Store → V).

Lemma keeps_modify g : (∀ s, f (g s) = f s) → keeps f (modify g).
Proof. intros Hg s. apply Hg. Qed.
Lemma keeps_ReadOnly {A} (m : M Store A) : ReadOnly m → keeps f m.
Proof. intros Hm s. by rewrite Hm. Qed.
Lemma keeps_bind {A B} (m : M Store A) (k : A → M Store B) :
  keeps f m → (∀ a, keeps f (k a)) → keeps f (m ≫= k).
Proof.
  intros Hm Hk s. specialize (Hm s). unfold mbind, M_bind.
  destruct (m s) as [[a|e] s1]; simpl in *; [|done]. by rewrite Hk.
Qed.
Lemma keeps_foldl {A} (g : Store → A → Store) l s :
  (∀ s x, f (g s x) = f s) → f (foldl g s l) = f s.
Proof. intros Hg. revert s. induction l as [|x l IH]; intros s; [done|]. simpl. by rewrite IH. Qed.

Context `{!CommitView f}.

Lemma view_burn c s : f (burn c s) = f s.
Proof. unfold burn. destruct (Commit_Ceremony c); [apply view_ceremonies|done]. Qed.
Lemma view_pruned c s : f (pruned c s) = f s.
Proof. apply view_ceremonies. Qed.

Lemma keeps_commit_with c body : keeps f body → keeps f (commit_with c body).
Proof.
  intros Hb s. change (wp (commit_with c body) (λ _ s', f s' = f s) s).
  apply wp_commit_with; [done|intros; apply view_pruned|]. intros _ _. apply wp_intro.
  intros r s2 Hr. specialize (Hb (burn c s)). rewrite Hr in Hb. cbn in Hb.
  rewrite view_burn in Hb. destruct r as [[]|e]; [|done]. destruct (hook_result c).
  - by rewrite view_rolled_back, view_burn.
  - by rewrite view_commitAudit.
Qed.

Lemma keeps_commit_update c upd : (∀ s, f (upd s) = f s) → keeps f (commit_update c upd).
Proof. intros. by apply keeps_commit_with, keeps_modify. Qed.

Lemma keeps_prepare_finish c :
  keeps f (previous ← prepareCommitLocked c; finishCommitLocked c previous).
Proof. exact (keeps_commit_with c (mret tt) (λ _, eq_refl)). Qed.

End keeps.

(** ** The audit trail *)

(** The tables of the trail. *)
Definition audit_view (s : Store) : list AuditEvent * gset UUID * Z * string :=
  (audits s, auditIDs s, auditSequence s, auditHead s).

Lemma commitAudit_view e u s1 s2 :
  audit_view s1 = audit_view s2 →
  audit_view (commitAudit e u s1) = audit_view (commitAudit e u s2).
Proof.
  unfold audit_view. intros Hv. simplify_eq. unfold commitAudit.
  destruct u; cbn; by congruence.
Qed.

(** An operation is audited when it appends the event of its commit exactly
    when it reports that it committed, and touches the trail in no other way. *)
Definition audited {A} (c : Commit) (committed : A → bool) (m : M Store A) : Prop :=
  ∀ s, wp m (λ r s', match r with
    | Ok a =>
        if committed a
        then canAudit s (Commit_Audit c) = None ∧
             audit_view s' = audit_view (commitAudit (Commit_Audit c) (Commit_Unchained c) s)
        else audit_view s' = audit_view s
    | Error _ => audit_view s' = audit_view s
    end) s.

Lemma audited_ReadOnly_bind {A B} c cm (m : M Store A) (k : A → M Store B) :
  ReadOnly m → (∀ a, audited c cm (k a)) → audited c cm (m ≫= k).
Proof.
  intros Hm Hk s. apply wp_bind, wp_intro. intros [a|e] s1 Hr;
    specialize (Hm s); rewrite Hr in Hm; cbn in Hm; subst; [apply Hk|done].
Qed.

(** Steps before the commit may change tables outside of the trail. *)
Lemma audited_keeps_bind {A B} c cm (m : M Store A) (k : A → M Store B) :
  keeps audit_view m → keeps auditFailure m → (∀ a, audited c cm (k a)) →
  audited c cm (m ≫= k).
Proof.
  intros Hm Hf Hk s. apply wp_bind, wp_intro. intros [a|e] s1 Hr;
    specialize (Hm s); specialize (Hf s); rewrite Hr in Hm, Hf; cbn in Hm, Hf; [|done].
  eapply wp_mono; [apply Hk|]. intros [b|e] s2; cbn; [|congruence].
  destruct (cm b); [|congruence]. intros [Hc Hv]. split.
  - rewrite <- Hc. unfold canAudit. injection Hm as _ -> _ _. by rewrite Hf.
  - rewrite Hv. by apply commitAudit_view.
Qed.

Lemma audited_commit_with c (body : M Store unit) :
  keeps audit_view body → audited c (λ _, true) (commit_with c body).
Proof.
  intros Hb s. assert (audit_view (burn c s) = audit_view s) as Hburn
    by (unfold burn; by destruct (Commit_Ceremony c)).
  apply wp_commit_with; [done..|]. intros Hcan _. apply wp_intro. intros r s2 Hr.
  specialize (Hb (burn c s)). rewrite Hr in Hb. cbn in Hb.
  destruct r as [[]|e]; [|congruence]. destruct (hook_result c); [done|].
  split; [done|]. apply commitAudit_view. congruence.
Qed.

Lemma audited_commit_update c upd :
  (∀ s, audit_view (upd s) = audit_view s) → audited c (λ _, true) (commit_update c upd).
Proof. intros. by apply audited_commit_with, keeps_modify. Qed.

Lemma audited_prepare_finish c :
  audited c (λ _, true) (previous ← prepareCommitLocked c; finishCommitLocked c previous).
Proof. intros s. exact (audited_commit_with c (mret tt) (λ _, eq_refl) s). Qed.

(** The verdict of a committed operation can be mapped. *)
Lemma audited_map {A B} c cm cm' (m : M Store A) (f : A → B) :
  audited c cm m → (∀ a, cm' (f a) = cm a) → audited c cm' (a ← m; mret (f a)).
Proof.
  intros Hm Hf s. apply wp_bind. eapply wp_mono; [apply Hm|].
  intros [a|e] s1; cbn; [|done]. by rewrite Hf.
Qed.

Lemma audited_ret_false {B} c cm (b : B) : cm b = false → audited c cm (mret b).
Proof. intros Hb s. apply wp_ret. by rewrite Hb. Qed.
Lemma audited_throw {B} c cm e : audited c cm (throw e : M Store B).
Proof. intros s. by apply wp_throw. Qed.

Lemma ReadOnly_check_ctx ctx : ReadOnly (check_ctx ctx).
Proof. by destruct ctx. Qed.
#[export] Hint Resolve ReadOnly_check_ctx : cb_readonly.

Lemma keeps_assign_membership {V} (f : Store → V) m :
  (∀ s m, f (s <| memberships := m |>) = f s) → keeps f (assign_membership m).
Proof.
  intros Hf. apply keeps_bind; [by intros s|intros s0].
  apply keeps_bind; [by apply keeps_ReadOnly, ReadOnly_throw_if|].
  intros _. apply keeps_modify. intros s. apply Hf.
Qed.

Lemma keeps_assign_memberships {V} (f : Store → V) l :
  (∀ s m, f (s <| memberships := m |>) = f s) → keeps f (assign_memberships l).
Proof.
  intros Hf. induction l as [|m l IH]; [by intros s|].
  apply keeps_bind; [by apply keeps_assign_membership|done].
Qed.

(** ** Automation *)

(** Equality of a view after an update: by computation, by cases, or through a
    loop whose body keeps it. *)
Ltac view_unfold := idtac.
Ltac view_eq :=
  cbv beta zeta; view_unfold;
  first
    [ reflexivity
    | match goal with
      | |- ?f (foldl _ _ _) = _ =>
          etrans; [apply (keeps_foldl f); intros; view_eq|view_eq]
      end
    | case_match; view_eq ].

(** [keeps f op] by following the operation. *)
Ltac solve_keeps :=
  repeat match goal with
  | |- keeps _ (prepareCommitLocked _ ≫= _) => apply keeps_prepare_finish; apply _
  | |- keeps _ (_ ≫= _) => apply keeps_bind; [|intros ?]
  | |- keeps _ (commit_with _ _) => apply keeps_commit_with; [apply _|]
  | |- keeps _ (commit_update _ _) => apply keeps_commit_update; [apply _|intros ?; view_eq]
  | |- keeps _ (modify _) => apply keeps_modify; intros ?; view_eq
  | |- keeps _ (match ?x with _ => _ end) => destruct x
  | |- keeps _ (assign_membership _) => by apply keeps_assign_membership
  | |- keeps _ (assign_memberships _) => by apply keeps_assign_memberships
  | |- keeps _ _ => apply keeps_ReadOnly; solve [eauto with cb_readonly]
  end.

(** [audited c cm op] by following the operation to its commit. *)
Ltac solve_audited :=
  repeat match goal with
  | |- audited _ _ (let _ := _ in _) => cbv zeta
  | |- audited _ _ (commit_update _ _) => apply audited_commit_update; intros ?; view_eq
  | |- audited _ _ (commit_with _ _) => apply audited_commit_with; solve_keeps
  | |- audited _ _ (commit_update _ _ ≫= _) =>
      eapply audited_map; [apply audited_commit_update; intros ?; view_eq|done]
  | |- audited _ _ (prepareCommitLocked _ ≫= _) => apply audited_prepare_finish
  | |- audited _ _ (_ ≫= _) =>
      first
        [ apply audited_ReadOnly_bind; [solve [readonly]|intros ?]
        | apply audited_keeps_bind; [solve [solve_keeps]|solve [solve_keeps]|intros ?] ]
  | |- audited _ _ (mret _) => by apply audited_ret_false
  | |- audited _ _ (throw _) => apply audited_throw
  | |- audited _ _ (match ?x with _ => _ end) => destruct x
  end.

(** What holds after a commit that succeeded. *)
Lemma wp_commit_ok c upd (P : Store → Prop) s :
  (canAudit s (Commit_Audit c) = None → replayed c s = false → hook_result c = None →
   P (commitAudit (Commit_Audit c) (Commit_Unchained c) (upd (burn c s)))) →
  wp (commit_update c upd) (λ r s', r = Ok tt → P s') s.
Proof. intros HP. apply wp_commit_update; intros; [done..|by apply HP]. Qed.

(** Follow an operation to its commit when it must have succeeded. *)
Ltac op_success :=
  unfold check_ctx; wp_steps;
  lazymatch goal with
  | |- Error _ = Ok _ → _ => discriminate
  | |- wp (commit_update _ _) (λ r s', r = Ok tt → @?P s') _ =>
      apply (wp_commit_ok _ _ P); intros ? ? ?
  | |- _ => idtac
  end.
