(* ===== verification/StoreSystem.v ===== *)
(** * The store as a transition system

    Every mutation of the in-memory store, as data ([Mutation]) and as the
    computation it runs ([run_mutation]); the operations of a deployment are
    those mutations under their contexts and commits, the two unaudited ones,
    and sequences of them are traces.  The audit theorems hold of all of
    them. *)
From stdpp Require Import base gmap sets list strings numbers sorting.
From Stdlib Require Import ZArith Lia.
From S2P Require Import Prelude Bytes Uuid Types OAuthTypes AuditChain Store StoreUsers StoreTokens StoreWorkspaces StoreScim StoreOAuth Commit.

(** An operation that answers without error has committed. *)
Definition ran {A} (m : M Store A) : M Store bool := _ ← m; mret true.

Inductive Mutation :=
| Do_Bootstrap (user : User) (email : EmailAddress) (password : PasswordCredential) (workspace :
    Workspace) (membership : Membership) (admin : InstanceAdministrator)
| Do_CreateUser (user : User) (email : EmailAddress) (password : PasswordCredential) (membership :
    Membership)
| Do_CreateSignup (user : User) (email : EmailAddress) (verification : option
    EmailVerificationCredential) (password : PasswordCredential) (workspace : Workspace)
    (membership : Membership)
| Do_SetUserDisabled (userID : UUID) (disabled : bool) (at_ : Z)
| Do_UpdateUser (user : User)
| Do_ChangePassword (password : PasswordCredential) (at_ : Z)
| Do_RehashPassword (password : PasswordCredential) (previousHash : string)
| Do_RecordAuthentication (userID : UUID) (seenAt : Z)
| Do_RecordPasswordAuthentication (userID : UUID) (currentHash : string) (seenAt : Z)
| Do_RecordLoginFailure (userID : UUID) (at_ threshold lockedUntil : Z)
| Do_CreatePasswordReset (credential : PasswordResetCredential)
| Do_CompletePasswordReset (resetID : UUID) (password : PasswordCredential) (at_ : Z)
| Do_CreateEmailAuthentication (credential : EmailAuthenticationCredential)
| Do_ConsumeEmailAuthentication (tokenID userID : UUID) (at_ : Z) (completesLogin : bool)
| Do_SaveEmail (email : EmailAddress) (verification : EmailVerificationCredential)
| Do_ReissueEmailVerification (emailID : UUID) (verification : EmailVerificationCredential)
| Do_VerifyEmail (emailID : UUID) (verifiedAt : Z)
| Do_SetPrimaryEmail (userID emailID : UUID)
| Do_RemoveEmail (userID emailID : UUID)
| Do_SaveTOTPEnrollment (factor : TOTPFactor)
| Do_ActivateTOTP (factor : TOTPFactor) (codes : list RecoveryCode)
| Do_UseTOTP (userID : UUID) (step : Z)
| Do_ConsumeRecoveryCode (userID : UUID) (digest : string) (usedAt : Z)
| Do_DisableTOTP (userID : UUID)
| Do_ReplaceRecoveryCodes (userID : UUID) (codes : list RecoveryCode)
| Do_ResetSecondFactor (userID : UUID) (at_ : Z)
| Do_SavePasskey (passkey : Passkey)
| Do_TouchPasskey (userID : UUID) (credentialID credentialJSON : string) (usedAt : Z)
| Do_DeletePasskey (userID passkeyID : UUID)
| Do_CreatePAT (pat : PAT)
| Do_TouchPAT (id : UUID) (usedAt : Z)
| Do_RevokePAT (userID id : UUID) (revokedAt : Z)
| Do_RevokeUserCredentials (userID : UUID) (at_ : Z)
| Do_CreateSession (session : Session) (credentialDigest : string)
| Do_TouchSession (id : UUID) (at_ : Z)
| Do_RevokeSession (id : UUID) (at_ : Z)
| Do_RevokeUserSessions (userID : UUID) (at_ : Z)
| Do_CreateWorkspace (workspace : Workspace) (owner : Membership)
| Do_UpdateWorkspace (workspace : Workspace)
| Do_SetWorkspaceDisabled (workspaceID : UUID) (disabled : bool) (at_ : Z)
| Do_UpsertMembership (membership : Membership)
| Do_RemoveMembership (workspaceID userID : UUID) (at_ : Z)
| Do_CreateWorkspaceInvitation (invitation : WorkspaceInvitation)
| Do_AcceptWorkspaceInvitation (invitationID userID : UUID) (at_ : Z) (membership : Membership)
| Do_RegisterInvitedUser (invitationID : UUID) (user : User) (email : EmailAddress) (password :
    PasswordCredential) (membership : Membership) (at_ : Z)
| Do_RevokeWorkspaceInvitation (workspaceID invitationID : UUID) (at_ : Z)
| Do_CreateWorkspaceDomain (domain : WorkspaceDomain) (staleBefore : Z)
| Do_ConfirmWorkspaceDomain (id : UUID) (at_ : Z)
| Do_UpdateWorkspaceDomainPolicy (id : UUID) (policy : WorkspaceDomainPolicyInput) (at_ : Z)
| Do_DeleteWorkspaceDomain (id : UUID)
| Do_SetInstanceRole (admin : InstanceAdministrator)
| Do_RemoveInstanceRole (userID : UUID)
| Do_LinkSSO (identity : SSOIdentity)
| Do_TouchSSO (userID identityID : UUID) (usedAt : Z)
| Do_UnlinkSSO (userID identityID : UUID)
| Do_JITProvisionSSOUser (user : User) (email : EmailAddress) (membership : Membership) (identity
    : SSOIdentity)
| Do_CreateSCIMConfiguration (configuration : SCIMConfiguration) (credential : SCIMCredential)
| Do_UpdateSCIMConfiguration (configuration : SCIMConfiguration) (members : list Membership)
| Do_SaveSCIMCredential (credential : SCIMCredential)
| Do_RevokeSCIMCredential (configurationID id : UUID) (revokedAt : Z)
| Do_TouchSCIMCredential (id : UUID) (usedAt : Z)
| Do_DisableSCIMConfiguration (id : UUID) (disabledAt : Z)
| Do_CreateSCIMUser (user : User) (email : EmailAddress) (membership : Membership) (link :
    SCIMUser)
| Do_AdoptSCIMUser (membership : Membership) (link : SCIMUser)
| Do_UpdateSCIMUser (link : SCIMUser) (membership : Membership) (revokeWorkspacePATs : bool)
| Do_UpsertSCIMGroup (group : SCIMGroup) (members : list Membership)
| Do_DeleteSCIMGroup (group : SCIMGroup) (members : list Membership)
| Do_AnonymizeUser (userID : UUID) (at_ : Z)
| Do_CreateOAuthIssuer (issuer : OAuthIssuer)
| Do_UpdateOAuthIssuer (issuer : OAuthIssuer)
| Do_SetOAuthIssuerDisabled (issuerID : UUID) (disabled : bool) (at_ : Z)
| Do_CreateOAuthProtectedResource (resource : OAuthProtectedResource)
| Do_SetOAuthProtectedResourceDisabled (resourceID : UUID) (disabled : bool) (at_ : Z)
| Do_CreateOAuthClient (client : OAuthClient) (initialAccessTokenID : UUID) (usedAt : Z)
| Do_UpsertOAuthCIMDClient (client : OAuthClient)
| Do_RotateOAuthClientCredentials (clientRecordID : UUID) (secretDigest jwks : option string)
    (metadataHash : string) (at_ : Z)
| Do_SetOAuthClientDisabled (clientRecordID : UUID) (disabled : bool) (at_ : Z)
| Do_CreateOAuthInitialAccessToken (token : OAuthInitialAccessToken)
| Do_RevokeOAuthInitialAccessToken (id : UUID) (at_ : Z)
| Do_CreateOAuthGrantAndCode (grant : OAuthGrant) (code : OAuthAuthorizationCode)
| Do_RevokeOAuthGrant (grantID : UUID) (at_ : Z)
| Do_ConsumeOAuthAuthorizationCode (codeID : UUID) (usedAt : Z) (access : OAuthAccessToken)
    (refresh : option OAuthRefreshToken)
| Do_CreateOAuthClientAccessToken (value : OAuthClientAccessToken)
| Do_RevokeOAuthClientAccessToken (id : UUID) (at_ : Z)
| Do_RotateOAuthRefreshToken (previousID : UUID) (usedAt : Z) (access : OAuthAccessToken) (refresh
    : OAuthRefreshToken)
| Do_RevokeOAuthAccessToken (id : UUID) (at_ : Z)
| Do_RevokeOAuthRefreshFamily (familyID : UUID) (at_ : Z)
| Do_AppendAudit.

Definition run_mutation (m : Mutation) (ctx : Context) (commit : Commit) : M Store bool :=
  match m with
  | Do_Bootstrap user email password workspace membership admin => ran (Bootstrap ctx user email
      password workspace membership admin commit)
  | Do_CreateUser user email password membership => ran (CreateUser ctx user email password
      membership commit)
  | Do_CreateSignup user email verification password workspace membership => ran (CreateSignup ctx
      user email verification password workspace membership commit)
  | Do_SetUserDisabled userID disabled at_ => ran (SetUserDisabled ctx userID disabled at_ commit)
  | Do_UpdateUser user => ran (UpdateUser ctx user commit)
  | Do_ChangePassword password at_ => ran (ChangePassword ctx password at_ commit)
  | Do_RehashPassword password previousHash => ran (RehashPassword ctx password previousHash
      commit)
  | Do_RecordAuthentication userID seenAt => ran (RecordAuthentication ctx userID seenAt commit)
  | Do_RecordPasswordAuthentication userID currentHash seenAt => ran (RecordPasswordAuthentication
      ctx userID currentHash seenAt commit)
  | Do_RecordLoginFailure userID at_ threshold lockedUntil => ran (RecordLoginFailure ctx userID
      at_ threshold lockedUntil commit)
  | Do_CreatePasswordReset credential => ran (CreatePasswordReset ctx credential commit)
  | Do_CompletePasswordReset resetID password at_ => ran (CompletePasswordReset ctx resetID
      password at_ commit)
  | Do_CreateEmailAuthentication credential => ran (CreateEmailAuthentication ctx credential
      commit)
  | Do_ConsumeEmailAuthentication tokenID userID at_ completesLogin => ran
      (ConsumeEmailAuthentication ctx tokenID userID at_ completesLogin commit)
  | Do_SaveEmail email verification => ran (SaveEmail ctx email verification commit)
  | Do_ReissueEmailVerification emailID verification => ran (ReissueEmailVerification ctx emailID
      verification commit)
  | Do_VerifyEmail emailID verifiedAt => ran (VerifyEmail ctx emailID verifiedAt commit)
  | Do_SetPrimaryEmail userID emailID => ran (SetPrimaryEmail ctx userID emailID commit)
  | Do_RemoveEmail userID emailID => ran (RemoveEmail ctx userID emailID commit)
  | Do_SaveTOTPEnrollment factor => ran (SaveTOTPEnrollment ctx factor commit)
  | Do_ActivateTOTP factor codes => ran (ActivateTOTP ctx factor codes commit)
  | Do_UseTOTP userID step => UseTOTP ctx userID step commit
  | Do_ConsumeRecoveryCode userID digest usedAt => ConsumeRecoveryCode ctx userID digest usedAt
      commit
  | Do_DisableTOTP userID => ran (DisableTOTP ctx userID commit)
  | Do_ReplaceRecoveryCodes userID codes => ran (ReplaceRecoveryCodes ctx userID codes commit)
  | Do_ResetSecondFactor userID at_ => ran (ResetSecondFactor ctx userID at_ commit)
  | Do_SavePasskey passkey => ran (SavePasskey ctx passkey commit)
  | Do_TouchPasskey userID credentialID credentialJSON usedAt => ran (TouchPasskey ctx userID
      credentialID credentialJSON usedAt commit)
  | Do_DeletePasskey userID passkeyID => ran (DeletePasskey ctx userID passkeyID commit)
  | Do_CreatePAT pat => ran (CreatePAT ctx pat commit)
  | Do_TouchPAT id usedAt => ran (TouchPAT ctx id usedAt commit)
  | Do_RevokePAT userID id revokedAt => ran (RevokePAT ctx userID id revokedAt commit)
  | Do_RevokeUserCredentials userID at_ => ran (RevokeUserCredentials ctx userID at_ commit)
  | Do_CreateSession session credentialDigest => ran (CreateSession ctx session credentialDigest
      commit)
  | Do_TouchSession id at_ => ran (TouchSession ctx id at_ commit)
  | Do_RevokeSession id at_ => ran (RevokeSession ctx id at_ commit)
  | Do_RevokeUserSessions userID at_ => ran (RevokeUserSessions ctx userID at_ commit)
  | Do_CreateWorkspace workspace owner => ran (CreateWorkspace ctx workspace owner commit)
  | Do_UpdateWorkspace workspace => ran (UpdateWorkspace ctx workspace commit)
  | Do_SetWorkspaceDisabled workspaceID disabled at_ => ran (SetWorkspaceDisabled ctx workspaceID
      disabled at_ commit)
  | Do_UpsertMembership membership => ran (UpsertMembership ctx membership commit)
  | Do_RemoveMembership workspaceID userID at_ => ran (RemoveMembership ctx workspaceID userID at_
      commit)
  | Do_CreateWorkspaceInvitation invitation => ran (CreateWorkspaceInvitation ctx invitation
      commit)
  | Do_AcceptWorkspaceInvitation invitationID userID at_ membership => ran
      (AcceptWorkspaceInvitation ctx invitationID userID at_ membership commit)
  | Do_RegisterInvitedUser invitationID user email password membership at_ => ran
      (RegisterInvitedUser ctx invitationID user email password membership at_ commit)
  | Do_RevokeWorkspaceInvitation workspaceID invitationID at_ => ran (RevokeWorkspaceInvitation
      ctx workspaceID invitationID at_ commit)
  | Do_CreateWorkspaceDomain domain staleBefore => ran (CreateWorkspaceDomain ctx domain
      staleBefore commit)
  | Do_ConfirmWorkspaceDomain id at_ => ran (ConfirmWorkspaceDomain ctx id at_ commit)
  | Do_UpdateWorkspaceDomainPolicy id policy at_ => ran (UpdateWorkspaceDomainPolicy ctx id policy
      at_ commit)
  | Do_DeleteWorkspaceDomain id => ran (DeleteWorkspaceDomain ctx id commit)
  | Do_SetInstanceRole admin => ran (SetInstanceRole ctx admin commit)
  | Do_RemoveInstanceRole userID => ran (RemoveInstanceRole ctx userID commit)
  | Do_LinkSSO identity => ran (LinkSSO ctx identity commit)
  | Do_TouchSSO userID identityID usedAt => ran (TouchSSO ctx userID identityID usedAt commit)
  | Do_UnlinkSSO userID identityID => ran (UnlinkSSO ctx userID identityID commit)
  | Do_JITProvisionSSOUser user email membership identity => ran (JITProvisionSSOUser ctx user
      email membership identity commit)
  | Do_CreateSCIMConfiguration configuration credential => ran (CreateSCIMConfiguration ctx
      configuration credential commit)
  | Do_UpdateSCIMConfiguration configuration members => ran (UpdateSCIMConfiguration ctx
      configuration members commit)
  | Do_SaveSCIMCredential credential => ran (SaveSCIMCredential ctx credential commit)
  | Do_RevokeSCIMCredential configurationID id revokedAt => ran (RevokeSCIMCredential ctx
      configurationID id revokedAt commit)
  | Do_TouchSCIMCredential id usedAt => ran (TouchSCIMCredential ctx id usedAt commit)
  | Do_DisableSCIMConfiguration id disabledAt => ran (DisableSCIMConfiguration ctx id disabledAt
      commit)
  | Do_CreateSCIMUser user email membership link => ran (CreateSCIMUser ctx user email membership
      link commit)
  | Do_AdoptSCIMUser membership link => ran (AdoptSCIMUser ctx membership link commit)
  | Do_UpdateSCIMUser link membership revokeWorkspacePATs => ran (UpdateSCIMUser ctx link
      membership revokeWorkspacePATs commit)
  | Do_UpsertSCIMGroup group members => ran (UpsertSCIMGroup ctx group members commit)
  | Do_DeleteSCIMGroup group members => ran (DeleteSCIMGroup ctx group members commit)
  | Do_AnonymizeUser userID at_ => ran (AnonymizeUser ctx userID at_ commit)
  | Do_CreateOAuthIssuer issuer => ran (CreateOAuthIssuer ctx issuer commit)
  | Do_UpdateOAuthIssuer issuer => ran (UpdateOAuthIssuer ctx issuer commit)
  | Do_SetOAuthIssuerDisabled issuerID disabled at_ => ran (SetOAuthIssuerDisabled ctx issuerID
      disabled at_ commit)
  | Do_CreateOAuthProtectedResource resource => ran (CreateOAuthProtectedResource ctx resource
      commit)
  | Do_SetOAuthProtectedResourceDisabled resourceID disabled at_ => ran
      (SetOAuthProtectedResourceDisabled ctx resourceID disabled at_ commit)
  | Do_CreateOAuthClient client initialAccessTokenID usedAt => ran (CreateOAuthClient ctx client
      initialAccessTokenID usedAt commit)
  | Do_UpsertOAuthCIMDClient client => ran (UpsertOAuthCIMDClient ctx client commit)
  | Do_RotateOAuthClientCredentials clientRecordID secretDigest jwks metadataHash at_ => ran
      (RotateOAuthClientCredentials ctx clientRecordID secretDigest jwks metadataHash at_ commit)
  | Do_SetOAuthClientDisabled clientRecordID disabled at_ => ran (SetOAuthClientDisabled ctx
      clientRecordID disabled at_ commit)
  | Do_CreateOAuthInitialAccessToken token => ran (CreateOAuthInitialAccessToken ctx token commit)
  | Do_RevokeOAuthInitialAccessToken id at_ => ran (RevokeOAuthInitialAccessToken ctx id at_
      commit)
  | Do_CreateOAuthGrantAndCode grant code => ran (CreateOAuthGrantAndCode ctx grant code commit)
  | Do_RevokeOAuthGrant grantID at_ => ran (RevokeOAuthGrant ctx grantID at_ commit)
  | Do_ConsumeOAuthAuthorizationCode codeID usedAt access refresh => ran
      (ConsumeOAuthAuthorizationCode ctx codeID usedAt access refresh commit)
  | Do_CreateOAuthClientAccessToken value => ran (CreateOAuthClientAccessToken ctx value commit)
  | Do_RevokeOAuthClientAccessToken id at_ => ran (RevokeOAuthClientAccessToken ctx id at_ commit)
  | Do_RotateOAuthRefreshToken previousID usedAt access refresh => ran (RotateOAuthRefreshToken
      ctx previousID usedAt access refresh commit)
  | Do_RevokeOAuthAccessToken id at_ => ran (RevokeOAuthAccessToken ctx id at_ commit)
  | Do_RevokeOAuthRefreshFamily familyID at_ => ran (RevokeOAuthRefreshFamily ctx familyID at_
      commit)
  | Do_AppendAudit => ran (AppendAudit ctx commit)
  end.

(** ** Every mutation is audited *)
Lemma audited_ran {A} c (m : M Store A) :
  audited c (λ _, true) m → audited c (λ b, b) (ran m).
Proof. intros Hm. by eapply (audited_map _ _ _ _ (λ _, true)). Qed.

Ltac view_unfold ::=
  unfold revoke_members, revoke_grants_where, revokeOAuthGrantLocked, putSCIMUserLocked,
    deleteSCIMUserIndexesLocked, put_access, put_refresh;
  try match goal with
  | |- context [anonymize ?u ?a ?x ?s] =>
      destruct (anonymize_shape u a x s)
        as (? & ? & ? & ? & ? & ? & ? & ? & ? & ? & ? & ? & ? & ? & ? & ? & ? & ->)
  end.

Lemma mutation_audited m ctx c : audited c (λ b, b) (run_mutation m ctx c).
Proof.
  destruct m; cbn [run_mutation]; try apply audited_ran;
    lazymatch goal with |- audited _ _ ?op => let h := get_head op in unfold h end.
  all: solve [solve_audited].
Qed.

(** ** Operations and traces *)
Inductive Op :=
| OpMutation (m : Mutation) (ctx : Context) (commit : Commit)
| OpClaimEmailIssuance (ctx : Context) (address purpose : string) (at_ notBefore : Z)
| OpSetAuditFailure (err : option error).

(** The state after an operation, whatever it answers. *)
Definition step (o : Op) (s : Store) : Store :=
  match o with
  | OpMutation m ctx c => (run_mutation m ctx c s).2
  | OpClaimEmailIssuance ctx address purpose at_ nb =>
      (ClaimEmailIssuance ctx address purpose at_ nb s).2
  | OpSetAuditFailure err => (SetAuditFailure err s).2
  end.

Definition run_trace (ops : list Op) (s : Store) : Store := foldl (λ s o, step o s) s ops.

(** Events enter the store without chaining columns: [newAudit] sets none, and
    an unchained event keeps sequence 0. *)
Definition wf_op (o : Op) : Prop :=
  match o with
  | OpMutation _ _ c => Commit_Unchained c = true → AuditEvent_Sequence (Commit_Audit c) = 0%Z
  | _ => True
  end.

(** An operation leaves the trail alone or appends the event of its commit. *)
Lemma step_audit o s :
  audit_view (step o s) = audit_view s ∨
  ∃ m ctx c, o = OpMutation m ctx c ∧ canAudit s (Commit_Audit c) = None ∧
    audit_view (step o s) = audit_view (commitAudit (Commit_Audit c) (Commit_Unchained c) s).
Proof.
  destruct o as [m ctx c|ctx a p t nb|err]; [|left|by left].
  - pose proof (mutation_audited m ctx c s) as H. unfold wp in H. cbn [step].
    destruct (run_mutation m ctx c s) as [[[]|e] s']; cbn [fst snd] in *; [|by left..].
    right. exists m, ctx, c. by destruct H as [? ?].
  - cbn [step]. unfold ClaimEmailIssuance.
    assert (keeps audit_view (ClaimEmailIssuance ctx a p t nb)) as Hk
      by (unfold ClaimEmailIssuance; solve_keeps).
    apply Hk.
Qed.

(** The chained events, in the order they were appended. *)
Definition chained (s : Store) : list AuditEvent :=
  base.filter (λ e, 0 < AuditEvent_Sequence e)%Z (audits s).

(** The chain verifies up to the head, events are numbered from 1 and at most
    [n] of them exist. *)
Record chain_inv (n : nat) (s : Store) : Prop := {
  inv_bound : (auditSequence s ≤ Z.of_nat n)%Z;
  inv_verify : verify_events auditChainGenesis 0 (chained s) = Ok (auditSequence s, auditHead s);
  inv_length : auditSequence s = Z.of_nat (length (chained s));
  inv_numbered : ∀ i e, chained s !! i = Some e → AuditEvent_Sequence e = (Z.of_nat i + 1)%Z;
  inv_head : str_len (auditHead s) = 32 }.

(** The event a chaining commit appends. *)
Definition chained_event (s : Store) (e : AuditEvent) : AuditEvent :=
  let e := if bool_decide (AuditEvent_ActorKind e = EmptyString)
           then e <| AuditEvent_ActorKind := ActorUser |> else e in
  let e := e <| AuditEvent_Sequence := wrap64 (auditSequence s + 1) |>
             <| AuditEvent_PreviousHash := auditHead s |> in
  e <| AuditEvent_Hash := ComputeAuditHash (auditHead s) e |>.

Lemma commitAudit_chained e s :
  audit_view (commitAudit e false s) =
  (audits s ++ [chained_event s e], {[AuditEvent_ID e]} ∪ auditIDs s,
   AuditEvent_Sequence (chained_event s e), AuditEvent_Hash (chained_event s e)).
Proof. unfold commitAudit, audit_view, chained_event. by case_bool_decide. Qed.

Lemma ComputeAuditHash_fields p a b :
  same_content a b → ComputeAuditHash p a = ComputeAuditHash p b.
Proof. intros Hs%audit_fields_inj. unfold ComputeAuditHash, audit_preimage. by rewrite Hs. Qed.

Lemma chained_event_hash s e :
  AuditEvent_Hash (chained_event s e) = ComputeAuditHash (auditHead s) (chained_event s e).
Proof. apply ComputeAuditHash_fields. by split. Qed.

Lemma chain_inv_commit n s e :
  chain_inv n s → (Z.of_nat n < int64_max)%Z →
  ∀ s', audit_view s' = audit_view (commitAudit e false s) → chain_inv (S n) s'.
Proof.
  intros [Hb Hv Hl Hn Hh] Hmax s' Hview. rewrite commitAudit_chained in Hview.
  unfold audit_view in Hview. apply pair_equal_spec in Hview as [Hview Hd].
  apply pair_equal_spec in Hview as [Hview Hs]. apply pair_equal_spec in Hview as [Ha _].
  assert (0 ≤ auditSequence s)%Z by lia.
  assert (AuditEvent_Sequence (chained_event s e) = auditSequence s + 1)%Z as Hseq.
  { change (wrap64 (auditSequence s + 1) = auditSequence s + 1)%Z.
    apply wrap64_id. unfold int64_min, int64_max in *. lia. }
  assert (chained s' = chained s ++ [chained_event s e]) as Hc.
  { unfold chained. rewrite Ha, filter_app. f_equal.
    by rewrite filter_cons_True, filter_nil by (rewrite Hseq; lia). }
  split.
  - rewrite Hs, Hseq. lia.
  - rewrite Hc, Hs, Hd. erewrite verify_events_app by done. cbn [verify_events].
    rewrite bool_decide_eq_false_2 by (intros Hx; by apply Hx).
    rewrite bool_decide_eq_false_2 by (intros Hx; by apply Hx).
    rewrite bool_decide_eq_false_2 by (intros Hx; by apply Hx, chained_event_hash).
    done.
  - rewrite Hs, Hc, length_app, Hseq. cbn. lia.
  - intros i x. rewrite Hc. intros [Hi|[Hge Hi]]%lookup_app_Some; [by apply Hn|].
    destruct (i - length (chained s)) as [|k] eqn:Hk; [|by rewrite lookup_cons in Hi].
    injection Hi as <-. rewrite Hseq. lia.
  - rewrite Hd, chained_event_hash. apply sha256_Sum_len.
Qed.

Lemma chain_inv_view n s s' : audit_view s' = audit_view s → chain_inv n s → chain_inv (S n) s'.
Proof.
  unfold audit_view. intros Hv [Hb Hver Hl Hn Hh]. injection Hv as Ha _ Hs Hd.
  assert (chained s' = chained s) as Hc by (unfold chained; by rewrite Ha).
  split; rewrite ?Hc, ?Hs, ?Hd; try done. lia.
Qed.

Lemma chain_inv_step n o s :
  chain_inv n s → wf_op o → (Z.of_nat n < int64_max)%Z → chain_inv (S n) (step o s).
Proof.
  intros Hinv Hwf Hmax. destruct (step_audit o s) as [Hv|(m & ctx & c & -> & _ & Hv)].
  { by eapply chain_inv_view. }
  destruct (Commit_Unchained c) eqn:Hu; [|by eapply chain_inv_commit].
  cbn in Hwf. specialize (Hwf Hu).
  assert (∃ e, AuditEvent_Sequence e = 0%Z ∧
    audits (step (OpMutation m ctx c) s) = audits s ++ [e] ∧
    auditSequence (step (OpMutation m ctx c) s) = auditSequence s ∧
    auditHead (step (OpMutation m ctx c) s) = auditHead s) as (e & He & Ha & Hs & Hd).
  { unfold audit_view, commitAudit in Hv. injection Hv as Ha _ Hs Hd. eexists.
    split_and!; [|exact Ha|exact Hs|exact Hd]. by case_bool_decide. }
  destruct Hinv as [Hb Hver Hl Hn Hh].
  assert (chained (step (OpMutation m ctx c) s) = chained s) as Hc.
  { unfold chained. rewrite Ha, filter_app, filter_cons_False, filter_nil, app_nil_r by lia. done. }
  split; rewrite ?Hc, ?Hs, ?Hd; try done. lia.
Qed.

Lemma chain_inv_New : chain_inv 0 New.
Proof. by split. Qed.

Lemma chain_inv_trace ops n s :
  chain_inv n s → Forall wf_op ops → (Z.of_nat (n + length ops) < int64_max)%Z →
  chain_inv (n + length ops) (run_trace ops s).
Proof.
  revert n s. induction ops as [|o ops IH]; intros n s Hinv Hwf Hmax.
  { by rewrite Nat.add_0_r. }
  apply Forall_cons in Hwf as [Ho Hwf]. cbn [length] in *. rewrite Nat.add_succ_r in *.
  apply (IH (S n)); [|done|cbn; lia]. apply chain_inv_step; [done..|lia].
Qed.
