(* ===== verification/Scenario.v ===== *)
(** * A small deployment

    Concrete identifiers, commits and operations on which the theorems about
    the store are evaluated: a bootstrapped instance with its root
    administrator. *)
From stdpp Require Import base gmap sets list strings numbers.
From Stdlib Require Import ZArith.
From S2P Require Import Prelude Bytes Uuid Types OAuthTypes AuditChain Store StoreUsers StoreTokens StoreWorkspaces StoreScim StoreOAuth Commit StoreSystem.

(** The identifier whose last byte is [n]. *)
Definition uid (n : nat) : UUID :=
  let z := Ascii.zero in
  mkUUID z z z z z z (Ascii.ascii_of_nat 112) z (Ascii.ascii_of_nat 128) z z z z z z (Ascii.ascii_of_nat n).

(** An audit event with identifier [n], at [n] seconds. *)
Definition event_at (n : nat) (action : string) : AuditEvent :=
  AuditEvent_zero <| AuditEvent_ID := uid n |> <| AuditEvent_Action := action |>
    <| AuditEvent_OccurredAt := (Z.of_nat n * 10 ^ 9)%Z |>.

Definition commit_at (n : nat) (action : string) : Commit :=
  {| Commit_Audit := event_at n action; Commit_Unchained := false;
     Commit_Ceremony := None; Commit_Transactional := None |}.

(** The same commit, consuming a ceremony. *)
Definition with_ceremony (id : UUID) (expires : Z) (c : Commit) : Commit :=
  {| Commit_Audit := Commit_Audit c; Commit_Unchained := Commit_Unchained c;
     Commit_Ceremony := Some {| CeremonyConsumption_ID := id; CeremonyConsumption_ExpiresAt := expires |};
     Commit_Transactional := Commit_Transactional c |}.

(** The same commit under a hook that rejects it. *)
Definition with_rejection (e : error) (c : Commit) : Commit :=
  {| Commit_Audit := Commit_Audit c; Commit_Unchained := Commit_Unchained c;
     Commit_Ceremony := Commit_Ceremony c; Commit_Transactional := Some (λ _, Some e) |}.

Definition user_of (n : nat) (email : string) : User :=
  User_zero <| User_ID := uid n |> <| User_Email := email |>.
Definition email_of (n owner : nat) (address : string) : EmailAddress :=
  EmailAddress_zero <| EmailAddress_ID := uid n |> <| EmailAddress_UserID := uid owner |>
    <| EmailAddress_Address := address |> <| EmailAddress_Primary := true |>
    <| EmailAddress_VerifiedAt := Some 0%Z |>.
Definition password_of (owner : nat) (hash : string) : PasswordCredential :=
  PasswordCredential_zero <| PasswordCredential_UserID := uid owner |>
    <| PasswordCredential_Hash := hash |>.
Definition workspace_of (n : nat) : Workspace := Workspace_zero <| Workspace_ID := uid n |>.
Definition member_of (workspace user : nat) (role : Role) : Membership :=
  Membership_zero <| Membership_WorkspaceID := uid workspace |>
    <| Membership_UserID := uid user |> <| Membership_Role := role |>
    <| Membership_Status := MembershipActive |>.
Definition root_of (n : nat) : InstanceAdministrator :=
  InstanceAdministrator_zero <| InstanceAdministrator_UserID := uid n |>
    <| InstanceAdministrator_Role := InstanceRoleRoot |>.

(** User 1, root administrator, owner of workspace 2. *)
Definition bootstrap_1 : Mutation :=
  Do_Bootstrap (user_of 1 "root@example.com") (email_of 3 1 "root@example.com")
    (password_of 1 "hash") (workspace_of 2) (member_of 2 1 RoleAdmin) (root_of 1).
Definition op_at (n : nat) (m : Mutation) : Op := OpMutation m None (commit_at n "action").
Definition deployment : Store := step (op_at 10 bootstrap_1) New.

Definition session_of (n owner : nat) : Session :=
  Session_zero <| Session_ID := uid n |> <| Session_UserID := uid owner |>.
Definition invitation_of (n workspace : nat) : WorkspaceInvitation :=
  WorkspaceInvitation_zero <| WorkspaceInvitation_ID := uid n |>
    <| WorkspaceInvitation_WorkspaceID := uid workspace |>
    <| WorkspaceInvitation_Email := "guest@example.com" |>.
