(* ===== verification/StoreChain.v ===== *)
(** The audit trail of every reachable state of the memory store: the log is
    append-only, [ChainedAuditEvents] streams it in order, and
    [VerifyAuditChain] and [VerifyAuditChainFrom] accept it. *)
From stdpp Require Import base gmap sets list strings numbers sorting.
From Stdlib Require Import ZArith Lia.
From S2P Require Import Prelude Bytes Uuid Types OAuthTypes AuditChain Store StoreUsers Commit StoreSystem Scenario.

(** ** The log is append-only *)
Lemma step_append o s : ∃ l, audits (step o s) = audits s ++ l.
Proof.
  destruct (step_audit o s) as [Hv|(m & ctx & c & _ & _ & Hv)]; unfold audit_view in Hv;
    apply pair_equal_spec in Hv as [Hv _]; apply pair_equal_spec in Hv as [Hv _];
    apply pair_equal_spec in Hv as [Ha _].
  - exists []. by rewrite app_nil_r.
  - rewrite Ha. unfold commitAudit. case_match; eexists; reflexivity.
Qed.

Lemma trace_append ops s : ∃ l, audits (run_trace ops s) = audits s ++ l.
Proof.
  revert s. induction ops as [|o ops IH]; intros s; [exists []; by rewrite app_nil_r|].
  destruct (IH (step o s)) as [l Hl], (step_append o s) as [k Hk].
  exists (k ++ l). change (run_trace (o :: ops) s) with (run_trace ops (step o s)).
  by rewrite Hl, Hk, (assoc_L (++)).
Qed.

(** Events numbered consecutively from [k]. *)
Definition numbered_from (k : Z) (l : list AuditEvent) : Prop :=
  ∀ i e, l !! i = Some e → AuditEvent_Sequence e = (Z.of_nat i + k)%Z.

Lemma numbered_from_cons k e l :
  numbered_from k (e :: l) → AuditEvent_Sequence e = k ∧ numbered_from (k + 1) l.
Proof.
  intros H. split; [rewrite (H 0 e) by done; lia|]. intros i x Hi.
  rewrite (H (S i) x) by done. lia.
Qed.

Lemma numbered_from_app k l1 l2 :
  numbered_from k (l1 ++ l2) → numbered_from k l1 ∧ numbered_from (Z.of_nat (length l1) + k) l2.
Proof.
  intros H. split; intros i e Hi.
  - apply H. by apply lookup_app_l_Some.
  - rewrite (H (length l1 + i) e); [lia|].
    by rewrite lookup_app_r, Nat.add_comm, Nat.add_sub by lia.
Qed.

Lemma numbered_from_lower k l :
  numbered_from k l → Forall (λ e, k ≤ AuditEvent_Sequence e)%Z l.
Proof. intros H. apply Forall_lookup. intros i e Hi. rewrite (H i e Hi). lia. Qed.

Lemma numbered_from_upper k l :
  numbered_from k l → Forall (λ e, AuditEvent_Sequence e < k + Z.of_nat (length l))%Z l.
Proof.
  intros H. apply Forall_lookup. intros i e Hi. rewrite (H i e Hi).
  apply lookup_lt_Some in Hi. lia.
Qed.

Lemma numbered_from_inj k l x y :
  numbered_from k l → x ∈ l → y ∈ l → AuditEvent_Sequence x = AuditEvent_Sequence y → x = y.
Proof.
  intros H [i Hi]%list_elem_of_lookup [j Hj]%list_elem_of_lookup Hxy.
  rewrite (H _ _ Hi), (H _ _ Hj) in Hxy. assert (i = j) as -> by lia. congruence.
Qed.

Lemma numbered_from_sorted k l : numbered_from k l → StronglySorted sequence_le l.
Proof.
  revert k. induction l as [|e l IH]; intros k H; constructor;
    apply numbered_from_cons in H as [He Hl].
  - by eapply IH.
  - eapply Forall_impl; [by apply numbered_from_lower|]. unfold sequence_le. intros. lia.
Qed.

(** Sorting the stream by sequence leaves a numbered log as it is. *)
Lemma merge_sort_numbered k l : numbered_from k l → merge_sort sequence_le l = l.
Proof.
  intros Hl.
  assert (Transitive sequence_le) by (intros x y z; unfold sequence_le; lia).
  assert (Total sequence_le) by (intros x y; unfold sequence_le; lia).
  apply (Sorted_unique_strong sequence_le).
  - intros x y Hx Hy Hxy Hyx. rewrite merge_sort_Permutation in Hx.
    eapply numbered_from_inj; [done..|]. unfold sequence_le in *. lia.
  - apply Sorted_merge_sort, _.
  - eapply StronglySorted_Sorted, numbered_from_sorted, Hl.
  - apply merge_sort_Permutation.
Qed.

Lemma filter_none {A} (P : A → Prop) `{!∀ x, Decision (P x)} l :
  Forall (λ x, ¬ P x) l → base.filter P l = [].
Proof. induction 1; [done|]. by rewrite filter_cons_False. Qed.

Lemma filter_all {A} (P : A → Prop) `{!∀ x, Decision (P x)} l :
  Forall P l → base.filter P l = l.
Proof. induction 1; [done|]. rewrite filter_cons_True by done. by f_equal. Qed.

(** Those past the length of a prefix are the rest. *)
Lemma filter_numbered (l k : list AuditEvent) :
  numbered_from 1 (l ++ k) →
  base.filter (λ e, Z.of_nat (length l) < AuditEvent_Sequence e)%Z (l ++ k) = k.
Proof.
  intros [Hl Hk]%numbered_from_app.
  rewrite filter_app, filter_none, filter_all; [done|..].
  - eapply Forall_impl; [by apply numbered_from_lower|]. cbn. intros. lia.
  - eapply Forall_impl; [by apply numbered_from_upper|]. cbn. intros. lia.
Qed.

Lemma filter_chained s n :
  (0 ≤ n)%Z →
  base.filter (λ e, n < AuditEvent_Sequence e)%Z (audits s) =
  base.filter (λ e, n < AuditEvent_Sequence e)%Z (chained s).
Proof.
  intros Hn. unfold chained. symmetry. apply list_filter_filter_l. intros. lia.
Qed.

Lemma ChainedAuditEvents_suffix n s l k :
  chain_inv n s → chained s = l ++ k → ChainedAuditEvents s (Z.of_nat (length l)) = k.
Proof.
  intros [_ _ _ Hn _] Hc. unfold ChainedAuditEvents. rewrite filter_chained, Hc by lia.
  rewrite Hc in Hn. rewrite filter_numbered by done.
  apply numbered_from_app in Hn as [_ Hk]. by eapply merge_sort_numbered.
Qed.

(** The checkpoint a verification of the state reports; the zero checkpoint
    before anything is chained. *)
Definition checkpoint_of (s : Store) : AuditChainCheckpoint :=
  mkAuditChainCheckpoint (auditSequence s)
    (if bool_decide (auditSequence s = 0)%Z then EmptyString else auditHead s).

(** C15: on every reachable state of the store, verifying the audit chain from
    the checkpoint of any earlier state of the same run succeeds and reports
    the current head; with an empty first part this is [VerifyAuditChain], the
    full scan from the genesis. All mutations, failing or not, with or without
    hooks and ceremonies, are covered. *)
Theorem VerifyAuditChain_reachable ops1 ops2 :
  Forall wf_op (ops1 ++ ops2) →
  (Z.of_nat (length (ops1 ++ ops2)) < int64_max)%Z →
  let s1 := run_trace ops1 New in
  let s2 := run_trace ops2 s1 in
  verify_chain_from (checkpoint_of s1) (ChainedAuditEvents s2) (auditSequence s2) (auditHead s2) =
  Ok (mkAuditChainReport (auditSequence s2) (auditSequence s2) (auditHead s2)).
Proof.
  intros [Hwf1 Hwf2]%Forall_app Hmax s1 s2. rewrite length_app in Hmax.
  assert (chain_inv (length ops1) s1) as Hinv1
    by (apply (chain_inv_trace ops1 0); [apply chain_inv_New|done|cbn; lia]).
  assert (chain_inv (length ops1 + length ops2) s2) as Hinv2 by (by apply chain_inv_trace).
  destruct (trace_append ops2 s1) as [l Hl]. fold s2 in Hl.
  assert (∃ k, chained s2 = chained s1 ++ k) as [k Hk].
  { eexists. unfold chained. by rewrite Hl, filter_app. }
  pose proof (ChainedAuditEvents_suffix _ _ _ _ Hinv2 Hk) as Hev.
  destruct Hinv1 as [_ Hv1 Hlen1 _ Hh1], Hinv2 as [_ Hv2 _ _ _].
  rewrite Hk in Hv2. erewrite verify_events_app in Hv2 by done.
  rewrite <- Hlen1 in Hev.
  assert (0 ≤ auditSequence s1)%Z by (rewrite Hlen1; lia).
  unfold verify_chain_from, checkpoint_start, check_head, checkpoint_of. cbn [AuditChainCheckpoint_Sequence AuditChainCheckpoint_Hash].
  rewrite (bool_decide_eq_false_2 (auditSequence s1 < 0)%Z) by lia. cbn [orb].
  destruct (decide (auditSequence s1 = 0)%Z) as [Hz|Hz].
  - rewrite (bool_decide_eq_true_2 (auditSequence s1 = 0)%Z) by done.
    rewrite (bool_decide_eq_false_2 (0 < auditSequence s1)%Z) by lia. cbn [str_len String.length].
    cbv beta iota. change (negb (Bool.eqb true (bool_decide (0 = 0)))) with false. cbv iota.
    rewrite Hz in Hev. rewrite Hev.
    assert (length (chained s1) = 0) as Hnil by lia.
    apply nil_length_inv in Hnil. rewrite Hnil in Hv1. injection Hv1 as _ Hg.
    rewrite Hz, <- Hg in Hv2. rewrite Hv2.
    by rewrite !bool_decide_eq_false_2 by (intros Hx; by apply Hx).
  - rewrite (bool_decide_eq_false_2 (auditSequence s1 = 0)%Z) by done.
    rewrite (bool_decide_eq_true_2 (0 < auditSequence s1)%Z) by lia.
    rewrite (bool_decide_eq_false_2 (str_len (auditHead s1) = 0)) by lia.
    change (negb (Bool.eqb false false)) with false. cbv beta iota. rewrite Hev, Hv2.
    by rewrite !bool_decide_eq_false_2 by (intros Hx; by apply Hx).
Qed.

Lemma VerifyAuditChain_reachable_witness :
  let s1 := run_trace [op_at 10 bootstrap_1] New in
  let s2 := run_trace [op_at 10 Do_AppendAudit; op_at 11 Do_AppendAudit] s1 in
  verify_chain_from (checkpoint_of s1) (ChainedAuditEvents s2) (auditSequence s2) (auditHead s2) =
  Ok (mkAuditChainReport (auditSequence s2) (auditSequence s2) (auditHead s2)).
Proof.
  apply (VerifyAuditChain_reachable [op_at 10 bootstrap_1]
    [op_at 10 Do_AppendAudit; op_at 11 Do_AppendAudit]).
  - repeat constructor; discriminate.
  - reflexivity.
Defined.
