(* ===== verification/StoreOutcomes.v ===== *)
(** * Outcomes of a mutation

    Every mutation of the store follows the commit protocol: it is refused
    before anything changed, refused as a replay, rejected by the transactional
    hook and rolled back, or committed with its event.  From this: mutations
    are atomic, and a ceremony is consumed at most once. *)
From stdpp Require Import base gmap sets list strings numbers.
From Stdlib Require Import ZArith Lia.
From S2P Require Import Prelude Bytes Uuid Types OAuthTypes AuditChain Store StoreUsers StoreTokens StoreWorkspaces StoreScim StoreOAuth Commit StoreSystem Scenario.

(** The tables that belong to the protocol: no mutation body touches them. *)
Definition protocol_view (s : Store) :
    gmap UUID Z * gmap string Z * option error * (list AuditEvent * gset UUID * Z * string) :=
  (ceremonies s, emailIssuance s, auditFailure s, audit_view s).

(** What a computation that commits with [c] can answer from state [s], where
    [cm] tells which answers report a commit. *)
Inductive outcome {A} (cm : A → bool) (c : Commit) (s : Store) : result A → Store → Prop :=
| Refused e : outcome cm c s (Error e) s
| Skipped a : cm a = false → outcome cm c s (Ok a) s
| Replayed :
    canAudit s (Commit_Audit c) = None → replayed c s = true →
    outcome cm c s (Error ErrConflict) (pruned c s)
| Panicked s2 :
    canAudit s (Commit_Audit c) = None → replayed c s = false →
    protocol_view s2 = protocol_view (burn c s) → outcome cm c s (Error NilMapPanic) s2
| Rejected e s2 :
    canAudit s (Commit_Audit c) = None → replayed c s = false → hook_result c = Some e →
    protocol_view s2 = protocol_view (burn c s) →
    outcome cm c s (Error e) (rolled_back (burn c s) s2)
| Committed a s2 :
    cm a = true →
    canAudit s (Commit_Audit c) = None → replayed c s = false → hook_result c = None →
    protocol_view s2 = protocol_view (burn c s) →
    outcome cm c s (Ok a) (commitAudit (Commit_Audit c) (Commit_Unchained c) s2).

Definition follows {A} (c : Commit) (cm : A → bool) (m : M Store A) : Prop :=
  ∀ s, wp m (outcome cm c s) s.

Lemma follows_ReadOnly_bind {A B} c cm (m : M Store A) (k : A → M Store B) :
  ReadOnly m → (∀ a, follows c cm (k a)) → follows c cm (m ≫= k).
Proof.
  intros Hm Hk s. apply wp_bind, wp_intro. intros [a|e] s1 Hr;
    specialize (Hm s); rewrite Hr in Hm; cbn in Hm; subst; [apply Hk|constructor].
Qed.

Lemma follows_commit_with c (body : M Store unit) :
  keeps protocol_view body →
  (∀ s, wp body (λ r _, ∀ e, r = Error e → e = NilMapPanic) s) →
  follows c (λ _, true) (commit_with c body).
Proof.
  intros Hb He s. apply wp_commit_with; [by constructor..|]. intros Hcan Hrep.
  apply wp_intro. intros r s2 Hr. specialize (Hb (burn c s)). specialize (He (burn c s)).
  unfold wp in He. rewrite Hr in Hb, He. cbn [fst snd] in Hb, He.
  destruct r as [[]|e]; [|by rewrite (He e eq_refl); constructor].
  destruct (hook_result c) eqn:Hh; by constructor.
Qed.

Lemma follows_commit_update c upd :
  (∀ s, protocol_view (upd s) = protocol_view s) → follows c (λ _, true) (commit_update c upd).
Proof. intros. by apply follows_commit_with; [apply keeps_modify|]. Qed.

Lemma follows_prepare_finish c :
  follows c (λ _, true) (previous ← prepareCommitLocked c; finishCommitLocked c previous).
Proof.
  intros s. refine (follows_commit_with c (mret tt) (λ _, eq_refl) _ s). intros s0. by apply wp_ret.
Qed.

Lemma follows_map {A B} c cm cm' (m : M Store A) (f : A → B) :
  follows c cm m → (∀ a, cm' (f a) = cm a) → follows c cm' (a ← m; mret (f a)).
Proof.
  intros Hm Hf s. apply wp_bind. eapply wp_mono; [apply Hm|].
  intros r s1 [e|a Ha|? ?|s2 ? ? ?|e s2 ? ? ? ?|a s2 ? ? ? ? ?]; try by constructor.
  - apply wp_ret. constructor. congruence.
  - apply wp_ret. constructor; congruence.
Qed.

Lemma follows_ran {A} c (m : M Store A) :
  follows c (λ _, true) m → follows c (λ b, b) (ran m).
Proof. intros Hm. by eapply (follows_map _ _ _ _ (λ _, true)). Qed.

Lemma follows_ret_false {B} c cm (b : B) : cm b = false → follows c cm (mret b).
Proof. intros Hb s. apply wp_ret. by constructor. Qed.
Lemma follows_throw {B} c cm e : follows c cm (throw e : M Store B).
Proof. intros s. apply wp_throw. constructor. Qed.

Lemma assign_memberships_error l s :
  wp (assign_memberships l) (λ r _, ∀ e, r = Error e → e = NilMapPanic) s.
Proof.
  revert s. induction l as [|m l IH]; intros s; [done|].
  apply wp_bind. unfold assign_membership. wp_steps; [congruence|apply IH].
Qed.

Ltac solve_body_error :=
  intros s; repeat (wp_step; cbv beta iota); try congruence;
  first [apply assign_memberships_error | unfold assign_membership; wp_steps; congruence].

Ltac solve_follows :=
  repeat match goal with
  | |- follows _ _ (let _ := _ in _) => cbv zeta
  | |- follows _ _ (commit_update _ _) => apply follows_commit_update; intros ?; view_eq
  | |- follows _ _ (commit_with _ _) =>
      apply follows_commit_with; [solve_keeps|solve_body_error]
  | |- follows _ _ (commit_update _ _ ≫= _) =>
      eapply follows_map; [apply follows_commit_update; intros ?; view_eq|done]
  | |- follows _ _ (prepareCommitLocked _ ≫= _) => apply follows_prepare_finish
  | |- follows _ _ (_ ≫= _) =>
      apply follows_ReadOnly_bind; [solve [readonly]|intros ?]
  | |- follows _ _ (mret _) => by apply follows_ret_false
  | |- follows _ _ (throw _) => apply follows_throw
  | |- follows _ _ (match ?x with _ => _ end) => destruct x
  end.

(** The one mutation that changes a table before it prepares its commit. *)
Definition displaces (m : Mutation) : bool :=
  match m with Do_CreateWorkspaceDomain _ _ => true | _ => false end.

Lemma mutation_follows m ctx c :
  displaces m = false → follows c (λ b, b) (run_mutation m ctx c).
Proof.
  destruct m; intros Hd; try discriminate Hd; clear Hd; cbn [run_mutation]; try apply follows_ran;
    lazymatch goal with |- follows _ _ ?op => let h := get_head op in unfold h end.
  all: solve [solve_follows].
Qed.

(** The claim on a name may already have displaced a stale holder. *)
Definition claimed_from (domain : WorkspaceDomain) (staleBefore : Z) (s s0 : Store) : Prop :=
  s0 = s ∨ ∃ h, domainNames s !! WorkspaceDomain_Domain domain = Some h ∧
    defends_name staleBefore (default WorkspaceDomain_zero (domains s !! h)) = false ∧
    s0 = s <| domains ::= delete h |>.
Lemma displacing_outcome domain staleBefore ctx c s :
  wp (CreateWorkspaceDomain ctx domain staleBefore c) (λ r s',
    ∃ s0, claimed_from domain staleBefore s s0 ∧ outcome (λ _, true) c s0 r s') s.
Proof.
  unfold CreateWorkspaceDomain, check_ctx. wp_steps;
    try (exists s; split; [by left|constructor]).
  - apply wp_intro. intros r s' Hr. eexists; split; [right; by eexists|].
    refine (wp_run _ _ _ _ _ (follows_commit_update c _ _ _) Hr). intros s0. reflexivity.
  - apply wp_intro. intros r s' Hr. exists s; split; [by left|].
    refine (wp_run _ _ _ _ _ (follows_commit_update c _ _ _) Hr). intros s0. reflexivity.
Qed.

(** The state the protocol of a mutation starts from. *)
Definition starts_from (m : Mutation) (s s0 : Store) : Prop :=
  match m with
  | Do_CreateWorkspaceDomain domain staleBefore => claimed_from domain staleBefore s s0
  | _ => s0 = s
  end.

(** What all mutations have in common. *)
Lemma mutation_starts m ctx c s r s' :
  run_mutation m ctx c s = (r, s') → ∃ s0, starts_from m s s0 ∧ outcome (λ b, b) c s0 r s'.
Proof.
  intros Hr. destruct (displaces m) eqn:Hd.
  - destruct m; try discriminate Hd. cbn [run_mutation] in Hr. unfold ran in Hr.
    refine (wp_run _ (λ r s', ∃ s0, claimed_from _ _ s s0 ∧ outcome (λ b, b) c s0 r s') _ _ _ _ Hr).
    apply wp_bind. eapply wp_mono; [apply displacing_outcome|].
    intros [[]|e] s1 (s0 & Hs0 & Ho); [apply wp_ret|]; (exists s0; split; [done|]);
      inversion Ho; subst; try discriminate; by constructor.
  - exists s. split; [by destruct m|]. by apply (wp_run _ _ _ _ _ (mutation_follows m ctx c Hd s)).
Qed.
Lemma mutation_outcome m ctx c s r s' :
  run_mutation m ctx c s = (r, s') →
  ∃ s0, protocol_view s0 = protocol_view s ∧ outcome (λ b, b) c s0 r s'.
Proof.
  intros Hr. destruct (mutation_starts _ _ _ _ _ _ Hr) as (s0 & Hs & Ho). exists s0. split; [|done].
  destruct m; cbn in Hs; subst; try done. by destruct Hs as [->|(h & _ & _ & ->)].
Qed.

Lemma rolled_back_protocol s1 s2 :
  protocol_view s2 = protocol_view s1 → rolled_back s1 s2 = s1 <| oauthClientKeys := ∅ |>.
Proof.
  intros Hv. rewrite rolled_back_eq. unfold protocol_view in Hv.
  injection Hv as -> -> -> _ _ _ _. by destruct s1.
Qed.

(** C30: mutations are atomic. When one fails, the state is the one before, up
    to the ceremonies the protocol itself pruned or burned; when the failure is
    the rejection of the transactional hook, one index is lost on top (the
    snapshot does not copy [oauthClientKeys]). Two exceptions: the claim of a
    domain name that meets a stale unconfirmed holder removes the row of that
    holder before it can fail, and nothing else; and nothing is claimed of a
    panic in the middle of an update (the assignment of a membership into a
    workspace that has no table of members). *)
Theorem mutation_atomic m ctx c s e s' :
  run_mutation m ctx c s = (Error e, s') → e ≠ NilMapPanic →
  ∃ s0, starts_from m s s0 ∧
    (s' = s0 ∨ (e = ErrConflict ∧ s' = pruned c s0) ∨
     (hook_result c = Some e ∧ s' = burn c s0 <| oauthClientKeys := ∅ |>)).
Proof.
  intros Hr He. destruct (mutation_starts _ _ _ _ _ _ Hr) as (s0 & Hs & Ho). exists s0. split; [done|].
  inversion Ho; subst; [by left|by right; left|done|].
  right; right. split; [done|]. by apply rolled_back_protocol.
Qed.

(** The event a commit leaves in the log. *)
Definition logged_event (s : Store) (c : Commit) : AuditEvent :=
  if Commit_Unchained c then
    if bool_decide (AuditEvent_ActorKind (Commit_Audit c) = EmptyString)
    then Commit_Audit c <| AuditEvent_ActorKind := ActorUser |> else Commit_Audit c
  else chained_event s (Commit_Audit c).

(** C16: a mutation is audited exactly when it commits. A mutation that reports
    a commit had an acceptable, unused event identifier and appended exactly its
    own event, chained to the previous head unless it opted out; any other
    answer (an error at whatever stage, a replayed factor) leaves log,
    identifiers, sequence and head as they were. *)
Theorem audited_iff_committed m ctx c s r s' :
  run_mutation m ctx c s = (r, s') →
  match r with
  | Ok true =>
      canAudit s (Commit_Audit c) = None ∧
      audits s' = audits s ++ [logged_event s c] ∧
      auditIDs s' = {[AuditEvent_ID (Commit_Audit c)]} ∪ auditIDs s ∧
      (auditSequence s', auditHead s') =
        if Commit_Unchained c then (auditSequence s, auditHead s)
        else (AuditEvent_Sequence (logged_event s c), AuditEvent_Hash (logged_event s c))
  | _ => audit_view s' = audit_view s
  end.
Proof.
  intros Hr. pose proof (wp_run _ _ _ _ _ (mutation_audited m ctx c s) Hr) as Ha. cbn in Ha.
  destruct r as [[]|e]; [|done..]. destruct Ha as [Hcan Hv]. split; [done|].
  unfold logged_event. destruct (Commit_Unchained c) eqn:Hu.
  - unfold audit_view, commitAudit in Hv. injection Hv as -> -> -> ->.
    by case_bool_decide.
  - rewrite commitAudit_chained in Hv. unfold audit_view in Hv.
    apply pair_equal_spec in Hv as [Hv ->]. apply pair_equal_spec in Hv as [Hv ->].
    by apply pair_equal_spec in Hv as [-> ->].
Qed.

(** ** Ceremonies *)

(** The clock of a commit that consumes a ceremony does not exceed [X]. *)
Definition on_time (X : Z) (o : Op) : Prop :=
  match o with
  | OpMutation _ _ c =>
      is_Some (Commit_Ceremony c) → (AuditEvent_OccurredAt (Commit_Audit c) ≤ X)%Z
  | _ => True
  end.

Lemma prune_keeps now id X m :
  (now ≤ X)%Z → m !! id = Some X → prune_ceremonies now m !! id = Some X.
Proof.
  intros Hle Hm. apply map_lookup_filter_Some. split; [done|].
  unfold Time_Before. cbn. apply bool_decide_eq_false. lia.
Qed.

(** Preparing a later commit keeps a burned ceremony burned. *)
Lemma burn_keeps c s id X :
  (is_Some (Commit_Ceremony c) → (AuditEvent_OccurredAt (Commit_Audit c) ≤ X)%Z) →
  ceremonies s !! id = Some X → replayed c s = false → ceremonies (burn c s) !! id = Some X.
Proof.
  unfold burn, replayed. destruct (Commit_Ceremony c) as [k|]; [|done].
  intros Hle Hm Hr. apply bool_decide_eq_false in Hr.
  assert (prune_ceremonies (AuditEvent_OccurredAt (Commit_Audit c)) (ceremonies s) !! id = Some X)
    as Hp by (apply prune_keeps; eauto).
  cbn. rewrite lookup_insert_ne; [done|].
  intros Heq. apply Hr. rewrite Heq. eauto.
Qed.

Lemma outcome_keeps_ceremony {A} (cm : A → bool) c s r s' id X :
  (is_Some (Commit_Ceremony c) → (AuditEvent_OccurredAt (Commit_Audit c) ≤ X)%Z) →
  outcome cm c s r s' → ceremonies s !! id = Some X → ceremonies s' !! id = Some X.
Proof.
  intros Hle Ho Hm.
  inversion Ho as [e|a Ha|Hcan Hr|s2 Hcan Hr Hv|e s2 Hcan Hr Hh Hv|a s2 Ha Hcan Hr Hh Hv]; subst;
    try done; try (pose proof (burn_keeps c s id X Hle Hm Hr) as Hb; injection Hv as Hc _ _ _).
  - unfold replayed in Hr. destruct (Commit_Ceremony c) eqn:Hcer; [|done].
    apply prune_keeps; [by apply Hle|done].
  - by rewrite Hc.
  - by rewrite rolled_back_eq; cbn; rewrite Hc.
  - unfold commitAudit. destruct (Commit_Unchained c); cbn; by rewrite Hc.
Qed.

Lemma step_keeps_ceremony o s id X :
  on_time X o → ceremonies s !! id = Some X → ceremonies (step o s) !! id = Some X.
Proof.
  destruct o as [m ctx c|ctx a p t nb|err]; intros Ht Hm; [| |done].
  - cbn [step]. destruct (run_mutation m ctx c s) as [r s'] eqn:Hr. cbn.
    destruct (mutation_outcome _ _ _ _ _ _ Hr) as (s0 & Hv & Ho).
    eapply outcome_keeps_ceremony; [done..|]. by injection Hv as ->.
  - assert (keeps ceremonies (ClaimEmailIssuance ctx a p t nb)) as Hk
      by (unfold ClaimEmailIssuance; solve_keeps).
    cbn [step]. by rewrite Hk.
Qed.

Lemma trace_keeps_ceremony ops s id X :
  Forall (on_time X) ops → ceremonies s !! id = Some X →
  ceremonies (run_trace ops s) !! id = Some X.
Proof.
  intros Ht. revert s. induction Ht as [|o ops Ho _ IH]; intros s Hm; [done|].
  apply IH. by apply step_keeps_ceremony.
Qed.

Lemma committed_burns m ctx c k s s1 :
  Commit_Ceremony c = Some k → run_mutation m ctx c s = (Ok true, s1) →
  ceremonies s1 !! CeremonyConsumption_ID k = Some (CeremonyConsumption_ExpiresAt k).
Proof.
  intros Hk Hr. destruct (mutation_outcome _ _ _ _ _ _ Hr) as (s0 & _ & Ho).
  inversion Ho as [|a Ha| | | |a s2 Ha Hcan Hrep Hh Hv]; subst; [done|].
  injection Hv as Hc _ _ _. unfold burn in Hc. rewrite Hk in Hc.
  unfold commitAudit. destruct (Commit_Unchained c); cbn; rewrite Hc; cbn; apply lookup_insert_eq.
Qed.

Lemma committed_unreplayed m ctx c s s1 : run_mutation m ctx c s = (Ok true, s1) → replayed c s = false.
Proof.
  intros Hr. destruct (mutation_outcome _ _ _ _ _ _ Hr) as (s0 & Hv & Ho).
  inversion Ho as [|a Ha| | | |a s2 Ha Hcan Hrep Hh Hx]; subst; [done|].
  unfold replayed in *. injection Hv as <-. done.
Qed.

(** C23: a ceremony is consumed at most once. After a mutation that consumed
    ceremony [k] committed, no mutation whose commit names the same ceremony
    commits before [k] expires, whatever operations ran in between: commits and
    failures of every kind, hook rejections and their rollbacks, audit outages,
    as long as their clocks did not pass the expiry. *)
Theorem ceremony_single_use m ctx c k s s1 ops m' ctx' c' k' :
  Commit_Ceremony c = Some k → run_mutation m ctx c s = (Ok true, s1) →
  Forall (on_time (CeremonyConsumption_ExpiresAt k)) ops →
  Commit_Ceremony c' = Some k' → CeremonyConsumption_ID k' = CeremonyConsumption_ID k →
  (AuditEvent_OccurredAt (Commit_Audit c') ≤ CeremonyConsumption_ExpiresAt k)%Z →
  (run_mutation m' ctx' c' (run_trace ops s1)).1 ≠ Ok true.
Proof.
  intros Hk Hr Hops Hk' Hid Hle Hok.
  pose proof (trace_keeps_ceremony _ _ _ _ Hops (committed_burns _ _ _ _ _ _ Hk Hr)) as Hburned.
  set (s2 := run_trace ops s1) in *.
  destruct (run_mutation m' ctx' c' s2) as [r s3] eqn:Hr'. cbn in Hok. subst r.
  destruct (mutation_outcome _ _ _ _ _ _ Hr') as (s0 & Hv & Ho).
  inversion Ho as [|a Ha| | | |a s4 Ha Hcan Hrep Hh Hv']; subst; [done|].
  unfold replayed in Hrep. rewrite Hk' in Hrep. apply bool_decide_eq_false in Hrep.
  apply Hrep. rewrite Hid. eexists. apply prune_keeps; [done|].
  injection Hv as -> _ _ _. done.
Qed.

(** ** Where atomicity fails *)

(** C39: a rejected commit forgets every OAuth client by its protocol
    identifier. When the transactional hook rejects a commit that changes
    nothing at all, the caller gets the hook's error, no table of records
    changes, and from then on every lookup by client identifier answers
    [ErrNotFound]: the snapshot restored after the rejection never copied the
    index. *)
Theorem rejection_forgets_clients c s e :
  canAudit s (Commit_Audit c) = None → replayed c s = false → hook_result c = Some e →
  ∃ s', AppendAudit None c s = (Error e, s') ∧ oauthClients s' = oauthClients s ∧
    ∀ issuerID clientID, OAuthClientByClientID None issuerID clientID s' = (Error ErrNotFound, s').
Proof.
  intros Hcan Hrep Hh. exists (burn c s <| oauthClientKeys := ∅ |>). split_and!.
  - rewrite AppendAudit_commit. apply wp_eq. apply wp_commit_with; [congruence..|].
    intros _ _. apply wp_ret. rewrite Hh. by rewrite rolled_back_protocol.
  - unfold burn. by destruct (Commit_Ceremony c).
  - intros issuerID clientID. apply wp_eq.
    unfold OAuthClientByClientID, check_ctx. wp_steps; [done|].
    by pose proof (eq_trans (eq_sym (lookup_empty _)) Hlookup).
Qed.

(** A claim on a domain name that the audit trail refuses still deletes the
    stale holder of the name: the deletion precedes the preparation of the
    commit, so the operation fails and the state has changed. *)
Theorem refused_claim_displaces_holder domain staleBefore c s e holderID holder :
  has (WorkspaceDomain_WorkspaceID domain) (workspaces s) = true →
  has (WorkspaceDomain_ID domain) (domains s) = false →
  domainNames s !! WorkspaceDomain_Domain domain = Some holderID →
  domains s !! holderID = Some holder → defends_name staleBefore holder = false →
  canAudit s (Commit_Audit c) = Some e →
  CreateWorkspaceDomain None domain staleBefore c s =
  (Error e, s <| domains ::= delete holderID |>).
Proof.
  intros Hw Hd Hn Hh Hdef Hcan.
  apply wp_eq. unfold CreateWorkspaceDomain, check_ctx.
  wp_steps; try (rewrite ?Hw in *; cbn in *; congruence); injection Hn as ->.
  - rewrite Hh in Hguard1. cbn in Hguard1. congruence.
  - change (canAudit (s <| domains ::= delete holderID |>) (Commit_Audit c) = Some e) in Hcan.
    by apply wp_commit_update; intros; simplify_eq.
Qed.


(** ** Witnesses *)
Definition session_commit (n : nat) : Commit :=
  with_ceremony (uid 9) (100 * 10 ^ 9) (commit_at n "session.create").

Lemma mutation_atomic_witness :
  let m := Do_CreateSession (session_of 20 1) EmptyString in
  let c := with_rejection ErrInvalidInput (session_commit 11) in
  let s' := (run_mutation m None c deployment).2 in
  ∃ s0, starts_from m deployment s0 ∧
    (s' = s0 ∨ ((ErrInvalidInput : error) = ErrConflict ∧ s' = pruned c s0) ∨
     (hook_result c = Some (ErrInvalidInput : error) ∧ s' = burn c s0 <| oauthClientKeys := ∅ |>)).
Proof.
  apply (mutation_atomic (Do_CreateSession (session_of 20 1) EmptyString) None
    (with_rejection ErrInvalidInput (session_commit 11)) deployment ErrInvalidInput); [|discriminate].
  apply run_split. vm_compute. reflexivity.
Defined.

Lemma audited_iff_committed_witness :
  let c := session_commit 11 in
  let s' := (run_mutation (Do_CreateSession (session_of 20 1) EmptyString) None c deployment).2 in
  canAudit deployment (Commit_Audit c) = None ∧
  audits s' = audits deployment ++ [logged_event deployment c] ∧
  auditIDs s' = {[AuditEvent_ID (Commit_Audit c)]} ∪ auditIDs deployment ∧
  (auditSequence s', auditHead s') =
    if Commit_Unchained c then (auditSequence deployment, auditHead deployment)
    else (AuditEvent_Sequence (logged_event deployment c),
          AuditEvent_Hash (logged_event deployment c)).
Proof.
  apply (audited_iff_committed (Do_CreateSession (session_of 20 1) EmptyString) None
    (session_commit 11) deployment (Ok true)).
  apply run_split. vm_compute. reflexivity.
Defined.

Lemma ceremony_single_use_witness :
  let s1 := (run_mutation (Do_CreateSession (session_of 20 1) EmptyString) None
               (session_commit 11) deployment).2 in
  (run_mutation (Do_CreateSession (session_of 21 1) EmptyString) None (session_commit 12)
     (run_trace [op_at 13 Do_AppendAudit] s1)).1 ≠ Ok true.
Proof.
  eapply (ceremony_single_use (Do_CreateSession (session_of 20 1) EmptyString) None
    (session_commit 11) _ deployment); [reflexivity| | |reflexivity|reflexivity|].
  - apply run_split. vm_compute. reflexivity.
  - repeat constructor. intros [k Hk]. discriminate Hk.
  - vm_compute. discriminate.
Defined.

Lemma rejection_forgets_clients_witness :
  let c := with_rejection ErrInvalidInput (commit_at 11 "audit") in
  ∃ s', AppendAudit None c deployment = (Error ErrInvalidInput, s') ∧
    oauthClients s' = oauthClients deployment ∧
    ∀ issuerID clientID, OAuthClientByClientID None issuerID clientID s' = (Error ErrNotFound, s').
Proof.
  apply rejection_forgets_clients; [vm_compute; reflexivity|reflexivity|reflexivity].
Defined.

(** Domain 40 is claimed long ago by workspace 2, then the trail fails. *)
Definition domain_of (n : nat) (created : Z) : WorkspaceDomain :=
  WorkspaceDomain_zero <| WorkspaceDomain_ID := uid n |>
    <| WorkspaceDomain_WorkspaceID := uid 2 |> <| WorkspaceDomain_Domain := "example.com" |>
    <| WorkspaceDomain_CreatedAt := created |>.
Definition outage : Store :=
  run_trace [op_at 11 (Do_CreateWorkspaceDomain (domain_of 40 0) 0%Z);
             OpSetAuditFailure (Some (Opaque "disk full"))] deployment.

Lemma refused_claim_displaces_holder_witness :
  CreateWorkspaceDomain None (domain_of 41 100) 50%Z (commit_at 12 "claim") outage =
  (Error (Wrapped "audit failure" ErrAuditUnavailable), outage <| domains ::= delete (uid 40) |>).
Proof.
  apply (refused_claim_displaces_holder _ _ _ _ _ (uid 40) (domain_of 40 0));
    vm_compute; reflexivity.
Defined.
