(* ===== verification/StoreMonotone.v ===== *)
(** * Tables that only grow

    Sessions, personal access tokens, OAuth grants, authorization codes, email
    sign-in tokens and invitations are never deleted, and what closes a row
    (revocation, use, acceptance) is never undone: a property of every
    operation of the store, and so of every trace. *)
From stdpp Require Import base gmap sets list strings numbers.
From Stdlib Require Import ZArith Lia.
From S2P Require Import Prelude Bytes Uuid Types OAuthTypes AuditChain Store StoreUsers StoreTokens StoreWorkspaces StoreScim StoreOAuth Commit StoreSystem Scenario.

(** ** Growth of a table *)
Section rows.
Context `{Countable K} {V : Type} (T : relation V).
Implicit Types m : gmap K V.

(** Every row survives, changed at most as [T] allows. *)
Definition rows_le (m m' : gmap K V) : Prop :=
  ∀ k v, m !! k = Some v → ∃ v', m' !! k = Some v' ∧ T v v'.

#[export] Instance rows_le_preorder `{!PreOrder T} : PreOrder rows_le.
Proof.
  split.
  - intros m k v Hv. by exists v.
  - intros m1 m2 m3 H12 H23 k v Hv. destruct (H12 _ _ Hv) as (v' & Hv' & HT).
    destruct (H23 _ _ Hv') as (v'' & Hv'' & HT'). exists v''. split; [done|]. by trans v'.
Qed.

Lemma rows_le_insert `{!PreOrder T} m k v :
  (∀ v0, m !! k = Some v0 → T v0 v) → rows_le m (<[k := v]> m).
Proof.
  intros Hk k' v' Hv'. destruct (decide (k' = k)) as [->|Hne].
  - exists v. by rewrite lookup_insert_eq; auto.
  - exists v'. by rewrite lookup_insert_ne.
Qed.

Lemma rows_le_update_where `{!PreOrder T} p f m :
  (∀ v, p v = true → T v (f v)) → rows_le m (update_where p f m).
Proof.
  intros Hp k v Hv. unfold update_where. rewrite lookup_fmap, Hv. eexists; split; [done|].
  destruct (p v) eqn:E; auto. done.
Qed.

Lemma rows_le_imap `{!PreOrder T} (f : K → V → V) m :
  (∀ k v, T v (f k v)) → rows_le m (map_imap (λ k v, Some (f k v)) m).
Proof. intros Hf k v Hv. rewrite map_lookup_imap, Hv. eexists; split; [done|]. apply Hf. Qed.

(** A computation under which the table grows. *)
Definition grows {A} (f : Store → gmap K V) (m : M Store A) : Prop :=
  ∀ s, wp m (λ _ s', rows_le (f s) (f s')) s.

Context `{!PreOrder T} (f : Store → gmap K V).

Lemma grows_keeps {A} (m : M Store A) : keeps f m → grows f m.
Proof. intros Hm s. unfold wp. by rewrite Hm. Qed.

Lemma grows_ran {A} (m : M Store A) : grows f m → grows f (ran m).
Proof.
  intros Hm s. apply wp_bind. eapply wp_mono; [apply Hm|]. by intros [] ?.
Qed.

Lemma grows_bind {A B} (m : M Store A) (k : A → M Store B) :
  grows f m → (∀ a, grows f (k a)) → grows f (m ≫= k).
Proof.
  intros Hm Hk s. apply wp_bind. eapply wp_mono; [apply Hm|]. intros [a|e] s1 H1; [|done].
  eapply wp_mono; [apply Hk|]. intros r s2 H2. by trans (f s1).
Qed.

Lemma grows_modify g : (∀ s, rows_le (f s) (f (g s))) → grows f (modify g).
Proof. intros Hg s. apply wp_modify, Hg. Qed.

Context `{!CommitView f}.

Lemma grows_commit_with c body : grows f body → grows f (commit_with c body).
Proof.
  intros Hb s. apply wp_commit_with; intros; [done|by rewrite view_pruned|].
  eapply wp_mono; [apply Hb|]. intros [[]|e] s2 H2; rewrite view_burn in H2 by apply _; [|done].
  destruct (hook_result c); [by rewrite view_rolled_back, view_burn|by rewrite view_commitAudit].
Qed.

Lemma wp_commit_grows c upd s :
  rows_le (f s) (f (upd (burn c s))) →
  wp (commit_update c upd) (λ _ s', rows_le (f s) (f s')) s.
Proof.
  intros Hu. apply wp_commit_update; intros.
  - done.
  - by rewrite view_pruned.
  - by rewrite view_rolled_back, view_burn.
  - by rewrite view_commitAudit.
Qed.

End rows.

Lemma has_false `{Countable K} {A} (k : K) (m : gmap K A) : has k m = false → m !! k = None.
Proof. unfold has. intros H'%bool_decide_eq_false. by destruct (m !! k); [destruct H'|]. Qed.

(** ** How the rows may change *)

(** A column that is set at most once. *)
Definition set_once (o o' : option Z) : Prop := ∀ t, o = Some t → o' = Some t.
(** A column that stays set. *)
Definition stays_set (o o' : option Z) : Prop := is_Some o → is_Some o'.

(** Only the last-seen time, the client description erased with the account
    and a missing revocation time change. *)
Definition session_le (x y : Session) : Prop :=
  ∃ seen agent ip revoked,
    y = x <| Session_LastSeenAt := seen |> <| Session_UserAgent := agent |>
          <| Session_IPAddress := ip |> <| Session_RevokedAt := revoked |> ∧
    set_once (Session_RevokedAt x) revoked.

(** Only the name, the time of last use and the revocation time change; a
    revoked token stays revoked. *)
Definition pat_le (x y : PAT) : Prop :=
  ∃ name used revoked,
    y = x <| PAT_Name := name |> <| PAT_LastUsedAt := used |> <| PAT_RevokedAt := revoked |> ∧
    stays_set (PAT_RevokedAt x) revoked.

Definition grant_le (x y : OAuthGrant) : Prop :=
  ∃ updated revoked,
    y = x <| OAuthGrant_UpdatedAt := updated |> <| OAuthGrant_RevokedAt := revoked |> ∧
    stays_set (OAuthGrant_RevokedAt x) revoked.

Definition code_le (x y : OAuthAuthorizationCode) : Prop :=
  ∃ used, y = x <| OAuthAuthorizationCode_UsedAt := used |> ∧
    set_once (OAuthAuthorizationCode_UsedAt x) used.

Definition email_auth_le (x y : EmailAuthenticationCredential) : Prop :=
  ∃ used, y = x <| EmailAuthenticationCredential_UsedAt := used |> ∧
    set_once (EmailAuthenticationCredential_UsedAt x) used.

(** An invitation is accepted by one account or revoked, once; only its
    address can be erased later. *)
Definition invitation_le (x y : WorkspaceInvitation) : Prop :=
  ∃ email accepted user revoked,
    y = x <| WorkspaceInvitation_Email := email |> <| WorkspaceInvitation_AcceptedAt := accepted |>
          <| WorkspaceInvitation_AcceptedUserID := user |>
          <| WorkspaceInvitation_RevokedAt := revoked |> ∧
    (closed_invitation x = true →
     accepted = WorkspaceInvitation_AcceptedAt x ∧ user = WorkspaceInvitation_AcceptedUserID x ∧
     revoked = WorkspaceInvitation_RevokedAt x).

#[export] Instance session_le_preorder : PreOrder session_le.
Proof.
  split.
  - intros x. exists (Session_LastSeenAt x), (Session_UserAgent x), (Session_IPAddress x),
      (Session_RevokedAt x). split; [by destruct x|by intros t].
  - intros x y z (a & b & c & d & -> & H) (a' & b' & c' & d' & -> & H').
    exists a', b', c', d'. split; [reflexivity|]. intros t Ht. apply H', H, Ht.
Qed.
#[export] Instance pat_le_preorder : PreOrder pat_le.
Proof.
  split.
  - intros x. exists (PAT_Name x), (PAT_LastUsedAt x), (PAT_RevokedAt x).
    split; [by destruct x|by intros ?].
  - intros x y z (a & b & c & -> & H) (a' & b' & c' & -> & H').
    exists a', b', c'. split; [reflexivity|]. intros Ht. apply H', H, Ht.
Qed.
#[export] Instance grant_le_preorder : PreOrder grant_le.
Proof.
  split.
  - intros x. exists (OAuthGrant_UpdatedAt x), (OAuthGrant_RevokedAt x). split; [by destruct x|by intros ?].
  - intros x y z (a & b & -> & H) (a' & b' & -> & H').
    exists a', b'. split; [reflexivity|]. intros Ht. apply H', H, Ht.
Qed.
#[export] Instance code_le_preorder : PreOrder code_le.
Proof.
  split.
  - intros x. exists (OAuthAuthorizationCode_UsedAt x). split; [by destruct x|by intros t].
  - intros x y z (a & -> & H) (a' & -> & H').
    exists a'. split; [reflexivity|]. intros t Ht. apply H', H, Ht.
Qed.
#[export] Instance email_auth_le_preorder : PreOrder email_auth_le.
Proof.
  split.
  - intros x. exists (EmailAuthenticationCredential_UsedAt x). split; [by destruct x|by intros t].
  - intros x y z (a & -> & H) (a' & -> & H').
    exists a'. split; [reflexivity|]. intros t Ht. apply H', H, Ht.
Qed.
#[export] Instance invitation_le_preorder : PreOrder invitation_le.
Proof.
  split.
  - intros x. exists (WorkspaceInvitation_Email x), (WorkspaceInvitation_AcceptedAt x),
      (WorkspaceInvitation_AcceptedUserID x), (WorkspaceInvitation_RevokedAt x).
    split; [by destruct x|by intros ?].
  - intros x y z (a & b & c & d & -> & H) (a' & b' & c' & d' & -> & H').
    exists a', b', c', d'. split; [reflexivity|]. intros Ht.
    destruct (H Ht) as (-> & -> & ->). apply H'. exact Ht.
Qed.

#[export] Instance sessions_view : CommitView sessions.
Proof. by split; intros; try destruct u. Qed.
#[export] Instance pats_view : CommitView pats.
Proof. by split; intros; try destruct u. Qed.
#[export] Instance oauthGrants_view : CommitView oauthGrants.
Proof. by split; intros; try destruct u. Qed.
#[export] Instance oauthCodes_view : CommitView oauthCodes.
Proof. by split; intros; try destruct u. Qed.
#[export] Instance emailAuths_view : CommitView emailAuths.
Proof. by split; intros; try destruct u. Qed.
#[export] Instance invitations_view : CommitView invitations.
Proof. by split; intros; try destruct u. Qed.

(** ** Steps on rows *)
Create HintDb cb_rows.

Lemma session_le_seen x t : session_le x (x <| Session_LastSeenAt := t |>).
Proof.
  exists t, (Session_UserAgent x), (Session_IPAddress x), (Session_RevokedAt x).
  split; [by destruct x|by intros ?].
Qed.
Lemma session_le_revoke x t :
  not_nil (Session_RevokedAt x) = false → session_le x (x <| Session_RevokedAt := Some t |>).
Proof.
  intros Hr. exists (Session_LastSeenAt x), (Session_UserAgent x), (Session_IPAddress x), (Some t).
  split; [by destruct x|]. intros u Hu. by rewrite Hu in Hr.
Qed.
Lemma session_le_erase x a b :
  session_le x (x <| Session_UserAgent := a |> <| Session_IPAddress := b |>).
Proof.
  exists (Session_LastSeenAt x), a, b, (Session_RevokedAt x). split; [by destruct x|by intros ?].
Qed.
Lemma pat_le_used x t : pat_le x (x <| PAT_LastUsedAt := t |>).
Proof. exists (PAT_Name x), t, (PAT_RevokedAt x). split; [by destruct x|by intros ?]. Qed.
Lemma pat_le_revoke x t : pat_le x (x <| PAT_RevokedAt := Some t |>).
Proof. exists (PAT_Name x), (PAT_LastUsedAt x), (Some t). split; [by destruct x|by intros _; eexists]. Qed.
Lemma pat_le_erase x n : pat_le x (x <| PAT_Name := n |>).
Proof. exists n, (PAT_LastUsedAt x), (PAT_RevokedAt x). split; [by destruct x|by intros ?]. Qed.
Lemma grant_le_revoke x t : grant_le x (x <| OAuthGrant_RevokedAt := Some t |>).
Proof. exists (OAuthGrant_UpdatedAt x), (Some t). split; [by destruct x|by intros _; eexists]. Qed.
Lemma grant_le_revoke_at x t u :
  grant_le x (x <| OAuthGrant_RevokedAt := Some t |> <| OAuthGrant_UpdatedAt := u |>).
Proof. exists u, (Some t). split; [by destruct x|by intros _; eexists]. Qed.
Lemma code_le_use x t :
  not_nil (OAuthAuthorizationCode_UsedAt x) = false →
  code_le x (x <| OAuthAuthorizationCode_UsedAt := Some t |>).
Proof. intros Hr. exists (Some t). split; [done|]. intros u Hu. by rewrite Hu in Hr. Qed.
Lemma email_auth_le_use x t :
  not_nil (EmailAuthenticationCredential_UsedAt x) = false →
  email_auth_le x (x <| EmailAuthenticationCredential_UsedAt := Some t |>).
Proof. intros Hr. exists (Some t). split; [done|]. intros u Hu. by rewrite Hu in Hr. Qed.
Lemma invitation_le_accept x t u :
  closed_invitation x = false →
  invitation_le x (x <| WorkspaceInvitation_AcceptedAt := t |>
                     <| WorkspaceInvitation_AcceptedUserID := u |>).
Proof.
  intros Hc. exists (WorkspaceInvitation_Email x), t, u, (WorkspaceInvitation_RevokedAt x).
  split; [by destruct x|congruence].
Qed.
Lemma invitation_le_revoke x t :
  closed_invitation x = false →
  invitation_le x (x <| WorkspaceInvitation_RevokedAt := t |>).
Proof.
  intros Hc. exists (WorkspaceInvitation_Email x), (WorkspaceInvitation_AcceptedAt x),
    (WorkspaceInvitation_AcceptedUserID x), t.
  split; [by destruct x|congruence].
Qed.
Lemma invitation_le_erase x e : invitation_le x (x <| WorkspaceInvitation_Email := e |>).
Proof.
  exists e, (WorkspaceInvitation_AcceptedAt x), (WorkspaceInvitation_AcceptedUserID x),
    (WorkspaceInvitation_RevokedAt x). split; [by destruct x|done].
Qed.

#[export] Hint Resolve session_le_seen session_le_revoke session_le_erase pat_le_used
  pat_le_revoke pat_le_erase grant_le_revoke grant_le_revoke_at code_le_use email_auth_le_use
  invitation_le_accept invitation_le_revoke invitation_le_erase : cb_rows.

(** ** Loops and erasure *)
Lemma revokeUserCredentialsLocked_pats u w t s :
  rows_le pat_le (pats s) (pats (revokeUserCredentialsLocked u w t s)).
Proof. apply rows_le_update_where; [apply _|]. intros. cbv beta. auto with cb_rows. Qed.

Lemma revokeUserCredentialsLocked_grants u w t s :
  rows_le grant_le (oauthGrants s) (oauthGrants (revokeUserCredentialsLocked u w t s)).
Proof. apply rows_le_update_where; [apply _|]. intros. cbv beta. auto with cb_rows. Qed.

Lemma revokeUserSessionsLocked_sessions u t s :
  rows_le session_le (sessions s) (sessions (revokeUserSessionsLocked u t s)).
Proof.
  apply rows_le_update_where; [apply _|]. intros x [_ Hr%negb_true_iff]%andb_true_iff. auto with cb_rows.
Qed.

Lemma rows_le_foldl `{Countable K} {V A} (T : relation V) `{!PreOrder T} (f : Store → gmap K V)
    (g : Store → A → Store) l s :
  (∀ s x, rows_le T (f s) (f (g s x))) → rows_le T (f s) (f (foldl g s l)).
Proof.
  intros Hg. revert s. induction l as [|x l IH]; intros s; [done|].
  cbn. trans (f (g s x)); [apply Hg|apply IH].
Qed.

Lemma revoke_members_pats w t l s :
  rows_le pat_le (pats s) (pats (revoke_members w t l s)).
Proof. apply rows_le_foldl; [apply _|]. intros. apply revokeUserCredentialsLocked_pats. Qed.

Lemma revoke_members_grants w t l s :
  rows_le grant_le (oauthGrants s) (oauthGrants (revoke_members w t l s)).
Proof. apply rows_le_foldl; [apply _|]. intros. apply revokeUserCredentialsLocked_grants. Qed.

Lemma revokeOAuthGrantLocked_grants g t s :
  rows_le grant_le (oauthGrants s) (oauthGrants (revokeOAuthGrantLocked g t s)).
Proof.
  unfold revokeOAuthGrantLocked. destruct (oauthGrants s !! g) as [x|] eqn:Hx; [|done].
  apply rows_le_insert; [apply _|]. intros v0 Hv0. simplify_eq. auto with cb_rows.
Qed.

Lemma revoke_grants_where_grants p t s :
  rows_le grant_le (oauthGrants s) (oauthGrants (revoke_grants_where p t s)).
Proof.
  apply rows_le_foldl; [apply _|]. intros s' [k x]. cbn. destruct (p x); [|done].
  apply revokeOAuthGrantLocked_grants.
Qed.

(** The tables of an erasure, in terms of those before. *)
Lemma anonymize_tables u t x s :
  sessions (anonymize u t x s) = sessions (revokeUserSessionsLocked u t
    (s <| sessions ::= update_where (λ x, bool_decide (Session_UserID x = u))
            (λ x, x <| Session_UserAgent := EmptyString |>
                    <| Session_IPAddress := EmptyString |>) |>)) ∧
  pats (anonymize u t x s) = pats (revokeUserCredentialsLocked u Nil t
    (s <| pats ::= update_where (λ p, bool_decide (PAT_UserID p = u))
            (λ p, p <| PAT_Name := EmptyString |>) |>)) ∧
  oauthGrants (anonymize u t x s) = oauthGrants (revokeUserCredentialsLocked u Nil t s) ∧
  invitations (anonymize u t x s) = map_imap (λ id i, Some
    (if bool_decide (WorkspaceInvitation_AcceptedUserID i = u)
     then i <| WorkspaceInvitation_Email := tombstone_address id |> else i)) (invitations s).
Proof.
  unfold anonymize. cbv zeta.
  match goal with |- context [foldl (anonymize_email _ _) (?u0, _) ?l] =>
    destruct (anonymize_emails_shape u t l u0 s) as (user' & em & ei & ea & ->) end.
  cbv beta iota.
  match goal with |- context [foldl (anonymize_link _ _) ?r ?l] =>
    destruct (anonymize_links_shape u t l r) as (su & sn & sx & ->) end.
  split_and!; reflexivity.
Qed.

Lemma anonymize_emails_user u t l user s :
  User_Disabled (foldl (anonymize_email u t) (user, s) l).1 = User_Disabled user.
Proof.
  revert user s. induction l as [|[id e] l IH]; intros user s; [done|].
  cbn [foldl anonymize_email]. case_bool_decide; rewrite IH; [done|].
  by destruct (EmailAddress_Primary e).
Qed.

Lemma anonymize_users u t x s :
  ∃ x', User_Disabled x' = true ∧ users (anonymize u t x s) = <[u := x']> (users s).
Proof.
  unfold anonymize. cbv zeta.
  match goal with |- context [foldl (anonymize_email _ _) (?u0, _) ?l] =>
    destruct (anonymize_emails_shape u t l u0 s) as (user' & em & ei & ea & Hfold);
    pose proof (anonymize_emails_user u t l u0 s) as Hd end.
  rewrite Hfold in *. cbv beta iota. exists user'. split; [exact Hd|].
  match goal with |- context [foldl (anonymize_link _ _) ?r ?l] =>
    destruct (anonymize_links_shape u t l r) as (su & sn & sx & ->) end.
  reflexivity.
Qed.

(** ** Automation *)

(** Replace the table of an updated state by that of the state before: the
    equation holds of every state. *)
Ltac rows_via f g h s :=
  let E := constr:((λ y : Store, eq_refl) : ∀ y : Store, f (g y) = h y) in
  refine (eq_ind_r (rows_le _ _) _ (E s)); cbv beta.

(** Peel what does not touch the table, and the loops whose effect on it is
    known. *)
Ltac rows_peel :=
  lazymatch goal with
  | |- rows_le _ _ (pats (revokeUserCredentialsLocked _ _ _ _)) =>
      etrans; [|apply revokeUserCredentialsLocked_pats]
  | |- rows_le _ _ (oauthGrants (revokeUserCredentialsLocked _ _ _ _)) =>
      etrans; [|apply revokeUserCredentialsLocked_grants]
  | |- rows_le _ _ (?f (revokeUserCredentialsLocked ?u ?w ?a ?s)) =>
      rows_via f (λ x : Store, revokeUserCredentialsLocked u w a x) (λ x : Store, f x) s
  | |- rows_le _ _ (sessions (revokeUserSessionsLocked _ _ _)) =>
      etrans; [|apply revokeUserSessionsLocked_sessions]
  | |- rows_le _ _ (?f (revokeUserSessionsLocked ?u ?a ?s)) =>
      rows_via f (λ x : Store, revokeUserSessionsLocked u a x) (λ x : Store, f x) s
  | |- rows_le _ _ (pats (revoke_members _ _ _ _)) => etrans; [|apply revoke_members_pats]
  | |- rows_le _ _ (oauthGrants (revoke_members _ _ _ _)) => etrans; [|apply revoke_members_grants]
  | |- rows_le _ _ (oauthGrants (revokeOAuthGrantLocked _ _ _)) =>
      etrans; [|apply revokeOAuthGrantLocked_grants]
  | |- rows_le _ _ (oauthGrants (revoke_grants_where _ _ _)) =>
      etrans; [|apply revoke_grants_where_grants]
  | |- rows_le _ _ (sessions (anonymize ?u ?t ?x ?s)) =>
      rewrite (proj1 (anonymize_tables u t x s))
  | |- rows_le _ _ (pats (anonymize ?u ?t ?x ?s)) =>
      rewrite (proj1 (proj2 (anonymize_tables u t x s)))
  | |- rows_le _ _ (oauthGrants (anonymize ?u ?t ?x ?s)) =>
      rewrite (proj1 (proj2 (proj2 (anonymize_tables u t x s))))
  | |- rows_le _ _ (invitations (anonymize ?u ?t ?x ?s)) =>
      rewrite (proj2 (proj2 (proj2 (anonymize_tables u t x s))))
  | |- rows_le _ _ (?f (put_membership ?w ?u ?m ?s)) => rows_via f (λ x : Store, put_membership w u m x) (λ x : Store, f x) s
  | |- rows_le _ _ (users (anonymize ?u ?t ?x ?s)) =>
      destruct (anonymize_users u t x s) as (? & ? & ->)
  | |- rows_le _ _ (users (touchLastSeenLocked _ _ _)) => unfold touchLastSeenLocked
  | |- rows_le _ _ (?f (touchLastSeenLocked ?u ?t ?s)) => rows_via f (λ x : Store, touchLastSeenLocked u t x) (λ x : Store, f x) s
  | |- rows_le _ _ (?f (accept ?i ?u ?t ?x ?s)) => unfold accept
  | |- rows_le _ _ (_ (putSCIMUserLocked _ _)) => unfold putSCIMUserLocked; cbv zeta
  | |- rows_le _ _ (?f (put_refresh ?r ?s)) => rows_via f (λ x : Store, put_refresh r x) (λ x : Store, f x) s
  | |- rows_le _ _ (?f (put_access ?r ?s)) => rows_via f (λ x : Store, put_access r x) (λ x : Store, f x) s
  | |- rows_le _ _ (?f (set_field ?f ?g ?s)) => rows_via f (λ x : Store, set_field f g x) (λ x : Store, g (f x)) s
  | |- rows_le _ _ (?f (set_field ?p ?g ?s)) => rows_via f (λ x : Store, set_field p g x) (λ x : Store, f x) s
  | |- rows_le _ _ (_ (if ?b then _ else _)) => let H := fresh "Hcase" in destruct b eqn:H
  | |- rows_le _ _ (_ (match ?x with _ => _ end)) => let H := fresh "Hcase" in destruct x eqn:H
  end.

(** What the guards say of the row that was there: none, or the one that was
    looked up. *)
Ltac row_guards Hrow :=
  repeat match goal with
  | H : has _ _ = false |- _ => discriminate (eq_trans (eq_sym (has_false _ _ H)) Hrow)
  | H : _ !! _ = Some _ |- _ =>
      lazymatch H with Hrow => fail | _ => idtac end;
      apply (eq_trans (eq_sym H)) in Hrow; injection Hrow as <-
  | H : negb _ = true |- _ => apply negb_true_iff in H
  | H : _ || _ = false |- _ => apply orb_false_iff in H as [? ?]
  end.

(** The row that is written, under the guards. *)
Ltac rows_write :=
  lazymatch goal with
  | |- rows_le _ _ (update_where _ _ _) =>
      etrans; [|eapply rows_le_update_where; [apply _|]; intros ? ?; cbv beta;
                solve [auto with cb_rows]]
  | |- rows_le _ _ (<[_ := _]> _) =>
      etrans; [|eapply rows_le_insert; [apply _|]; intros ? Hrow; row_guards Hrow;
                solve [auto with cb_rows]]
  | |- rows_le _ _ (map_imap _ _) =>
      etrans; [|eapply rows_le_imap; [apply _|]; intros; case_bool_decide; solve [auto with cb_rows | done]]
  end.

Ltac rows_update :=
  cbv beta zeta;
  tryif lazymatch goal with |- rows_le _ ?m ?m => reflexivity end then idtac
  else tryif rows_peel then rows_update
  else (rows_write; rows_update).

(** An operation under its guards. *)
Ltac grows_op :=
  intros s; unfold check_ctx; wp_steps;
  lazymatch goal with
  | |- rows_le _ ?m ?m => reflexivity
  | |- wp (commit_update ?c _) ?Q ?s =>
      lazymatch Q with
      | context [rows_le ?T (?f s) _] => apply (wp_mono _ (λ _ s', rows_le T (f s) (f s')))
      end;
      [ apply wp_commit_grows; [apply _..|]; unfold burn; destruct (Commit_Ceremony c); rows_update
      | intros [?|?] ? Hrows; exact Hrows ]
  end.

Ltac grows_mutation :=
  cbn [run_mutation]; try apply grows_ran;
  lazymatch goal with |- grows _ _ ?op => let h := get_head op in unfold h end;
  first [solve [apply grows_keeps; [apply _|]; solve_keeps] | solve [grows_op] | idtac].

Lemma sessions_grow m ctx c : grows session_le sessions (run_mutation m ctx c).
Proof. destruct m; grows_mutation. Qed.
Lemma pats_grow m ctx c : grows pat_le pats (run_mutation m ctx c).
Proof.
  destruct m; grows_mutation.
  do 5 (apply grows_bind; [apply _|apply grows_keeps; [apply _|]; solve_keeps|intros ?]).
  apply grows_commit_with; [apply _..|].
  do 2 (apply grows_bind; [apply _|apply grows_keeps; [apply _|]; solve_keeps|intros ?]).
  apply grows_modify. intros s. rows_update.
Qed.
Lemma oauthGrants_grow m ctx c : grows grant_le oauthGrants (run_mutation m ctx c).
Proof. destruct m; grows_mutation. Qed.
Lemma oauthCodes_grow m ctx c : grows code_le oauthCodes (run_mutation m ctx c).
Proof. destruct m; grows_mutation. Qed.
Lemma emailAuths_grow m ctx c : grows email_auth_le emailAuths (run_mutation m ctx c).
Proof. destruct m; grows_mutation. Qed.
Lemma invitations_grow m ctx c : grows invitation_le invitations (run_mutation m ctx c).
Proof. destruct m; grows_mutation. Qed.

(** ** Traces *)
Section trace.
Context `{Countable K} {V : Type} (T : relation V) `{!PreOrder T} (f : Store → gmap K V).
Hypothesis Hmutation : ∀ m ctx c, grows T f (run_mutation m ctx c).
Hypothesis Hissuance : ∀ s x, f (s <| emailIssuance := x |>) = f s.
Hypothesis Hfailure : ∀ s x, f (s <| auditFailure := x |>) = f s.

Lemma step_grows o s : rows_le T (f s) (f (step o s)).
Proof.
  destruct o as [m ctx c|ctx a p t nb|err]; [apply Hmutation| |].
  - assert (keeps f (ClaimEmailIssuance ctx a p t nb)) as Hk; [|by cbn; rewrite Hk].
    unfold ClaimEmailIssuance.
    solve_keeps; solve [apply keeps_modify; intros; apply Hissuance].
  - cbn. by rewrite Hfailure.
Qed.

Lemma trace_grows ops s : rows_le T (f s) (f (run_trace ops s)).
Proof. apply rows_le_foldl; [apply _|]. intros. apply step_grows. Qed.
End trace.

(** C22: no sequence of operations deletes a session, a personal access token,
    an OAuth grant, an authorization code, an email sign-in token or an
    invitation, or changes who it belongs to, what it allows and when it
    expires; a revoked session, token or grant stays revoked, a used code stays
    used, a closed invitation stays closed. The OAuth access, refresh and
    machine tokens, which a later token with the same identifier would
    overwrite, and the password resets and email verifications, which their use
    deletes, are not covered. *)
Theorem rows_permanent ops s :
  let s' := run_trace ops s in
  rows_le session_le (sessions s) (sessions s') ∧
  rows_le pat_le (pats s) (pats s') ∧
  rows_le grant_le (oauthGrants s) (oauthGrants s') ∧
  rows_le code_le (oauthCodes s) (oauthCodes s') ∧
  rows_le email_auth_le (emailAuths s) (emailAuths s') ∧
  rows_le invitation_le (invitations s) (invitations s').
Proof.
  split_and!; apply trace_grows; try done; try apply _.
  - apply sessions_grow.
  - apply pats_grow.
  - apply oauthGrants_grow.
  - apply oauthCodes_grow.
  - apply emailAuths_grow.
  - apply invitations_grow.
Qed.

(** ** Single-use tokens *)

(** The tokens a mutation spends. *)
Inductive Token := TokenCode (id : UUID) | TokenEmail (id : UUID) | TokenInvitation (id : UUID).

Definition spends (m : Mutation) : option Token :=
  match m with
  | Do_ConsumeOAuthAuthorizationCode codeID _ _ _ => Some (TokenCode codeID)
  | Do_ConsumeEmailAuthentication tokenID _ _ _ => Some (TokenEmail tokenID)
  | Do_AcceptWorkspaceInvitation invitationID _ _ _
  | Do_RegisterInvitedUser invitationID _ _ _ _ _ 
  | Do_RevokeWorkspaceInvitation _ invitationID _ => Some (TokenInvitation invitationID)
  | _ => None
  end.

(** The token was spent. *)
Definition spent (t : Token) (s : Store) : Prop :=
  match t with
  | TokenCode id => ∃ x, oauthCodes s !! id = Some x ∧ is_Some (OAuthAuthorizationCode_UsedAt x)
  | TokenEmail id =>
      ∃ x, emailAuths s !! id = Some x ∧ is_Some (EmailAuthenticationCredential_UsedAt x)
  | TokenInvitation id => ∃ x, invitations s !! id = Some x ∧ closed_invitation x = true
  end.

Lemma spent_trace t ops s : spent t s → spent t (run_trace ops s).
Proof.
  destruct t as [id|id|id]; intros (x & Hx & Hs).
  - destruct (trace_grows code_le oauthCodes oauthCodes_grow ltac:(done) ltac:(done) ops s _ _ Hx)
      as (y & Hy & used & -> & Hle).
    eexists; split; [exact Hy|]. destruct Hs as [u Hu]. exists u. by apply Hle.
  - destruct (trace_grows email_auth_le emailAuths emailAuths_grow ltac:(done) ltac:(done)
      ops s _ _ Hx) as (y & Hy & used & -> & Hle).
    eexists; split; [exact Hy|]. destruct Hs as [u Hu]. exists u. by apply Hle.
  - destruct (trace_grows invitation_le invitations invitations_grow ltac:(done) ltac:(done)
      ops s _ _ Hx) as (y & Hy & a & b & d & r & -> & Hle).
    eexists; split; [exact Hy|]. destruct (Hle Hs) as (-> & _ & ->). exact Hs.
Qed.

(** Spending marks the row, and a spent row refuses. *)
Lemma spends_spent m t ctx c s :
  spends m = Some t →
  wp (run_mutation m ctx c) (λ r s', r = Ok true → spent t s') s.
Proof.
  destruct m; intros Ht; try discriminate Ht; injection Ht as <-; cbn [run_mutation]; unfold ran;
    apply wp_bind;
    lazymatch goal with |- wp ?op _ _ => let h := get_head op in unfold h end;
    (eapply wp_mono with (Q := λ r s', r = Ok tt → spent _ s');
     [|intros [[]|e] s' Hs; [by intros _; apply Hs|discriminate]]);
    op_success; cbv beta; cbn [spent].
  all: rewrite view_commitAudit by apply _; repeat case_match;
    (eexists; split; [apply lookup_insert_eq|first [by eexists | reflexivity | apply orb_true_r]]).
Qed.

Lemma spent_refuses m t ctx c s :
  spends m = Some t → spent t s → ∃ e, (run_mutation m ctx c s).1 = Error e.
Proof.
  destruct m; intros Ht; try discriminate Ht; injection Ht as <-; intros (x & Hx & Hs);
    cbn [run_mutation]; unfold ran;
    (match goal with |- context [(?op s).1] =>
       change (wp op (λ r _, ∃ e, r = Error e) s) end);
    apply wp_bind;
    (eapply wp_mono with (Q := λ r _, ∃ e, r = Error e); [|by intros ? ? [e ->]; exists e]);
    lazymatch goal with |- wp ?op _ _ => let h := get_head op in unfold h end;
    unfold check_ctx; wp_steps; eauto; exfalso.
  all: rewrite Hx in Hlookup; injection Hlookup as <-; unfold not_nil in *; bool_cases; congruence.
Qed.

(** C24: authorization codes, email sign-in tokens and invitations are used at
    most once. After a mutation that spent a token committed, every mutation
    that would spend the same token again (an invitation is spent by either way
    of accepting it, and by its revocation) fails, whatever ran in between. *)
Theorem token_single_use m t ctx c s s1 ops m' ctx' c' :
  spends m = Some t → run_mutation m ctx c s = (Ok true, s1) → spends m' = Some t →
  ∃ e, (run_mutation m' ctx' c' (run_trace ops s1)).1 = Error e.
Proof.
  intros Ht Hr Ht'. apply (spent_refuses _ t); [done|]. apply spent_trace.
  exact (wp_run _ _ _ _ _ (spends_spent m t ctx c s Ht) Hr eq_refl).
Qed.

(** ** Witnesses *)
Definition invited : Store := step (op_at 11 (Do_CreateWorkspaceInvitation (invitation_of 30 2))) deployment.

Lemma token_single_use_witness :
  let accept_30 := Do_AcceptWorkspaceInvitation (uid 30) (uid 1) 0%Z (member_of 2 1 RoleAdmin) in
  let s1 := (run_mutation accept_30 None (commit_at 12 "accept") invited).2 in
  ∃ e, (run_mutation (Do_RevokeWorkspaceInvitation (uid 2) (uid 30) 0%Z) None
          (commit_at 14 "revoke") (run_trace [op_at 13 Do_AppendAudit] s1)).1 = Error e.
Proof.
  apply (token_single_use
    (Do_AcceptWorkspaceInvitation (uid 30) (uid 1) 0%Z (member_of 2 1 RoleAdmin))
    (TokenInvitation (uid 30)) None (commit_at 12 "accept") invited); [reflexivity| |reflexivity].
  apply run_split. vm_compute. reflexivity.
Defined.
