(* ===== verification/StoreGuards.v ===== *)
(** * What the guards of the store protect

    The last root administrator, the last administrator of a workspace, the
    lockout counter, and the replay counter of time-based codes. *)
From stdpp Require Import base gmap sets list strings numbers.
From Stdlib Require Import ZArith Lia.
From S2P Require Import Prelude Bytes Uuid Types OAuthTypes AuditChain Store StoreUsers StoreTokens StoreWorkspaces StoreScim StoreOAuth Commit StoreSystem Scenario StoreMonotone.

#[export] Instance users_view : CommitView users.
Proof. by split; intros; try destruct u. Qed.
#[export] Instance admins_view : CommitView admins.
Proof. by split; intros; try destruct u. Qed.
#[export] Instance memberships_view : CommitView memberships.
Proof. by split; intros; try destruct u. Qed.
#[export] Instance totp_view : CommitView totp.
Proof. by split; intros; try destruct u. Qed.

Lemma keeps_ran {V A} (f : Store → V) (m : M Store A) : keeps f m → keeps f (ran m).
Proof. intros Hm. apply keeps_bind; [done|]. intros a s. done. Qed.

Ltac keeps_mutation :=
  cbn [run_mutation]; try apply keeps_ran;
  lazymatch goal with |- keeps _ ?op => let h := get_head op in unfold h end;
  solve [solve_keeps].

(** ** Preserved predicates

    A predicate on one table that every operation preserves. *)
Section preserved.
Context {V : Type} (f : Store → V) (P : V → Prop).

Definition preserves {A} (m : M Store A) : Prop := ∀ s, P (f s) → wp m (λ _ s', P (f s')) s.

Lemma preserves_keeps {A} (m : M Store A) : keeps f m → preserves m.
Proof. intros Hm s HP. unfold wp. by rewrite Hm. Qed.

Lemma wp_ran {A} (m : M Store A) s :
  wp m (λ _ s', P (f s')) s → wp (ran m) (λ _ s', P (f s')) s.
Proof. intros Hm. apply wp_bind. eapply wp_mono; [exact Hm|]. by intros [] ?. Qed.

Lemma preserves_ran {A} (m : M Store A) : preserves m → preserves (ran m).
Proof. intros Hm s HP. apply wp_bind. eapply wp_mono; [by apply Hm|]. by intros [] ?. Qed.

Context `{!CommitView f}.

Lemma wp_commit_preserves c upd s :
  P (f s) → P (f (upd (burn c s))) → wp (commit_update c upd) (λ _ s', P (f s')) s.
Proof.
  intros HP Hu. apply wp_commit_update; intros.
  - done.
  - by rewrite view_pruned.
  - by rewrite view_rolled_back, view_burn.
  - by rewrite view_commitAudit.
Qed.

Hypothesis Hissuance : ∀ s x, f (s <| emailIssuance := x |>) = f s.
Hypothesis Hfailure : ∀ s x, f (s <| auditFailure := x |>) = f s.

Lemma step_preserves o s :
  (∀ m ctx c, o = OpMutation m ctx c → preserves (run_mutation m ctx c)) →
  P (f s) → P (f (step o s)).
Proof.
  destruct o as [m ctx c|ctx a p t nb|err]; intros Hm HP; [by eapply Hm| |].
  - assert (keeps f (ClaimEmailIssuance ctx a p t nb)) as Hk; [|by cbn; rewrite Hk].
    unfold ClaimEmailIssuance.
    solve_keeps; solve [apply keeps_modify; intros; apply Hissuance].
  - cbn. by rewrite Hfailure.
Qed.
End preserved.

(** ** Root administrators *)

#[local] Instance any_preorder {A} : PreOrder (λ _ _ : A, True).
Proof. by split. Qed.

Lemma users_grow m ctx c : grows (λ _ _, True) users (run_mutation m ctx c).
Proof. destruct m; grows_mutation. Qed.

(** Some account is root administrator of the instance. *)
Definition has_root (a : gmap UUID InstanceAdministrator) : Prop :=
  ∃ u x, a !! u = Some x ∧ is_root x = true.

Lemma has_root_insert a u x :
  is_root x = true → has_root (<[u := x]> a).
Proof. intros Hx. exists u, x. by rewrite lookup_insert_eq. Qed.

Lemma has_root_other a u x :
  a !! u = Some x → (is_root x = true → 1 < map_countb (λ _, is_root) a) → has_root a →
  ∃ v y, v ≠ u ∧ a !! v = Some y ∧ is_root y = true.
Proof.
  intros Hu Hc (v & y & Hv & Hy). destruct (decide (v = u)) as [->|Hne]; [|by exists v, y].
  assert (y = x) as -> by congruence. by eapply map_countb_gt_1; eauto.
Qed.

(** The mutations of the table. *)
Definition touches_admins (m : Mutation) : bool :=
  match m with
  | Do_Bootstrap _ _ _ _ _ _ | Do_SetInstanceRole _ | Do_RemoveInstanceRole _ => true
  | _ => false
  end.

Lemma admins_kept m ctx c : touches_admins m = false → keeps admins (run_mutation m ctx c).
Proof. destruct m; intros Ht; try discriminate Ht; keeps_mutation. Qed.

Lemma has_root_mutation m ctx c s :
  users s ≠ ∅ → has_root (admins s) → wp (run_mutation m ctx c) (λ _ s', has_root (admins s')) s.
Proof.
  intros Hu HP. destruct (touches_admins m) eqn:Ht.
  2: { unfold wp. by rewrite admins_kept. }
  destruct m; try discriminate Ht; cbn [run_mutation]; apply wp_ran;
    lazymatch goal with |- wp ?op _ _ => let h := get_head op in unfold h end;
    unfold check_ctx; wp_steps; try done.
  all: apply (wp_commit_preserves admins has_root); [done|].
  - apply bool_decide_eq_false in Hguard. destruct Hguard. by rewrite map_size_empty_iff.
  - set (u := InstanceAdministrator_UserID admin) in *.
    set (x := match admins (burn c s) !! u with Some _ => _ | None => _ end).
    assert (is_root x = is_root admin) as Hx by (unfold x; destruct (admins (burn c s) !! u); reflexivity).
    change (has_root (<[u := x]> (admins (burn c s)))). rewrite view_burn by apply _.
    destruct (is_root admin) eqn:Hr; [by apply has_root_insert; rewrite Hx|].
    destruct (admins s !! u) as [y|] eqn:Hy.
    + destruct (has_root_other (admins s) u y Hy) as (v & z & Hne & Hv & Hz); [|done|].
      { intros Hroot. rewrite Hroot in Hguard0. cbn in Hguard0.
        apply bool_decide_eq_false in Hguard0. unfold root_count in Hguard0. lia. }
      exists v, z. by rewrite lookup_insert_ne.
    + destruct HP as (v & z & Hv & Hz). exists v, z. rewrite lookup_insert_ne; [done|congruence].
  - change (has_root (delete userID (admins (burn c s)))). rewrite view_burn by apply _.
    destruct (has_root_other (admins s) userID _ Hlookup) as (v' & z & Hne & Hv & Hz); [|done|].
    { intros Hroot. rewrite Hroot in Hguard. cbn in Hguard.
      apply bool_decide_eq_false in Hguard. unfold root_count in Hguard. lia. }
    exists v', z. by rewrite lookup_delete_ne.
Qed.

(** The instance never loses its last root administrator. Once there are
    accounts and one of them is root, there is a root administrator after any
    sequence of operations. *)
Theorem root_never_lost ops s :
  users s ≠ ∅ → has_root (admins s) → has_root (admins (run_trace ops s)).
Proof.
  revert s. induction ops as [|o ops IH]; intros s Hu HP; [done|].
  apply (IH (step o s)).
  - apply map_choose in Hu as (u & x & Hx).
    destruct (step_grows (λ _ _, True) users users_grow ltac:(done) ltac:(done) o s u x Hx)
      as (y & Hy & _).
    intros He. by rewrite He in Hy.
  - destruct o as [m ctx c|ctx a p t nb|err]; [by apply has_root_mutation| |done].
    assert (keeps admins (ClaimEmailIssuance ctx a p t nb)) as Hk
      by (unfold ClaimEmailIssuance; solve_keeps).
    cbn [step]. by rewrite Hk.
Qed.

Lemma root_never_lost_witness :
  has_root (admins (run_trace
    [op_at 11 (Do_RemoveInstanceRole (uid 1)); op_at 12 (Do_SetUserDisabled (uid 1) true 0%Z)]
    deployment)).
Proof.
  apply root_never_lost.
  - intros He. apply (f_equal size) in He. vm_compute in He. discriminate He.
  - exists (uid 1), (root_of 1). vm_compute. split; reflexivity.
Defined.

(** ** Workspace administrators *)

(** Some member of the workspace is an active administrator. *)
Definition has_admin (members : gmap UUID Membership) : Prop :=
  ∃ u x, members !! u = Some x ∧ active_admin x = true.

Lemma has_admin_other members u x :
  members !! u = Some x →
  (active_admin x = true → 1 < map_countb (λ _, active_admin) members) → has_admin members →
  ∃ v y, v ≠ u ∧ members !! v = Some y ∧ active_admin y = true.
Proof.
  intros Hu Hc (v & y & Hv & Hy). destruct (decide (v = u)) as [->|Hne]; [|by exists v, y].
  assert (y = x) as -> by congruence. by eapply map_countb_gt_1; eauto.
Qed.

Lemma active_admin_normalize x :
  active_admin x = true → active_admin (normalizeMembership x) = true.
Proof.
  unfold active_admin, normalizeMembership. rewrite !andb_true_iff, !bool_decide_eq_true.
  intros [Hr Hs]. rewrite Hs, (bool_decide_eq_false_2 (MembershipActive = EmptyString))
    by discriminate.
  case_bool_decide; by split.
Qed.

(** The members of a workspace after one row of some workspace was replaced. *)
Lemma members_of_put w u x s w' :
  members_of (put_membership w u x s) w' =
  if decide (w = w') then <[u := x]> (members_of s w') else members_of s w'.
Proof.
  change (members_of (put_membership w u x s) w') with
    (default ∅ ((<[UUID_String w := <[u := x]> (members_of s w)]> (memberships s)) !!
       UUID_String w')).
  destruct (decide (w = w')) as [->|Hne]; [by rewrite lookup_insert_eq|].
  rewrite lookup_insert_ne; [done|]. by intros ?%(inj UUID_String).
Qed.

#[export] Instance members_of_view w : CommitView (λ s, members_of s w).
Proof. split; intros; try destruct u; reflexivity. Qed.

Lemma revokeUserCredentialsLocked_members u w t s w' :
  members_of (revokeUserCredentialsLocked u w t s) w' = members_of s w'.
Proof. reflexivity. Qed.

Lemma last_admin_count s w x :
  last_admin s w x = false → active_admin x = true →
  1 < map_countb (λ _, active_admin) (members_of s w).
Proof.
  unfold last_admin. intros Hl Ha. rewrite Ha in Hl. cbn in Hl.
  apply bool_decide_eq_false in Hl. unfold activeWorkspaceAdminsLocked in Hl. lia.
Qed.

(** Replacing one row under the guard of [UpsertMembership]. *)
Lemma has_admin_put s w x y :
  match members_of s (Membership_WorkspaceID x) !! Membership_UserID x with
  | Some existing => negb (active_admin x) && last_admin s (Membership_WorkspaceID x) existing
  | None => false
  end = false →
  active_admin y = active_admin x → has_admin (members_of s w) →
  has_admin (if decide (Membership_WorkspaceID x = w)
             then <[Membership_UserID x := normalizeMembership y]> (members_of s w)
             else members_of s w).
Proof.
  intros Hguard Hy HP. destruct (decide _) as [<-|Hne]; [|done].
  set (u := Membership_UserID x) in *. set (members := members_of s _) in *.
  destruct (active_admin x) eqn:Hx.
  { exists u, (normalizeMembership y). rewrite lookup_insert_eq.
    split; [done|]. by apply active_admin_normalize. }
  destruct (members !! u) as [z|] eqn:Hz; cbn in Hguard.
  - destruct (has_admin_other members u z Hz) as (v & z' & Hne & Hv & Hz'); [|done|].
    { by apply last_admin_count. }
    exists v, z'. by rewrite lookup_insert_ne.
  - destruct HP as (v & z & Hv & Hz'). exists v, z. rewrite lookup_insert_ne; [done|congruence].
Qed.

(** Membership changes keep a workspace administered. When a workspace has
    an active administrator, it still has one after its members were changed or
    removed one by one, in this workspace or another, whatever the answer. *)
Theorem workspace_admin_kept m ctx c s w :
  (∃ x, m = Do_UpsertMembership x) ∨ (∃ w' u t, m = Do_RemoveMembership w' u t) →
  has_admin (members_of s w) → has_admin (members_of (run_mutation m ctx c s).2 w).
Proof.
  intros Hm HP. change (wp (run_mutation m ctx c) (λ _ s', has_admin (members_of s' w)) s).
  destruct Hm as [[x ->]|(w0 & u & t & ->)]; cbn [run_mutation];
    apply (wp_ran (λ s, members_of s w)); unfold UpsertMembership, RemoveMembership, check_ctx;
    wp_steps; try done; apply (wp_commit_preserves (λ s, members_of s w) has_admin); try done.
  - match goal with |- context [put_membership _ _ (normalizeMembership ?e) _] => set (y := e) end.
    assert (active_admin y = active_admin x) as Hy
      by (unfold y; destruct (members_of (burn c s) _ !! _); reflexivity).
    assert (∀ b (s0 s1 : Store), members_of s0 w = members_of s1 w →
      members_of (if b : bool then s0 else s1) w = members_of s1 w) as Hif by (by intros []).
    rewrite Hif by reflexivity. rewrite members_of_put, (view_burn (λ s, members_of s w)).
    by apply has_admin_put.
  - change (has_admin (default ∅ ((<[UUID_String w0 := delete u (members_of (burn c s) w0)]>
      (memberships (burn c s))) !! UUID_String w))).
    destruct (decide (w0 = w)) as [->|Hne].
    + rewrite lookup_insert_eq. cbn. rewrite (view_burn (λ s, members_of s w)).
      destruct (has_admin_other _ u v Hlookup) as (u' & z & Hne & Hu' & Hz); [|done|].
      { intros Ha. by apply last_admin_count in Hguard. }
      exists u', z. by rewrite lookup_delete_ne.
    + rewrite lookup_insert_ne by (by intros ?%(inj UUID_String)).
      rewrite (view_burn memberships). exact HP.
Qed.

Lemma workspace_admin_kept_witness :
  has_admin (members_of (run_mutation (Do_RemoveMembership (uid 2) (uid 1) 0%Z) None
    (commit_at 11 "remove") deployment).2 (uid 2)).
Proof.
  apply workspace_admin_kept; [right; by eexists _, _, _|].
  exists (uid 1), (normalizeMembership (member_of 2 1 RoleAdmin)). vm_compute. split; reflexivity.
Defined.

(** ** Time-based codes *)

(** The user's active factor refuses steps up to [n]. *)
Definition totp_at_least (u : UUID) (n : Z) (factors : gmap UUID TOTPFactor) : Prop :=
  ∃ x, factors !! u = Some x ∧ TOTPFactor_Active x = true ∧ (n ≤ TOTPFactor_LastUsedStep x)%Z.

(** The mutations that remove a user's factor. *)
Definition removes_totp (u : UUID) (m : Mutation) : bool :=
  match m with
  | Do_DisableTOTP u' | Do_ResetSecondFactor u' _ | Do_AnonymizeUser u' _ => bool_decide (u' = u)
  | _ => false
  end.

Lemma totp_at_least_insert u n factors u' x :
  (u' = u → TOTPFactor_Active x = true ∧ (n ≤ TOTPFactor_LastUsedStep x)%Z) →
  totp_at_least u n factors → totp_at_least u n (<[u' := x]> factors).
Proof.
  intros Hx (y & Hy & Ha & Hle). destruct (decide (u' = u)) as [->|Hne].
  - exists x. rewrite lookup_insert_eq. destruct (Hx eq_refl). done.
  - exists y. by rewrite lookup_insert_ne.
Qed.

Lemma totp_at_least_delete u n factors u' :
  u' ≠ u → totp_at_least u n factors → totp_at_least u n (delete u' factors).
Proof. intros Hne (y & Hy & ? & ?). exists y. by rewrite lookup_delete_ne. Qed.

Lemma anonymize_totp u t x s : totp (anonymize u t x s) = delete u (totp s).
Proof.
  unfold anonymize. cbv zeta.
  match goal with |- context [foldl (anonymize_email _ _) (?u0, _) ?l] =>
    destruct (anonymize_emails_shape u t l u0 s) as (user' & em & ei & ea & ->) end.
  cbv beta iota.
  match goal with |- context [foldl (anonymize_link _ _) ?r ?l] =>
    destruct (anonymize_links_shape u t l r) as (su & sn & sx & ->) end.
  reflexivity.
Qed.

Lemma totp_mutation u n m ctx c :
  removes_totp u m = false → preserves totp (totp_at_least u n) (run_mutation m ctx c).
Proof.
  intros Hrm.
  destruct m; try (apply preserves_keeps; keeps_mutation); cbn [run_mutation];
    intros s HP; try (apply (wp_ran totp));
    lazymatch goal with |- wp ?op _ _ => let h := get_head op in unfold h end;
    unfold check_ctx; wp_steps; try done;
    apply (wp_mono _ (λ _ s', totp_at_least u n (totp s')));
    try (by intros [] ?); apply (wp_commit_preserves totp (totp_at_least u n)); try done;
    rewrite <- (view_burn totp c) in HP.
  - apply totp_at_least_insert; [intros <-|done]. destruct HP as (y & Hy & Ha & _).
    rewrite view_burn in Hy by apply _. unfold active_totp in Hguard.
    rewrite Hy in Hguard. congruence.
  - apply totp_at_least_insert; [intros <-|done]. destruct HP as (y & Hy & Ha & _).
    rewrite view_burn in Hy by apply _. congruence.
  - apply totp_at_least_insert; [intros ->|done]. destruct HP as (y & Hy & Ha & Hle).
    rewrite view_burn in Hy by apply _. apply bool_decide_eq_false in Hcase0.
    split; [by apply negb_false_iff in Hguard|cbn]. simplify_eq. lia.
  - apply totp_at_least_delete; [|done]. by apply bool_decide_eq_false in Hrm.
  - apply totp_at_least_delete; [|done]. by apply bool_decide_eq_false in Hrm.
  - rewrite anonymize_totp. apply totp_at_least_delete; [|done].
    by apply bool_decide_eq_false in Hrm.
Qed.

(** The trace does not remove the user's factor. *)
Definition keeps_totp (u : UUID) (o : Op) : Prop :=
  match o with OpMutation m _ _ => removes_totp u m = false | _ => True end.

Lemma totp_trace u n ops s :
  Forall (keeps_totp u) ops → totp_at_least u n (totp s) →
  totp_at_least u n (totp (run_trace ops s)).
Proof.
  intros Hops. revert s. induction Hops as [|o ops Ho _ IH]; intros s HP; [done|].
  apply IH. apply (step_preserves totp (totp_at_least u n)); try done.
  intros m ctx c ->. by apply totp_mutation.
Qed.

Lemma UseTOTP_advances u n ctx c s :
  wp (run_mutation (Do_UseTOTP u n) ctx c) (λ r s',
    r = Ok true → totp_at_least u n (totp s') ∧ ¬ totp_at_least u n (totp s)) s.
Proof.
  cbn [run_mutation]. unfold UseTOTP, check_ctx. wp_steps; try done.
  apply (wp_mono _ (λ r s', r = Ok tt →
    totp_at_least u n (totp s') ∧ ¬ totp_at_least u n (totp s))).
  - apply wp_commit_ok. intros _ _ _. rewrite view_commitAudit by apply _.
    apply negb_false_iff in Hguard. apply bool_decide_eq_false in Hcase0. split.
    + eexists. split; [apply lookup_insert_eq|]. done.
    + intros (y & Hy & _ & Hle). simplify_eq. lia.
  - intros [[]|e] s' H; [intros _; by apply H|discriminate].
Qed.

(** A time-based code is accepted once. After a code of step [n] was
    accepted, no code of that step or an earlier one is accepted for the user
    again until the factor is removed, whatever else happens; a new enrolment
    or activation cannot reset the counter of an active factor. *)
Theorem totp_step_single_use u n n' ctx c ctx' c' s s1 ops :
  run_mutation (Do_UseTOTP u n) ctx c s = (Ok true, s1) →
  Forall (keeps_totp u) ops → (n' ≤ n)%Z →
  (run_mutation (Do_UseTOTP u n') ctx' c' (run_trace ops s1)).1 ≠ Ok true.
Proof.
  intros Hr Hops Hle Hok.
  destruct (wp_run _ _ _ _ _ (UseTOTP_advances u n ctx c s) Hr eq_refl) as [Hn _].
  pose proof (totp_trace u n ops s1 Hops Hn) as (x & Hx & Ha & Hx').
  destruct (UseTOTP_advances u n' ctx' c' (run_trace ops s1) Hok) as [_ Hnot].
  apply Hnot. exists x. split_and!; [done..|lia].
Qed.

Definition factor_1 : TOTPFactor :=
  TOTPFactor_zero <| TOTPFactor_UserID := uid 1 |> <| TOTPFactor_Active := true |>.
Definition enrolled : Store :=
  run_trace [op_at 11 (Do_SaveTOTPEnrollment (factor_1 <| TOTPFactor_Active := false |>));
             op_at 12 (Do_ActivateTOTP factor_1 [])] deployment.

Lemma totp_step_single_use_witness :
  let s1 := (run_mutation (Do_UseTOTP (uid 1) 7) None (commit_at 13 "totp") enrolled).2 in
  (run_mutation (Do_UseTOTP (uid 1) 7) None (commit_at 15 "totp")
     (run_trace [op_at 14 (Do_SaveTOTPEnrollment factor_1)] s1)).1 ≠ Ok true.
Proof.
  apply (totp_step_single_use (uid 1) 7 7 None (commit_at 13 "totp") None _ enrolled);
    [apply run_split; vm_compute; reflexivity|repeat constructor|reflexivity].
Defined.

(** ** Lockout *)





#[export] Instance throttles_view : CommitView throttles.
Proof. by split; intros; try destruct u. Qed.






