(* ===== verification/StoreRevocation.v ===== *)
(** * Revocation cascades

    Disabling or erasing an account, resetting its password and revoking its
    credentials leave none of its sessions and tokens usable, and change no row
    of another account. *)
From stdpp Require Import base gmap sets list strings numbers.
From Stdlib Require Import ZArith Lia.
From S2P Require Import Prelude Bytes Uuid Types OAuthTypes AuditChain Store StoreUsers StoreTokens StoreWorkspaces StoreScim StoreOAuth Commit StoreSystem Scenario StoreMonotone StoreGuards.

#[export] Instance oauthAccessTokens_view : CommitView oauthAccessTokens.
Proof. by split; intros; try destruct u. Qed.
#[export] Instance oauthRefreshTokens_view : CommitView oauthRefreshTokens.
Proof. by split; intros; try destruct u. Qed.

(** ** One table

    [owner] and [revoked] are columns of a table of credentials. *)
Section table.
Context {V : Type} (owner : V → UUID) (revoked : V → option Z).
Implicit Types m : gmap UUID V.

(** None of the user's rows is live. *)
Definition none_live (u : UUID) m : Prop :=
  ∀ k v, m !! k = Some v → owner v = u → is_Some (revoked v).

(** The rows of other users are the same. *)
Definition others_same (u : UUID) m m' : Prop :=
  ∀ k v, owner v ≠ u → m !! k = Some v ↔ m' !! k = Some v.

Lemma others_same_trans u m1 m2 m3 : others_same u m1 m2 → others_same u m2 m3 → others_same u m1 m3.
Proof. intros H1 H2 k v Hv. by rewrite (H1 k v Hv), (H2 k v Hv). Qed.

(** A loop over the user's rows. *)
Lemma others_same_update_where u p f m :
  (∀ v, p v = true → owner v = u) → (∀ v, owner (f v) = owner v) →
  others_same u m (update_where p f m).
Proof.
  intros Hp Hf k v Hv. unfold update_where. rewrite lookup_fmap. split.
  - intros ->. cbn. destruct (p v) eqn:E; [|done]. by apply Hp in E.
  - destruct (m !! k) as [v0|]; [|done]. cbn. destruct (p v0) eqn:E; [|done].
    intros [= <-]. rewrite Hf in Hv. by apply Hp in E.
Qed.

(** The loop revoking the user's live rows. *)
Lemma none_live_update_where u p f m :
  (∀ v, owner v = u → revoked v = None → p v = true) →
  (∀ v, owner (f v) = owner v) → (∀ v, is_Some (revoked (f v))) →
  none_live u (update_where p f m).
Proof.
  intros Hp Ho Hr k v. unfold update_where. rewrite lookup_fmap.
  destruct (m !! k) as [v0|]; [|done]. cbn. destruct (p v0) eqn:E; intros [= <-] Hu; [apply Hr|].
  destruct (revoked v0) eqn:Er; [by eexists|]. by rewrite Hp in E.
Qed.
End table.

(** ** All tables *)
Definition no_live_credentials (u : UUID) (s : Store) : Prop :=
  none_live Session_UserID Session_RevokedAt u (sessions s) ∧
  none_live PAT_UserID PAT_RevokedAt u (pats s) ∧
  none_live OAuthGrant_UserID OAuthGrant_RevokedAt u (oauthGrants s) ∧
  none_live OAuthAccessToken_UserID OAuthAccessToken_RevokedAt u (oauthAccessTokens s) ∧
  none_live OAuthRefreshToken_UserID OAuthRefreshToken_RevokedAt u (oauthRefreshTokens s).

Definition other_credentials_same (u : UUID) (s s' : Store) : Prop :=
  others_same Session_UserID u (sessions s) (sessions s') ∧
  others_same PAT_UserID u (pats s) (pats s') ∧
  others_same OAuthGrant_UserID u (oauthGrants s) (oauthGrants s') ∧
  others_same OAuthAccessToken_UserID u (oauthAccessTokens s) (oauthAccessTokens s') ∧
  others_same OAuthRefreshToken_UserID u (oauthRefreshTokens s) (oauthRefreshTokens s').

(** The sweep the cascading operations end with. *)
Definition sweep (u : UUID) (t : Z) (s : Store) : Store :=
  revokeUserSessionsLocked u t (revokeUserCredentialsLocked u Nil t s).

Lemma revocable_true {V} (owner : V → UUID) (revoked : V → option Z) u v :
  owner v = u → revoked v = None →
  bool_decide (owner v = u) && negb (not_nil (revoked v)) = true.
Proof. intros -> ->. by rewrite bool_decide_eq_true_2. Qed.

Lemma in_scope_Nil w : in_scope Nil w = true.
Proof. done. Qed.

Lemma sweep_none_live u t s : no_live_credentials u (sweep u t s).
Proof.
  split_and!; apply none_live_update_where; try done; intros v Hu Hr;
    rewrite ?in_scope_Nil, ?andb_true_r; by apply revocable_true.
Qed.

Lemma sweep_others u t s : other_credentials_same u s (sweep u t s).
Proof.
  split_and!; apply others_same_update_where; try done; intros v;
    rewrite ?andb_true_iff, ?bool_decide_eq_true; tauto.
Qed.

Lemma anonymize_sweep u t x s : ∃ s0, anonymize u t x s = sweep u t s0.
Proof. unfold anonymize. destruct (foldl _ _ _). eexists. reflexivity. Qed.

Lemma anonymize_oauth u t x s :
  oauthAccessTokens (anonymize u t x s) = oauthAccessTokens (sweep u t s) ∧
  oauthRefreshTokens (anonymize u t x s) = oauthRefreshTokens (sweep u t s).
Proof.
  unfold anonymize. cbv zeta.
  match goal with |- context [foldl (anonymize_email _ _) (?u0, _) ?l] =>
    destruct (anonymize_emails_shape u t l u0 s) as (user' & em & ei & ea & ->) end.
  cbv beta iota.
  match goal with |- context [foldl (anonymize_link _ _) ?r ?l] =>
    destruct (anonymize_links_shape u t l r) as (su & sn & sx & ->) end.
  split; reflexivity.
Qed.

Lemma anonymize_others u t x s : other_credentials_same u s (anonymize u t x s).
Proof.
  destruct (anonymize_tables u t x s) as (Hs & Hp & Hg & _).
  destruct (anonymize_oauth u t x s) as [Ha Hr].
  destruct (sweep_others u t s) as (_ & _ & Sg & Sa & Sr).
  unfold other_credentials_same. rewrite Hs, Hp, Hg, Ha, Hr. split_and!; [| |done..].
  - eapply others_same_trans; [|apply (sweep_others u t)].
    apply others_same_update_where; [|done]. intros v. by rewrite bool_decide_eq_true.
  - eapply others_same_trans; [|apply (sweep_others u t)].
    apply others_same_update_where; [|done]. intros v. by rewrite bool_decide_eq_true.
Qed.

(** Both properties are about these tables alone. *)
Definition credentials_view (s : Store) :=
  (sessions s, pats s, oauthGrants s, oauthAccessTokens s, oauthRefreshTokens s).

#[export] Instance credentials_commit_view : CommitView credentials_view.
Proof. by split; intros; try destruct u. Qed.

Lemma no_live_view s s' u :
  credentials_view s' = credentials_view s → no_live_credentials u s → no_live_credentials u s'.
Proof. unfold credentials_view, no_live_credentials. by intros [= -> -> -> -> ->]. Qed.

(** ** The rows of other accounts *)

(** What the store holds of one account under its own identifier. *)
Definition account_rows (s : Store) (v : UUID) :=
  (users s !! v, passwords s !! v, totp s !! v, recovery s !! v, passkeys_of s v, throttles s !! v, admins s !! v).

(** The directory links are filed under their identifiers. *)
Definition links_keyed (s : Store) : Prop := map_Forall (λ id link, SCIMUser_ID link = id) (scimUsers s).

(** Nothing that belongs to another account than [u] differs. *)
Record others_untouched (u : UUID) (s s' : Store) : Prop := mkOthersUntouched {
  untouched_credentials : other_credentials_same u s s';
  untouched_accounts : ∀ v, v ≠ u → account_rows s' v = account_rows s v;
  untouched_addresses : others_same EmailAddress_UserID u (emailAddresses s) (emailAddresses s');
  untouched_identities : others_same SSOIdentity_UserID u (ssoIdentities s) (ssoIdentities s');
  untouched_links : links_keyed s → others_same SCIMUser_UserID u (scimUsers s) (scimUsers s');
  untouched_invitations :
    others_same WorkspaceInvitation_AcceptedUserID u (invitations s) (invitations s');
  untouched_memberships : memberships s' = memberships s;
  untouched_codes : oauthCodes s' = oauthCodes s;
  untouched_emailed : emailVerifications s' = emailVerifications s ∧ emailAuths s' = emailAuths s }.

(** The tables the commit protocol leaves alone. *)
Definition tables (s : Store) : Store :=
  s <| ceremonies := ∅ |> <| audits := [] |> <| auditIDs := ∅ |> <| auditSequence := 0%Z |>
    <| auditHead := EmptyString |> <| oauthClientKeys := ∅ |> <| emailIssuance := ∅ |> <| auditFailure := None |>.
#[export] Instance tables_view : CommitView tables.
Proof. by split; intros; try destruct u. Qed.

Lemma others_untouched_view s1 s2 s1' s2' u :
  tables s1' = tables s1 → tables s2' = tables s2 → others_untouched u s1 s2 → others_untouched u s1' s2'.
Proof.
  intros H1 H2 []. assert (others_untouched u (tables s1) (tables s2)) as [] by by split.
  rewrite <- H1, <- H2 in *. by split.
Qed.

Lemma others_same_insert {V} (owner : V → UUID) u (m : gmap UUID V) k v v' :
  m !! k = Some v → owner v = u → owner v' = u → others_same owner u m (<[k := v']> m).
Proof.
  intros Hk Hv Hv' j x Hx. destruct (decide (j = k)) as [->|Hj].
  - rewrite lookup_insert_eq, Hk. split; intros [= <-]; congruence.
  - by rewrite lookup_insert_ne.
Qed.

(** The loop over the addresses of the account. *)
Lemma anonymize_emails_others u t l x s :
  (∀ id e, (id, e) ∈ l → EmailAddress_UserID e = u →
     ∃ e0, emailAddresses s !! id = Some e0 ∧ EmailAddress_UserID e0 = u) →
  others_same EmailAddress_UserID u (emailAddresses s)
    (emailAddresses (foldl (anonymize_email u t) (x, s) l).2).
Proof.
  revert x s. induction l as [|[id e] l IH]; intros x s Hl; [done|].
  cbn [foldl anonymize_email]. case_bool_decide as He.
  { apply IH. intros id' e' Hin. apply (Hl id' e'). by right. }
  destruct (Hl id e ltac:(by left) He) as (e0 & H0 & Hu0).
  eapply others_same_trans; [|apply IH].
  - by apply (others_same_insert _ _ _ id e0).
  - intros id' e' Hin He'. cbn. destruct (decide (id' = id)) as [->|Hne].
    + rewrite lookup_insert_eq. eexists. split; [reflexivity|done].
    + rewrite lookup_insert_ne by done. apply (Hl id' e'); [by right|done].
Qed.

(** The loop over its directory links. *)
Lemma anonymize_links_others u t l s :
  (∀ id e, (id, e) ∈ l → SCIMUser_ID e = id ∧
     (SCIMUser_UserID e = u → ∃ e0, scimUsers s !! id = Some e0 ∧ SCIMUser_UserID e0 = u)) →
  others_same SCIMUser_UserID u (scimUsers s) (scimUsers (foldl (anonymize_link u t) s l)).
Proof.
  revert s. induction l as [|[id e] l IH]; intros s Hl; [done|].
  cbn [foldl]. unfold anonymize_link at 2. case_bool_decide as He.
  { apply IH. intros id' e' Hin. apply (Hl id' e'). by right. }
  destruct (Hl id e ltac:(by left)) as (Hid & (e0 & H0 & Hu0)); [done|].
  assert (∀ link s, scimUsers (putSCIMUserLocked link (deleteSCIMUserIndexesLocked e s)) =
    <[SCIMUser_ID link := link]> (scimUsers s)) as Hput.
  { intros link s0. unfold putSCIMUserLocked, deleteSCIMUserIndexesLocked. by repeat case_bool_decide. }
  eapply others_same_trans; [|apply IH].
  - rewrite Hput. cbn. rewrite Hid. by apply (others_same_insert _ _ _ id e0).
  - intros id' e' Hin. destruct (Hl id' e') as [Hk Hx]; [by right|]. split; [done|]. intros He'.
    rewrite Hput. cbn. rewrite Hid. destruct (decide (id' = id)) as [->|Hne].
    + rewrite lookup_insert_eq. eexists. split; [reflexivity|done].
    + rewrite lookup_insert_ne by done. by apply Hx.
Qed.

Lemma anonymize_addresses u t x s :
  others_same EmailAddress_UserID u (emailAddresses s) (emailAddresses (anonymize u t x s)).
Proof.
  unfold anonymize. cbv zeta.
  match goal with |- context [foldl (anonymize_email _ _) (?u0, _) ?l] =>
    pose proof (anonymize_emails_others u t l u0 s) as H; destruct (foldl (anonymize_email _ _) _ _) as [x' s1] end.
  cbv beta iota.
  match goal with |- context [foldl (anonymize_link _ _) ?r ?l] =>
    destruct (anonymize_links_shape u t l r) as (su & sn & sx & ->) end.
  apply H. intros id e Hin He. exists e. split; [|done]. by apply elem_of_map_to_list.
Qed.
Lemma anonymize_links u t x s : links_keyed s →
  others_same SCIMUser_UserID u (scimUsers s) (scimUsers (anonymize u t x s)).
Proof.
  intros Hk. unfold anonymize. cbv zeta.
  match goal with |- context [foldl (anonymize_email _ _) (?u0, _) ?l] =>
    destruct (anonymize_emails_shape u t l u0 s) as (user' & em & ei & ea & ->) end.
  cbv beta iota.
  match goal with |- context [foldl (anonymize_link _ _) ?r ?l] =>
    refine (anonymize_links_others u t l r _) end.
  intros id e Hin. apply elem_of_map_to_list in Hin. split; [by apply Hk|]. intros He. by exists e.
Qed.

Lemma passkeys_of_delete s u v : v ≠ u →
  passkeys_of (s <| passkeys ::= delete (UUID_String u) |>) v = passkeys_of s v.
Proof.
  intros Hv. unfold passkeys_of. cbn. rewrite lookup_delete_ne; [done|]. intros H. by apply (inj UUID_String) in H.
Qed.

Lemma anonymize_accounts u t x s v : v ≠ u → account_rows (anonymize u t x s) v = account_rows s v.
Proof.
  intros Hv. unfold anonymize. cbv zeta.
  match goal with |- context [foldl (anonymize_email _ _) (?u0, _) ?l] =>
    destruct (anonymize_emails_shape u t l u0 s) as (user' & em & ei & ea & ->) end.
  cbv beta iota.
  match goal with |- context [foldl (anonymize_link _ _) ?r ?l] =>
    destruct (anonymize_links_shape u t l r) as (su & sn & sx & ->) end.
  change ((<[u := user']> (users s) !! v, passwords s !! v, delete u (totp s) !! v, delete u (recovery s) !! v,
    passkeys_of (s <| passkeys ::= delete (UUID_String u) |>) v, throttles s !! v, admins s !! v) = account_rows s v).
  by rewrite lookup_insert_ne, !lookup_delete_ne, passkeys_of_delete.
Qed.

Lemma anonymize_identities u t x s : ssoIdentities (anonymize u t x s) =
  update_where (λ i, bool_decide (SSOIdentity_UserID i = u)) (λ i, i <| SSOIdentity_Email := EmptyString |>)
    (ssoIdentities s).
Proof.
  unfold anonymize. cbv zeta.
  match goal with |- context [foldl (anonymize_email _ _) (?u0, _) ?l] =>
    destruct (anonymize_emails_shape u t l u0 s) as (user' & em & ei & ea & ->) end.
  cbv beta iota.
  match goal with |- context [foldl (anonymize_link _ _) ?r ?l] =>
    destruct (anonymize_links_shape u t l r) as (su & sn & sx & ->) end.
  reflexivity.
Qed.

Lemma anonymize_untouched u t x s : others_untouched u s (anonymize u t x s).
Proof.
  destruct (anonymize_tables u t x s) as (_ & _ & _ & Hi).
  destruct (anonymize_shape u t x s) as (?&?&?&?&?&?&?&?&?&?&?&?&?&?&?&?&?&Hs).
  split; [apply anonymize_others|apply anonymize_accounts|apply anonymize_addresses| |apply anonymize_links| |..];
    [| |rewrite Hs; done..].
  - rewrite anonymize_identities. apply others_same_update_where; [|done]. intros v. by rewrite bool_decide_eq_true.
  - intros k v Hv. rewrite Hi, map_lookup_imap. destruct (invitations s !! k) as [i|]; [|done]. cbn.
    case_bool_decide as Hu; [|done]. split; intros [= <-]; done.
Qed.

(** ** The operations *)

(** The account whose credentials the mutation takes away. *)
Definition deactivates (m : Mutation) : option UUID :=
  match m with
  | Do_SetUserDisabled u true _ => Some u
  | Do_CompletePasswordReset _ password _ => Some (PasswordCredential_UserID password)
  | Do_RevokeUserCredentials u _ => Some u
  | Do_AnonymizeUser u _ => Some u
  | _ => None
  end.

Lemma untouched_committed u c e b upd s :
  (∀ s, others_untouched u s (upd s)) → others_untouched u s (commitAudit e b (upd (burn c s))).
Proof.
  intros H. apply (others_untouched_view (burn c s) (upd (burn c s))); [..|apply H].
  - symmetry. apply (view_burn tables).
  - by rewrite view_commitAudit.
Qed.

Lemma deactivation_swept m u ctx c s :
  deactivates m = Some u →
  wp (run_mutation m ctx c) (λ r s', r = Ok true → no_live_credentials u s' ∧ others_untouched u s s') s.
Proof.
  intros Hu.
  destruct m; try discriminate Hu; cbn [deactivates] in Hu;
    try match type of Hu with (if ?b then _ else _) = _ => destruct b; [|discriminate Hu] end;
    injection Hu as <-; cbn [run_mutation]; unfold ran; apply wp_bind;
    lazymatch goal with |- wp ?op _ _ => let h := get_head op in unfold h end;
    (eapply (wp_mono _ (λ r s', r = Ok tt → no_live_credentials _ s' ∧ others_untouched _ s s'));
       [|intros [[]|e] s' Hs; [by intros _; apply Hs|discriminate]]);
    op_success; cbv beta zeta;
    (split; [eapply no_live_view; [by rewrite view_commitAudit by apply _|]
            |match goal with |- others_untouched _ _ (commitAudit ?e ?b ?body) =>
               let g := eval pattern (burn c s) in body in
               match g with ?f _ => apply (untouched_committed _ c e b f s); intros s0; cbv beta end end]).
  - apply sweep_none_live.
  - split; try done; [exact (sweep_others userID at_ s0)|]. intros w Hw. unfold account_rows.
    cbn. by rewrite lookup_insert_ne.
  - apply (no_live_view (sweep (PasswordCredential_UserID password) at_ (burn c s))); [done|apply sweep_none_live].
  - split; try done; [exact (sweep_others (PasswordCredential_UserID password) at_ s0)|]. intros w Hw.
    unfold account_rows. cbn. by rewrite lookup_insert_ne, lookup_delete_ne.
  - apply sweep_none_live.
  - split; try done. apply sweep_others.
  - destruct (anonymize_sweep userID at_ v (burn c s)) as [s1 ->]. apply sweep_none_live.
  - apply anonymize_untouched.
Qed.

(** C25: taking an account's credentials away is complete and confined. When an
    account is disabled or erased, completes a password reset, or has its
    credentials revoked, all its sessions, personal access tokens, OAuth
    grants, access tokens and refresh tokens are revoked in the same commit;
    and no row of another account changes: not its sessions, tokens and grants,
    its user record, password, second factors, passkeys, lockout counter and
    instance role, its email addresses, linked identities, directory links
    (where they are filed under their identifiers) and accepted invitations,
    nor any membership, authorization code, email verification or emailed
    sign-in token. The table of password resets is not part of the frame: the
    store marks the reset it is named as used without asking whose it is. *)
Theorem deactivation_cascade m u ctx c s s' :
  deactivates m = Some u → run_mutation m ctx c s = (Ok true, s') →
  no_live_credentials u s' ∧ others_untouched u s s'.
Proof.
  intros Hu Hr. exact (wp_run _ _ _ _ _ (deactivation_swept m u ctx c s Hu) Hr eq_refl).
Qed.

Lemma deactivation_cascade_witness :
  let s := step (op_at 11 (Do_CreateSession (session_of 20 1) EmptyString)) deployment in
  let s' := (run_mutation (Do_RevokeUserCredentials (uid 1) 12%Z) None (commit_at 12 "revoke") s).2 in
  no_live_credentials (uid 1) s' ∧ others_untouched (uid 1) s s'.
Proof.
  intros s s'.
  apply (deactivation_cascade (Do_RevokeUserCredentials (uid 1) 12%Z) (uid 1) None
    (commit_at 12 "revoke")); [reflexivity|].
  apply run_split. vm_compute. reflexivity.
Defined.
