(* ===== verification/Tokens.v ===== *)
(** * Token shapes, scopes and pages (src/email.go, src/pat.go)

    The raw tokens Credbound issues are three parts separated by underscores:
    a marker, an index (a UUID, or the twelve hexadecimal digits of a personal
    access token) and the base64url text of a 32-byte secret.  Their parsers,
    the validation of markers and scopes, and page limits. *)
From stdpp Require Import base gmap sets list strings numbers sorting.
From Stdlib Require Import ZArith Lia Ascii.
From S2P Require Import Prelude Bytes GoText Uuid Types Roles.

Definition defaultPATPrefix : string := "cbp".
Definition sessionTokenPrefix : string := "cbs".

(** [validTokenMarker] *)
Definition is_marker_char (c : Z) : bool := in_range 97 122 c || in_range 48 57 c.
Definition validTokenMarker (marker : string) : bool :=
  negb (bool_decide (str_len marker = 0) || bool_decide (16 < str_len marker)) &&
  forallb is_marker_char (runes marker).

Definition underscore : ascii := "_"%char.

(** [parts[2]] of both shapes: 43 characters that decode to 32 bytes. *)
Definition valid_secret (part : string) : bool :=
  match base64_RawURL_DecodeString part with
  | Some secret => bool_decide (str_len secret = 32)
  | None => false
  end.

(** [parseSecretToken] *)
Definition parseSecretToken (prefix raw : string) : option UUID :=
  match SplitN raw underscore 3 with
  | [p0; p1; p2] =>
      if bool_decide (p0 ≠ prefix) || bool_decide (str_len p2 ≠ 43) then None
      else
        match ParseUUID p1 with
        | Error _ => None
        | Ok id =>
            if bool_decide (UUID_String id ≠ p1) || negb (validUUIDv7 id) then None
            else if valid_secret p2 then Some id else None
        end
  | _ => None
  end.

(** [parsePAT] *)
Definition parsePAT (marker raw : string) : option string :=
  match SplitN raw underscore 3 with
  | [p0; p1; p2] =>
      if bool_decide (p0 ≠ marker) || bool_decide (str_len p1 ≠ 12) ||
         bool_decide (str_len p2 ≠ 43) then None
      else
        match hex_Decode p1 with
        | None => None
        | Some _ => if valid_secret p2 then Some p1 else None
        end
  | _ => None
  end.

(** The text an issued token has. *)
Definition token_text (marker index secret : string) : string :=
  marker +:+ "_" +:+ index +:+ "_" +:+ base64_RawURL_EncodeToString secret.

(** [normalizeScopes] *)
Definition valid_scope (scope : string) : bool :=
  bool_decide (scope = "*") || workspacePermissionPattern scope.

Fixpoint collect_scopes (seen result_ scopes : list string) : result (list string) :=
  match scopes with
  | [] => Ok (merge_sort str_le result_)
  | scope :: scopes' =>
      let scope := TrimSpace scope in
      if negb (valid_scope scope)
      then Error (ValidationError "scopes" "format"
                    "a PAT scope must be '*' or a workspace permission")
      else if bool_decide (scope ∈ seen) then collect_scopes seen result_ scopes'
      else collect_scopes (scope :: seen) (result_ ++ [scope]) scopes'
  end.

Definition normalizeScopes (scopes : list string) : result (list string) :=
  if bool_decide (scopes = [])
  then Error (ValidationError "scopes" "required" "at least one PAT scope is required")
  else collect_scopes [] [] scopes.

(** [normalizePage] *)
Definition normalizePage (page : PageRequest) : result PageRequest :=
  let page := if bool_decide (PageRequest_Limit page = 0)%Z
              then page <| PageRequest_Limit := 50%Z |> else page in
  if bool_decide (PageRequest_Limit page < 1)%Z || bool_decide (100 < PageRequest_Limit page)%Z
  then Error (Wrapped "page limit must be between 1 and 100" ErrInvalidInput)
  else Ok page.

(** ** Issued tokens parse, and what parses has the issued shape *)
Lemma base64_encode_bytes_length l :
  length (base64_encode_bytes l) = (length l * 4 + 2) / 3.
Proof.
  enough (∀ n l, length l ≤ n → length (base64_encode_bytes l) = (length l * 4 + 2) / 3) as H
    by eauto.
  clear l. intros n. induction n as [|n IH]; intros l Hl; [by destruct l; simpl in *; try lia|].
  destruct l as [|a [|b [|c l]]]; [done..|].
  cbn [base64_encode_bytes length] in *. rewrite IH by lia.
  replace (S (S (S (length l))) * 4 + 2) with (4 * 3 + (length l * 4 + 2)) by lia.
  rewrite Nat.div_add_l by lia. lia.
Qed.

Lemma base64_Encode_len s : str_len (base64_RawURL_EncodeToString s) = (str_len s * 4 + 2) / 3.
Proof.
  unfold base64_RawURL_EncodeToString. rewrite <- bytes_of_length, bytes_of_of, length_fmap.
  rewrite base64_encode_bytes_length, length_fmap, bytes_of_length. done.
Qed.

Lemma valid_secret_encode secret :
  str_len secret = 32 →
  valid_secret (base64_RawURL_EncodeToString secret) = true ∧
  str_len (base64_RawURL_EncodeToString secret) = 43.
Proof.
  intros H. unfold valid_secret. rewrite base64_Decode_Encode, base64_Encode_len, H.
  split; [by apply bool_decide_true|done].
Qed.

Lemma hex_digits_no_underscore s : contains_byte underscore (hex_Encode s) = false.
Proof.
  induction s as [|a s IH]; [done|]. cbn [hex_Encode].
  unfold contains_byte. rewrite !bytes_of_cons. cbn [existsb].
  assert (∀ x, bool_decide (hex_hi x = underscore) = false ∧
               bool_decide (hex_lo x = underscore) = false) as Hd.
  { intros [[] [] [] [] [] [] [] []]; split; reflexivity. }
  destruct (Hd a) as [-> ->]. exact IH.
Qed.

Lemma UUID_String_no_underscore u : contains_byte underscore (UUID_String u) = false.
Proof.
  unfold UUID_String.
  by repeat rewrite contains_byte_app, hex_digits_no_underscore, contains_byte_cons || rewrite hex_digits_no_underscore.
Qed.

Lemma token_text_split marker index secret :
  contains_byte underscore marker = false → contains_byte underscore index = false →
  SplitN (token_text marker index secret) underscore 3 =
  [marker; index; base64_RawURL_EncodeToString secret].
Proof. exact (SplitN_3 underscore marker index _). Qed.

Lemma parseSecretToken_issued prefix id secret :
  contains_byte underscore prefix = false → validUUIDv7 id = true → str_len secret = 32 →
  parseSecretToken prefix (token_text prefix (UUID_String id) secret) = Some id.
Proof.
  intros Hp Hid Hs. destruct (valid_secret_encode _ Hs) as [Hv Hl].
  unfold parseSecretToken. rewrite token_text_split by (done || apply UUID_String_no_underscore).
  rewrite Hl, !(bool_decide_false (_ ≠ _)) by (intros H; by apply H). cbn [orb].
  rewrite ParseUUID_of_String, (bool_decide_false (_ ≠ _)) by (intros H; by apply H).
  by rewrite Hid, Hv.
Qed.

Lemma parsePAT_issued marker index secret :
  contains_byte underscore marker = false → str_len index = 6 → str_len secret = 32 →
  parsePAT marker (token_text marker (hex_Encode index) secret) = Some (hex_Encode index).
Proof.
  intros Hp Hi Hs. destruct (valid_secret_encode _ Hs) as [Hv Hl].
  unfold parsePAT. rewrite token_text_split by (done || apply hex_digits_no_underscore).
  rewrite Hl, hex_Encode_len, Hi, !(bool_decide_false (_ ≠ _)) by (intros H; by apply H).
  cbn [orb]. by rewrite hex_Decode_Encode, Hv.
Qed.

Lemma parseSecretToken_inv prefix raw id :
  parseSecretToken prefix raw = Some id →
  validUUIDv7 id = true ∧ contains_byte underscore prefix = false ∧
  ∃ part, raw = prefix +:+ "_" +:+ UUID_String id +:+ "_" +:+ part ∧ valid_secret part = true.
Proof.
  unfold parseSecretToken. destruct (SplitN raw underscore 3) as [|p0 [|p1 [|p2 []]]] eqn:Hs;
    try done.
  apply SplitN_3_inv in Hs as (-> & H0 & H1).
  destruct (bool_decide (p0 ≠ prefix) || _) eqn:Hg; [done|].
  destruct (ParseUUID p1) as [id'|] eqn:Hp; [|done].
  destruct (bool_decide (UUID_String id' ≠ p1) || _) eqn:Hg'; [done|].
  destruct (valid_secret p2) eqn:Hv; [|done]. intros [= ->].
  bool_cases. assert (p0 = prefix) as -> by (by apply dec_stable).
  assert (UUID_String id = p1) as <- by (by apply dec_stable). eauto 10.
Qed.

Lemma valid_marker_no_underscore marker :
  validTokenMarker marker = true → contains_byte underscore marker = false.
Proof.
  unfold validTokenMarker, contains_byte. intros [_ H]%andb_true_iff.
  destruct (existsb _ _) eqn:He; [exfalso|done].
  apply existsb_exists in He as (b & Hin & Hb). bool_cases. subst b.
  rewrite forallb_forall in H. assert (is_marker_char 95 = true) as Hbad; [|done].
  apply H, list_elem_of_In. unfold runes. apply decode_runes_ascii_byte; [done..|].
  unfold string_Z. apply list_elem_of_fmap. exists underscore.
  split; [done|]. by apply list_elem_of_In.
Qed.

(** ** Scopes *)
Lemma valid_scope_trim scope : valid_scope scope = true → TrimSpace scope = scope.
Proof.
  intros H. apply TrimSpace_graphic. unfold valid_scope in H. apply orb_true_iff in H as [H|H].
  - bool_cases. by subst.
  - unfold workspacePermissionPattern, name_pattern in H. destruct scope as [|a s]; [done|].
    bool_cases. unfold string_Z. rewrite bytes_of_cons. cbn [fmap list_fmap forallb].
    assert (∀ x, is_lower x = true ∨ is_name_char x = true → is_graphic (byte_Z x) = true) as Hg.
    { intros [[] [] [] [] [] [] [] []]; intros [Hx|Hx]; vm_compute in Hx |- *; done. }
    apply andb_true_iff. split; [by apply Hg; left|].
    apply forallb_forall. intros z Hz%list_elem_of_In.
    apply list_elem_of_fmap in Hz as (x & -> & Hx). apply Hg. right.
    rewrite forallb_forall in H1. by apply H1, list_elem_of_In.
Qed.

#[export] Instance str_le_total : Total str_le.
Proof. intros a b. unfold str_le. destruct (String.leb_total a b); auto. Qed.
#[export] Instance str_le_antisymm : AntiSymm (=) str_le.
Proof. intros a b. apply String.leb_antisym. Qed.
#[export] Instance str_le_trans : Transitive str_le.
Proof.
  intros a b c. unfold str_le. rewrite <- !Is_true_true. apply (transitivity (R:=String.le)).
Qed.

Lemma collect_scopes_spec seen acc scopes r :
  (∀ x, x ∈ seen ↔ x ∈ acc) → NoDup acc →
  collect_scopes seen acc scopes = Ok r →
  NoDup r ∧ Sorted str_le r ∧
  (∀ x, x ∈ r ↔ x ∈ acc ∨ x ∈ TrimSpace <$> scopes) ∧
  Forall (λ x, valid_scope (TrimSpace x) = true) scopes.
Proof.
  revert seen acc. induction scopes as [|x scopes IH]; intros seen acc Hseen Hnd; cbn [collect_scopes].
  - intros [= <-]. pose proof (merge_sort_Permutation str_le acc) as Hp.
    split; [by rewrite Hp|]. split; [apply Sorted_merge_sort; apply _|].
    split; [|done]. intros x. rewrite Hp. set_solver.
  - destruct (valid_scope (TrimSpace x)) eqn:Hv; [|done]. cbn [negb].
    case_bool_decide as Hin; intros H.
    + destruct (IH _ _ Hseen Hnd H) as (H1 & H2 & H3 & H4).
      split_and!; [done..| |by constructor]. intros y. rewrite H3. cbn. rewrite elem_of_cons.
      split; [naive_solver|]. intros [?|[->|?]]; [by left| |by right]. left. by apply Hseen.
    + destruct (IH (TrimSpace x :: seen) (acc ++ [TrimSpace x])) as (H1 & H2 & H3 & H4); [| |done|].
      * intros y. rewrite elem_of_cons, elem_of_app, list_elem_of_singleton, Hseen. tauto.
      * apply NoDup_app. split_and!; [done| |by apply NoDup_singleton].
        intros y Hy ->%list_elem_of_singleton. by apply Hin, Hseen.
      * split_and!; [done..| |by constructor]. intros y. rewrite H3, elem_of_app, list_elem_of_singleton.
        cbn. rewrite elem_of_cons. tauto.
Qed.

Lemma collect_scopes_total seen acc scopes :
  is_ok (collect_scopes seen acc scopes) = true ↔
  Forall (λ x, valid_scope (TrimSpace x) = true) scopes.
Proof.
  revert seen acc. induction scopes as [|x scopes IH]; intros seen acc; cbn [collect_scopes].
  - split; [constructor|done].
  - rewrite Forall_cons. destruct (valid_scope (TrimSpace x)) eqn:Hv; cbn [negb is_ok].
    + case_bool_decide; rewrite IH; naive_solver.
    + split; [done|]. by intros [? _].
Qed.

(** Normalization is the identity on what it produces. *)
Lemma collect_scopes_fixed r :
  NoDup r → Sorted str_le r → Forall (λ x, valid_scope x = true) r →
  collect_scopes [] [] r = Ok r.
Proof.
  intros Hnd Hs Hv.
  assert (TrimSpace <$> r = r) as Htrim.
  { rewrite <- (list_fmap_id r) at 2. apply list_fmap_ext. intros i x Hx.
    exact (valid_scope_trim x (Forall_lookup_1 _ _ _ _ Hv Hx)). }
  destruct (collect_scopes [] [] r) as [r'|e] eqn:Hc.
  - destruct (collect_scopes_spec [] [] r r') as (H1 & H2 & H3 & _); [done|constructor|done|].
    f_equal. eapply (Sorted_unique str_le); [done..|]. apply NoDup_Permutation; [done..|].
    intros x. rewrite H3, Htrim. set_solver.
  - exfalso. assert (is_ok (collect_scopes [] [] r) = true) as Hok; [|by rewrite Hc in Hok].
    apply collect_scopes_total. eapply Forall_impl; [exact Hv|].
    intros x Hx. by rewrite (valid_scope_trim _ Hx).
Qed.

(** The scopes of a personal access token are normalized to a sorted list
    without duplicates that holds exactly the trimmed input, every one of them
    the wildcard or a workspace permission, and normalizing again changes
    nothing; a list is refused exactly when it is empty or holds a scope of
    another form. *)
Theorem normalizeScopes_canonical scopes :
  (∀ r, normalizeScopes scopes = Ok r →
     NoDup r ∧ Sorted str_le r ∧ r ≠ [] ∧ (∀ x, x ∈ r ↔ x ∈ TrimSpace <$> scopes) ∧
     Forall (λ x, valid_scope x = true) r ∧ normalizeScopes r = Ok r) ∧
  (is_ok (normalizeScopes scopes) = true ↔
     scopes ≠ [] ∧ Forall (λ x, valid_scope (TrimSpace x) = true) scopes).
Proof.
  unfold normalizeScopes. case_bool_decide as Hempty.
  { subst. split; [done|]. split; [done|]. naive_solver. }
  split; [|rewrite collect_scopes_total; tauto]. intros r Hr.
  destruct (collect_scopes_spec [] [] scopes r) as (H1 & H2 & H3 & H4); [done|constructor|done|].
  assert (∀ x, x ∈ r ↔ x ∈ TrimSpace <$> scopes) as Hset by (intros x; rewrite H3; set_solver).
  assert (Forall (λ x, valid_scope x = true) r) as Hv.
  { apply Forall_forall. intros x Hx%Hset.
    apply list_elem_of_fmap in Hx as (y & -> & Hy). by apply (proj1 (Forall_forall _ _) H4 y). }
  assert (r ≠ []) as Hne.
  { destruct scopes as [|x l]; [done|]. intros ->. specialize (Hset (TrimSpace x)). set_solver. }
  split_and!; [done..|]. rewrite bool_decide_false by done. by apply collect_scopes_fixed.
Qed.
