(* ===== verification/Events.v ===== *)
(** * Transaction hooks and events (src/events.go)

    The names of the events, their common header, the payload every hook
    method receives, and the registry that runs the hooks of a commit.
    Listeners observe committed facts only: their errors and panics are
    recorded by the observer and never propagate, so what is kept of an
    emission is its header. *)
From stdpp Require Import base list strings numbers.
From Stdlib Require Import ZArith.
From S2P Require Import Prelude Bytes Uuid Types OAuthTypes AuditChain Store.

(** [type EventName string] and its constants *)
Inductive EventName :=
| EventBootstrapCompleted | EventSignUpCompleted | EventUserCreated | EventUserDisabled
| EventUserEnabled | EventWorkspaceCreated | EventWorkspaceUpdated | EventWorkspaceDisabled
| EventWorkspaceEnabled | EventMembershipAdded | EventWorkspaceInvitationCreated
| EventWorkspaceInvitationAccepted | EventWorkspaceInvitationRevoked
| EventWorkspaceDomainCreated | EventWorkspaceDomainConfirmed
| EventWorkspaceDomainPolicyUpdated | EventWorkspaceDomainRemoved
| EventMembershipStatusChanged | EventMembershipRemoved | EventPasswordChanged
| EventPasswordRehashed | EventPasswordResetRequested | EventPasswordResetCompleted
| EventEmailAuthenticationRequested | EventAuthenticationSucceeded | EventAuthenticationFailed
| EventStepUpDenied | EventAuthorizationDenied | EventEmailAdded | EventEmailConfirmed
| EventEmailVerificationResent | EventPrimaryEmailChanged | EventEmailRemoved
| EventTOTPEnrollmentStarted | EventTOTPActivated | EventTOTPDisabled | EventTOTPVerified
| EventTOTPReplayRejected | EventRecoveryCodeConsumed | EventRecoveryCodesRegenerated
| EventPasskeyRegistered | EventPasskeyDeleted | EventPasskeyAuthenticated
| EventUserCredentialsRevoked | EventSecondFactorReset | EventUserAnonymized | EventUserLocked
| EventUserProfileUpdated | EventSessionCreated | EventSessionRevoked
| EventUserSessionsRevoked | EventPATCreated | EventPATRevoked | EventPATAuthenticated
| EventPATRejected | EventSSOChallengeIssued | EventSSOLinked | EventSSOUnlinked
| EventSSOAuthenticated | EventSSOJITProvisioned | EventRoleGranted | EventInstanceRoleChanged
| EventInstanceRoleRemoved | EventClientAuditRecorded | EventAuditUnavailable
| EventSCIMConfigurationCreated | EventSCIMUserProvisioned | EventSCIMUserUpdated
| EventSCIMUserActivated | EventSCIMUserSuspended | EventSCIMUserDeprovisioned
| EventSCIMGroupCreated | EventSCIMGroupUpdated | EventSCIMGroupDeleted
| EventSCIMGroupMembersChanged | EventOAuthClientRegistered | EventOAuthClientDisabled
| EventOAuthClientEnabled | EventOAuthClientSecretRotated | EventOAuthClientJWKSReplaced
| EventOAuthIssuerDisabled | EventOAuthIssuerEnabled | EventOAuthResourceDisabled
| EventOAuthResourceEnabled | EventOAuthCIMDResolved | EventOAuthCIMDRejected
| EventOAuthCIMDChanged | EventOAuthAuthorizationGranted | EventOAuthAuthorizationDenied
| EventOAuthTokenIssued | EventOAuthTokenRefreshed | EventOAuthTokenRevoked
| EventOAuthRefreshReuseDetected | EventOAuthCodeReuseDetected | EventOAuthConsentRevoked.

#[export] Instance EventName_eq_dec : EqDecision EventName.
Proof. solve_decision. Defined.

(** [type EventMeta struct], events.go:177 *)
Record EventMeta := mkEventMeta {
  EventMeta_ID : UUID; EventMeta_Name : EventName; EventMeta_Operation : string;
  EventMeta_OccurredAt : Z; EventMeta_ActorID : UUID; EventMeta_WorkspaceID : UUID;
  EventMeta_AuditID : UUID }.

(** The payloads of the hook methods: [TransactionHook] has one method per
    constructor, which receives the fields of the payload's struct. *)
Inductive Change :=
| ApplyUserCreate (meta : EventMeta) (user : User) (email : EmailAddress) (membership :
    Membership)
| ApplyWorkspaceCreate (meta : EventMeta) (workspace : Workspace) (owner : Membership)
| ApplyUserStatusChange (meta : EventMeta) (userID : UUID) (disabled : bool)
| ApplyUserProfileChange (meta : EventMeta) (user : User) (previousProfile : string)
| ApplyWorkspaceChange (meta : EventMeta) (workspace : Workspace) (previous : Workspace)
| ApplyMembershipChange (meta : EventMeta) (membership : Membership) (previous : option
    Membership) (removed : bool)
| ApplyWorkspaceInvitationChange (meta : EventMeta) (invitation : WorkspaceInvitation)
| ApplyWorkspaceDomainChange (meta : EventMeta) (domain : WorkspaceDomain) (removed : bool)
| ApplyPasswordChange (meta : EventMeta) (userID : UUID)
| ApplyEmailAddition (meta : EventMeta) (email : EmailAddress)
| ApplyEmailConfirmation (meta : EventMeta) (email : EmailAddress)
| ApplyPrimaryEmailChange (meta : EventMeta) (userID : UUID) (emailID : UUID)
| ApplyEmailRemoval (meta : EventMeta) (userID : UUID) (emailID : UUID)
| ApplyTOTPEnrollment (meta : EventMeta) (userID : UUID)
| ApplyTOTPActivation (meta : EventMeta) (userID : UUID) (recoveryCodeCount : Z)
| ApplyTOTPDisable (meta : EventMeta) (userID : UUID)
| ApplyPasskeyRegistration (meta : EventMeta) (passkeyID : UUID) (userID : UUID) (passkeyName
    : string)
| ApplyPasskeyDeletion (meta : EventMeta) (passkeyID : UUID) (userID : UUID)
| ApplyPATCreation (meta : EventMeta) (patID : UUID) (userID : UUID) (patName : string)
    (boundWorkspaceID : UUID) (scopes : list string) (expiresAt : option Z)
| ApplyPATRevocation (meta : EventMeta) (patID : UUID) (userID : UUID)
| ApplyUserCredentialRevocation (meta : EventMeta) (userID : UUID)
| ApplySecondFactorReset (meta : EventMeta) (userID : UUID)
| ApplyUserAnonymization (meta : EventMeta) (userID : UUID)
| ApplyRecoveryCodeRegeneration (meta : EventMeta) (userID : UUID) (recoveryCodeCount : Z)
| ApplySessionCreation (meta : EventMeta) (session : Session) (request : RequestMetadata)
| ApplySessionRevocation (meta : EventMeta) (sessionID : UUID) (userID : UUID)
| ApplyUserSessionRevocation (meta : EventMeta) (userID : UUID)
| ApplySSOLink (meta : EventMeta) (identity : SSOIdentity)
| ApplySSOUnlink (meta : EventMeta) (userID : UUID) (identityID : UUID)
| ApplyRoleGrant (meta : EventMeta) (userID : UUID) (role : Role) (previousRole : Role)
| ApplyInstanceRoleChange (meta : EventMeta) (userID : UUID) (role : InstanceRole)
    (previousRole : InstanceRole)
| ApplyInstanceRoleRemoval (meta : EventMeta) (userID : UUID) (previousRole : InstanceRole)
| ApplyClientAudit (meta : EventMeta) (audit : AuditEvent)
| ApplySCIMConfigurationCreate (meta : EventMeta) (configuration : SCIMConfiguration)
| ApplySCIMUserProvision (meta : EventMeta) (user : SCIMUser)
| ApplySCIMUserUpdate (meta : EventMeta) (user : SCIMUser)
| ApplySCIMUserDeprovision (meta : EventMeta) (user : SCIMUser)
| ApplySCIMGroupUpsert (meta : EventMeta) (group : SCIMGroup)
| ApplySCIMGroupDelete (meta : EventMeta) (group : SCIMGroup)
| ApplyOAuthChange (meta : EventMeta) (issuerID : UUID) (clientRecordID : UUID) (clientSource
    : OAuthClientSource) (grantID : UUID) (tokenID : UUID) (resourceID : UUID) (scopes : list
    string).

(** [TransactionHook]: the transaction of the memory store gives access to the
    audit event; a panic is an error of another package. *)
Definition TransactionHook : Type := Change → AuditEvent → option error.

(** [mapTransactionError] *)
Definition transaction_sentinels : list Sentinel :=
  [ErrInvalidCredentials; ErrUnauthorized; ErrForbidden; ErrStepUpRequired;
   ErrConflict; ErrNotFound; ErrInvalidInput; ErrExpired; ErrAuditUnavailable;
   ErrContextCanceled; ErrDeadlineExceeded].
Definition mapTransactionError (err : error) : error :=
  if existsb (errors_Is err) transaction_sentinels then err
  else Wrapped "transaction rejected" ErrTransactionRejected.

(** [eventRegistry.apply]: the hooks in order of registration, up to the first
    error. *)
Fixpoint apply_hooks (hooks : list TransactionHook) (change : Change) (tx : AuditEvent) :
    option error :=
  match hooks with
  | [] => None
  | hook :: hooks' =>
      match hook change tx with
      | Some err => Some (mapTransactionError err)
      | None => apply_hooks hooks' change tx
      end
  end.
