(* ===== verification/Manager.v ===== *)
(** * The manager: state, environment and shared steps
    (src/config.go, src/internal.go, src/auth.go, src/events.go)

    A method of the manager reads the clock, draws randomness, hashes
    passwords and calls the store; between two of these steps, requests served
    by other goroutines run.  [World] is what a method can observe and change:
    the store, the state of the identifier generator, the events emitted.
    Everything else the method observes (clock, entropy, the order of a map,
    cancellation of the context, what the other goroutines do) is indexed by a counter of the
    steps taken, [W_tick], so that it may be anything at every step. *)
From stdpp Require Import base gmap sets list strings numbers.
From Stdlib Require Import ZArith Lia Ascii.
From S2P Require Import Prelude Bytes Uuid Types OAuthTypes Roles AuditChain Store StoreUsers StoreTokens StoreWorkspaces StoreScim StoreOAuth Commit StoreSystem GoText Events.

(** What other goroutines do between two steps: an operation of the store, or
    the generation of an identifier at some instant. *)
Inductive Foreign :=
| ForeignOp (o : Op)
| ForeignID (now : Z).

(** The optional ports: a nil one is [None].  A port that reads the clock,
    draws randomness or queries the network is indexed by the step. *)
Record TOTPProvider := mkTOTPProvider {
  totp_Generate : nat → string → result (string * string);
  totp_Validate : string → string → Z → Z * bool }.
Record SSOProvider := mkSSOProvider {
  sso_ConfigurationID : UUID;
  sso_Kind : SSOProviderKind;
  sso_Begin : nat → SSORequest → result SSOProviderChallenge;
  sso_Finish : nat → string → string → result SSOClaims }.

(** [type PasskeyUser struct]; the lazy sequence of its credentials is the
    account they are read from. *)
Record PasskeyUser := mkPasskeyUser {
  PasskeyUser_User : User;
  PasskeyUser_Credentials : UUID }.

(** A call of a passkey provider: it may read the credentials of the user it
    is given, any number of times, and in a discoverable ceremony ask for the
    owner of a credential, before it answers.  A byte slice that may be nil is
    an [option string]. *)
#[warnings="-register-all"]
Inductive Ceremony (Q R : Type) :=
| Answered (r : result R)
| ReadCredentials (user : PasskeyUser) (k : list (result Passkey) → Ceremony Q R)
| Ask (q : Q) (k : result PasskeyUser → Ceremony Q R).
Arguments Answered {Q R} r.
Arguments ReadCredentials {Q R} user k.
Arguments Ask {Q R} q k.

Record DiscoverablePasskeyProvider := mkDiscoverablePasskeyProvider {
  passkey_BeginDiscoverable : nat → result (string * option string);
  passkey_FinishDiscoverable : nat → option string → string → Ceremony string (string * string) }.
Record PasskeyProvider := mkPasskeyProvider {
  passkey_BeginRegistration : nat → PasskeyUser → Ceremony Empty_set (string * option string);
  passkey_FinishRegistration : nat → PasskeyUser → option string → string → Ceremony Empty_set (string * string);
  passkey_BeginAuthentication : nat → PasskeyUser → Ceremony Empty_set (string * option string);
  passkey_BeginDecoy : nat → string → result (string * option string);
  passkey_FinishAuthentication : nat → PasskeyUser → option string → string → Ceremony Empty_set (string * string);
  passkey_Discoverable : option DiscoverablePasskeyProvider }.

Record OIDCSigner := mkOIDCSigner {
  oidc_SignIDToken : nat → OIDCClaims → result string;
  oidc_JWKS : nat → result string;
  oidc_Algorithms : list string }.

(** [type OAuthConfig struct] *)
Record OAuthConfig := mkOAuthConfig {
  OAuthConfig_Pepper : string;
  OAuthConfig_Fetch : option (nat → string → result OAuthClientMetadataDocument);
  OAuthConfig_VerifyAssertion : option (nat → OAuthClient → string → string → Z → option error);
  OAuthConfig_OIDCSigner : option OIDCSigner }.

(** [type Manager struct]: the keys and policies [New] keeps, the ports, and
    the environment.  A capability of the store is a boolean; the mutex and
    the generator's state are in [World]. *)
Record Manager := mkManager {
  (* ports *)
  m_Hash : nat → string → result string;
  m_Verify : string → string → result (bool * bool);
  m_passwordPolicy : option (nat → string → option error);
  m_totp : option TOTPProvider;
  m_passkeys : option PasskeyProvider;
  m_domainVerifier : option (nat → string → string → option error);
  m_trustActorDomains : bool;
  m_ssoProviders : gmap UUID SSOProvider;
  m_ssoAssurance : gmap UUID SSOAssurancePolicy;
  m_signup : option bool;
  m_scimStore : bool;
  m_privacyStore : bool;
  m_signupStore : bool;
  m_sessionStore : bool;
  m_emailThrottle : bool;
  m_domainStore : bool;
  m_passkeyCredentialStore : bool;
  m_oauth : option OAuthConfig;
  (* Unicode, IDNA and public suffix tables *)
  m_unicode_ToLower : string → string;
  m_unicode_ToUpper : string → string;
  m_idna_ToASCII : string → option string;
  m_PublicSuffix : string → string;
  (* keys *)
  m_sealKey : string;
  m_readSealKeys : list string;
  m_digestKey : string;
  m_readDigestKeys : list string;
  m_patPepper : string;
  m_readPATPeppers : list string;
  m_recoveryPepper : string;
  m_readRecoveryPeppers : list string;
  m_patPrefix : string;
  m_dummyHash : string;
  (* policies *)
  m_stepUpMaxAge : Z;
  m_stepUp : StepUpPolicies;
  m_ceremonyTTL : Z;
  m_minPasswordLen : Z;
  m_maxFailedLogins : Z;
  m_lockoutDuration : Z;
  m_emailVerificationTTL : Z;
  m_passwordResetTTL : Z;
  m_emailAuthTTL : Z;
  m_invitationTTL : Z;
  m_domainClaimTTL : Z;
  m_emailIssuanceCooldown : Z;
  m_sessionTTL : Z;
  m_sessionIdleTimeout : Z;
  m_sessionTouchInterval : Z;
  m_patTouchInterval : Z;
  m_adminPermissions : gmap InstanceRole (gset Permission);
  m_workspaceRoles : roleCatalog;
  m_hooks : list TransactionHook;
  (* environment *)
  m_clock : nat → Z;
  m_random_error : nat → option error;
  m_random_byte : nat → nat → ascii;
  m_mapOrder : nat → nat;
  m_interference : nat → list Foreign }.

#[export] Instance Manager_eta : Settable Manager := λ m,
  mkManager (m_Hash m) (m_Verify m) (m_passwordPolicy m) (m_totp m) (m_passkeys m)
    (m_domainVerifier m) (m_trustActorDomains m) (m_ssoProviders m) (m_ssoAssurance m)
    (m_signup m) (m_scimStore m) (m_privacyStore m) (m_signupStore m) (m_sessionStore m)
    (m_emailThrottle m) (m_domainStore m) (m_passkeyCredentialStore m) (m_oauth m)
    (m_unicode_ToLower m) (m_unicode_ToUpper m)
    (m_idna_ToASCII m) (m_PublicSuffix m) (m_sealKey m) (m_readSealKeys m) (m_digestKey m)
    (m_readDigestKeys m) (m_patPepper m) (m_readPATPeppers m) (m_recoveryPepper m)
    (m_readRecoveryPeppers m) (m_patPrefix m) (m_dummyHash m) (m_stepUpMaxAge m) (m_stepUp m)
    (m_ceremonyTTL m) (m_minPasswordLen m) (m_maxFailedLogins m) (m_lockoutDuration m)
    (m_emailVerificationTTL m) (m_passwordResetTTL m) (m_emailAuthTTL m) (m_invitationTTL m)
    (m_domainClaimTTL m) (m_emailIssuanceCooldown m) (m_sessionTTL m) (m_sessionIdleTimeout m)
    (m_sessionTouchInterval m) (m_patTouchInterval m) (m_adminPermissions m)
    (m_workspaceRoles m) (m_hooks m) (m_clock m) (m_random_error m) (m_random_byte m)
    (m_mapOrder m) (m_interference m).

(** [context.Context]: whether it is done at a step, and the request metadata
    it carries. *)
Record Ctx := mkCtx {
  Ctx_Err : nat → Context;
  Ctx_metadata : RequestMetadata }.

(** The receiver and the context of a call. *)
Class Env := mkEnv { the_manager : Manager; the_ctx : Ctx }.

Record World := mkWorld {
  W_store : Store;
  W_idUnixMilli : Z;
  W_idSequence : Z;
  W_events : list EventMeta;
  W_tick : nat }.
#[export] Instance World_eta : Settable World := λ w,
  mkWorld (W_store w) (W_idUnixMilli w) (W_idSequence w) (W_events w) (W_tick w).

(** The generator of [newID] advances past the last identifier: a later
    millisecond, or the next sequence number, carried over at 0x0fff. *)
Definition next_id (now idUnixMilli idSequence : Z) : Z * Z :=
  if bool_decide (idUnixMilli < now)%Z then (now, 0%Z)
  else if bool_decide (idSequence = 0x0fff)%Z then (wrap64 (idUnixMilli + 1), 0%Z)
  else (idUnixMilli, (idSequence + 1)%Z).

Definition advance_id (now : Z) (w : World) : World :=
  let p := next_id (UnixMilli now) (W_idUnixMilli w) (W_idSequence w) in
  w <| W_idUnixMilli := p.1 |> <| W_idSequence := p.2 |>.

Definition run_foreign (f : Foreign) (w : World) : World :=
  match f with
  | ForeignOp o => w <| W_store ::= step o |>
  | ForeignID now => advance_id now w
  end.

Section steps.
Context {E : Env}.
Abbreviation m := the_manager.
Abbreviation ctx := the_ctx.

Definition interfere : M World unit := λ w,
  (Ok tt, foldl (λ w f, run_foreign f w) w (m_interference m (W_tick w))).

Definition tick : World → World := λ w, w <| W_tick ::= S |>.

(** [m.now()] *)
Definition now : M World Z := λ w, (Ok (m_clock m (W_tick w)), tick w).

(** [randomBytes(m.random, size)] *)
Definition randomBytes (size : nat) : M World string := λ w,
  match m_random_error m (W_tick w) with
  | Some e => (Error (Wrapped "read secure randomness" e), tick w)
  | None => (Ok (of_bytes (m_random_byte m (W_tick w) <$> seq 0 size)), tick w)
  end.

(** The entry a [range] over a map of [size] entries visits first. *)
Definition map_first (size : nat) : M World nat := λ w,
  (Ok (m_mapOrder m (W_tick w) mod size), tick w).

(** [m.passwords.Hash]; the salt makes every call different. *)
Definition passwords_Hash (password : string) : M World string := λ w,
  (m_Hash m (W_tick w) password, tick w).

(** A call of a port. *)
Definition port {A} (f : nat → result A) : M World A := λ w, (f (W_tick w), tick w).

(** A call of the store, atomic under its mutex. *)
Definition store_step {A} (f : Context → M Store A) : M World A := λ w,
  let r := f (Ctx_Err ctx (W_tick w)) (W_store w) in
  (r.1, tick (w <| W_store := r.2 |>)).
Definition call {A} (f : Context → M Store A) : M World A := interfere;; store_step f.

(** [Manager.newID]; the generator advances even when the entropy fails. *)
Definition newID : M World UUID :=
  interfere;;
  at_ ← now;
  modify (advance_id at_);;
  b ← randomBytes 16;
  w ← get;
  mret (v7_bytes (W_idUnixMilli w) (W_idSequence w) (default Nil (UUID_of_list (bytes_of b)))).

(** [m.events.emit] *)
Definition emit (meta : EventMeta) : M World unit :=
  modify (λ w, w <| W_events ::= (λ l, l ++ [meta]) |>).

(** [Manager.newEventMeta] *)
Definition newEventMeta (name : EventName) (operation : string) (actorID workspaceID : UUID)
    (audit : AuditEvent) : M World EventMeta :=
  id ← newID;
  at_ ← now;
  mret (mkEventMeta id name operation at_ actorID workspaceID (AuditEvent_ID audit)).

(** An advisory event: it is dropped when its header cannot be made. *)
Definition emit_new (name : EventName) (operation : string) (actorID workspaceID : UUID)
    (audit : AuditEvent) : M World unit :=
  r ← attempt (newEventMeta name operation actorID workspaceID audit);
  match r with Ok meta => emit meta | Error _ => mret tt end.

(** [Manager.newAudit] *)
Definition newAudit (actor : UUID) (action resourceType resourceID : string) (workspaceID : UUID)
    (outcome : AuditOutcome) (reason : string) : M World AuditEvent :=
  id ← newID;
  at_ ← now;
  mret (AuditEvent_zero
    <| AuditEvent_ID := id |>
    <| AuditEvent_OccurredAt := Time_Truncate at_ 1000 |>
    <| AuditEvent_ActorKind := ActorUser |>
    <| AuditEvent_ActorID := actor |>
    <| AuditEvent_Action := action |>
    <| AuditEvent_ResourceType := resourceType |>
    <| AuditEvent_ResourceID := resourceID |>
    <| AuditEvent_WorkspaceID := workspaceID |>
    <| AuditEvent_Outcome := outcome |>
    <| AuditEvent_Reason := reason |>
    <| AuditEvent_IPAddress := RequestMetadata_IPAddress (Ctx_metadata ctx) |>
    <| AuditEvent_UserAgent := RequestMetadata_UserAgent (Ctx_metadata ctx) |>).

(** [Commit{Audit: event}] *)
Definition audit_commit (event : AuditEvent) : Commit := mkCommit event None None false.

(** [Manager.transactionalCommit] *)
Definition transactionalCommit (audit : AuditEvent) (change : Change) : Commit :=
  mkCommit audit (Some (apply_hooks (m_hooks m) change)) None false.

(** [mapAuditError] *)
Definition mapAuditError (err : error) : error :=
  if errors_Is err ErrAuditUnavailable then ErrAuditUnavailable else err.

(** [Manager.mapStoreError] *)
Definition mapStoreError (operation : string) (err : error) : M World error :=
  let mapped := mapAuditError err in
  (if errors_Is mapped ErrAuditUnavailable
   then emit_new EventAuditUnavailable operation Nil Nil AuditEvent_zero
   else mret tt);;
  mret mapped.

(** [if err := f(); err != nil { return m.mapStoreError(ctx, operation, err) }] *)
Definition mapped {A} (operation : string) (f : M World A) : M World A :=
  r ← attempt f;
  match r with
  | Ok a => mret a
  | Error e => e' ← mapStoreError operation e; throw e'
  end.

(** [digest], [Manager.tokenDigest] and [matchDigestRing] *)
Definition digest (key value : string) : string := hmac_sha256 key value.
Definition tokenDigest (value : string) : string := digest (m_digestKey m) value.
Definition matchDigestRing (stored : string) (keys : list string) (value : string) : bool :=
  existsb (λ key, bool_decide (stored = digest key value)) keys.
Definition matchTokenDigest (stored value : string) : bool :=
  matchDigestRing stored (m_readDigestKeys m) value.

(** [strings.ToLower]: the ASCII case, and the Unicode tables otherwise. *)
Definition ToLower (s : string) : string :=
  if is_ascii_string s then str_lower s else m_unicode_ToLower m s.

(** [normalizeEmail] *)
Definition normalizeEmail (value : string) : string := ToLower (TrimSpace value).

(** [Manager.recordAuthenticationAudit] *)
Definition recordAuthenticationAudit (actor : UUID) (action : string) (outcome : AuditOutcome)
    (reason : string) : M World AuditEvent :=
  event ← newAudit actor action "user" (UUID_String actor) Nil outcome reason;
  (if bool_decide (outcome = AuditSucceeded) && bool_decide (actor ≠ Nil) then
     at_ ← now;
     mapped action (call (λ ctx, RecordAuthentication ctx actor at_ (audit_commit event)))
   else mapped action (call (λ ctx, AppendAudit ctx (audit_commit event))));;
  mret event.

(** [Manager.appendAuthenticationAudit] *)
Definition appendAuthenticationAudit (actor : UUID) (action : string) (outcome : AuditOutcome)
    (reason : string) : M World unit :=
  _ ← recordAuthenticationAudit actor action outcome reason; mret tt.

(** [Manager.recordAuthenticationFailure] *)
Definition recordAuthenticationFailure (userID : UUID) (action : string) (countFailure : bool) :
    M World AuditEvent :=
  if negb countFailure || bool_decide (m_maxFailedLogins m ≤ 0)%Z
  then recordAuthenticationAudit userID action AuditFailed "invalid_credentials"
  else
    event ← newAudit userID action "user" (UUID_String userID) Nil AuditFailed "invalid_credentials";
    at_ ← now;
    lockedFrom ← now;
    throttle ← mapped action (call (λ ctx,
      RecordLoginFailure ctx userID at_ (m_maxFailedLogins m)
        (lockedFrom + m_lockoutDuration m)%Z (audit_commit event)));
    (if not_nil (LoginThrottle_LockedUntil throttle) &&
        bool_decide (LoginThrottle_FailedAttempts throttle = m_maxFailedLogins m)
     then emit_new EventUserLocked action userID Nil event
     else mret tt);;
    mret event.

(** [Manager.requireUnlocked] *)
Definition requireUnlocked (userID : UUID) (action : string) : M World unit :=
  if bool_decide (m_maxFailedLogins m ≤ 0)%Z then mret tt
  else
    r ← attempt (call (λ ctx, LoginThrottleByUserID ctx userID));
    match r with
    | Error e => if errors_Is e ErrNotFound then mret tt else throw e
    | Ok throttle =>
        match LoginThrottle_LockedUntil throttle with
        | None => mret tt
        | Some until =>
            at_ ← now;
            if Time_Before at_ until then
              appendAuthenticationAudit userID action AuditFailed "locked";;
              throw ErrLocked
            else mret tt
        end
    end.

(** [emitAuthenticationSucceeded] and [emitAuthenticationFailed] *)
Definition emitAuthenticationSucceeded (operation : string) (audit : AuditEvent)
    (authentication : Authentication) : M World unit :=
  emit_new EventAuthenticationSucceeded operation (Authentication_UserID authentication)
    (Authentication_WorkspaceID authentication) audit.
Definition emitAuthenticationFailed (operation : string) (audit : AuditEvent) (userID : UUID) :
    M World unit :=
  emit_new EventAuthenticationFailed operation userID Nil audit.

End steps.
