(* ===== verification/ManagerGates.v ===== *)
(** * Authorization gates (src/auth.go, src/rbac.go, src/admin.go, src/lifecycle.go)

    The checks every operation of the manager starts with: the step-up gates
    with their policies, workspace roles and permissions, and instance
    administration. *)
From stdpp Require Import base gmap sets list strings numbers.
From Stdlib Require Import ZArith Lia.
From S2P Require Import Prelude Bytes Uuid Types OAuthTypes Roles AuditChain Store StoreUsers StoreTokens StoreWorkspaces StoreScim StoreOAuth Commit StoreSystem GoText Tokens Events Manager.

Section gates.
Context {E : Env}.
Abbreviation m := the_manager.

(** [authn.UserID == (UUID{})] *)
Definition anonymous (authn : Authentication) : bool :=
  bool_decide (Authentication_UserID authn = Nil).

(** [Manager.requireActiveUser]; [Authorize], [AuthorizePermission] and
    [authorizeWorkspaceMutation] inline the same check. *)
Definition requireActiveUser (userID : UUID) : M World unit :=
  r ← attempt (call (λ ctx, UserByID ctx userID));
  match r with
  | Error _ => throw ErrForbidden
  | Ok user => throw_if (User_Disabled user) ErrForbidden
  end.

(** [Manager.requireInteractive] *)
Definition requireInteractive (authn : Authentication) : M World unit :=
  throw_if (anonymous authn) ErrUnauthorized;;
  throw_if (negb (Interactive authn) || Authentication_SecondFactorRequired authn) ErrStepUpRequired;;
  requireActiveUser (Authentication_UserID authn).

(** [age < 0 || age > m.stepUpMaxAge] *)
Definition outside_window (now_ : Z) (authn : Authentication) : bool :=
  let age := Time_Sub now_ (Authentication_AuthenticatedAt authn) in
  bool_decide (age < 0)%Z || bool_decide (m_stepUpMaxAge m < age)%Z.

(** [Manager.requireRecentInteractive] *)
Definition requireRecentInteractive (authn : Authentication) : M World unit :=
  throw_if (anonymous authn) ErrUnauthorized;;
  at_ ← now;
  throw_if (negb (Interactive authn) || Authentication_SecondFactorRequired authn ||
            outside_window at_ authn) ErrStepUpRequired;;
  requireActiveUser (Authentication_UserID authn).

(** [Manager.RequireStepUp] *)
Definition RequireStepUp (authn : Authentication) : M World unit :=
  throw_if (anonymous authn) ErrUnauthorized;;
  at_ ← now;
  throw_if (negb (Interactive authn) || bool_decide (Authentication_Level authn < AAL2)%Z ||
            Authentication_SecondFactorRequired authn || outside_window at_ authn) ErrStepUpRequired.

(** [Manager.stepUpCapable] *)
Definition stepUpCapable (userID : UUID) : M World bool :=
  if bool_decide (userID = Nil) then mret false
  else
    r ← attempt (call (λ ctx, TOTPByUserID ctx userID));
    let capable :=
      match r with
      | Error e => negb (errors_Is e ErrNotFound)
      | Ok factor => TOTPFactor_Active factor
      end in
    if capable then mret true
    else if negb (not_nil (m_passkeys m)) then mret false
    else
      r ← attempt (call (λ ctx, Passkeys ctx userID));
      match r with
      | Error _ => mret true
      | Ok l => mret (negb (bool_decide (l = [])))
      end.

(** The policy of the scope demands a full step-up of this user. *)
Definition step_up_demanded (authn : Authentication) (scope : StepUpScope) : M World bool :=
  let policy := policyFor (m_stepUp m) scope in
  if bool_decide (policy = StepUpPolicyRequired) then mret true
  else if bool_decide (policy = StepUpPolicyUserCapable)
  then stepUpCapable (Authentication_UserID authn)
  else mret false.

(** [Manager.RequireStepUpFor] *)
Definition RequireStepUpFor (authn : Authentication) (scope : StepUpScope) : M World unit :=
  demanded ← step_up_demanded authn scope;
  if (demanded : bool) then
    RequireStepUp authn;;
    requireActiveUser (Authentication_UserID authn)
  else requireInteractive authn.

(** [Manager.denyStepUp] *)
Definition denyStepUp (authn : Authentication) (operation : string) (err : error) :
    M World error :=
  (if errors_Is err ErrStepUpRequired
   then emit_new EventStepUpDenied operation (Authentication_UserID authn)
          (Authentication_WorkspaceID authn) AuditEvent_zero
   else mret tt);;
  mret err.

(** [Manager.requireScopedStepUp] *)
Definition requireScopedStepUp (authn : Authentication) (scope : StepUpScope) (operation : string) :
    M World unit :=
  r ← attempt (RequireStepUpFor authn scope);
  match r with
  | Ok _ => mret tt
  | Error e => e' ← denyStepUp authn operation e; throw e'
  end.

(** [Manager.emitAuthorizationDenied] *)
Definition emitAuthorizationDenied (authn : Authentication) (workspaceID : UUID) : M World unit :=
  emit_new EventAuthorizationDenied "rbac.authorize" (Authentication_UserID authn) workspaceID
    AuditEvent_zero.

(** A lookup whose absence is [ErrForbidden], after [absent] ran. *)
Definition lookup_or_forbidden {A} (f : Context → M Store A) (absent : M World unit) : M World A :=
  r ← attempt (call f);
  match r with
  | Ok a => mret a
  | Error e => if errors_Is e ErrNotFound then absent;; throw ErrForbidden else throw e
  end.

(** The binding of a workspace-bound credential. *)
Definition bound_elsewhere (authn : Authentication) (workspaceID : UUID) : bool :=
  bool_decide (Authentication_WorkspaceID authn ≠ Nil) &&
  bool_decide (Authentication_WorkspaceID authn ≠ workspaceID).

(** [workspace.RequireMFA && authn.Interactive() && authn.Level < AAL2] *)
Definition mfa_missing (workspace : Workspace) (authn : Authentication) : bool :=
  Workspace_RequireMFA workspace && Interactive authn &&
  bool_decide (Authentication_Level authn < AAL2)%Z.

(** [Manager.Authorize] *)
Definition Authorize (authn : Authentication) (workspaceID : UUID) (minimumRole : Role) :
    M World unit :=
  throw_if (anonymous authn) ErrUnauthorized;;
  throw_if (Authentication_SecondFactorRequired authn) ErrStepUpRequired;;
  throw_if (bool_decide (workspaceID = Nil)) (Wrapped "workspace id is required" ErrInvalidInput);;
  requireActiveUser (Authentication_UserID authn);;
  required ← lift_result (roleCatalog_normalize (m_workspaceRoles m) minimumRole);
  (if negb (bool_decide (Authentication_Scopes authn = [])) && negb (HasScope authn "*")
   then emitAuthorizationDenied authn workspaceID;; throw ErrForbidden else mret tt);;
  (if bound_elsewhere authn workspaceID
   then emitAuthorizationDenied authn workspaceID;; throw ErrForbidden else mret tt);;
  workspace ← lookup_or_forbidden (λ ctx, WorkspaceByID ctx workspaceID) (mret tt);
  throw_if (not_nil (Workspace_DisabledAt workspace)) ErrForbidden;;
  throw_if (mfa_missing workspace authn) ErrStepUpRequired;;
  membership ← lookup_or_forbidden
    (λ ctx, Membership_ ctx workspaceID (Authentication_UserID authn))
    (emitAuthorizationDenied authn workspaceID);
  if bool_decide (Membership_Status membership ≠ MembershipActive) ||
     negb (includes (m_workspaceRoles m) (Membership_Role membership) required)
  then emitAuthorizationDenied authn workspaceID;; throw ErrForbidden
  else mret tt.

(** [Manager.AuthorizePermission] *)
Definition AuthorizePermission (authn : Authentication) (workspaceID : UUID)
    (permission : WorkspacePermission) : M World unit :=
  throw_if (anonymous authn) ErrUnauthorized;;
  throw_if (Authentication_SecondFactorRequired authn) ErrStepUpRequired;;
  throw_if (bool_decide (workspaceID = Nil) || negb (workspacePermissionPattern permission))
    (Wrapped "workspace id and permission are required" ErrInvalidInput);;
  (if negb (bool_decide (Authentication_Scopes authn = [])) && negb (HasScope authn permission)
   then emitAuthorizationDenied authn workspaceID;; throw ErrForbidden else mret tt);;
  requireActiveUser (Authentication_UserID authn);;
  (if bound_elsewhere authn workspaceID
   then emitAuthorizationDenied authn workspaceID;; throw ErrForbidden else mret tt);;
  workspace ← lookup_or_forbidden (λ ctx, WorkspaceByID ctx workspaceID) (mret tt);
  throw_if (not_nil (Workspace_DisabledAt workspace)) ErrForbidden;;
  throw_if (mfa_missing workspace authn) ErrStepUpRequired;;
  membership ← lookup_or_forbidden
    (λ ctx, Membership_ ctx workspaceID (Authentication_UserID authn)) (mret tt);
  throw_if (bool_decide (Membership_Status membership ≠ MembershipActive) ||
            negb (allows (m_workspaceRoles m) (Membership_Role membership) permission)) ErrForbidden.

(** [Manager.authorizeWorkspaceMutation] *)
Definition authorizeWorkspaceMutation (actor : Authentication) (workspaceID : UUID)
    (permission : WorkspacePermission) (operation : string) : M World unit :=
  requireScopedStepUp actor StepUpScopeWorkspace operation;;
  throw_if (negb (validUUIDv7 workspaceID)) (Wrapped "invalid workspace id" ErrInvalidInput);;
  requireActiveUser (Authentication_UserID actor);;
  throw_if (bound_elsewhere actor workspaceID) ErrForbidden;;
  workspace ← lookup_or_forbidden (λ ctx, WorkspaceByID ctx workspaceID) (mret tt);
  throw_if (not_nil (Workspace_DisabledAt workspace) &&
            bool_decide (operation ≠ "workspace.enable")) ErrForbidden;;
  membership ← lookup_or_forbidden
    (λ ctx, Membership_ ctx workspaceID (Authentication_UserID actor)) (mret tt);
  throw_if (bool_decide (Membership_Status membership ≠ MembershipActive) ||
            negb (allows (m_workspaceRoles m) (Membership_Role membership) permission)) ErrForbidden.

(** [Manager.hasAdminPermission] *)
Definition hasAdminPermission (role : InstanceRole) (permission : Permission) : bool :=
  match m_adminPermissions m !! role with
  | None => false
  | Some permissions => bool_decide (permission ∈ permissions)
  end.

(** [Manager.AuthorizeAdmin] *)
Definition AuthorizeAdmin (actor : Authentication) (permission : Permission) : M World unit :=
  throw_if (anonymous actor) ErrUnauthorized;;
  let instanceCredential := bool_decide (Authentication_WorkspaceID actor = Nil) &&
    (bool_decide (Authentication_Scopes actor = []) || HasScope actor "*") in
  user ← attempt (call (λ ctx, UserByID ctx (Authentication_UserID actor)));
  admin ← attempt (call (λ ctx, InstanceAdministrator_ ctx (Authentication_UserID actor)));
  let allowed := instanceCredential &&
    match user, admin with
    | Ok user, Ok admin =>
        negb (User_Disabled user) &&
        hasAdminPermission (InstanceAdministrator_Role admin) permission
    | _, _ => false
    end in
  event ← newAudit (Authentication_UserID actor) "admin.access" "permission" permission Nil
    (if allowed then AuditSucceeded else AuditFailed) (if allowed then EmptyString else "forbidden");
  mapped "admin.access" (call (λ ctx, AppendAudit ctx (audit_commit event)));;
  match admin with
  | Error e => throw_if (negb (errors_Is e ErrNotFound)) e
  | Ok _ => mret tt
  end;;
  match user with
  | Error e => throw_if (negb (errors_Is e ErrNotFound)) e
  | Ok _ => mret tt
  end;;
  throw_if (negb allowed) ErrForbidden.

(** [Manager.RequireAdminMutation] and [requireAdminMutation] *)
Definition RequireAdminMutation (actor : Authentication) (request : TrustedRequest) : M World unit :=
  throw_if (anonymous actor || negb (Interactive actor)) ErrUnauthorized;;
  if TrustedRequest_Local request then mret tt else RequireStepUp actor.
Definition requireAdminMutation (actor : Authentication) (request : TrustedRequest)
    (operation : string) : M World unit :=
  throw_if (anonymous actor || negb (Interactive actor)) ErrUnauthorized;;
  if TrustedRequest_Local request then mret tt
  else requireScopedStepUp actor StepUpScopeAdmin operation.

End gates.

(** ** The permissions of instance roles (admin.go) *)
Definition defaultAdminPermissions : list (InstanceRole * list Permission) :=
  [(InstanceRoleRoot,
     [PermissionAdminAccess; PermissionAuditRead; PermissionSettingsRead; PermissionSettingsWrite;
      PermissionUsersRead; PermissionUsersWrite; PermissionWorkspacesRead;
      PermissionWorkspacesWrite; PermissionRBACRead; PermissionRBACWrite;
      PermissionInstanceRolesRead; PermissionInstanceRolesWrite]);
   (InstanceRoleDeveloper,
     [PermissionAdminAccess; PermissionAuditRead; PermissionSettingsRead; PermissionSettingsWrite;
      PermissionUsersRead; PermissionWorkspacesRead; PermissionRBACRead]);
   (InstanceRoleSupport,
     [PermissionAdminAccess; PermissionAuditRead; PermissionUsersRead; PermissionUsersWrite;
      PermissionWorkspacesRead]);
   (InstanceRoleMarketing,
     [PermissionAdminAccess; PermissionSettingsRead; PermissionUsersRead;
      PermissionWorkspacesRead]);
   (InstanceRoleSales,
     [PermissionAdminAccess; PermissionUsersRead; PermissionWorkspacesRead])].

Definition default_permissions (role : InstanceRole) : option (list Permission) :=
  snd <$> (list_find (λ p, p.1 = role) defaultAdminPermissions ≫= λ x, Some x.2).

(** The loop of [buildAdminPermissions] over the default roles. *)
Fixpoint build_roles (overrides : gmap InstanceRole (list Permission))
    (roles : list (InstanceRole * list Permission))
    (acc : gmap InstanceRole (gset Permission)) :
    result (gmap InstanceRole (gset Permission)) :=
  match roles with
  | [] => Ok acc
  | (role, defaults) :: roles' =>
      let selected := default defaults (overrides !! role) in
      if forallb (λ p, bool_decide (p ∈ defaults)) selected
      then build_roles overrides roles' (<[role := list_to_set selected]> acc)
      else Error (Wrapped "role cannot be granted permission" ErrInvalidInput)
  end.

(** [buildAdminPermissions] *)
Definition buildAdminPermissions (overrides : gmap InstanceRole (list Permission)) :
    result (gmap InstanceRole (gset Permission)) :=
  match build_roles overrides defaultAdminPermissions ∅ with
  | Error e => Error e
  | Ok built =>
      if map_existsb (λ role _, negb (bool_decide (is_Some (default_permissions role)))) overrides
      then Error (Wrapped "unknown instance role" ErrInvalidInput)
      else Ok built
  end.
