(* ===== verification/Config.v ===== *)
(** * Construction of the manager (src/config.go)

    The configuration a host supplies, its validation and defaults, and the
    derivation of the keys.  A Go [nil] port, hook or provider is [None]; a
    capability of the store is whether its dynamic type implements the
    optional interface. *)
From stdpp Require Import base gmap sets list strings numbers.
From Stdlib Require Import ZArith Lia Ascii.
From S2P Require Import Prelude Bytes Uuid Types OAuthTypes Roles Store StoreSystem GoText Tokens Events Manager ManagerGates.

(** The optional interfaces of [cfg.Store]. *)
Record StoreCapabilities := mkStoreCapabilities {
  implements_SCIMStore : bool;
  implements_PrivacyStore : bool;
  implements_SignupStore : bool;
  implements_SessionStore : bool;
  implements_EmailThrottleStore : bool;
  implements_DomainStore : bool;
  implements_OAuthStore : bool;
  implements_PasskeyCredentialStore : bool }.

Record PasswordHasher := mkPasswordHasher {
  hasher_Hash : nat → string → result string;
  hasher_Verify : string → string → result (bool * bool) }.

(** [type Config struct]; of [SignUpConfig] its flag; the observer is dropped.  The last group stands for the process:
    [Clock], [Random], the Unicode, IDNA and public suffix tables, and what
    other goroutines do. *)
Record Config := mkConfig {
  cfg_Store : option StoreCapabilities;
  cfg_Passwords : option PasswordHasher;
  cfg_TOTP : option TOTPProvider;
  cfg_Passkeys : option PasskeyProvider;
  cfg_DomainVerifier : option (nat → string → string → option error);
  cfg_TrustActorDomainVerification : bool;
  cfg_SecretKey : string;
  cfg_PATPepper : string;
  cfg_RecoveryPepper : string;
  cfg_RetiredSecretKeys : list string;
  cfg_RetiredPATPeppers : list string;
  cfg_RetiredRecoveryPeppers : list string;
  cfg_PATPrefix : string;
  cfg_PATTouchInterval : Z;
  cfg_StepUpMaxAge : Z;
  cfg_StepUp : StepUpPolicies;
  cfg_CeremonyTTL : Z;
  cfg_MinPasswordLen : Z;
  cfg_PasswordPolicy : option (nat → string → option error);
  cfg_MaxFailedLogins : Z;
  cfg_LockoutDuration : Z;
  cfg_AdminPermissions : gmap InstanceRole (list Permission);
  cfg_WorkspaceRoles : list RoleDefinition;
  cfg_EmailVerificationTTL : Z;
  cfg_PasswordResetTTL : Z;
  cfg_EmailAuthenticationTTL : Z;
  cfg_InvitationTTL : Z;
  cfg_DomainClaimTTL : Z;
  cfg_SessionTTL : Z;
  cfg_SessionIdleTimeout : Z;
  cfg_SessionTouchInterval : Z;
  cfg_EmailIssuanceCooldown : Z;
  cfg_SSOProviders : list (option SSOProvider);
  cfg_SSOAssurance : gmap UUID SSOAssurancePolicy;
  cfg_TransactionHooks : list (option TransactionHook);
  cfg_EventListeners : list bool;
  cfg_OAuth : option OAuthConfig;
  cfg_SignUp : option bool;
  cfg_unicode_ToLower : string → string;
  cfg_unicode_ToUpper : string → string;
  cfg_idna_ToASCII : string → option string;
  cfg_PublicSuffix : string → string;
  cfg_Clock : nat → Z;
  cfg_random_error : nat → option error;
  cfg_random_byte : nat → nat → ascii;
  cfg_mapOrder : nat → nat;
  cfg_interference : nat → list Foreign }.

#[export] Instance Config_eta : Settable Config := λ c,
  mkConfig (cfg_Store c) (cfg_Passwords c) (cfg_TOTP c) (cfg_Passkeys c) (cfg_DomainVerifier c)
    (cfg_TrustActorDomainVerification c) (cfg_SecretKey c) (cfg_PATPepper c)
    (cfg_RecoveryPepper c) (cfg_RetiredSecretKeys c) (cfg_RetiredPATPeppers c)
    (cfg_RetiredRecoveryPeppers c) (cfg_PATPrefix c) (cfg_PATTouchInterval c)
    (cfg_StepUpMaxAge c) (cfg_StepUp c) (cfg_CeremonyTTL c) (cfg_MinPasswordLen c)
    (cfg_PasswordPolicy c) (cfg_MaxFailedLogins c) (cfg_LockoutDuration c)
    (cfg_AdminPermissions c) (cfg_WorkspaceRoles c) (cfg_EmailVerificationTTL c)
    (cfg_PasswordResetTTL c) (cfg_EmailAuthenticationTTL c) (cfg_InvitationTTL c)
    (cfg_DomainClaimTTL c) (cfg_SessionTTL c) (cfg_SessionIdleTimeout c)
    (cfg_SessionTouchInterval c) (cfg_EmailIssuanceCooldown c) (cfg_SSOProviders c)
    (cfg_SSOAssurance c) (cfg_TransactionHooks c) (cfg_EventListeners c) (cfg_OAuth c)
    (cfg_SignUp c) (cfg_unicode_ToLower c) (cfg_unicode_ToUpper c) (cfg_idna_ToASCII c) (cfg_PublicSuffix c)
    (cfg_Clock c) (cfg_random_error c) (cfg_random_byte c) (cfg_mapOrder c)
    (cfg_interference c).

(** [time.Minute] and [time.Hour] *)
Definition Minute : Z := 60 * 10 ^ 9.
Definition Hour : Z := 60 * Minute.

(** [if cfg.X <= 0 { cfg.X = d }] *)
Definition positive_or (d value : Z) : Z := if bool_decide (value ≤ 0)%Z then d else value.

(** [hkdf.Key(sha256.New, secret, nil, info, 32)]: extract with a zero salt,
    then the first block of the expansion. *)
Definition hkdf_Key (secret info : string) : string :=
  let prk := hmac_sha256 (of_bytes (replicate 32 Ascii.zero)) secret in
  hmac_sha256 prk (info +:+ String (ascii_of_nat 1) EmptyString).

Definition seal_key (secret : string) : string := hkdf_Key secret "credbound/seal/v1".
Definition digest_key (secret : string) : string := hkdf_Key secret "credbound/digest/v1".

(** [validSSOProviderKind] *)
Definition validSSOProviderKind (kind : SSOProviderKind) : bool :=
  bool_decide (kind ∈ [SSOProviderGoogle; SSOProviderGitHub; SSOProviderMicrosoft;
                       SSOProviderOIDC; SSOProviderSAML]).

(** [fmt.Errorf("%w: ...", ErrInvalidInput)] when the condition holds. *)
Definition invalid_when (b : bool) (message : string) : result unit :=
  if b then Error (Wrapped message ErrInvalidInput) else Ok tt.

(** The registration loop over [cfg.SSOProviders]. *)
Fixpoint register_sso_providers (providers : list (option SSOProvider))
    (registered : gmap UUID SSOProvider) : result (gmap UUID SSOProvider) :=
  match providers with
  | [] => Ok registered
  | None :: _ => Error (Wrapped "invalid SSO provider registration" ErrInvalidInput)
  | Some p :: providers' =>
      if negb (validUUIDv7 (sso_ConfigurationID p)) || negb (validSSOProviderKind (sso_Kind p))
      then Error (Wrapped "invalid SSO provider registration" ErrInvalidInput)
      else if bool_decide (is_Some (registered !! sso_ConfigurationID p))
      then Error (Wrapped "duplicate SSO provider configuration" ErrInvalidInput)
      else register_sso_providers providers' (<[sso_ConfigurationID p := p]> registered)
  end.

(** One turn of the loop over [cfg.SSOAssurance]. *)
Definition check_assurance (providers : gmap UUID SSOProvider) (id : UUID)
    (policy : SSOAssurancePolicy) : result unit :=
  let blank := existsb (λ v, bool_decide (TrimSpace v = EmptyString)) in
  if negb (bool_decide (is_Some (providers !! id)))
  then Error (Wrapped "SSO assurance policy for unregistered provider configuration" ErrInvalidInput)
  else if SSOAssurancePolicy_empty policy
  then Error (Wrapped "an SSO assurance policy must require an ACR or AMR" ErrInvalidInput)
  else if blank (SSOAssurancePolicy_AcceptedACR policy)
  then Error (Wrapped "an SSO assurance policy must not accept a blank ACR" ErrInvalidInput)
  else if blank (SSOAssurancePolicy_RequiredAMR policy)
  then Error (Wrapped "an SSO assurance policy must not require a blank AMR" ErrInvalidInput)
  else Ok tt.

(** A loop that stops at the first error. *)
Fixpoint each {A} (f : A → result unit) (l : list A) : result unit :=
  match l with
  | [] => Ok tt
  | a :: l' => match f a with Ok _ => each f l' | Error e => Error e end
  end.

(** [newEventRegistry] keeps the hooks, in order; a nil hook or listener is
    refused. *)
Fixpoint register_hooks (hooks : list (option TransactionHook)) : result (list TransactionHook) :=
  match hooks with
  | [] => Ok []
  | None :: _ => Error (Wrapped "nil transaction hook" ErrInvalidInput)
  | Some h :: hooks' =>
      match register_hooks hooks' with Ok l => Ok (h :: l) | Error e => Error e end
  end.
Definition newEventRegistry (hooks : list (option TransactionHook)) (listeners : list bool) :
    result (list TransactionHook) :=
  match register_hooks hooks with
  | Error e => Error e
  | Ok l =>
      if existsb negb listeners then Error (Wrapped "nil event listener" ErrInvalidInput) else Ok l
  end.

#[export] Instance result_ret : MRet result := λ A a, Ok a.
#[export] Instance result_bind : MBind result := λ A B k r,
  match r with Ok a => k a | Error e => Error e end.

(** The keys [New] checks before anything else. *)
Definition check_keys (cfg : Config) : result unit :=
  _ ← invalid_when (bool_decide (str_len (cfg_SecretKey cfg) ≠ 32))
        "secret key must contain exactly 32 bytes";
  _ ← invalid_when (bool_decide (str_len (cfg_PATPepper cfg) < 32) ||
                    bool_decide (str_len (cfg_RecoveryPepper cfg) < 32))
        "peppers must contain at least 32 bytes";
  _ ← each (λ k, invalid_when (bool_decide (str_len k ≠ 32))
        "every retired secret key must contain exactly 32 bytes") (cfg_RetiredSecretKeys cfg);
  each (λ k, invalid_when (bool_decide (str_len k < 32))
        "every retired pepper must contain at least 32 bytes")
    (cfg_RetiredPATPeppers cfg ++ cfg_RetiredRecoveryPeppers cfg).

(** The intervals [New] refuses. *)
Definition check_intervals (cfg : Config) : result unit :=
  _ ← invalid_when (bool_decide (cfg_PATTouchInterval cfg < 0)%Z)
        "PAT touch interval cannot be negative";
  _ ← invalid_when (bool_decide (cfg_SessionTouchInterval cfg < 0)%Z)
        "session touch interval cannot be negative";
  invalid_when (bool_decide (0 < cfg_SessionTouchInterval cfg)%Z &&
                bool_decide (0 < cfg_SessionIdleTimeout cfg)%Z &&
                bool_decide (cfg_SessionIdleTimeout cfg ≤ cfg_SessionTouchInterval cfg)%Z)
    "session touch interval must be shorter than the idle timeout".

(** The optional modules that are configured must be backed by the store. *)
Definition check_capabilities (cfg : Config) (store : StoreCapabilities) : result unit :=
  _ ← invalid_when (bool_decide (0 < cfg_EmailIssuanceCooldown cfg)%Z &&
                    negb (implements_EmailThrottleStore store))
        "Config.EmailIssuanceCooldown is set but Store does not implement EmailThrottleStore";
  _ ← invalid_when (not_nil (cfg_SignUp cfg) && negb (implements_SignupStore store))
        "Config.SignUp is set but Store does not implement SignupStore";
  match cfg_OAuth cfg with
  | None => Ok tt
  | Some oauth =>
      _ ← invalid_when (bool_decide (str_len (OAuthConfig_Pepper oauth) < 32))
            "OAuth pepper must contain at least 32 bytes";
      invalid_when (negb (implements_OAuthStore store))
        "Config.OAuth is set but Store does not implement OAuthStore"
  end.

(** [New] *)
Definition New_Manager (order : IterationOrder) (cfg : Config) : result Manager :=
  match cfg_Store cfg, cfg_Passwords cfg with
  | Some store, Some passwords =>
      _ ← check_keys cfg;
      let patPrefix := if bool_decide (cfg_PATPrefix cfg = EmptyString) then defaultPATPrefix
                       else cfg_PATPrefix cfg in
      _ ← invalid_when (negb (validTokenMarker patPrefix))
            "PAT prefix must be 1 to 16 lowercase letters or digits";
      _ ← each (λ f, invalid_when (bool_decide (f.2 ≠ EmptyString) && negb (StepUpPolicy_valid f.2))
            "unknown step-up policy") (StepUpPolicies_fields (cfg_StepUp cfg));
      _ ← check_intervals cfg;
      let minPasswordLen := if bool_decide (cfg_MinPasswordLen cfg = 0)%Z then 12%Z
                            else cfg_MinPasswordLen cfg in
      let maxFailedLogins := if bool_decide (cfg_MaxFailedLogins cfg = 0)%Z then 10%Z
                             else Z.max 0 (cfg_MaxFailedLogins cfg) in
      _ ← invalid_when (bool_decide (minPasswordLen < 10)%Z)
            "minimum password length cannot be below 10";
      adminPermissions ← buildAdminPermissions (cfg_AdminPermissions cfg);
      workspaceRoles ← buildRoleCatalog order (cfg_WorkspaceRoles cfg);
      ssoProviders ← register_sso_providers (cfg_SSOProviders cfg) ∅;
      _ ← each (λ kv, check_assurance ssoProviders kv.1 kv.2) (map_to_list (cfg_SSOAssurance cfg));
      dummyHash ←
        match hasher_Hash passwords 0 "credbound-dummy-password" with
        | Ok h => Ok h
        | Error e => Error (Wrapped "initialize dummy password" e)
        end;
      let sealKey := seal_key (cfg_SecretKey cfg) in
      let digestKey := digest_key (cfg_SecretKey cfg) in
      hooks ← newEventRegistry (cfg_TransactionHooks cfg) (cfg_EventListeners cfg);
      _ ← check_capabilities cfg store;
      Ok {|
        m_Hash := hasher_Hash passwords;
        m_Verify := hasher_Verify passwords;
        m_passwordPolicy := cfg_PasswordPolicy cfg;
        m_totp := cfg_TOTP cfg;
        m_passkeys := cfg_Passkeys cfg;
        m_domainVerifier := cfg_DomainVerifier cfg;
        m_trustActorDomains := cfg_TrustActorDomainVerification cfg;
        m_ssoProviders := ssoProviders;
        m_ssoAssurance := cfg_SSOAssurance cfg;
        m_signup := cfg_SignUp cfg;
        m_scimStore := implements_SCIMStore store;
        m_privacyStore := implements_PrivacyStore store;
        m_signupStore := implements_SignupStore store;
        m_sessionStore := implements_SessionStore store;
        m_emailThrottle := implements_EmailThrottleStore store;
        m_domainStore := implements_DomainStore store;
        m_passkeyCredentialStore := implements_PasskeyCredentialStore store;
        m_oauth := cfg_OAuth cfg;
        m_unicode_ToLower := cfg_unicode_ToLower cfg;
        m_unicode_ToUpper := cfg_unicode_ToUpper cfg;
        m_idna_ToASCII := cfg_idna_ToASCII cfg;
        m_PublicSuffix := cfg_PublicSuffix cfg;
        m_sealKey := sealKey;
        m_readSealKeys := [sealKey] ++ (seal_key <$> cfg_RetiredSecretKeys cfg) ++
          [cfg_SecretKey cfg] ++ cfg_RetiredSecretKeys cfg;
        m_digestKey := digestKey;
        m_readDigestKeys := [digestKey] ++ (digest_key <$> cfg_RetiredSecretKeys cfg);
        m_patPepper := cfg_PATPepper cfg;
        m_readPATPeppers := cfg_PATPepper cfg :: cfg_RetiredPATPeppers cfg;
        m_recoveryPepper := cfg_RecoveryPepper cfg;
        m_readRecoveryPeppers := cfg_RecoveryPepper cfg :: cfg_RetiredRecoveryPeppers cfg;
        m_patPrefix := patPrefix;
        m_dummyHash := dummyHash;
        m_stepUpMaxAge := positive_or (10 * Minute) (cfg_StepUpMaxAge cfg);
        m_stepUp := StepUpPolicies_resolve (cfg_StepUp cfg);
        m_ceremonyTTL := positive_or (5 * Minute) (cfg_CeremonyTTL cfg);
        m_minPasswordLen := minPasswordLen;
        m_maxFailedLogins := maxFailedLogins;
        m_lockoutDuration := positive_or (15 * Minute) (cfg_LockoutDuration cfg);
        m_emailVerificationTTL := positive_or (24 * Hour) (cfg_EmailVerificationTTL cfg);
        m_passwordResetTTL := positive_or Hour (cfg_PasswordResetTTL cfg);
        m_emailAuthTTL := positive_or (15 * Minute) (cfg_EmailAuthenticationTTL cfg);
        m_invitationTTL := positive_or (7 * 24 * Hour) (cfg_InvitationTTL cfg);
        m_domainClaimTTL := positive_or (7 * 24 * Hour) (cfg_DomainClaimTTL cfg);
        m_emailIssuanceCooldown := cfg_EmailIssuanceCooldown cfg;
        m_sessionTTL := positive_or (30 * 24 * Hour) (cfg_SessionTTL cfg);
        m_sessionIdleTimeout := cfg_SessionIdleTimeout cfg;
        m_sessionTouchInterval := cfg_SessionTouchInterval cfg;
        m_patTouchInterval := cfg_PATTouchInterval cfg;
        m_adminPermissions := adminPermissions;
        m_workspaceRoles := workspaceRoles;
        m_hooks := hooks;
        m_clock := cfg_Clock cfg;
        m_random_error := cfg_random_error cfg;
        m_random_byte := cfg_random_byte cfg;
        m_mapOrder := cfg_mapOrder cfg;
        m_interference := cfg_interference cfg |}
  | _, _ => Error (Wrapped "store and passwords are required" ErrInvalidInput)
  end.
