(* ===== verification/ManagerSession.v ===== *)
(** * Server-side sessions (src/session.go)

    Issuing a session behind an opaque token, validating the token on every
    request, and revoking sessions one by one or all at once. *)
From stdpp Require Import base gmap sets list strings numbers.
From Stdlib Require Import ZArith Lia.
From S2P Require Import Prelude Bytes Uuid Types OAuthTypes Roles AuditChain Store StoreUsers StoreTokens StoreWorkspaces StoreScim StoreOAuth Commit StoreSystem GoText Tokens Events Manager ManagerGates.

Section session.
Context {E : Env}.
Abbreviation m := the_manager.
Abbreviation metadata := (Ctx_metadata the_ctx).

(** The digest of a session covers the whole token. *)
Definition session_secret (raw : string) : string := "session:" +:+ raw.

(** [Manager.CreateSession] *)
Definition Manager_CreateSession (actor : Authentication) : M World IssuedSession :=
  throw_if (negb (m_sessionStore m)) ErrNotSupported;;
  throw_if (anonymous actor) ErrUnauthorized;;
  throw_if (negb (Interactive actor)) ErrForbidden;;
  requireActiveUser (Authentication_UserID actor);;
  id ← newID;
  secret ← randomBytes 32;
  let raw := token_text sessionTokenPrefix (UUID_String id) secret in
  at_ ← now;
  let session := mkSession id (Authentication_UserID actor) (Authentication_Method actor)
    (Authentication_Level actor) (Authentication_AuthenticatedAt actor)
    (Authentication_SecondFactorRequired actor)
    (RequestMetadata_UserAgent metadata) (RequestMetadata_IPAddress metadata)
    (tokenDigest (session_secret raw)) at_ at_ (at_ + m_sessionTTL m)%Z None in
  event ← newAudit (Authentication_UserID actor) "session.create" "session" (UUID_String id) Nil
    AuditSucceeded EmptyString;
  meta ← newEventMeta EventSessionCreated "auth.session.create" (Authentication_UserID actor) Nil
    event;
  let scrubbed := session <| Session_Digest := EmptyString |> in
  let commit := transactionalCommit event (ApplySessionCreation meta scrubbed metadata) in
  r ← attempt (call (λ ctx,
    CreateSession ctx session (Authentication_CredentialDigest actor) commit));
  match r with
  | Error e =>
      if errors_Is e ErrConflict &&
         bool_decide (0 < str_len (Authentication_CredentialDigest actor)) then
        appendAuthenticationAudit (Authentication_UserID actor) "session.create" AuditFailed
          "stale_credential";;
        throw ErrInvalidCredentials
      else e' ← mapStoreError "auth.session.create" e; throw e'
  | Ok _ =>
      emit meta;;
      mret (mkIssuedSession scrubbed raw)
  end.

(** Audited refusal of a session token. *)
Definition refuse_session {A} (userID : UUID) (action reason : string) (err : error) :
    M World A :=
  appendAuthenticationAudit userID action AuditFailed reason;;
  throw err.

(** The stored session a raw token names; an unknown one is an invalid
    credential. *)
Definition session_of_token (raw : string) : M World Session :=
  match parseSecretToken sessionTokenPrefix raw with
  | None => throw ErrInvalidCredentials
  | Some sessionID =>
      r ← attempt (call (λ ctx, SessionByID ctx sessionID));
      match r with
      | Ok session => mret session
      | Error e => throw (if errors_Is e ErrNotFound then Sent ErrInvalidCredentials else e)
      end
  end.

(** [Manager.AuthenticateSession] *)
Definition Manager_AuthenticateSession (raw : string) : M World (Authentication * Session) :=
  throw_if (negb (m_sessionStore m)) ErrNotSupported;;
  session ← session_of_token raw;
  let refuse := refuse_session (Session_UserID session) "session.authenticate" in
  if negb (matchTokenDigest (Session_Digest session) (session_secret raw))
  then refuse "invalid_credentials" ErrInvalidCredentials
  else if not_nil (Session_RevokedAt session)
  then refuse "revoked" ErrInvalidCredentials
  else
  at_ ← now;
  if negb (Time_Before at_ (Session_ExpiresAt session))
  then refuse "expired" ErrExpired
  else
  at_ ← now;
  if bool_decide (0 < m_sessionIdleTimeout m)%Z &&
     negb (Time_Before at_ (Session_LastSeenAt session + m_sessionIdleTimeout m)%Z)
  then refuse "idle" ErrExpired
  else
  user ← attempt (call (λ ctx, UserByID ctx (Session_UserID session)));
  match user with
  | Error e =>
      if negb (errors_Is e ErrNotFound) then throw e
      else refuse "user_disabled" ErrInvalidCredentials
  | Ok user =>
      if User_Disabled user then refuse "user_disabled" ErrInvalidCredentials
      else
      now_ ← now;
      let authentication := mkAuthentication (Session_UserID session) (Session_Method session)
        (Session_Level session) (Session_AuthenticatedAt session)
        (Session_SecondFactorRequired session) Nil [] EmptyString in
      if bool_decide (0 < m_sessionTouchInterval m)%Z &&
         Time_Before now_ (Session_LastSeenAt session + m_sessionTouchInterval m)%Z
      then mret (authentication, session <| Session_Digest := EmptyString |>)
      else
      event ← newAudit (Session_UserID session) "session.authenticate" "session"
        (UUID_String (Session_ID session)) Nil AuditSucceeded EmptyString;
      r ← attempt (call (λ ctx, TouchSession ctx (Session_ID session) now_ (audit_commit event)));
      match r with
      | Error e =>
          if errors_Is e ErrConflict then throw ErrInvalidCredentials
          else e' ← mapStoreError "auth.session.authenticate" e; throw e'
      | Ok _ =>
          mret (authentication,
                session <| Session_LastSeenAt := now_ |> <| Session_Digest := EmptyString |>)
      end
  end.

(** [Manager.SignOut] *)
Definition Manager_SignOut (raw : string) : M World unit :=
  throw_if (negb (m_sessionStore m)) ErrNotSupported;;
  session ← session_of_token raw;
  if negb (matchTokenDigest (Session_Digest session) (session_secret raw))
  then refuse_session (Session_UserID session) "session.sign_out" "invalid_credentials"
         ErrInvalidCredentials
  else if not_nil (Session_RevokedAt session) then mret tt
  else
  event ← newAudit (Session_UserID session) "session.sign_out" "session"
    (UUID_String (Session_ID session)) Nil AuditSucceeded EmptyString;
  meta ← newEventMeta EventSessionRevoked "auth.session.sign_out" (Session_UserID session) Nil event;
  let commit := transactionalCommit event
    (ApplySessionRevocation meta (Session_ID session) (Session_UserID session)) in
  at_ ← now;
  mapped "auth.session.sign_out"
    (call (λ ctx, RevokeSession ctx (Session_ID session) at_ commit));;
  emit meta.

(** [Manager.RevokeSession] *)
Definition Manager_RevokeSession (actor : Authentication) (sessionID : UUID) : M World unit :=
  throw_if (negb (m_sessionStore m)) ErrNotSupported;;
  requireScopedStepUp actor StepUpScopeAccount "auth.session.revoke";;
  throw_if (bool_decide (sessionID = Nil)) (Wrapped "session id is required" ErrInvalidInput);;
  session ← call (λ ctx, SessionByID ctx sessionID);
  throw_if (bool_decide (Session_UserID session ≠ Authentication_UserID actor)) ErrNotFound;;
  event ← newAudit (Authentication_UserID actor) "session.revoke" "session" (UUID_String sessionID)
    Nil AuditSucceeded EmptyString;
  meta ← newEventMeta EventSessionRevoked "auth.session.revoke" (Authentication_UserID actor) Nil
    event;
  let commit := transactionalCommit event
    (ApplySessionRevocation meta sessionID (Authentication_UserID actor)) in
  at_ ← now;
  mapped "auth.session.revoke" (call (λ ctx, RevokeSession ctx sessionID at_ commit));;
  emit meta.

(** [Manager.RevokeUserSessions] *)
Definition Manager_RevokeUserSessions (actor : Authentication) (request : TrustedRequest)
    (userID : UUID) : M World unit :=
  throw_if (negb (m_sessionStore m)) ErrNotSupported;;
  let userID := if bool_decide (userID = Nil) then Authentication_UserID actor else userID in
  throw_if (negb (validUUIDv7 userID)) (Wrapped "invalid user id" ErrInvalidInput);;
  (if bool_decide (userID = Authentication_UserID actor)
   then requireScopedStepUp actor StepUpScopeAccount "auth.session.revoke_all"
   else requireAdminMutation actor request "auth.session.revoke_all";;
        AuthorizeAdmin actor PermissionUsersWrite);;
  event ← newAudit (Authentication_UserID actor) "session.revoke_all" "user" (UUID_String userID)
    Nil AuditSucceeded EmptyString;
  meta ← newEventMeta EventUserSessionsRevoked "auth.session.revoke_all"
    (Authentication_UserID actor) Nil event;
  let commit := transactionalCommit event (ApplyUserSessionRevocation meta userID) in
  at_ ← now;
  mapped "auth.session.revoke_all" (call (λ ctx, RevokeUserSessions ctx userID at_ commit));;
  emit meta.

End session.
