(* ===== verification/ManagerPAT.v ===== *)
(** * Personal access tokens (src/pat.go)

    Issuing a token under the scopes its owner chose, authenticating a request
    that carries one, and revoking it, by its owner or by an administrator of
    the workspace it is bound to. *)
From stdpp Require Import base gmap sets list strings numbers.
From Stdlib Require Import ZArith Lia.
From S2P Require Import Prelude Bytes Uuid Types OAuthTypes Roles AuditChain Store StoreUsers StoreTokens StoreWorkspaces StoreScim StoreOAuth Commit StoreSystem GoText Tokens Events Manager ManagerGates.

Section pat.
Context {E : Env}.
Abbreviation m := the_manager.

(** [Manager.CreatePAT] *)
Definition Manager_CreatePAT (actor : Authentication) (input : CreatePATInput) : M World IssuedPAT :=
  requireScopedStepUp actor StepUpScopePAT "auth.pat.create";;
  let name := TrimSpace (CreatePATInput_Name input) in
  throw_if (bool_decide (name = EmptyString) || bool_decide (100 < str_len name))
    (ValidationError "name" "length" "PAT name is required and limited to 100 characters");;
  match CreatePATInput_ExpiresAt input with
  | None => mret tt
  | Some expires =>
      at_ ← now;
      throw_if (negb (Time_After expires at_))
        (ValidationError "expires_at" "past" "PAT expiration must be in the future")
  end;;
  (if bool_decide (CreatePATInput_WorkspaceID input ≠ Nil)
   then AuthorizePermission actor (CreatePATInput_WorkspaceID input) PermissionWorkspaceAccess
   else mret tt);;
  scopes ← lift_result (normalizeScopes (CreatePATInput_Scopes input));
  prefixBytes ← randomBytes 6;
  secret ← randomBytes 32;
  let prefix := hex_Encode prefixBytes in
  let raw := token_text (m_patPrefix m) prefix secret in
  id ← newID;
  now_ ← now;
  let pat := PAT_zero
    <| PAT_ID := id |> <| PAT_UserID := Authentication_UserID actor |> <| PAT_Name := name |>
    <| PAT_Prefix := prefix |> <| PAT_Digest := digest (m_patPepper m) raw |>
    <| PAT_WorkspaceID := CreatePATInput_WorkspaceID input |> <| PAT_Scopes := scopes |>
    <| PAT_CreatedAt := now_ |> <| PAT_ExpiresAt := CreatePATInput_ExpiresAt input |> in
  event ← newAudit (Authentication_UserID actor) "pat.create" "pat" (UUID_String id)
    (CreatePATInput_WorkspaceID input) AuditSucceeded EmptyString;
  meta ← newEventMeta EventPATCreated "auth.pat.create" (Authentication_UserID actor)
    (CreatePATInput_WorkspaceID input) event;
  let commit := transactionalCommit event
    (ApplyPATCreation meta id (Authentication_UserID actor) name
       (CreatePATInput_WorkspaceID input) scopes (CreatePATInput_ExpiresAt input)) in
  mapped "auth.pat.create" (call (λ ctx, CreatePAT ctx pat commit));;
  emit meta;;
  mret (mkIssuedPAT (pat <| PAT_Digest := EmptyString |>) raw).

(** [Manager.recordUnknownPATRejection] *)
Definition recordUnknownPATRejection : M World AuditEvent :=
  event ← newAudit Nil "auth.pat" "user" (UUID_String Nil) Nil AuditFailed "invalid_credentials";
  mapped "auth.pat"
    (call (λ ctx, AppendAudit ctx (mkCommit event None None true)));;
  mret event.

(** The stored token a raw token names, absent when the shape is wrong or the
    lookup fails; the error of the lookup is not inspected. *)
Definition pat_of_token (raw : string) : M World (option PAT) :=
  match parsePAT (m_patPrefix m) raw with
  | None => mret None
  | Some prefix =>
      r ← attempt (call (λ ctx, PATByPrefix ctx prefix));
      match r with Ok pat => mret (Some pat) | Error _ => mret None end
  end.

(** Digest, revocation and expiry of a stored token. *)
Definition pat_valid (now_ : Z) (raw : string) (pat : PAT) : bool :=
  matchDigestRing (PAT_Digest pat) (m_readPATPeppers m) raw &&
  negb (not_nil (PAT_RevokedAt pat) ||
        match PAT_ExpiresAt pat with
        | Some expires => negb (Time_Before now_ expires)
        | None => false
        end).

(** Emission of a rejection. *)
Definition reject_pat {A} (actor workspaceID : UUID) (audit : AuditEvent) : M World A :=
  emit_new EventPATRejected "auth.pat.authenticate" actor workspaceID audit;;
  emitAuthenticationFailed "auth.pat.authenticate" audit actor;;
  throw ErrInvalidCredentials.

(** A token that does not validate: a rejection that names no account stays
    outside the hash chain. *)
Definition refuse_pat {A} (pat : option PAT) : M World A :=
  let actor :=
    match pat with
    | Some pat => if bool_decide (PAT_ID pat ≠ Nil) then PAT_UserID pat else Nil
    | None => Nil
    end in
  audit ← (if bool_decide (actor = Nil) then recordUnknownPATRejection
           else recordAuthenticationAudit actor "auth.pat" AuditFailed "invalid_credentials");
  reject_pat actor Nil audit.

(** The tail of [AuthenticatePAT] once the owner is known to be enabled. *)
Definition accept_pat (now_ : Z) (pat : PAT) : M World Authentication :=
  (if bool_decide (PAT_WorkspaceID pat ≠ Nil) then
     let workspaceActor := Authentication_zero
       <| Authentication_UserID := PAT_UserID pat |>
       <| Authentication_WorkspaceID := PAT_WorkspaceID pat |> in
     r ← attempt (AuthorizePermission workspaceActor (PAT_WorkspaceID pat) PermissionWorkspaceAccess);
     match r with Ok _ => mret tt | Error _ => throw ErrInvalidCredentials end
   else mret tt);;
  let authentication := mkAuthentication (PAT_UserID pat) MethodPAT AAL1 now_ false
    (PAT_WorkspaceID pat) (PAT_Scopes pat) EmptyString in
  if bool_decide (0 < m_patTouchInterval m)%Z &&
     match PAT_LastUsedAt pat with
     | Some used => Time_Before now_ (used + m_patTouchInterval m)%Z
     | None => false
     end
  then mret authentication
  else
  event ← newAudit (PAT_UserID pat) "auth.pat" "pat" (UUID_String (PAT_ID pat))
    (PAT_WorkspaceID pat) AuditSucceeded EmptyString;
  mapped "auth.pat.authenticate"
    (call (λ ctx, TouchPAT ctx (PAT_ID pat) now_ (audit_commit event)));;
  emit_new EventPATAuthenticated "auth.pat.authenticate" (PAT_UserID pat) (PAT_WorkspaceID pat) event;;
  emitAuthenticationSucceeded "auth.pat.authenticate" event authentication;;
  mret authentication.

(** [Manager.AuthenticatePAT] *)
Definition Manager_AuthenticatePAT (raw : string) : M World Authentication :=
  found ← pat_of_token raw;
  now_ ← now;
  match found with
  | None => refuse_pat None
  | Some pat =>
      if negb (pat_valid now_ raw pat) then refuse_pat (Some pat)
      else
      user ← attempt (call (λ ctx, UserByID ctx (PAT_UserID pat)));
      if match user with Ok user => User_Disabled user | Error _ => true end then
        audit ← recordAuthenticationAudit (PAT_UserID pat) "auth.pat" AuditFailed
                  "invalid_credentials";
        reject_pat (PAT_UserID pat) (PAT_WorkspaceID pat) audit
      else accept_pat now_ pat
  end.

(** [Manager.RevokePAT] *)
Definition Manager_RevokePAT (actor : Authentication) (patID : UUID) : M World unit :=
  requireScopedStepUp actor StepUpScopePAT "auth.pat.revoke";;
  throw_if (bool_decide (patID = Nil)) (Wrapped "PAT id is required" ErrInvalidInput);;
  event ← newAudit (Authentication_UserID actor) "pat.revoke" "pat" (UUID_String patID) Nil
    AuditSucceeded EmptyString;
  meta ← newEventMeta EventPATRevoked "auth.pat.revoke" (Authentication_UserID actor) Nil event;
  let commit := transactionalCommit event
    (ApplyPATRevocation meta patID (Authentication_UserID actor)) in
  at_ ← now;
  mapped "auth.pat.revoke"
    (call (λ ctx, RevokePAT ctx (Authentication_UserID actor) patID at_ commit));;
  emit meta.

(** [Manager.RevokeWorkspacePAT] *)
Definition Manager_RevokeWorkspacePAT (actor : Authentication) (workspaceID patID : UUID) :
    M World unit :=
  authorizeWorkspaceMutation actor workspaceID PermissionWorkspaceCredentialsManage
    "pat.workspace.revoke";;
  throw_if (bool_decide (patID = Nil)) (Wrapped "PAT id is required" ErrInvalidInput);;
  pat ← mapped "auth.pat.workspace_revoke" (call (λ ctx, PATByID ctx patID));
  throw_if (bool_decide (PAT_WorkspaceID pat ≠ workspaceID)) ErrNotFound;;
  event ← newAudit (Authentication_UserID actor) "pat.revoke" "pat" (UUID_String patID) workspaceID
    AuditSucceeded EmptyString;
  meta ← newEventMeta EventPATRevoked "auth.pat.workspace_revoke" (Authentication_UserID actor)
    workspaceID event;
  let commit := transactionalCommit event (ApplyPATRevocation meta patID (PAT_UserID pat)) in
  at_ ← now;
  mapped "auth.pat.workspace_revoke"
    (call (λ ctx, RevokePAT ctx (PAT_UserID pat) patID at_ commit));;
  emit meta.

End pat.
