(* ===== verification/ManagerPassword.v ===== *)
(** * Accounts and passwords (src/auth.go, src/domain.go)

    The bootstrap of an instance, the creation of accounts, sign-in with a
    password (with its lockout, its transparent rehash and its currency guard)
    and the change of a password. *)
From stdpp Require Import base gmap sets list strings numbers.
From Stdlib Require Import ZArith Lia Ascii.
From S2P Require Import Prelude Bytes Uuid Types OAuthTypes Roles AuditChain Store StoreUsers StoreTokens StoreWorkspaces StoreScim StoreOAuth Commit StoreSystem GoText GoNet Tokens Events Manager ManagerGates.

Section password.
Context {E : Env}.
Abbreviation m := the_manager.

(** [validEmail] *)
Definition validEmail (value : string) : result string :=
  let normalized := normalizeEmail value in
  if negb (is_bare_address normalized) || bool_decide (320 < str_len normalized)
  then Error (ValidationError "email" "format" "invalid email address")
  else Ok normalized.

(** [Manager.validatePassword] *)
Definition validatePassword (password : string) : M World unit :=
  let length_ := Z.of_nat (length (runes password)) in
  throw_if (bool_decide (length_ < m_minPasswordLen m)%Z)
    (ValidationError "password" "too_short" "password is too short");;
  throw_if (bool_decide (1024 < length_)%Z)
    (ValidationError "password" "too_long" "password cannot exceed 1024 characters");;
  match m_passwordPolicy m with
  | None => mret tt
  | Some policy =>
      w ← get;
      modify tick;;
      match policy (W_tick w) password with Some e => throw e | None => mret tt end
  end.

(** [hash, err := m.passwords.Hash(...)], the error wrapped *)
Definition hash_password (what password : string) : M World string :=
  r ← attempt (passwords_Hash password);
  match r with Ok h => mret h | Error e => throw (Wrapped what e) end.

(** [canonicalDomainForLookup] *)
Definition canonicalDomainForLookup (domain : string) : string :=
  let domain := ToLower (TrimSpace domain) in
  default domain (m_idna_ToASCII m domain).

(** [Manager.domainRequiresSSO] *)
Definition domainRequiresSSO (email action : string) : M World unit :=
  if negb (m_domainStore m) then mret tt
  else
    match after_last "@"%char email with
    | None => mret tt
    | Some domain =>
        if bool_decide (domain = EmptyString) then mret tt
        else
          r ← attempt (call (λ ctx,
                ConfirmedWorkspaceDomainByName ctx (canonicalDomainForLookup domain)));
          match r with
          | Error e => if errors_Is e ErrNotFound then mret tt else throw e
          | Ok domain =>
              if negb (WorkspaceDomain_EnforceSSO domain) then mret tt
              else
                appendAuthenticationAudit Nil action AuditFailed "sso_required";;
                throw ErrSSORequired
          end
    end.

(** ** Accounts *)

(** [strings.TrimSpace(v) == ""] *)
Definition require_text (field message value : string) : M World unit :=
  throw_if (bool_decide (TrimSpace value = EmptyString)) (ValidationError field "required" message).

(** The rows of a new account. *)
Definition new_user (id : UUID) (email displayName : string) (lastSeen : option Z) (at_ : Z) : User :=
  User_zero <| User_ID := id |> <| User_Email := email |> <| User_DisplayName := displayName |>
    <| User_LastSeenAt := lastSeen |> <| User_CreatedAt := at_ |> <| User_UpdatedAt := at_ |>.
Definition new_primary_email (id userID : UUID) (address : string) (at_ : Z) : EmailAddress :=
  EmailAddress_zero <| EmailAddress_ID := id |> <| EmailAddress_UserID := userID |>
    <| EmailAddress_Address := address |> <| EmailAddress_Primary := true |>
    <| EmailAddress_VerifiedAt := Some at_ |> <| EmailAddress_CreatedAt := at_ |>
    <| EmailAddress_UpdatedAt := at_ |>.
Definition new_password (userID : UUID) (hash : string) (at_ : Z) : PasswordCredential :=
  PasswordCredential_zero <| PasswordCredential_UserID := userID |>
    <| PasswordCredential_Hash := hash |> <| PasswordCredential_UpdatedAt := at_ |>.
Definition new_membership (workspaceID userID : UUID) (role : Role) (status : MembershipStatus)
    (created updated : Z) : Membership :=
  Membership_zero <| Membership_WorkspaceID := workspaceID |> <| Membership_UserID := userID |>
    <| Membership_Role := role |> <| Membership_Status := status |>
    <| Membership_ProvisioningSource := ProvisioningSourceLocal |>
    <| Membership_CreatedAt := created |> <| Membership_UpdatedAt := updated |>.

(** [Manager.Bootstrap] *)
Definition Manager_Bootstrap (input : BootstrapInput) : M World (Authentication * Workspace) :=
  email ← lift_result (validEmail (BootstrapInput_Email input));
  require_text "display_name" "display name is required" (BootstrapInput_DisplayName input);;
  require_text "workspace_name" "workspace name is required" (BootstrapInput_WorkspaceName input);;
  validatePassword (BootstrapInput_Password input);;
  hash ← hash_password "hash password" (BootstrapInput_Password input);
  userID ← newID;
  emailID ← newID;
  workspaceID ← newID;
  now_ ← now;
  let user := new_user userID email (TrimSpace (BootstrapInput_DisplayName input)) (Some now_) now_ in
  let primaryEmail := new_primary_email emailID userID email now_ in
  let workspace := Workspace_zero <| Workspace_ID := workspaceID |>
    <| Workspace_Name := TrimSpace (BootstrapInput_WorkspaceName input) |>
    <| Workspace_CreatedAt := now_ |> <| Workspace_UpdatedAt := now_ |> in
  let membership := new_membership workspaceID userID RoleAdmin MembershipActive now_ now_ in
  let instanceAdmin := mkInstanceAdministrator userID InstanceRoleRoot now_ now_ in
  event ← newAudit userID "instance.bootstrap" "workspace" (UUID_String workspaceID) workspaceID
    AuditSucceeded EmptyString;
  userMeta ← newEventMeta EventUserCreated "auth.bootstrap" userID workspaceID event;
  workspaceMeta ← newEventMeta EventWorkspaceCreated "auth.bootstrap" userID workspaceID event;
  bootstrapMeta ← newEventMeta EventBootstrapCompleted "auth.bootstrap" userID workspaceID event;
  let commit := mkCommit event (Some (λ tx,
    match apply_hooks (m_hooks m) (ApplyUserCreate userMeta user primaryEmail membership) tx with
    | Some e => Some e
    | None => apply_hooks (m_hooks m) (ApplyWorkspaceCreate workspaceMeta workspace membership) tx
    end)) None false in
  mapped "auth.bootstrap" (call (λ ctx,
    Bootstrap ctx user primaryEmail (new_password userID hash now_) workspace membership
      instanceAdmin commit));;
  emit userMeta;;
  emit workspaceMeta;;
  emit bootstrapMeta;;
  mret (mkAuthentication userID MethodPassword AAL1 now_ false Nil [] (CredentialFingerprint hash),
        workspace).

(** [Manager.CreateUser] *)
Definition Manager_CreateUser (actor : Authentication) (workspaceID : UUID)
    (input : CreateUserInput) : M World User :=
  requireScopedStepUp actor StepUpScopeWorkspace "auth.user.create";;
  AuthorizePermission actor workspaceID PermissionWorkspaceUsersWrite;;
  email ← lift_result (validEmail (CreateUserInput_Email input));
  require_text "display_name" "display name is required" (CreateUserInput_DisplayName input);;
  role ← lift_result (roleCatalog_normalize (m_workspaceRoles m) (CreateUserInput_Role input));
  validatePassword (CreateUserInput_Password input);;
  hash ← hash_password "hash password" (CreateUserInput_Password input);
  id ← newID;
  emailID ← newID;
  now_ ← now;
  let user := new_user id email (TrimSpace (CreateUserInput_DisplayName input)) None now_ in
  let primaryEmail := new_primary_email emailID id email now_ in
  let membership := new_membership workspaceID id role MembershipActive now_ now_ in
  event ← newAudit (Authentication_UserID actor) "user.create" "user" (UUID_String id) workspaceID
    AuditSucceeded EmptyString;
  meta ← newEventMeta EventUserCreated "auth.user.create" (Authentication_UserID actor) workspaceID
    event;
  let commit := transactionalCommit event (ApplyUserCreate meta user primaryEmail membership) in
  mapped "auth.user.create" (call (λ ctx,
    CreateUser ctx user primaryEmail (new_password id hash now_) membership commit));;
  emit meta;;
  mret user.

(** ** Sign-in with a password *)

(** [Manager.confirmPasswordCurrent] *)
Definition confirmPasswordCurrent (userID : UUID) (password verifiedHash : string) : M World string :=
  r ← attempt (call (λ ctx, PasswordByUserID ctx userID));
  match r with
  | Error e => throw (if errors_Is e ErrNotFound then Sent ErrInvalidCredentials else e)
  | Ok credential =>
      let stored := PasswordCredential_Hash credential in
      if bool_decide (stored = verifiedHash) then mret verifiedHash
      else
        match m_Verify m password stored with
        | Error e => throw (Wrapped "verify password" e)
        | Ok (true, _) => mret stored
        | Ok (false, _) => throw ErrInvalidCredentials
        end
  end.

(** [Manager.recordPasswordAuthentication] *)
Definition recordPasswordAuthentication (userID : UUID) (currentHash : string) : M World AuditEvent :=
  event ← newAudit userID "auth.password" "user" (UUID_String userID) Nil AuditSucceeded EmptyString;
  at_ ← now;
  r ← attempt (call (λ ctx,
        RecordPasswordAuthentication ctx userID currentHash at_ (audit_commit event)));
  match r with
  | Ok _ => mret event
  | Error e =>
      if errors_Is e ErrConflict then throw ErrConflict
      else e' ← mapStoreError "auth.password" e; throw e'
  end.

(** [Manager.failStalePassword], the error returned to the caller *)
Definition failStalePassword {A} (userID : UUID) (cause : error) : M World A :=
  if negb (errors_Is cause ErrInvalidCredentials) then throw cause
  else
    audit ← recordAuthenticationAudit userID "auth.password" AuditFailed "stale_credential";
    emitAuthenticationFailed "auth.password.authenticate" audit userID;;
    throw ErrInvalidCredentials.

(** The finalization loop of [AuthenticatePassword]: at most [retries] refreshes
    of the hash after the first attempt. *)
Fixpoint finalize_password (retries : nat) (userID : UUID) (password currentHash : string) :
    M World (AuditEvent * string) :=
  r ← attempt (recordPasswordAuthentication userID currentHash);
  match r with
  | Ok audit => mret (audit, currentHash)
  | Error e =>
      if negb (errors_Is e ErrConflict) then throw e
      else
        match retries with
        | O => failStalePassword userID ErrInvalidCredentials
        | S retries =>
            c ← attempt (confirmPasswordCurrent userID password currentHash);
            match c with
            | Error stale => failStalePassword userID stale
            | Ok refreshed => finalize_password retries userID password refreshed
            end
        end
  end.

(** What the lookups of [AuthenticatePassword] gather before the password is
    verified: the account, the hash to verify against, the throttle, and an
    infrastructure error that is reported after the verification. *)
Record password_lookup := mkPasswordLookup {
  lookup_user : result User;
  lookup_hash : string;
  lookup_throttle : LoginThrottle;
  lookup_infrastructure : option error }.

Definition unless_not_found (e : error) : option error :=
  if errors_Is e ErrNotFound then None else Some e.

Definition lookup_password (normalized : string) : M World password_lookup :=
  found ← attempt (call (λ ctx, UserByEmail ctx normalized));
  match found with
  | Error e => mret (mkPasswordLookup found (m_dummyHash m) LoginThrottle_zero (unless_not_found e))
  | Ok user =>
      credential ← attempt (call (λ ctx, PasswordByUserID ctx (User_ID user)));
      let '(hash, infrastructure) :=
        match credential with
        | Ok c => (PasswordCredential_Hash c, None)
        | Error e => (m_dummyHash m, unless_not_found e)
        end in
      if bool_decide (0 < m_maxFailedLogins m)%Z && negb (not_nil infrastructure) then
        throttle ← attempt (call (λ ctx, LoginThrottleByUserID ctx (User_ID user)));
        match throttle with
        | Ok t => mret (mkPasswordLookup found hash t None)
        | Error e => mret (mkPasswordLookup found hash LoginThrottle_zero (unless_not_found e))
        end
      else mret (mkPasswordLookup found hash LoginThrottle_zero infrastructure)
  end.

(** The rehash of a verified password under the current parameters; the hash
    the sign-in finishes against. *)
Definition rehash_password (user : User) (password hash : string) : M World string :=
  newHash ← hash_password "rehash password" password;
  event ← newAudit (User_ID user) "password.rehash" "user" (UUID_String (User_ID user)) Nil
    AuditSucceeded EmptyString;
  meta ← newEventMeta EventPasswordRehashed "auth.password.authenticate" (User_ID user) Nil event;
  at_ ← now;
  r ← attempt (call (λ ctx,
        RehashPassword ctx (new_password (User_ID user) newHash at_) hash (audit_commit event)));
  match r with
  | Ok _ => emit meta;; mret newHash
  | Error e =>
      if errors_Is e ErrConflict then mret hash
      else e' ← mapStoreError "auth.password.rehash" e; throw e'
  end.

(** The completion of a sign-in whose password matched. *)
Definition complete_password (user : User) (password hash : string) (rehash : bool) :
    M World Authentication :=
  currentHash ← (if rehash then rehash_password user password hash else mret hash);
  factor ← attempt (call (λ ctx, TOTPByUserID ctx (User_ID user)));
  requiresSecondFactor ←
    match factor with
    | Ok f => mret (TOTPFactor_Active f)
    | Error e => if errors_Is e ErrNotFound then mret false else throw e
    end;
  p ←
    (if (requiresSecondFactor : bool) then
       c ← attempt (confirmPasswordCurrent (User_ID user) password currentHash);
       match c with
       | Error stale => failStalePassword (User_ID user) stale
       | Ok refreshed =>
           event ← newAudit (User_ID user) "auth.password" "user" (UUID_String (User_ID user)) Nil
             AuditSucceeded EmptyString;
           mapped "auth.password" (call (λ ctx, AppendAudit ctx (audit_commit event)));;
           mret (event, refreshed)
       end
     else finalize_password 2 (User_ID user) password currentHash);
  let '(audit, currentHash) := (p : AuditEvent * string) in
  at_ ← now;
  let authentication := mkAuthentication (User_ID user) MethodPassword AAL1 at_
    requiresSecondFactor Nil [] (CredentialFingerprint currentHash) in
  emitAuthenticationSucceeded "auth.password.authenticate" audit authentication;;
  mret authentication.

(** [throttle.LockedUntil != nil && m.now().Before( *throttle.LockedUntil)] *)
Definition locked_now (throttle : LoginThrottle) : M World bool :=
  match LoginThrottle_LockedUntil throttle with
  | None => mret false
  | Some until => at_ ← now; mret (Time_Before at_ until)
  end.

(** The account a refusal is recorded against: none when the lookup failed. *)
Definition refused_account (found : result User) : UUID :=
  match found with Ok user => User_ID user | Error _ => Nil end.

(** [Manager.AuthenticatePassword] *)
Definition Manager_AuthenticatePassword (email password : string) : M World Authentication :=
  let normalized := normalizeEmail email in
  domainRequiresSSO normalized "auth.password";;
  l ← lookup_password normalized;
  match m_Verify m password (lookup_hash l) with
  | Error e => throw (Wrapped "verify password" e)
  | Ok (matches, rehash) =>
      match lookup_infrastructure l with Some e => throw e | None => mret tt end;;
      locked ← locked_now (lookup_throttle l);
      if (locked : bool) then
        audit ← recordAuthenticationAudit (refused_account (lookup_user l)) "auth.password"
                  AuditFailed "locked";
        emitAuthenticationFailed "auth.password.authenticate" audit
          (refused_account (lookup_user l));;
        throw ErrInvalidCredentials
      else
      let refuse (countFailure : bool) : M World Authentication :=
        audit ← recordAuthenticationFailure (refused_account (lookup_user l)) "auth.password"
                  countFailure;
        emitAuthenticationFailed "auth.password.authenticate" audit
          (refused_account (lookup_user l));;
        throw ErrInvalidCredentials in
      match lookup_user l with
      | Error _ => refuse false
      | Ok user =>
          if negb matches || User_Disabled user
          then refuse (negb (User_Disabled user) && negb matches)
          else complete_password user password (lookup_hash l) rehash
      end
  end.

(** [Manager.ChangePassword] *)
Definition Manager_ChangePassword (actor : Authentication) (currentPassword newPassword : string) :
    M World unit :=
  requireRecentInteractive actor;;
  let userID := Authentication_UserID actor in
  requireUnlocked userID "password.change";;
  validatePassword newPassword;;
  credential ← attempt (call (λ ctx, PasswordByUserID ctx userID));
  match credential with
  | Error _ => throw ErrInvalidCredentials
  | Ok credential =>
      match m_Verify m currentPassword (PasswordCredential_Hash credential) with
      | Error e => throw (Wrapped "verify password" e)
      | Ok (false, _) =>
          audit ← recordAuthenticationFailure userID "password.change" true;
          emitAuthenticationFailed "auth.password.change" audit userID;;
          throw ErrInvalidCredentials
      | Ok (true, _) =>
          hash ← hash_password "hash password" newPassword;
          now_ ← now;
          event ← newAudit userID "password.change" "user" (UUID_String userID) Nil AuditSucceeded
            EmptyString;
          meta ← newEventMeta EventPasswordChanged "auth.password.change" userID Nil event;
          sessionMeta ←
            (if m_sessionStore m
             then s ← newEventMeta EventUserSessionsRevoked "auth.password.change" userID Nil event;
                  mret (Some s)
             else mret None);
          let commit := mkCommit event (Some (λ tx,
            match apply_hooks (m_hooks m) (ApplyPasswordChange meta userID) tx with
            | Some e => Some e
            | None =>
                match sessionMeta with
                | None => None
                | Some s => apply_hooks (m_hooks m) (ApplyUserSessionRevocation s userID) tx
                end
            end)) None false in
          mapped "auth.password.change" (call (λ ctx,
            ChangePassword ctx (new_password userID hash now_) now_ commit));;
          emit meta;;
          match sessionMeta with Some s => emit s | None => mret tt end
      end
  end.

End password.
