(* ===== verification/ManagerAdmin.v ===== *)
(** * Administration and lifecycle
    (src/rbac.go, src/admin.go, src/lifecycle.go, src/revocation.go,
    src/client_audit.go, src/audit.go)

    Roles of a workspace and of the instance, workspaces and memberships, the
    status and profile of accounts, bulk revocation, and host-supplied audit
    events.  The listings are in [ManagerListings]. *)
From stdpp Require Import base gmap sets list strings numbers.
From Stdlib Require Import ZArith Lia Ascii.
From S2P Require Import Prelude Bytes Uuid Types OAuthTypes Roles AuditChain Store StoreUsers StoreTokens StoreWorkspaces StoreScim StoreOAuth Commit StoreSystem GoText GoNet Tokens Events Manager ManagerGates ManagerPassword.

Section admin.
Context {E : Env}.
Abbreviation m := the_manager.

(** The tail most mutations share: the audit event, the header of the event,
    the commit with its hooks, the call, the emission. *)
Definition commit_change_by (actorID workspaceID : UUID)
    (action operation resourceType resourceID : string) (name : EventName)
    (change : EventMeta → Change) (f : Commit → Context → M Store unit) : M World unit :=
  event ← newAudit actorID action resourceType resourceID workspaceID AuditSucceeded EmptyString;
  meta ← newEventMeta name operation actorID workspaceID event;
  mapped operation (call (f (transactionalCommit event (change meta))));;
  emit meta.
Definition commit_change (actor : Authentication) := commit_change_by (Authentication_UserID actor).

(** The same where the instant of the change is read just before the call. *)
Definition commit_change_at (actor : Authentication) (workspaceID : UUID)
    (action operation resourceType resourceID : string) (name : EventName)
    (change : EventMeta → Change) (f : Z → Commit → Context → M Store unit) : M World unit :=
  event ← newAudit (Authentication_UserID actor) action resourceType resourceID workspaceID
    AuditSucceeded EmptyString;
  meta ← newEventMeta name operation (Authentication_UserID actor) workspaceID event;
  at_ ← now;
  mapped operation (call (f at_ (transactionalCommit event (change meta))));;
  emit meta.

(** A lookup that may find nothing; other errors are returned. *)
Definition optional {A} (f : Context → M Store A) : M World (option A) :=
  r ← attempt (call f);
  match r with
  | Ok a => mret (Some a)
  | Error e => if errors_Is e ErrNotFound then mret None else throw e
  end.

(** ** Workspace roles *)

(** [Manager.GrantRole] *)
Definition Manager_GrantRole (actor : Authentication) (workspaceID userID : UUID) (role : Role) :
    M World unit :=
  requireScopedStepUp actor StepUpScopeWorkspace "rbac.role.grant";;
  AuthorizePermission actor workspaceID PermissionWorkspaceRBACWrite;;
  role ← lift_result (roleCatalog_normalize (m_workspaceRoles m) role);
  _ ← call (λ ctx, UserByID ctx userID);
  createdAt ← now;
  previous ← optional (λ ctx, Membership_ ctx workspaceID userID);
  let managed (p : Membership) :=
    bool_decide (Membership_ProvisioningSource p ≠ EmptyString) &&
    bool_decide (Membership_ProvisioningSource p ≠ ProvisioningSourceLocal) in
  throw_if (match previous with Some p => managed p | None => false end) ErrConflict;;
  now_ ← now;
  let '(previousRole, status, createdAt) :=
    match previous with
    | Some p => (Membership_Role p, Membership_Status p, Membership_CreatedAt p)
    | None => (EmptyString, MembershipActive, createdAt)
    end in
  let membership := new_membership workspaceID userID role status createdAt now_ in
  commit_change actor workspaceID "membership.role.set" "rbac.role.grant" "user" (UUID_String userID)
    EventRoleGranted (λ meta, ApplyRoleGrant meta userID role previousRole)
    (λ commit ctx, UpsertMembership ctx membership commit).

(** ** Instance roles *)

(** [Manager.InstanceAdministrator] *)
Definition Manager_InstanceAdministrator (actor : Authentication) (userID : UUID) :
    M World InstanceAdministrator :=
  AuthorizeAdmin actor PermissionInstanceRolesRead;;
  throw_if (negb (validUUIDv7 userID)) (Wrapped "invalid user id" ErrInvalidInput);;
  call (λ ctx, InstanceAdministrator_ ctx userID).

(** [Manager.SetInstanceRole] *)
Definition Manager_SetInstanceRole (actor : Authentication) (request : TrustedRequest)
    (userID : UUID) (role : InstanceRole) : M World unit :=
  AuthorizeAdmin actor PermissionInstanceRolesWrite;;
  requireAdminMutation actor request "admin.instance_role.set";;
  throw_if (negb (not_nil (default_permissions role)))
    (Wrapped "unknown instance role" ErrInvalidInput);;
  throw_if (bool_decide (userID = Nil)) (Wrapped "user id is required" ErrInvalidInput);;
  throw_if (bool_decide (userID = Authentication_UserID actor) &&
            bool_decide (role ≠ InstanceRoleRoot))
    (Wrapped "a root administrator cannot downgrade itself" ErrForbidden);;
  _ ← call (λ ctx, UserByID ctx userID);
  previous ← optional (λ ctx, InstanceAdministrator_ ctx userID);
  let previousRole :=
    match previous with Some p => InstanceAdministrator_Role p | None => EmptyString end in
  now_ ← now;
  let admin := mkInstanceAdministrator userID role now_ now_ in
  commit_change actor Nil "admin.instance_role.set" "admin.instance_role.set" "user"
    (UUID_String userID) EventInstanceRoleChanged
    (λ meta, ApplyInstanceRoleChange meta userID role previousRole)
    (λ commit ctx, SetInstanceRole ctx admin commit).

(** [Manager.RemoveInstanceRole] *)
Definition Manager_RemoveInstanceRole (actor : Authentication) (request : TrustedRequest)
    (userID : UUID) : M World unit :=
  AuthorizeAdmin actor PermissionInstanceRolesWrite;;
  requireAdminMutation actor request "admin.instance_role.remove";;
  throw_if (bool_decide (userID = Authentication_UserID actor))
    (Wrapped "a root administrator cannot remove itself" ErrForbidden);;
  commit_change actor Nil "admin.instance_role.remove" "admin.instance_role.remove" "user"
    (UUID_String userID) EventInstanceRoleRemoved
    (λ meta, ApplyInstanceRoleRemoval meta userID EmptyString)
    (λ commit ctx, RemoveInstanceRole ctx userID commit).

(** ** Workspaces *)

(** [name == "" || len(name) > 200] *)
Definition bounded_name (field message name : string) : M World unit :=
  throw_if (bool_decide (name = EmptyString) || bool_decide (200 < str_len name))
    (ValidationError field "length" message).

(** [Manager.CreateWorkspace] *)
Definition Manager_CreateWorkspace (actor : Authentication) (input : CreateWorkspaceInput) :
    M World Workspace :=
  requireScopedStepUp actor StepUpScopeWorkspace "workspace.create";;
  requireActiveUser (Authentication_UserID actor);;
  let name := TrimSpace (CreateWorkspaceInput_Name input) in
  bounded_name "name" "workspace name must contain between 1 and 200 characters" name;;
  id ← newID;
  now_ ← now;
  let workspace := Workspace_zero <| Workspace_ID := id |> <| Workspace_Name := name |>
    <| Workspace_RequireMFA := CreateWorkspaceInput_RequireMFA input |>
    <| Workspace_CreatedAt := now_ |> <| Workspace_UpdatedAt := now_ |> in
  let owner :=
    new_membership id (Authentication_UserID actor) RoleAdmin MembershipActive now_ now_ in
  commit_change actor id "workspace.create" "workspace.create" "workspace" (UUID_String id)
    EventWorkspaceCreated (λ meta, ApplyWorkspaceCreate meta workspace owner)
    (λ commit ctx, CreateWorkspace ctx workspace owner commit);;
  mret workspace.

(** [Manager.updateWorkspace] *)
Definition updateWorkspace (actor : Authentication) (workspaceID : UUID)
    (input : UpdateWorkspaceInput) (operation : string) : M World Workspace :=
  throw_if (negb (validUUIDv7 workspaceID)) (Wrapped "invalid workspace id" ErrInvalidInput);;
  let name := TrimSpace (UpdateWorkspaceInput_Name input) in
  bounded_name "name" "workspace name must contain between 1 and 200 characters" name;;
  previous ← call (λ ctx, WorkspaceByID ctx workspaceID);
  at_ ← now;
  let workspace := previous <| Workspace_Name := name |>
    <| Workspace_RequireMFA :=
         default (Workspace_RequireMFA previous) (UpdateWorkspaceInput_RequireMFA input) |>
    <| Workspace_UpdatedAt := at_ |> in
  commit_change actor workspaceID operation operation "workspace" (UUID_String workspaceID)
    EventWorkspaceUpdated (λ meta, ApplyWorkspaceChange meta workspace previous)
    (λ commit ctx, UpdateWorkspace ctx workspace commit);;
  mret workspace.

(** [Manager.UpdateWorkspace] and [Manager.AdminUpdateWorkspace] *)
Definition Manager_UpdateWorkspace (actor : Authentication) (workspaceID : UUID)
    (input : UpdateWorkspaceInput) : M World Workspace :=
  authorizeWorkspaceMutation actor workspaceID PermissionWorkspaceSettingsWrite "workspace.update";;
  updateWorkspace actor workspaceID input "workspace.update".
Definition Manager_AdminUpdateWorkspace (actor : Authentication) (request : TrustedRequest)
    (workspaceID : UUID) (input : UpdateWorkspaceInput) : M World Workspace :=
  AuthorizeAdmin actor PermissionWorkspacesWrite;;
  requireAdminMutation actor request "admin.workspace.update";;
  updateWorkspace actor workspaceID input "admin.workspace.update".

(** [Manager.setWorkspaceDisabled] *)
Definition setWorkspaceDisabled (actor : Authentication) (request : TrustedRequest)
    (workspaceID : UUID) (disabled administrative : bool) : M World unit :=
  let base_ := if disabled then "workspace.disable" else "workspace.enable" in
  let name := if disabled then EventWorkspaceDisabled else EventWorkspaceEnabled in
  let operation := if administrative then "admin." +:+ base_ else base_ in
  (if administrative then
     AuthorizeAdmin actor PermissionWorkspacesWrite;;
     requireAdminMutation actor request operation;;
     throw_if (negb (validUUIDv7 workspaceID)) (Wrapped "invalid workspace id" ErrInvalidInput)
   else
     authorizeWorkspaceMutation actor workspaceID PermissionWorkspaceSettingsWrite operation);;
  previous ← call (λ ctx, WorkspaceByID ctx workspaceID);
  if bool_decide (not_nil (Workspace_DisabledAt previous) = disabled) then mret tt
  else
  now_ ← now;
  let workspace := previous
    <| Workspace_DisabledAt := if disabled then Some now_ else None |>
    <| Workspace_UpdatedAt := now_ |> in
  commit_change actor workspaceID operation operation "workspace" (UUID_String workspaceID) name
    (λ meta, ApplyWorkspaceChange meta workspace previous)
    (λ commit ctx, SetWorkspaceDisabled ctx workspaceID disabled now_ commit).

Definition Manager_DisableWorkspace (actor : Authentication) (workspaceID : UUID) : M World unit :=
  setWorkspaceDisabled actor TrustedRequest_zero workspaceID true false.
Definition Manager_EnableWorkspace (actor : Authentication) (workspaceID : UUID) : M World unit :=
  setWorkspaceDisabled actor TrustedRequest_zero workspaceID false false.
Definition Manager_AdminDisableWorkspace (actor : Authentication) (request : TrustedRequest)
    (workspaceID : UUID) : M World unit :=
  setWorkspaceDisabled actor request workspaceID true true.
Definition Manager_AdminEnableWorkspace (actor : Authentication) (request : TrustedRequest)
    (workspaceID : UUID) : M World unit :=
  setWorkspaceDisabled actor request workspaceID false true.

(** ** Accounts *)

(** [Manager.setUserDisabled], behind [DisableUser] and [EnableUser] *)
Definition setUserDisabled (actor : Authentication) (request : TrustedRequest) (userID : UUID)
    (disabled : bool) : M World unit :=
  let operation := if disabled then "admin.user.disable" else "admin.user.enable" in
  let action := if disabled then "user.disable" else "user.enable" in
  let name := if disabled then EventUserDisabled else EventUserEnabled in
  AuthorizeAdmin actor PermissionUsersWrite;;
  requireAdminMutation actor request operation;;
  throw_if (negb (validUUIDv7 userID)) (Wrapped "invalid user id" ErrInvalidInput);;
  user ← call (λ ctx, UserByID ctx userID);
  if bool_decide (User_Disabled user = disabled) then mret tt
  else
  commit_change_at actor Nil action operation "user" (UUID_String userID) name
    (λ meta, ApplyUserStatusChange meta userID disabled)
    (λ at_ commit ctx, SetUserDisabled ctx userID disabled at_ commit).
Definition Manager_DisableUser (actor : Authentication) (request : TrustedRequest) (userID : UUID) :
    M World unit := setUserDisabled actor request userID true.
Definition Manager_EnableUser (actor : Authentication) (request : TrustedRequest) (userID : UUID) :
    M World unit := setUserDisabled actor request userID false.

(** [Manager.updateUserProfile], behind [UpdateUser] and [AdminUpdateUser] *)
Definition updateUserProfile (actor : Authentication) (userID : UUID) (input : UpdateUserInput)
    (operation : string) : M World User :=
  throw_if (negb (validUUIDv7 userID)) (Wrapped "invalid user id" ErrInvalidInput);;
  let displayName := TrimSpace (UpdateUserInput_DisplayName input) in
  bounded_name "display_name" "display name must contain between 1 and 200 characters" displayName;;
  previous ← call (λ ctx, UserByID ctx userID);
  at_ ← now;
  let user := previous <| User_DisplayName := displayName |> <| User_UpdatedAt := at_ |> in
  commit_change actor Nil operation operation "user" (UUID_String userID) EventUserProfileUpdated
    (λ meta, ApplyUserProfileChange meta user (User_DisplayName previous))
    (λ commit ctx, UpdateUser ctx user commit);;
  mret user.

Definition Manager_UpdateUser (actor : Authentication) (input : UpdateUserInput) : M World User :=
  requireRecentInteractive actor;;
  updateUserProfile actor (Authentication_UserID actor) input "user.profile.update".
Definition Manager_AdminUpdateUser (actor : Authentication) (request : TrustedRequest)
    (userID : UUID) (input : UpdateUserInput) : M World User :=
  AuthorizeAdmin actor PermissionUsersWrite;;
  requireAdminMutation actor request "admin.user.profile.update";;
  updateUserProfile actor userID input "admin.user.profile.update".

(** ** Memberships *)

(** [Manager.upsertLocalMembership] *)
Definition upsertLocalMembership (actor : Authentication) (workspaceID userID : UUID) (role : Role)
    (status : MembershipStatus) (add : bool) : M World Membership :=
  let operation := if add then "membership.add" else "membership.status.set" in
  let name := if add then EventMembershipAdded else EventMembershipStatusChanged in
  authorizeWorkspaceMutation actor workspaceID PermissionWorkspaceUsersWrite operation;;
  (if add then AuthorizePermission actor workspaceID PermissionWorkspaceRBACWrite else mret tt);;
  role ← lift_result (roleCatalog_normalize (m_workspaceRoles m) role);
  _ ← call (λ ctx, UserByID ctx userID);
  previous ← optional (λ ctx, Membership_ ctx workspaceID userID);
  match previous with
  | Some current =>
      throw_if (bool_decide (Membership_ProvisioningSource current ≠ ProvisioningSourceLocal))
        ErrConflict;;
      throw_if add ErrConflict
  | None => throw_if (negb add) ErrNotFound
  end;;
  now_ ← now;
  let created := match previous with Some p => Membership_CreatedAt p | None => now_ end in
  let membership := new_membership workspaceID userID role status created now_ in
  commit_change actor workspaceID operation operation "membership" (UUID_String userID) name
    (λ meta, ApplyMembershipChange meta membership previous false)
    (λ commit ctx, UpsertMembership ctx membership commit);;
  mret membership.

(** [Manager.AddMembership] *)
Definition Manager_AddMembership (actor : Authentication) (workspaceID userID : UUID) (role : Role) :
    M World Membership :=
  upsertLocalMembership actor workspaceID userID role MembershipActive true.

(** [Manager.SetMembershipStatus] *)
Definition Manager_SetMembershipStatus (actor : Authentication) (workspaceID userID : UUID)
    (status : MembershipStatus) : M World Membership :=
  throw_if (bool_decide (status ≠ MembershipActive) && bool_decide (status ≠ MembershipSuspended))
    (Wrapped "invalid membership status" ErrInvalidInput);;
  authorizeWorkspaceMutation actor workspaceID PermissionWorkspaceUsersWrite "membership.status.set";;
  current ← call (λ ctx, Membership_ ctx workspaceID userID);
  upsertLocalMembership actor workspaceID userID (Membership_Role current) status false.

(** [Manager.RemoveMembership] *)
Definition Manager_RemoveMembership (actor : Authentication) (workspaceID userID : UUID) :
    M World unit :=
  authorizeWorkspaceMutation actor workspaceID PermissionWorkspaceUsersWrite "membership.remove";;
  previous ← call (λ ctx, Membership_ ctx workspaceID userID);
  throw_if (bool_decide (Membership_ProvisioningSource previous ≠ ProvisioningSourceLocal))
    ErrConflict;;
  commit_change_at actor workspaceID "membership.remove" "membership.remove" "membership"
    (UUID_String userID) EventMembershipRemoved
    (λ meta, ApplyMembershipChange meta previous (Some previous) true)
    (λ at_ commit ctx, RemoveMembership ctx workspaceID userID at_ commit).

(** ** Reads *)

(** [Manager.User] *)
Definition Manager_User (actor : Authentication) (userID : UUID) : M World User :=
  throw_if (anonymous actor) ErrUnauthorized;;
  let userID := if bool_decide (userID = Nil) then Authentication_UserID actor else userID in
  (if bool_decide (userID = Authentication_UserID actor) then requireRecentInteractive actor
   else
     throw_if (negb (validUUIDv7 userID)) (Wrapped "invalid user id" ErrInvalidInput);;
     AuthorizeAdmin actor PermissionUsersRead);;
  call (λ ctx, UserByID ctx userID).

(** [Manager.Workspace] *)
Definition Manager_Workspace (actor : Authentication) (workspaceID : UUID) : M World Workspace :=
  throw_if (negb (validUUIDv7 workspaceID)) (Wrapped "invalid workspace id" ErrInvalidInput);;
  r ← attempt (AuthorizePermission actor workspaceID PermissionWorkspaceAccess);
  match r with
  | Ok _ => mret tt
  | Error e =>
      a ← attempt (AuthorizeAdmin actor PermissionWorkspacesRead);
      match a with Ok _ => mret tt | Error _ => throw e end
  end;;
  call (λ ctx, WorkspaceByID ctx workspaceID).

(** [Manager.Membership] *)
Definition Manager_Membership (actor : Authentication) (workspaceID userID : UUID) :
    M World Membership :=
  throw_if (negb (validUUIDv7 workspaceID)) (Wrapped "invalid workspace id" ErrInvalidInput);;
  let userID := if bool_decide (userID = Nil) then Authentication_UserID actor else userID in
  let own := bool_decide (userID = Authentication_UserID actor) in
  throw_if (negb own && negb (validUUIDv7 userID)) (Wrapped "invalid user id" ErrInvalidInput);;
  AuthorizePermission actor workspaceID
    (if own then PermissionWorkspaceAccess else PermissionWorkspaceUsersRead);;
  call (λ ctx, Membership_ ctx workspaceID userID).

(** ** Bulk revocation (revocation.go) *)

(** [Manager.RevokeUserCredentials] *)
Definition Manager_RevokeUserCredentials (actor : Authentication) (request : TrustedRequest)
    (userID : UUID) : M World unit :=
  let userID := if bool_decide (userID = Nil) then Authentication_UserID actor else userID in
  throw_if (negb (validUUIDv7 userID)) (Wrapped "invalid user id" ErrInvalidInput);;
  (if bool_decide (userID = Authentication_UserID actor)
   then requireScopedStepUp actor StepUpScopeAccount "auth.credentials.revoke"
   else requireAdminMutation actor request "auth.credentials.revoke";;
        AuthorizeAdmin actor PermissionUsersWrite);;
  commit_change_at actor Nil "user.credentials.revoke" "auth.credentials.revoke" "user"
    (UUID_String userID) EventUserCredentialsRevoked
    (λ meta, ApplyUserCredentialRevocation meta userID)
    (λ at_ commit ctx, RevokeUserCredentials ctx userID at_ commit).

(** [Manager.AdminResetSecondFactor] *)
Definition Manager_AdminResetSecondFactor (actor : Authentication) (request : TrustedRequest)
    (userID : UUID) : M World unit :=
  throw_if (negb (validUUIDv7 userID)) (Wrapped "invalid user id" ErrInvalidInput);;
  throw_if (bool_decide (userID = Authentication_UserID actor))
    (Wrapped "an administrator cannot reset their own second factor" ErrInvalidInput);;
  requireAdminMutation actor request "admin.second_factor.reset";;
  AuthorizeAdmin actor PermissionUsersWrite;;
  commit_change_at actor Nil "user.second_factor.reset" "admin.second_factor.reset" "user"
    (UUID_String userID) EventSecondFactorReset
    (λ meta, ApplySecondFactorReset meta userID)
    (λ at_ commit ctx, ResetSecondFactor ctx userID at_ commit).

(** [Manager.AnonymizeUser] *)
Definition Manager_AnonymizeUser (actor : Authentication) (request : TrustedRequest)
    (userID : UUID) : M World unit :=
  throw_if (negb (validUUIDv7 userID)) (Wrapped "invalid user id" ErrInvalidInput);;
  requireAdminMutation actor request "admin.user.anonymize";;
  AuthorizeAdmin actor PermissionUsersWrite;;
  commit_change_at actor Nil "user.anonymize" "admin.user.anonymize" "user" (UUID_String userID)
    EventUserAnonymized (λ meta, ApplyUserAnonymization meta userID)
    (λ at_ commit ctx, AnonymizeUser ctx userID at_ commit).

(** ** Audit (client_audit.go, audit.go) *)

(** [validAuditName] *)
Definition is_audit_char (c : Z) : bool :=
  in_range 97 122 c || in_range 48 57 c ||
  existsb (λ a, bool_decide (c = byte_Z a)) ["."%char; "_"%char; ":"%char; "-"%char].
Definition validAuditName (value : string) : bool :=
  negb (bool_decide (value = EmptyString) || bool_decide (100 < str_len value)) &&
  forallb is_audit_char (runes value).

(** [Manager.RecordAudit] *)
Definition Manager_RecordAudit (actor : Authentication) (input : AuditInput) : M World unit :=
  throw_if (anonymous actor) ErrUnauthorized;;
  let action := TrimSpace (AuditInput_Action input) in
  let resourceType := TrimSpace (AuditInput_ResourceType input) in
  let resourceID := TrimSpace (AuditInput_ResourceID input) in
  let reason := TrimSpace (AuditInput_Reason input) in
  throw_if (negb (validAuditName action) || negb (validAuditName resourceType) ||
            bool_decide (resourceID = EmptyString) || bool_decide (200 < str_len resourceID) ||
            bool_decide (500 < str_len reason)) (Wrapped "invalid audit event" ErrInvalidInput);;
  throw_if (bool_decide (AuditInput_Outcome input ≠ AuditSucceeded) &&
            bool_decide (AuditInput_Outcome input ≠ AuditFailed))
    (Wrapped "invalid audit outcome" ErrInvalidInput);;
  (if bool_decide (AuditInput_WorkspaceID input ≠ Nil)
   then AuthorizePermission actor (AuditInput_WorkspaceID input) PermissionWorkspaceAccess
   else AuthorizeAdmin actor PermissionAdminAccess);;
  event ← newAudit (Authentication_UserID actor) action resourceType resourceID
    (AuditInput_WorkspaceID input) (AuditInput_Outcome input) reason;
  meta ← newEventMeta EventClientAuditRecorded "audit.record" (Authentication_UserID actor)
    (AuditInput_WorkspaceID input) event;
  mapped "audit.record" (call (λ ctx,
    AppendAudit ctx (transactionalCommit event (ApplyClientAudit meta event))));;
  emit meta.

(** [Manager.VerifyAuditChainFrom]: the events are read under one lock, the
    head under another. *)
Definition Manager_VerifyAuditChainFrom (actor : Authentication)
    (checkpoint : AuditChainCheckpoint) : M World AuditChainReport :=
  AuthorizeAdmin actor PermissionAuditRead;;
  start ← lift_result (checkpoint_start checkpoint);
  events ← call (λ ctx, check_ctx ctx;; gets (λ s, ChainedAuditEvents s start.2));
  last ← lift_result (verify_events start.1 start.2 events);
  head ← call AuditChainHead;
  lift_result (check_head last.1 last.2 head.1 head.2).

(** [Manager.VerifyAuditChain] *)
Definition Manager_VerifyAuditChain (actor : Authentication) : M World AuditChainReport :=
  Manager_VerifyAuditChainFrom actor AuditChainCheckpoint_zero.

End admin.
