(* ===== verification/ManagerEmail.v ===== *)
(** * Email addresses, password reset and magic links
    (src/email.go, src/reset.go, src/magiclink.go)

    The addresses of an account and their verification, the reset of a
    password and sign-in with a link, each by a single-use token sent to the
    address. *)
From stdpp Require Import base gmap sets list strings numbers.
From Stdlib Require Import ZArith Lia Ascii.
From S2P Require Import Prelude Bytes Uuid Types OAuthTypes Roles AuditChain Store StoreUsers StoreTokens StoreWorkspaces StoreScim StoreOAuth StorePages Commit StoreSystem GoText GoNet Tokens Events Manager ManagerGates ManagerPassword ManagerAdmin.

Definition emailVerificationPrefix : string := "cbe".
Definition passwordResetPrefix : string := "cbr".
Definition emailAuthenticationPrefix : string := "cbl".

(** [parseEmailVerification] *)
Definition parseEmailVerification (raw : string) : option UUID :=
  parseSecretToken emailVerificationPrefix raw.

(** One page of [userEmails]: the first answer of the consumer, or the cursor
    and the flag of the end marker. *)
Fixpoint scan_page {T R} (yield : T → option R) (events : Stream (PageEvent T)) (e : PageEnd) :
    result (R + PageEnd) :=
  match events with
  | [] => Ok (inr e)
  | Error err :: _ => Error err
  | Ok (ItemEvent v) :: events' =>
      match yield v with Some r => Ok (inl r) | None => scan_page yield events' e end
  | Ok (EndEvent e') :: events' => scan_page yield events' e'
  end.

Section email.
Context {E : Env}.
Abbreviation m := the_manager.

(** A secret of 32 random bytes rendered as a token. *)
Definition issue_token (prefix : string) (id : UUID) : M World string :=
  secret ← randomBytes 32;
  mret (token_text prefix (UUID_String id) secret).

(** [if auditErr := m.appendAuthenticationAudit(...); auditErr != nil { return auditErr }; return err] *)
Definition refuse {A} (actor : UUID) (action reason : string) (err : error) : M World A :=
  appendAuthenticationAudit actor action AuditFailed reason;; throw err.
(** The same where the answer is the zero value. *)
Definition decline {A} (actor : UUID) (action reason : string) (zero : A) : M World A :=
  appendAuthenticationAudit actor action AuditFailed reason;; mret zero.

(** A lookup of a token's row whose absence is [ErrInvalidCredentials]. *)
Definition lookup_token {A} (f : Context → M Store A) : M World A :=
  r ← attempt (call f);
  match r with
  | Ok a => mret a
  | Error e => throw (if errors_Is e ErrNotFound then Sent ErrInvalidCredentials else e)
  end.

(** The tail of the issuing operations: an audit event, the header of the event, a
    commit without hooks, the emission. *)
Definition commit_audited (actorID : UUID) (action operation resourceType resourceID : string)
    (name : EventName) (f : Commit → Context → M Store unit) : M World unit :=
  event ← newAudit actorID action resourceType resourceID Nil AuditSucceeded EmptyString;
  meta ← newEventMeta name operation actorID Nil event;
  mapped operation (call (f (audit_commit event)));;
  emit meta.

(** ** Addresses *)

(** [Manager.userEmails], with its consumer: [yield] answers when it has what
    it looks for. *)
Definition email_page {R} (userID : UUID) (yield : EmailAddress → option R) (cursor : string) :
    M World (string + option R) :=
  events ← call (λ ctx, Emails ctx userID (mkPageRequest cursor 100));
  r ← lift_result (scan_page yield events PageEnd_zero);
  match r with
  | inl r => mret (inr (Some r))
  | inr e =>
      if negb (PageEnd_HasMore e) || bool_decide (PageEnd_NextCursor e = EmptyString)
      then mret (inr None) else mret (inl (PageEnd_NextCursor e))
  end.
Definition userEmails {R} (userID : UUID) (yield : EmailAddress → option R) : M World (option R) :=
  loop (email_page userID yield) EmptyString.

(** [Manager.emailAddressByID] *)
Definition emailAddressByID (userID emailID : UUID) : M World string :=
  r ← userEmails userID (λ email,
        if bool_decide (EmailAddress_ID email = emailID)
        then Some (EmailAddress_Address email) else None);
  ok_or r ErrNotFound.

(** [email.Address == address && email.VerifiedAt != nil] *)
Definition is_verified_as (address : string) (email : EmailAddress) : bool :=
  bool_decide (EmailAddress_Address email = address) && not_nil (EmailAddress_VerifiedAt email).

(** [Manager.verifiedEmailID] *)
Definition verifiedEmailID (userID : UUID) (address : string) : M World UUID :=
  r ← userEmails userID (λ email,
        if is_verified_as address email then Some (EmailAddress_ID email) else None);
  ok_or r ErrNotFound.

(** [Manager.allowEmailIssuance] *)
Definition allowEmailIssuance (address purpose : string) : M World bool :=
  if bool_decide (m_emailIssuanceCooldown m ≤ 0)%Z || negb (m_emailThrottle m) then mret true
  else
    let key := base64_RawURL_EncodeToString (tokenDigest ("email-issuance:" +:+ address)) in
    now_ ← now;
    call (λ ctx, ClaimEmailIssuance ctx key purpose now_ (now_ - m_emailIssuanceCooldown m)%Z).

(** [Manager.BeginEmailAddition] *)
Definition Manager_BeginEmailAddition (actor : Authentication) (address : string) :
    M World IssuedEmailVerification :=
  requireRecentInteractive actor;;
  address ← lift_result (validEmail address);
  id ← newID;
  raw ← issue_token emailVerificationPrefix id;
  now_ ← now;
  let email := EmailAddress_zero <| EmailAddress_ID := id |>
    <| EmailAddress_UserID := Authentication_UserID actor |> <| EmailAddress_Address := address |>
    <| EmailAddress_CreatedAt := now_ |> <| EmailAddress_UpdatedAt := now_ |> in
  let verification := mkEmailVerificationCredential id
    (tokenDigest ("email-verification:" +:+ raw)) (now_ + m_emailVerificationTTL m)%Z in
  commit_change actor Nil "email.add" "auth.email.add.begin" "email" (UUID_String id) EventEmailAdded
    (λ meta, ApplyEmailAddition meta email) (λ commit ctx, SaveEmail ctx email verification commit);;
  mret (mkIssuedEmailVerification email raw true).

(** [Manager.ResendEmailVerification] *)
Definition Manager_ResendEmailVerification (address : string) : M World IssuedEmailVerification :=
  let normalized := normalizeEmail address in
  let action := "email.verification.resend" in
  domainRequiresSSO normalized action;;
  allowed ← allowEmailIssuance normalized action;
  if negb allowed then decline Nil action "throttled" IssuedEmailVerification_zero
  else
    found ← attempt (call (λ ctx, EmailByAddress ctx normalized));
    decoyID ← newID;
    let pending := match found with
                   | Ok email => negb (not_nil (EmailAddress_VerifiedAt email))
                   | Error _ => false end in
    let emailID := match found with
                   | Ok email => if pending then EmailAddress_ID email else decoyID
                   | Error _ => decoyID end in
    raw ← issue_token emailVerificationPrefix emailID;
    match found with
    | Error e =>
        if errors_Is e ErrNotFound
        then decline Nil action "unknown_email" IssuedEmailVerification_zero else throw e
    | Ok email =>
        if negb pending
        then decline (EmailAddress_UserID email) action "already_verified" IssuedEmailVerification_zero
        else
          now_ ← now;
          let verification := mkEmailVerificationCredential (EmailAddress_ID email)
            (tokenDigest ("email-verification:" +:+ raw)) (now_ + m_emailVerificationTTL m)%Z in
          commit_audited (EmailAddress_UserID email) action "auth.email.verification.resend" "email"
            (UUID_String (EmailAddress_ID email)) EventEmailVerificationResent
            (λ commit ctx, ReissueEmailVerification ctx (EmailAddress_ID email) verification commit);;
          mret (mkIssuedEmailVerification (email <| EmailAddress_UpdatedAt := now_ |>) raw true)
    end.

(** [Manager.ConfirmEmail] *)
Definition Manager_ConfirmEmail (raw : string) : M World EmailAddress :=
  emailID ← ok_or (parseEmailVerification raw) ErrInvalidCredentials;
  found ← lookup_token (λ ctx, EmailVerificationByID ctx emailID);
  let '(email, verification) := (found : EmailAddress * EmailVerificationCredential) in
  throw_if (not_nil (EmailAddress_VerifiedAt email)) ErrConflict;;
  at_ ← now;
  if negb (Time_Before at_ (EmailVerificationCredential_ExpiresAt verification))
  then refuse (EmailAddress_UserID email) "email.verify" "expired" ErrExpired
  else if negb (matchTokenDigest (EmailVerificationCredential_Digest verification)
                  ("email-verification:" +:+ raw))
  then refuse (EmailAddress_UserID email) "email.verify" "invalid_credentials" ErrInvalidCredentials
  else
    verifiedAt ← now;
    let confirmed := email <| EmailAddress_VerifiedAt := Some verifiedAt |>
      <| EmailAddress_UpdatedAt := verifiedAt |> in
    commit_change_by (EmailAddress_UserID email) Nil "email.verify" "auth.email.add.confirm" "email"
      (UUID_String (EmailAddress_ID email)) EventEmailConfirmed
      (λ meta, ApplyEmailConfirmation meta confirmed)
      (λ commit ctx, VerifyEmail ctx (EmailAddress_ID email) verifiedAt commit);;
    mret confirmed.

(** [Manager.SetPrimaryEmail] *)
Definition Manager_SetPrimaryEmail (actor : Authentication) (emailID : UUID) : M World unit :=
  requireScopedStepUp actor StepUpScopeAccount "auth.email.primary.set";;
  throw_if (negb (validUUIDv7 emailID)) (Wrapped "invalid email id" ErrInvalidInput);;
  let userID := Authentication_UserID actor in
  commit_change actor Nil "email.primary.set" "auth.email.primary.set" "email" (UUID_String emailID)
    EventPrimaryEmailChanged (λ meta, ApplyPrimaryEmailChange meta userID emailID)
    (λ commit ctx, SetPrimaryEmail ctx userID emailID commit).

(** [Manager.RemoveEmail] *)
Definition Manager_RemoveEmail (actor : Authentication) (emailID : UUID) : M World unit :=
  requireScopedStepUp actor StepUpScopeAccount "auth.email.remove";;
  throw_if (negb (validUUIDv7 emailID)) (Wrapped "invalid email id" ErrInvalidInput);;
  let userID := Authentication_UserID actor in
  commit_change actor Nil "email.remove" "auth.email.remove" "email" (UUID_String emailID)
    EventEmailRemoved (λ meta, ApplyEmailRemoval meta userID emailID)
    (λ commit ctx, RemoveEmail ctx userID emailID commit).

(** [errorSeq] *)
Definition errorSeq {A} (e : error) : Stream A := [Error e].

(** The listings: what their authorization answers, then the page of the store. *)
Definition listing {T} (authorize : M World unit) (page : PageRequest)
    (f : PageRequest → Context → M Store (Stream (PageEvent T))) : M World (Stream (PageEvent T)) :=
  r ← attempt authorize;
  match r with
  | Error e => mret (errorSeq e)
  | Ok _ =>
      match normalizePage page with
      | Error e => mret (errorSeq e)
      | Ok page => call (f page)
      end
  end.

(** [Manager.Emails] *)
Definition Manager_Emails (actor : Authentication) (userID : UUID) (page : PageRequest) :
    M World (Stream (PageEvent EmailAddress)) :=
  let userID := if bool_decide (userID = Nil) then Authentication_UserID actor else userID in
  listing
    (throw_if (anonymous actor) ErrUnauthorized;;
     if bool_decide (userID = Authentication_UserID actor)
     then requireRecentInteractive actor else AuthorizeAdmin actor PermissionUsersRead)
    page (λ page ctx, Emails ctx userID page).

(** ** Password reset *)

(** [Manager.BeginPasswordReset] *)
Definition Manager_BeginPasswordReset (email : string) : M World IssuedPasswordReset :=
  let normalized := normalizeEmail email in
  let action := "password.reset.request" in
  domainRequiresSSO normalized action;;
  allowed ← allowEmailIssuance normalized action;
  if negb allowed then decline Nil action "throttled" IssuedPasswordReset_zero
  else
    found ← attempt (call (λ ctx, UserByEmail ctx normalized));
    id ← newID;
    raw ← issue_token passwordResetPrefix id;
    match found with
    | Error e =>
        if errors_Is e ErrNotFound
        then decline Nil action "unknown_email" IssuedPasswordReset_zero else throw e
    | Ok user =>
        if User_Disabled user
        then decline (User_ID user) action "user_disabled" IssuedPasswordReset_zero
        else
          now_ ← now;
          let expiresAt := (now_ + m_passwordResetTTL m)%Z in
          let credential := PasswordResetCredential_zero <| PasswordResetCredential_ID := id |>
            <| PasswordResetCredential_UserID := User_ID user |>
            <| PasswordResetCredential_Digest := tokenDigest ("password-reset:" +:+ raw) |>
            <| PasswordResetCredential_CreatedAt := now_ |>
            <| PasswordResetCredential_ExpiresAt := expiresAt |> in
          commit_audited (User_ID user) action "auth.password.reset.begin" "user"
            (UUID_String (User_ID user)) EventPasswordResetRequested
            (λ commit ctx, CreatePasswordReset ctx credential commit);;
          mret (mkIssuedPasswordReset (User_ID user) raw expiresAt true)
    end.

(** The two hooks of a commit, the second run when the first accepts. *)
Definition two_hooks (event : AuditEvent) (first second : Change) : Commit :=
  mkCommit event (Some (λ tx,
    match apply_hooks (m_hooks m) first tx with
    | Some e => Some e
    | None => apply_hooks (m_hooks m) second tx
    end)) None false.

(** [if errors.Is(err, ErrConflict) { return ErrInvalidCredentials }; return m.mapStoreError(...)] *)
Definition mapped_spent {A} (operation : string) (f : M World A) : M World A :=
  r ← attempt f;
  match r with
  | Ok a => mret a
  | Error e =>
      if errors_Is e ErrConflict then throw ErrInvalidCredentials
      else e' ← mapStoreError operation e; throw e'
  end.

(** [Manager.CompletePasswordReset] *)
Definition Manager_CompletePasswordReset (raw newPassword : string) : M World User :=
  let action := "password.reset.complete" in
  resetID ← ok_or (parseSecretToken passwordResetPrefix raw) ErrInvalidCredentials;
  credential ← lookup_token (λ ctx, PasswordResetByID ctx resetID);
  let owner := PasswordResetCredential_UserID credential in
  if not_nil (PasswordResetCredential_UsedAt credential)
  then refuse owner action "reused" ErrInvalidCredentials
  else
  at_ ← now;
  if negb (Time_Before at_ (PasswordResetCredential_ExpiresAt credential))
  then refuse owner action "expired" ErrExpired
  else if negb (matchTokenDigest (PasswordResetCredential_Digest credential) ("password-reset:" +:+ raw))
  then refuse owner action "invalid_credentials" ErrInvalidCredentials
  else
  validatePassword newPassword;;
  found ← attempt (call (λ ctx, UserByID ctx owner));
  match (match found with Ok user => if User_Disabled user then None else Some user | Error _ => None end) with
  | None => refuse owner action "user_disabled" ErrInvalidCredentials
  | Some user =>
      domainRequiresSSO (normalizeEmail (User_Email user)) action;;
      hash ← hash_password "hash password" newPassword;
      now_ ← now;
      event ← newAudit (User_ID user) action "user" (UUID_String (User_ID user)) Nil AuditSucceeded
        EmptyString;
      resetMeta ← newEventMeta EventPasswordResetCompleted "auth.password.reset.complete"
        (User_ID user) Nil event;
      revokeMeta ← newEventMeta EventUserCredentialsRevoked "auth.password.reset.complete"
        (User_ID user) Nil event;
      mapped_spent "auth.password.reset.complete" (call (λ ctx,
        CompletePasswordReset ctx resetID (new_password (User_ID user) hash now_) now_
          (two_hooks event (ApplyPasswordChange resetMeta (User_ID user))
             (ApplyUserCredentialRevocation revokeMeta (User_ID user)))));;
      emit resetMeta;;
      emit revokeMeta;;
      mret user
  end.

(** ** Sign-in with a magic link *)

(** [Manager.BeginEmailAuthentication] *)
Definition Manager_BeginEmailAuthentication (email : string) : M World IssuedEmailAuthentication :=
  let normalized := normalizeEmail email in
  let action := "email_authentication.request" in
  domainRequiresSSO normalized action;;
  allowed ← allowEmailIssuance normalized action;
  if negb allowed then decline Nil action "throttled" IssuedEmailAuthentication_zero
  else
    found ← attempt (call (λ ctx, UserByEmail ctx normalized));
    id ← newID;
    raw ← issue_token emailAuthenticationPrefix id;
    match found with
    | Error e =>
        if errors_Is e ErrNotFound
        then decline Nil action "unknown_email" IssuedEmailAuthentication_zero else throw e
    | Ok user =>
        if User_Disabled user
        then decline (User_ID user) action "user_disabled" IssuedEmailAuthentication_zero
        else
          verified ← attempt (verifiedEmailID (User_ID user) normalized);
          match verified with
          | Error e =>
              if errors_Is e ErrNotFound
              then decline (User_ID user) action "unverified_email" IssuedEmailAuthentication_zero
              else throw e
          | Ok emailID =>
              now_ ← now;
              let expiresAt := (now_ + m_emailAuthTTL m)%Z in
              let credential := EmailAuthenticationCredential_zero
                <| EmailAuthenticationCredential_ID := id |>
                <| EmailAuthenticationCredential_UserID := User_ID user |>
                <| EmailAuthenticationCredential_EmailID := emailID |>
                <| EmailAuthenticationCredential_Digest := tokenDigest ("email-authentication:" +:+ raw) |>
                <| EmailAuthenticationCredential_CreatedAt := now_ |>
                <| EmailAuthenticationCredential_ExpiresAt := expiresAt |> in
              commit_audited (User_ID user) action "auth.email_link.begin" "user"
                (UUID_String (User_ID user)) EventEmailAuthenticationRequested
                (λ commit ctx, CreateEmailAuthentication ctx credential commit);;
              mret (mkIssuedEmailAuthentication (User_ID user) emailID raw expiresAt true)
          end
    end.

(** [factor, err := m.store.TOTPByUserID]: whether a second factor is still due *)
Definition second_factor_due (userID : UUID) : M World bool :=
  factor ← attempt (call (λ ctx, TOTPByUserID ctx userID));
  match factor with
  | Ok f => mret (TOTPFactor_Active f)
  | Error e => if errors_Is e ErrNotFound then mret false else throw e
  end.

(** [Manager.CompleteEmailAuthentication] *)
Definition Manager_CompleteEmailAuthentication (raw : string) : M World Authentication :=
  let action := "auth.email_link" in
  tokenID ← ok_or (parseSecretToken emailAuthenticationPrefix raw) ErrInvalidCredentials;
  credential ← lookup_token (λ ctx, EmailAuthenticationByID ctx tokenID);
  let owner := EmailAuthenticationCredential_UserID credential in
  if not_nil (EmailAuthenticationCredential_UsedAt credential)
  then refuse owner action "reused" ErrInvalidCredentials
  else
  at_ ← now;
  if negb (Time_Before at_ (EmailAuthenticationCredential_ExpiresAt credential))
  then refuse owner action "expired" ErrExpired
  else if negb (matchTokenDigest (EmailAuthenticationCredential_Digest credential)
                  ("email-authentication:" +:+ raw))
  then refuse owner action "invalid_credentials" ErrInvalidCredentials
  else
  found ← attempt (call (λ ctx, UserByID ctx owner));
  match (match found with Ok user => if User_Disabled user then None else Some user | Error _ => None end) with
  | None => refuse owner action "user_disabled" ErrInvalidCredentials
  | Some user =>
      address ← attempt (emailAddressByID (User_ID user) (EmailAuthenticationCredential_EmailID credential));
      match address with
      | Error e => throw (if errors_Is e ErrNotFound then Sent ErrInvalidCredentials else e)
      | Ok address =>
          domainRequiresSSO address action;;
          requireUnlocked (User_ID user) action;;
          requiresSecondFactor ← second_factor_due (User_ID user);
          now_ ← now;
          event ← newAudit (User_ID user) action "user" (UUID_String (User_ID user)) Nil
            AuditSucceeded EmptyString;
          mapped_spent "auth.email_link.complete" (call (λ ctx,
            ConsumeEmailAuthentication ctx tokenID (User_ID user) now_ (negb requiresSecondFactor)
              (audit_commit event)));;
          let authentication := mkAuthentication (User_ID user) MethodEmail AAL1 now_
            requiresSecondFactor Nil [] EmptyString in
          emitAuthenticationSucceeded "auth.email_link.complete" event authentication;;
          mret authentication
      end
  end.

End email.
