(* ===== verification/ManagerInvite.v ===== *)
(** * Invitations, sign-up and email domains
    (src/invitation.go, src/signup.go, src/domain.go)

    Joining a workspace by a token sent to an address, the registration of a
    visitor, and the email domains a workspace claims. *)
From stdpp Require Import base gmap sets list strings numbers.
From Stdlib Require Import ZArith Lia Ascii.
From S2P Require Import Prelude Bytes Uuid Types OAuthTypes Roles AuditChain Store StoreUsers StoreTokens StoreWorkspaces StoreScim StoreOAuth StorePages Commit StoreSystem GoText GoNet Tokens Events Manager ManagerGates ManagerPassword ManagerAdmin ManagerEmail.

Definition invitationPrefix : string := "cbi".
Definition domainChallengePrefix : string := "credbound-domain-verification=".

(** [scrubInvitation] *)
Definition scrubInvitation (invitation : WorkspaceInvitation) : WorkspaceInvitation :=
  invitation <| WorkspaceInvitation_Digest := EmptyString |>.

Section invite.
Context {E : Env}.
Abbreviation m := the_manager.

(** [if _, err := f(); err == nil { return found } else if !errors.Is(err, ErrNotFound) { return err }] *)
Definition require_absent {A} (f : Context → M Store A) (found : error) : M World unit :=
  r ← attempt (call f);
  match r with
  | Ok _ => throw found
  | Error e => if errors_Is e ErrNotFound then mret tt else throw e
  end.

(** [Manager.InviteToWorkspace] *)
Definition Manager_InviteToWorkspace (actor : Authentication) (workspaceID : UUID)
    (input : InviteToWorkspaceInput) : M World IssuedWorkspaceInvitation :=
  requireScopedStepUp actor StepUpScopeWorkspace "workspace.invitation.create";;
  AuthorizePermission actor workspaceID PermissionWorkspaceUsersWrite;;
  email ← lift_result (validEmail (InviteToWorkspaceInput_Email input));
  role ← lift_result (roleCatalog_normalize (m_workspaceRoles m) (InviteToWorkspaceInput_Role input));
  user ← optional (λ ctx, UserByEmail ctx email);
  match user with
  | Some user => require_absent (λ ctx, Membership_ ctx workspaceID (User_ID user))
                   (Wrapped "the user is already a member" ErrConflict)
  | None => mret tt
  end;;
  require_absent (λ ctx, PendingWorkspaceInvitation ctx workspaceID email)
    (Wrapped "a pending invitation already exists" ErrConflict);;
  id ← newID;
  raw ← issue_token invitationPrefix id;
  now_ ← now;
  let invitation := WorkspaceInvitation_zero <| WorkspaceInvitation_ID := id |>
    <| WorkspaceInvitation_WorkspaceID := workspaceID |> <| WorkspaceInvitation_Email := email |>
    <| WorkspaceInvitation_Role := role |>
    <| WorkspaceInvitation_InvitedBy := Authentication_UserID actor |>
    <| WorkspaceInvitation_Digest := tokenDigest ("workspace-invitation:" +:+ raw) |>
    <| WorkspaceInvitation_CreatedAt := now_ |>
    <| WorkspaceInvitation_ExpiresAt := (now_ + m_invitationTTL m)%Z |> in
  commit_change actor workspaceID "workspace.invitation.create" "workspace.invitation.create"
    "workspace_invitation" (UUID_String id) EventWorkspaceInvitationCreated
    (λ meta, ApplyWorkspaceInvitationChange meta (scrubInvitation invitation))
    (λ commit ctx, CreateWorkspaceInvitation ctx invitation commit);;
  mret (mkIssuedWorkspaceInvitation (scrubInvitation invitation) raw).

(** [Manager.usableInvitation] *)
Definition usableInvitation (raw action : string) : M World WorkspaceInvitation :=
  invitationID ← ok_or (parseSecretToken invitationPrefix raw) ErrInvalidCredentials;
  invitation ← lookup_token (λ ctx, WorkspaceInvitationByID ctx invitationID);
  if not_nil (WorkspaceInvitation_RevokedAt invitation) ||
     not_nil (WorkspaceInvitation_AcceptedAt invitation)
  then refuse Nil action "invalid_credentials" ErrInvalidCredentials
  else
  at_ ← now;
  if negb (Time_Before at_ (WorkspaceInvitation_ExpiresAt invitation))
  then refuse Nil action "expired" ErrExpired
  else if negb (matchTokenDigest (WorkspaceInvitation_Digest invitation)
                  ("workspace-invitation:" +:+ raw))
  then refuse Nil action "invalid_credentials" ErrInvalidCredentials
  else
  workspace ← call (λ ctx, WorkspaceByID ctx (WorkspaceInvitation_WorkspaceID invitation));
  throw_if (not_nil (Workspace_DisabledAt workspace)) ErrForbidden;;
  mret (scrubInvitation invitation).

(** [Manager.ownsVerifiedEmail] *)
Definition ownsVerifiedEmail (userID : UUID) (address : string) : M World bool :=
  r ← userEmails userID (λ email, if is_verified_as address email then Some tt else None);
  mret (not_nil r).

(** [Manager.AcceptInvitation] *)
Definition Manager_AcceptInvitation (actor : Authentication) (raw : string) : M World Membership :=
  let action := "workspace.invitation.accept" in
  requireRecentInteractive actor;;
  let userID := Authentication_UserID actor in
  invitation ← usableInvitation raw action;
  owned ← ownsVerifiedEmail userID (WorkspaceInvitation_Email invitation);
  if negb owned then refuse userID action "email_mismatch" ErrForbidden
  else
  let workspaceID := WorkspaceInvitation_WorkspaceID invitation in
  require_absent (λ ctx, Membership_ ctx workspaceID userID)
    (Wrapped "the user is already a member" ErrConflict);;
  now_ ← now;
  let membership := new_membership workspaceID userID (WorkspaceInvitation_Role invitation)
    MembershipActive now_ now_ in
  event ← newAudit userID action "workspace_invitation" (UUID_String (WorkspaceInvitation_ID invitation))
    workspaceID AuditSucceeded EmptyString;
  invitationMeta ← newEventMeta EventWorkspaceInvitationAccepted action userID workspaceID event;
  membershipMeta ← newEventMeta EventMembershipAdded action userID workspaceID event;
  let accepted := invitation <| WorkspaceInvitation_AcceptedAt := Some now_ |>
    <| WorkspaceInvitation_AcceptedUserID := userID |> in
  mapped action (call (λ ctx,
    AcceptWorkspaceInvitation ctx (WorkspaceInvitation_ID invitation) userID now_ membership
      (two_hooks event (ApplyMembershipChange membershipMeta membership None false)
         (ApplyWorkspaceInvitationChange invitationMeta accepted))));;
  emit membershipMeta;;
  emit invitationMeta;;
  mret membership.

(** [Manager.RegisterFromInvitation] *)
Definition Manager_RegisterFromInvitation (raw : string) (input : RegisterFromInvitationInput) :
    M World (Authentication * User) :=
  let action := "workspace.invitation.register" in
  invitation ← usableInvitation raw action;
  domainRequiresSSO (WorkspaceInvitation_Email invitation) action;;
  require_text "display_name" "display name is required" (RegisterFromInvitationInput_DisplayName input);;
  validatePassword (RegisterFromInvitationInput_Password input);;
  require_absent (λ ctx, UserByEmail ctx (WorkspaceInvitation_Email invitation))
    (Wrapped "an account with this email already exists" ErrConflict);;
  hash ← hash_password "hash password" (RegisterFromInvitationInput_Password input);
  userID ← newID;
  emailID ← newID;
  now_ ← now;
  let workspaceID := WorkspaceInvitation_WorkspaceID invitation in
  let user := new_user userID (WorkspaceInvitation_Email invitation)
    (TrimSpace (RegisterFromInvitationInput_DisplayName input)) (Some now_) now_ in
  let primaryEmail := new_primary_email emailID userID (WorkspaceInvitation_Email invitation) now_ in
  let membership := new_membership workspaceID userID (WorkspaceInvitation_Role invitation)
    MembershipActive now_ now_ in
  event ← newAudit userID action "workspace_invitation" (UUID_String (WorkspaceInvitation_ID invitation))
    workspaceID AuditSucceeded EmptyString;
  userMeta ← newEventMeta EventUserCreated action userID workspaceID event;
  invitationMeta ← newEventMeta EventWorkspaceInvitationAccepted action userID workspaceID event;
  let accepted := invitation <| WorkspaceInvitation_AcceptedAt := Some now_ |>
    <| WorkspaceInvitation_AcceptedUserID := userID |> in
  mapped action (call (λ ctx,
    RegisterInvitedUser ctx (WorkspaceInvitation_ID invitation) user primaryEmail
      (new_password userID hash now_) membership now_
      (two_hooks event (ApplyUserCreate userMeta user primaryEmail membership)
         (ApplyWorkspaceInvitationChange invitationMeta accepted))));;
  emit userMeta;;
  emit invitationMeta;;
  let authentication := mkAuthentication userID MethodPassword AAL1 now_ false Nil []
    (CredentialFingerprint hash) in
  emitAuthenticationSucceeded action event authentication;;
  mret (authentication, user).

(** [Manager.RevokeInvitation] *)
Definition Manager_RevokeInvitation (actor : Authentication) (workspaceID invitationID : UUID) :
    M World unit :=
  requireScopedStepUp actor StepUpScopeWorkspace "workspace.invitation.revoke";;
  AuthorizePermission actor workspaceID PermissionWorkspaceUsersWrite;;
  throw_if (negb (validUUIDv7 invitationID)) (Wrapped "invalid invitation id" ErrInvalidInput);;
  now_ ← now;
  invitation ← call (λ ctx, WorkspaceInvitationByID ctx invitationID);
  throw_if (bool_decide (WorkspaceInvitation_WorkspaceID invitation ≠ workspaceID)) ErrNotFound;;
  let revoked := scrubInvitation invitation <| WorkspaceInvitation_RevokedAt := Some now_ |> in
  commit_change actor workspaceID "workspace.invitation.revoke" "workspace.invitation.revoke"
    "workspace_invitation" (UUID_String invitationID) EventWorkspaceInvitationRevoked
    (λ meta, ApplyWorkspaceInvitationChange meta revoked)
    (λ commit ctx, RevokeWorkspaceInvitation ctx workspaceID invitationID now_ commit).

(** [Manager.WorkspaceInvitations] *)
Definition scrub_event (r : result (PageEvent WorkspaceInvitation)) : result (PageEvent WorkspaceInvitation) :=
  match r with
  | Ok (ItemEvent i) => Ok (ItemEvent (scrubInvitation i))
  | r => r
  end.
Definition Manager_WorkspaceInvitations (actor : Authentication) (workspaceID : UUID)
    (page : PageRequest) : M World (Stream (PageEvent WorkspaceInvitation)) :=
  events ← listing (AuthorizePermission actor workspaceID PermissionWorkspaceUsersRead) page
    (λ page ctx, WorkspaceInvitations ctx workspaceID page);
  mret (scrub_event <$> events).

(** ** Sign-up *)

(** [Manager.signUpCollision] *)
Definition signUpCollision (ownerID : UUID) : M World SignUpResult :=
  decline ownerID "signup" "email_taken" (SignUpResult_zero <| SignUpResult_ExistingAccount := true |>).

(** [Manager.SignUp] *)
Definition Manager_SignUp (input : SignUpInput) : M World SignUpResult :=
  autoVerify ← ok_or (A := bool) (if m_signupStore m then m_signup m else None) ErrNotSupported;
  email ← lift_result (validEmail (SignUpInput_Email input));
  domainRequiresSSO email "signup";;
  require_text "display_name" "display name is required" (SignUpInput_DisplayName input);;
  require_text "workspace_name" "workspace name is required" (SignUpInput_WorkspaceName input);;
  validatePassword (SignUpInput_Password input);;
  hash ← hash_password "hash password" (SignUpInput_Password input);
  userID ← newID;
  emailID ← newID;
  workspaceID ← newID;
  now_ ← now;
  rawToken ← (if (autoVerify : bool) then mret EmptyString else issue_token emailVerificationPrefix emailID);
  let verification := if (autoVerify : bool) then None else Some (mkEmailVerificationCredential emailID
    (tokenDigest ("email-verification:" +:+ rawToken)) (now_ + m_emailVerificationTTL m)%Z) in
  existing ← optional (λ ctx, UserByEmail ctx email);
  match existing with
  | Some owner => signUpCollision (User_ID owner)
  | None =>
      let user := new_user userID email (TrimSpace (SignUpInput_DisplayName input)) None now_ in
      let primaryEmail := new_primary_email emailID userID email now_
        <| EmailAddress_VerifiedAt := if (autoVerify : bool) then Some now_ else None |> in
      let workspace := Workspace_zero <| Workspace_ID := workspaceID |>
        <| Workspace_Name := TrimSpace (SignUpInput_WorkspaceName input) |>
        <| Workspace_CreatedAt := now_ |> <| Workspace_UpdatedAt := now_ |> in
      let membership := new_membership workspaceID userID RoleAdmin MembershipActive now_ now_ in
      event ← newAudit userID "signup" "workspace" (UUID_String workspaceID) workspaceID
        AuditSucceeded EmptyString;
      userMeta ← newEventMeta EventUserCreated "auth.signup" userID workspaceID event;
      workspaceMeta ← newEventMeta EventWorkspaceCreated "auth.signup" userID workspaceID event;
      signupMeta ← newEventMeta EventSignUpCompleted "auth.signup" userID workspaceID event;
      r ← attempt (call (λ ctx,
            CreateSignup ctx user primaryEmail verification (new_password userID hash now_) workspace
              membership
              (two_hooks event (ApplyUserCreate userMeta user primaryEmail membership)
                 (ApplyWorkspaceCreate workspaceMeta workspace membership))));
      match r with
      | Error e =>
          if errors_Is e ErrConflict then signUpCollision Nil
          else e' ← mapStoreError "auth.signup" e; throw e'
      | Ok _ =>
          emit userMeta;;
          emit workspaceMeta;;
          emit signupMeta;;
          let result := SignUpResult_zero <| SignUpResult_User := user |>
            <| SignUpResult_Workspace := workspace |> in
          mret (if (autoVerify : bool)
                then result <| SignUpResult_Authentication := mkAuthentication userID MethodPassword AAL1
                       now_ false Nil [] (CredentialFingerprint hash) |>
                else result <| SignUpResult_EmailVerification :=
                       mkIssuedEmailVerification primaryEmail rawToken true |>)
      end
  end.

(** ** Email domains *)

(** [validWorkspaceDomainName] *)
Definition valid_label (label : string) : bool :=
  negb (bool_decide (label = EmptyString) || bool_decide (63 < str_len label) ||
        bool_decide (str_nth label 0 = "-"%char) ||
        bool_decide (str_nth label (str_len label - 1) = "-"%char)) &&
  forallb (λ c, in_range 97 122 c || in_range 48 57 c || bool_decide (c = 45)%Z) (runes label).
Definition validWorkspaceDomainName (value : string) : result string :=
  let normalized := ToLower (TrimSpace value) in
  let invalid := ValidationError "domain" "format" "domain must be a registrable DNS name" in
  if bool_decide (normalized = EmptyString)
  then Error (ValidationError "domain" "required" "domain is required")
  else if bool_decide (253 < str_len normalized) || negb (contains_byte dot normalized) ||
          is_IP normalized
  then Error invalid
  else if negb (forallb valid_label (Split dot normalized)) then Error invalid
  else if bool_decide (normalized = m_PublicSuffix m normalized)
  then Error (ValidationError "domain" "format" "domain must not be a public suffix")
  else Ok normalized.

(** [Manager.CreateWorkspaceDomain] *)
Definition Manager_CreateWorkspaceDomain (actor : Authentication) (workspaceID : UUID)
    (domain : string) : M World IssuedWorkspaceDomain :=
  throw_if (negb (m_domainStore m)) ErrNotSupported;;
  authorizeWorkspaceMutation actor workspaceID PermissionWorkspaceSettingsWrite
    "workspace.domain.create";;
  name ← lift_result (validWorkspaceDomainName domain);
  id ← newID;
  secret ← randomBytes 32;
  let challenge := domainChallengePrefix +:+ base64_RawURL_EncodeToString secret in
  now_ ← now;
  let record := WorkspaceDomain_zero <| WorkspaceDomain_ID := id |>
    <| WorkspaceDomain_WorkspaceID := workspaceID |> <| WorkspaceDomain_Domain := name |>
    <| WorkspaceDomain_Challenge := challenge |> <| WorkspaceDomain_CreatedAt := now_ |>
    <| WorkspaceDomain_UpdatedAt := now_ |> in
  commit_change actor workspaceID "workspace.domain.create" "workspace.domain.create"
    "workspace_domain" (UUID_String id) EventWorkspaceDomainCreated
    (λ meta, ApplyWorkspaceDomainChange meta record false)
    (λ commit ctx, CreateWorkspaceDomain ctx record (now_ - m_domainClaimTTL m)%Z commit);;
  mret (mkIssuedWorkspaceDomain record challenge).

(** [Manager.authorizedWorkspaceDomain] *)
Definition authorizedWorkspaceDomain (actor : Authentication) (domainID : UUID) (operation : string) :
    M World WorkspaceDomain :=
  requireScopedStepUp actor StepUpScopeWorkspace operation;;
  throw_if (negb (validUUIDv7 domainID)) (Wrapped "invalid workspace domain id" ErrInvalidInput);;
  domain ← call (λ ctx, WorkspaceDomainByID ctx domainID);
  authorizeWorkspaceMutation actor (WorkspaceDomain_WorkspaceID domain)
    PermissionWorkspaceSettingsWrite operation;;
  mret domain.

(** [m.domainVerifier.VerifyDomain] *)
Definition verify_domain (domain : WorkspaceDomain) : M World unit :=
  match m_domainVerifier m with
  | None => mret tt
  | Some verify =>
      w ← get;
      modify tick;;
      match verify (W_tick w) (WorkspaceDomain_Domain domain) (WorkspaceDomain_Challenge domain) with
      | Some _ => throw (Wrapped "domain verification" ErrDomainVerification)
      | None => mret tt
      end
  end.

(** [Manager.ConfirmWorkspaceDomain] *)
Definition Manager_ConfirmWorkspaceDomain (actor : Authentication) (domainID : UUID) : M World unit :=
  throw_if (negb (m_domainStore m)) ErrNotSupported;;
  throw_if (negb (not_nil (m_domainVerifier m)) && negb (m_trustActorDomains m))
    (Wrapped "ConfirmWorkspaceDomain requires Config.DomainVerifier or Config.TrustActorDomainVerification"
       ErrNotSupported);;
  domain ← authorizedWorkspaceDomain actor domainID "workspace.domain.confirm";
  throw_if (not_nil (WorkspaceDomain_ConfirmedAt domain))
    (Wrapped "the domain is already confirmed" ErrConflict);;
  verify_domain domain;;
  now_ ← now;
  let confirmed := domain <| WorkspaceDomain_ConfirmedAt := Some now_ |>
    <| WorkspaceDomain_UpdatedAt := now_ |> in
  commit_change actor (WorkspaceDomain_WorkspaceID domain) "workspace.domain.confirm"
    "workspace.domain.confirm" "workspace_domain" (UUID_String (WorkspaceDomain_ID domain))
    EventWorkspaceDomainConfirmed (λ meta, ApplyWorkspaceDomainChange meta confirmed false)
    (λ commit ctx, ConfirmWorkspaceDomain ctx (WorkspaceDomain_ID domain) now_ commit).

(** [Manager.UpdateWorkspaceDomainPolicy] *)
Definition Manager_UpdateWorkspaceDomainPolicy (actor : Authentication) (domainID : UUID)
    (input : WorkspaceDomainPolicyInput) : M World unit :=
  throw_if (negb (m_domainStore m)) ErrNotSupported;;
  domain ← authorizedWorkspaceDomain actor domainID "workspace.domain.policy_update";
  throw_if (negb (not_nil (WorkspaceDomain_ConfirmedAt domain)))
    (Wrapped "only a confirmed domain carries policy" ErrConflict);;
  let wanted := WorkspaceDomainPolicyInput_AutoJoinRole input in
  role ← lift_result (roleCatalog_normalize (m_workspaceRoles m)
           (if bool_decide (wanted = EmptyString) then RoleMember else wanted));
  let provider := WorkspaceDomainPolicyInput_SSOProviderConfigurationID input in
  throw_if ((WorkspaceDomainPolicyInput_AutoJoin input || WorkspaceDomainPolicyInput_EnforceSSO input ||
             bool_decide (provider ≠ Nil)) && negb (not_nil (m_ssoProviders m !! provider)))
    (ValidationError "sso_provider_configuration_id" "unknown"
       "the SSO provider configuration is not registered");;
  let input := input <| WorkspaceDomainPolicyInput_AutoJoinRole := role |> in
  now_ ← now;
  let updated := domain <| WorkspaceDomain_AutoJoin := WorkspaceDomainPolicyInput_AutoJoin input |>
    <| WorkspaceDomain_AutoJoinRole := role |>
    <| WorkspaceDomain_SSOProviderConfigurationID := provider |>
    <| WorkspaceDomain_EnforceSSO := WorkspaceDomainPolicyInput_EnforceSSO input |>
    <| WorkspaceDomain_UpdatedAt := now_ |> in
  commit_change actor (WorkspaceDomain_WorkspaceID domain) "workspace.domain.policy_update"
    "workspace.domain.policy_update" "workspace_domain" (UUID_String (WorkspaceDomain_ID domain))
    EventWorkspaceDomainPolicyUpdated (λ meta, ApplyWorkspaceDomainChange meta updated false)
    (λ commit ctx, UpdateWorkspaceDomainPolicy ctx (WorkspaceDomain_ID domain) input now_ commit).

(** [Manager.RemoveWorkspaceDomain] *)
Definition Manager_RemoveWorkspaceDomain (actor : Authentication) (domainID : UUID) : M World unit :=
  throw_if (negb (m_domainStore m)) ErrNotSupported;;
  domain ← authorizedWorkspaceDomain actor domainID "workspace.domain.remove";
  commit_change actor (WorkspaceDomain_WorkspaceID domain) "workspace.domain.remove"
    "workspace.domain.remove" "workspace_domain" (UUID_String (WorkspaceDomain_ID domain))
    EventWorkspaceDomainRemoved (λ meta, ApplyWorkspaceDomainChange meta domain true)
    (λ commit ctx, DeleteWorkspaceDomain ctx (WorkspaceDomain_ID domain) commit).

(** [Manager.WorkspaceDomains] *)
Definition Manager_WorkspaceDomains (actor : Authentication) (workspaceID : UUID) (page : PageRequest)
    (during : nat → Context) : M World (Stream (PageEvent WorkspaceDomain)) :=
  listing
    (throw_if (negb (m_domainStore m)) ErrNotSupported;;
     AuthorizePermission actor workspaceID PermissionWorkspaceAccess)
    page (λ page ctx, WorkspaceDomains ctx during workspaceID page).

End invite.
