(* ===== verification/ManagerSeal.v ===== *)
(** * Sealed data and continuations (src/internal.go, src/sso.go)

    AEAD sealing under the key ring, and the continuations of multi-step
    ceremonies: sealed JSON the host passes back with the response. *)
From stdpp Require Import base gmap sets list strings numbers.
From Stdlib Require Import ZArith Lia Ascii.
From S2P Require Import Prelude Bytes GoText GoJson GoCrypto GoTime GoEncoding GoRunes Uuid Types OAuthTypes Roles AuditChain Store StorePages Commit Events Manager.

(** [newGCM] *)
Definition newGCM (key : string) : result (list (list Z)) :=
  match aes_NewCipher key with
  | Some schedule => Ok schedule
  | None => Error (Wrapped "create cipher" (Opaque "crypto/aes: invalid key size"))
  end.

(** The loop of [Manager.open] over the key ring. *)
Fixpoint open_ring (keys : list string) (ciphertext : string) : result string :=
  match keys with
  | [] => Error ErrInvalidCredentials
  | key :: keys' =>
      match newGCM key with
      | Error e => Error e
      | Ok gcm =>
          if bool_decide (str_len ciphertext < gcm_NonceSize) then Error ErrInvalidCredentials
          else
            match gcm_Open gcm (str_take gcm_NonceSize ciphertext) (str_drop gcm_NonceSize ciphertext) with
            | Some plaintext => Ok plaintext
            | None => open_ring keys' ciphertext
            end
      end
  end.

(** ** Continuations *)
Record ceremonyContinuation := mkCeremonyContinuation {
  ceremony_ID : UUID;
  ceremony_UserID : UUID;
  ceremony_Operation : string;
  ceremony_Name : string;
  ceremony_ExpiresAt : Z;
  ceremony_Session : option string }.
Definition ceremony_zero : ceremonyContinuation :=
  mkCeremonyContinuation Nil Nil EmptyString EmptyString zero_time None.

(** [ceremonyContinuation.consumption] *)
Definition ceremony_consumption (c : ceremonyContinuation) : option CeremonyConsumption :=
  if bool_decide (ceremony_ID c = Nil) then None
  else Some (mkCeremonyConsumption (ceremony_ID c) (ceremony_ExpiresAt c)).

Record ssoContinuation := mkSSOContinuation {
  sso_ID : UUID;
  sso_ProviderConfigurationID : UUID;
  sso_Operation : string;
  sso_UserID : UUID;
  sso_ExpiresAt : Z;
  sso_Session : option string }.
Definition sso_zero : ssoContinuation := mkSSOContinuation Nil Nil EmptyString Nil zero_time None.

(** [ssoContinuation.consumption] *)
Definition sso_consumption (c : ssoContinuation) : option CeremonyConsumption :=
  if bool_decide (sso_ID c = Nil) then None
  else Some (mkCeremonyConsumption (sso_ID c) (sso_ExpiresAt c)).

(** *** The texts of [json.Marshal]; [expires] is the text of the time. *)
Definition quoted_text (l : list Z) : list Z := 34%Z :: l ++ [34%Z].
Definition ceremony_members (c : ceremonyContinuation) (expires : list Z) : list (string * list Z) :=
  (if bool_decide (ceremony_ID c = Nil) then [] else [("id", quoted (UUID_String (ceremony_ID c)))]) ++
  [("uid", quoted (UUID_String (ceremony_UserID c))); ("op", json_quote (ceremony_Operation c))] ++
  (if bool_decide (ceremony_Name c = EmptyString) then [] else [("name", json_quote (ceremony_Name c))]) ++
  [("exp", quoted_text expires); ("session", slice_json (ceremony_Session c))].
Definition ceremony_json (c : ceremonyContinuation) : option string :=
  expires ← MarshalTime (ceremony_ExpiresAt c);
  Some (Z_string (object_text (ceremony_members c expires))).

(** [omitempty] never omits an array, so both identifiers are always present. *)
Definition sso_members (c : ssoContinuation) (expires : list Z) : list (string * list Z) :=
  [("id", quoted (UUID_String (sso_ID c)));
   ("provider_configuration_id", quoted (UUID_String (sso_ProviderConfigurationID c)));
   ("operation", json_quote (sso_Operation c));
   ("user_id", quoted (UUID_String (sso_UserID c)));
   ("expires_at", quoted_text expires);
   ("session", slice_json (sso_Session c))].
Definition sso_json (c : ssoContinuation) : option string :=
  expires ← MarshalTime (sso_ExpiresAt c);
  Some (Z_string (object_text (sso_members c expires))).

(** *** The readers of [json.Unmarshal] *)
Definition assign_ceremony (key : list Z) (v : json) (c : ceremonyContinuation) :
    option ceremonyContinuation :=
  let '(mkCeremonyContinuation id uid op name exp session) := c in
  if is_field "id" key then
    id ← to_text UnmarshalText v id; Some (mkCeremonyContinuation id uid op name exp session)
  else if is_field "uid" key then
    uid ← to_text UnmarshalText v uid; Some (mkCeremonyContinuation id uid op name exp session)
  else if is_field "op" key then
    op ← to_string v op; Some (mkCeremonyContinuation id uid op name exp session)
  else if is_field "name" key then
    name ← to_string v name; Some (mkCeremonyContinuation id uid op name exp session)
  else if is_field "exp" key then
    exp ← to_time v exp; Some (mkCeremonyContinuation id uid op name exp session)
  else if is_field "session" key then
    session ← to_slice v session; Some (mkCeremonyContinuation id uid op name exp session)
  else Some c.
Definition assign_sso (key : list Z) (v : json) (c : ssoContinuation) : option ssoContinuation :=
  let '(mkSSOContinuation id provider op user exp session) := c in
  if is_field "id" key then
    id ← to_text UnmarshalText v id; Some (mkSSOContinuation id provider op user exp session)
  else if is_field "provider_configuration_id" key then
    provider ← to_text UnmarshalText v provider;
    Some (mkSSOContinuation id provider op user exp session)
  else if is_field "operation" key then
    op ← to_string v op; Some (mkSSOContinuation id provider op user exp session)
  else if is_field "user_id" key then
    user ← to_text UnmarshalText v user; Some (mkSSOContinuation id provider op user exp session)
  else if is_field "expires_at" key then
    exp ← to_time v exp; Some (mkSSOContinuation id provider op user exp session)
  else if is_field "session" key then
    session ← to_slice v session; Some (mkSSOContinuation id provider op user exp session)
  else Some c.
Definition ceremony_unmarshal (payload : string) : option ceremonyContinuation :=
  v ← json_parse payload; json_struct assign_ceremony ceremony_zero v.
Definition sso_unmarshal (payload : string) : option ssoContinuation :=
  v ← json_parse payload; json_struct assign_sso sso_zero v.

Definition passkeyRegistration : string := "passkey_registration".
Definition passkeyAuthentication : string := "passkey_authentication".
Definition passkeyDiscoverable : string := "passkey_discoverable".
Definition ssoLogin : string := "login".
Definition ssoLink : string := "link".
Definition ssoStepUp : string := "step_up".

Section seal.
Context {E : Env}.
Abbreviation m := the_manager.

(** [Manager.seal] *)
Definition seal (plaintext : string) : M World string :=
  gcm ← lift_result (newGCM (m_sealKey m));
  nonce ← randomBytes gcm_NonceSize;
  sealed ← ok_or (gcm_Seal gcm nonce plaintext) (Opaque "panic: crypto/cipher: message too large for GCM");
  mret (nonce +:+ sealed).

(** [Manager.open] *)
Definition open (ciphertext : string) : result string := open_ring (m_readSealKeys m) ciphertext.

(** [Manager.encodeContinuation] *)
Definition encodeContinuation (value : ceremonyContinuation) : M World string :=
  payload ← ok_or (ceremony_json value)
    (Wrapped "marshal continuation" (Opaque "year outside of range [0,9999]"));
  sealed ← seal payload;
  mret (base64_RawURL_EncodeToString sealed).

(** The payload of a sealed text; every failure is [ErrInvalidCredentials]. *)
Definition open_payload (raw : string) : option string :=
  sealed ← base64_RawURL_DecodeString raw;
  match open sealed with Ok payload => Some payload | Error _ => None end.

(** [Manager.decodeContinuation] *)
Definition decodeContinuation (raw operation : string) : M World ceremonyContinuation :=
  value ← ok_or (payload ← open_payload raw; ceremony_unmarshal payload) ErrInvalidCredentials;
  throw_if (negb (bool_decide (ceremony_Operation value = operation))) ErrInvalidCredentials;;
  throw_if (bool_decide (ceremony_UserID value = Nil) &&
            negb (bool_decide (operation = passkeyDiscoverable))) ErrInvalidCredentials;;
  now_ ← now;
  throw_if (negb (Time_Before now_ (ceremony_ExpiresAt value))) ErrExpired;;
  mret value.

(** [Manager.encodeSSOContinuation] *)
Definition encodeSSOContinuation (state : ssoContinuation) : M World string :=
  payload ← ok_or (sso_json state) (Opaque "year outside of range [0,9999]");
  sealed ← seal payload;
  mret (base64_RawURL_EncodeToString sealed).

(** [len(state.Session) == 0] *)
Definition empty_slice (b : option string) : bool :=
  match b with None => true | Some s => bool_decide (s = EmptyString) end.

(** [Manager.decodeSSOContinuation] *)
Definition decodeSSOContinuation (raw : string) : M World ssoContinuation :=
  state ← ok_or (payload ← open_payload raw; sso_unmarshal payload) ErrInvalidCredentials;
  let operation := sso_Operation state in
  throw_if (negb (validUUIDv7 (sso_ProviderConfigurationID state)) ||
            empty_slice (sso_Session state)) ErrInvalidCredentials;;
  throw_if (negb (bool_decide (operation ∈ [ssoLogin; ssoLink; ssoStepUp]))) ErrInvalidCredentials;;
  throw_if (bool_decide (operation ∈ [ssoLink; ssoStepUp]) && bool_decide (sso_UserID state = Nil))
    ErrInvalidCredentials;;
  now_ ← now;
  throw_if (negb (Time_Before now_ (sso_ExpiresAt state))) ErrExpired;;
  mret state.

End seal.

(** ** The payloads read back *)
Lemma renders_null : renders 0 (string_Z "null") JNull.
Proof. split; [done|]. intros [|fuel] depth r Hf _ _; [lia|]. by destruct r. Qed.
Definition slice_value (b : option string) : json :=
  match b with
  | None => JNull
  | Some s => JString (base64_Std_encode (string_Z s)) (base64_Std_encode (string_Z s))
  end.
Lemma renders_slice b : renders 0 (slice_json b) (slice_value b).
Proof.
  destruct b as [s|]; [|apply renders_null].
  apply renders_plain, (base64_Std_decode_encode (string_Z s)), string_Z_bytes.
Qed.
Lemma to_slice_value b old : to_slice (slice_value b) old = Some b.
Proof.
  destruct b as [s|]; [|done]. cbn.
  destruct (base64_Std_decode_encode (string_Z s) (string_Z_bytes s)) as [-> _].
  cbn. by rewrite Z_string_Z.
Qed.

Definition text_value (s : string) : json := JString (string_Z s) (string_Z s).
Lemma to_string_quoted s old : to_string (quoted_value s) old = Some (to_valid s).
Proof. unfold quoted_value. cbn [to_string]. by rewrite Z_string_Z. Qed.
Lemma to_UUID_value u old : to_text UnmarshalText (text_value (UUID_String u)) old = Some u.
Proof. cbn. rewrite Z_string_Z. apply UnmarshalText_String. Qed.
Lemma renders_UUID u : renders 0 (quoted (UUID_String u)) (text_value (UUID_String u)).
Proof. apply renders_plain, UUID_String_plain. Qed.
Lemma renders_time t text : MarshalTime t = Some text → renders 0 (quoted_text text) (JString text text).
Proof. intros H. by apply renders_plain, (MarshalTime_plain t). Qed.
Lemma to_time_value t text old : MarshalTime t = Some text → to_time (JString text text) old = Some t.
Proof. apply UnmarshalTime_MarshalTime. Qed.

(** Rendered values are bytes. *)
Definition all_bytes (l : list Z) : Prop := Forall (λ b, 0 ≤ b < 256)%Z l.
Lemma plain_all_bytes l : forallb plain_byte l = true → all_bytes l.
Proof.
  intros Hl. apply List.Forall_forall. intros b Hb. eapply forallb_forall in Hl; [|exact Hb].
  apply plain_byte_cases in Hl. lia.
Qed.
Lemma all_bytes_app k l : all_bytes k → all_bytes l → all_bytes (k ++ l).
Proof. intros. by apply Forall_app. Qed.
Lemma all_bytes_quoted l : all_bytes l → all_bytes (34%Z :: l ++ [34%Z]).
Proof. intros. constructor; [lia|]. apply all_bytes_app; [done|]. repeat constructor; lia. Qed.
Lemma all_bytes_object l :
  Forall (λ kv, all_bytes kv.2) l → all_bytes (object_text l).
Proof.
  intros Hl. unfold object_text. constructor; [lia|].
  apply all_bytes_app; [|repeat constructor; lia].
  assert (∀ k, all_bytes (json_key k)) as Hk.
  { intros k. unfold json_key. constructor; [lia|]. apply all_bytes_app; [apply string_Z_bytes|].
    repeat constructor; lia. }
  induction Hl as [|[k v] l Hv Hl IH]; [constructor|]. cbn [fst snd] in *.
  destruct l as [|[k2 v2] l]; [by apply all_bytes_app|].
  change (all_bytes (json_key k ++ v ++ 44%Z :: members_text ((k2, v2) :: l))).
  repeat apply all_bytes_app; [done|done|]. constructor; [lia|done].
Qed.
Lemma all_bytes_slice b : all_bytes (slice_json b).
Proof.
  destruct b as [s|]; [|apply string_Z_bytes]. apply all_bytes_quoted, plain_all_bytes.
  apply (base64_Std_decode_encode (string_Z s)), string_Z_bytes.
Qed.
Lemma all_bytes_quote s : all_bytes (json_quote s).
Proof. apply all_bytes_quoted, quote_body_bytes, string_Z_bytes. Qed.

Lemma all_bytes_UUID u : all_bytes (quoted (UUID_String u)).
Proof. apply all_bytes_quoted, string_Z_bytes. Qed.
Lemma all_bytes_time t text : MarshalTime t = Some text → all_bytes (quoted_text text).
Proof. intros H. by eapply all_bytes_quoted, plain_all_bytes, MarshalTime_plain. Qed.

(** What [json.Unmarshal] does with the text of an object of rendered members. *)
Lemma json_parse_object l js :
  l ≠ [] → Forall (λ kv, plain_name kv.1 = true) l → Forall2 (λ kv j, renders 0 kv.2 j) l js →
  Forall (λ kv, all_bytes kv.2) l →
  json_parse (Z_string (object_text l)) = Some (JObject (zip (string_Z <$> l.*1) js)).
Proof.
  intros Hne Hk Hv Hb. eapply (json_parse_renders (0 + 1)); [|lia|by apply all_bytes_object].
  apply renders_object; [done..|lia].
Qed.

Ltac render_members :=
  repeat first [apply Forall2_cons_2 | apply Forall2_nil_2 | apply renders_UUID | apply renders_slice |
                apply renders_json_quote | eapply renders_time; eassumption].
Ltac byte_members :=
  repeat first [apply all_bytes_slice | apply all_bytes_UUID | apply all_bytes_quote |
                eapply all_bytes_time; eassumption | apply Forall_cons_2 | apply Forall_nil_2].

(** One member after the other; the tests of the names are closed. *)
Ltac eval_fields :=
  repeat match goal with |- context [is_field ?n ?k] =>
    let b := eval vm_compute in (is_field n k) in change (is_field n k) with b end; cbv iota.
Ltac assign_member := cbn [json_fields mbind option_bind]; eval_fields;
  rewrite ?to_UUID_value, ?to_string_quoted, ?to_slice_value;
  try (erewrite to_time_value by eassumption); cbn [mbind option_bind].

(** The members of the two payloads after parsing. *)
Definition ceremony_fields (c : ceremonyContinuation) (expires : list Z) : list (list Z * json) :=
  (if bool_decide (ceremony_ID c = Nil) then []
   else [(string_Z "id", text_value (UUID_String (ceremony_ID c)))]) ++
  [(string_Z "uid", text_value (UUID_String (ceremony_UserID c)));
   (string_Z "op", quoted_value (ceremony_Operation c))] ++
  (if bool_decide (ceremony_Name c = EmptyString) then []
   else [(string_Z "name", quoted_value (ceremony_Name c))]) ++
  [(string_Z "exp", JString expires expires); (string_Z "session", slice_value (ceremony_Session c))].
Definition sso_fields (c : ssoContinuation) (expires : list Z) : list (list Z * json) :=
  [(string_Z "id", text_value (UUID_String (sso_ID c)));
   (string_Z "provider_configuration_id", text_value (UUID_String (sso_ProviderConfigurationID c)));
   (string_Z "operation", quoted_value (sso_Operation c));
   (string_Z "user_id", text_value (UUID_String (sso_UserID c)));
   (string_Z "expires_at", JString expires expires);
   (string_Z "session", slice_value (sso_Session c))].

Lemma ceremony_json_parse c payload :
  ceremony_json c = Some payload →
  ∃ expires, MarshalTime (ceremony_ExpiresAt c) = Some expires ∧
    json_parse payload = Some (JObject (ceremony_fields c expires)).
Proof.
  unfold ceremony_json. destruct (MarshalTime _) as [expires|] eqn:Et; [|done]. cbn [mbind option_bind].
  intros Hp. apply (inj Some) in Hp as <-. exists expires. split; [done|].
  rewrite (json_parse_object _ (ceremony_fields c expires).*2);
    unfold ceremony_members, ceremony_fields; repeat case_bool_decide; cbn [app fmap list_fmap snd].
  all: first [done | by repeat constructor | solve [render_members] | solve [byte_members]].
Qed.
Lemma sso_json_parse c payload :
  sso_json c = Some payload →
  ∃ expires, MarshalTime (sso_ExpiresAt c) = Some expires ∧
    json_parse payload = Some (JObject (sso_fields c expires)).
Proof.
  unfold sso_json. destruct (MarshalTime _) as [expires|] eqn:Et; [|done]. cbn [mbind option_bind].
  intros Hp. apply (inj Some) in Hp as <-. exists expires. split; [done|].
  rewrite (json_parse_object _ (sso_fields c expires).*2); unfold sso_members, sso_fields;
    cbn [app fmap list_fmap snd].
  all: first [done | by repeat constructor | solve [render_members] | solve [byte_members]].
Qed.

(** The texts of a state as they come back: bytes that are not UTF-8 are lost. *)
Definition ceremony_utf8 (c : ceremonyContinuation) : ceremonyContinuation :=
  mkCeremonyContinuation (ceremony_ID c) (ceremony_UserID c) (to_valid (ceremony_Operation c))
    (to_valid (ceremony_Name c)) (ceremony_ExpiresAt c) (ceremony_Session c).
Definition sso_utf8 (c : ssoContinuation) : ssoContinuation :=
  mkSSOContinuation (sso_ID c) (sso_ProviderConfigurationID c) (to_valid (sso_Operation c)) (sso_UserID c)
    (sso_ExpiresAt c) (sso_Session c).

Lemma ceremony_unmarshal_json c payload :
  ceremony_json c = Some payload → ceremony_unmarshal payload = Some (ceremony_utf8 c).
Proof.
  intros Hp. destruct (ceremony_json_parse _ _ Hp) as (expires & Et & Hj).
  unfold ceremony_unmarshal. rewrite Hj. destruct c as [id uid op name exp session].
  cbn [mbind option_bind json_struct]. unfold ceremony_fields, ceremony_zero. cbn [ceremony_ExpiresAt] in Et.
  cbn [ceremony_ID ceremony_UserID ceremony_Operation ceremony_Name ceremony_Session].
  repeat case_bool_decide; subst; cbn [app]; repeat (unfold assign_ceremony; assign_member); done.
Qed.
Lemma sso_unmarshal_json c payload :
  sso_json c = Some payload → sso_unmarshal payload = Some (sso_utf8 c).
Proof.
  intros Hp. destruct (sso_json_parse _ _ Hp) as (expires & Et & Hj).
  unfold sso_unmarshal. rewrite Hj. destruct c as [id provider op user exp session].
  cbn [mbind option_bind json_struct]. unfold sso_fields, sso_zero. cbn [sso_ExpiresAt] in Et.
  repeat (unfold assign_sso; assign_member). done.
Qed.

(** The two kinds are not confused: read as the other one, a payload carries
    no operation, respectively no provider. *)
Lemma ceremony_unmarshal_sso c payload v :
  sso_json c = Some payload →
  ceremony_unmarshal payload = Some v → ceremony_Operation v = EmptyString.
Proof.
  intros Hp. destruct (sso_json_parse _ _ Hp) as (expires & Et & Hj).
  unfold ceremony_unmarshal. rewrite Hj. cbn [mbind option_bind json_struct].
  unfold sso_fields, ceremony_zero. repeat (unfold assign_ceremony; assign_member). by intros [= <-].
Qed.
Lemma sso_unmarshal_ceremony c payload v :
  ceremony_json c = Some payload →
  sso_unmarshal payload = Some v → sso_ProviderConfigurationID v = Nil.
Proof.
  intros Hp. destruct (ceremony_json_parse _ _ Hp) as (expires & Et & Hj).
  unfold sso_unmarshal. rewrite Hj. cbn [mbind option_bind json_struct].
  unfold ceremony_fields, sso_zero.
  repeat case_bool_decide; cbn [app]; repeat (unfold assign_sso; assign_member); by intros [= <-].
Qed.

(** ** Sealing round-trips *)
Lemma open_ring_seal key keys gcm nonce plaintext sealed :
  newGCM key = Ok gcm → str_len nonce = gcm_NonceSize →
  gcm_Seal gcm nonce plaintext = Some sealed →
  open_ring (key :: keys) (nonce +:+ sealed) = Ok plaintext.
Proof.
  intros Hk Hn Hs. cbn [open_ring]. rewrite Hk.
  rewrite bool_decide_false by (rewrite str_len_app; lia).
  assert (str_take gcm_NonceSize (nonce +:+ sealed) = nonce ∧
          str_drop gcm_NonceSize (nonce +:+ sealed) = sealed) as [-> ->].
  { unfold str_take, str_drop. rewrite bytes_of_app, <- Hn, <- bytes_of_length.
    by rewrite take_app_length, drop_app_length, !of_bytes_of. }
  unfold newGCM in Hk. destruct (aes_NewCipher key) as [gcm'|] eqn:Ea; [|done].
  injection Hk as <-. by rewrite (gcm_Open_Seal key gcm' nonce plaintext sealed).
Qed.
