(* ===== verification/ManagerFactor.v ===== *)
(** * Second factors and one-time codes (src/totp.go, src/emailotp.go)

    Enrolment, verification and removal of time-based codes, recovery codes,
    and sign-in with a code sent by email and bound to a continuation. *)
From stdpp Require Import base gmap sets list strings numbers.
From Stdlib Require Import ZArith Lia Ascii.
From S2P Require Import Prelude Bytes GoText GoCrypto GoTime GoEncoding Uuid Types OAuthTypes Roles AuditChain Store StoreUsers StoreTokens StoreWorkspaces StorePages Commit StoreSystem Tokens Events Manager ManagerGates Config ManagerPassword ManagerAdmin ManagerSeal ManagerEmail.

Definition recoveryCodeCount : nat := 10.
Definition emailOTPOperation : string := "email_otp".

(** The constants of [newEmailOTPCode] *)
Definition otp_modulus : Z := 100000000.
Definition otp_limit : Z := 2 ^ 32 / otp_modulus * otp_modulus.

Definition ascii_upper (a : ascii) : ascii :=
  let n := nat_of_ascii a in
  if bool_decide (97 ≤ n ≤ 122) then ascii_of_nat (n - 32) else a.
Definition str_upper (s : string) : string := of_bytes (ascii_upper <$> bytes_of s).

(** The four groups of a recovery code. *)
Definition code_text (encoded : string) : string :=
  str_slice 0 4 encoded +:+ "-" +:+ str_slice 4 8 encoded +:+ "-" +:+ str_slice 8 12 encoded +:+ "-" +:+
  str_drop 12 encoded.

Section factor.
Context {E : Env}.
Abbreviation m := the_manager.

(** [strings.ToUpper] *)
Definition ToUpper (s : string) : string :=
  if is_ascii_string s then str_upper s else m_unicode_ToUpper m s.

(** [normalizeRecoveryCode]; the replacer removes hyphens and spaces. *)
Definition normalizeRecoveryCode (code : string) : string :=
  ToUpper (of_bytes (base.filter (λ a, a ≠ "-"%char ∧ a ≠ " "%char) (bytes_of (TrimSpace code)))).

(** [Manager.generateRecoveryCodes] *)
Fixpoint generate_codes (n : nat) (userID : UUID) : M World (list string * list RecoveryCode) :=
  match n with
  | O => mret ([], [])
  | S n' =>
      raw ← randomBytes 10;
      let code := code_text (base32_EncodeToString raw) in
      let record := mkRecoveryCode userID (digest (m_recoveryPepper m) (normalizeRecoveryCode code)) None in
      rest ← generate_codes n' userID;
      mret (code :: rest.1, record :: rest.2)
  end.
Definition generateRecoveryCodes (userID : UUID) : M World (list string * list RecoveryCode) :=
  generate_codes recoveryCodeCount userID.

(** [Manager.decryptTOTPSecret] *)
Definition decryptTOTPSecret (factor : TOTPFactor) : result string :=
  match open (TOTPFactor_EncryptedSecret factor) with
  | Ok plaintext => Ok plaintext
  | Error e => Error (Wrapped "decrypt totp secret" e)
  end.

(** [Manager.requireTOTPProvider] *)
Definition requireTOTPProvider : M World TOTPProvider :=
  ok_or (m_totp m) (Wrapped "no TOTP provider configured" ErrNotSupported).

(** [Manager.promoteTOTP] *)
Definition promoteTOTP (actor : Authentication) : M World Authentication :=
  now_ ← now;
  mret (Authentication_zero <| Authentication_UserID := Authentication_UserID actor |>
    <| Authentication_Method := MethodTOTP |> <| Authentication_Level := AAL2 |>
    <| Authentication_AuthenticatedAt := now_ |>
    <| Authentication_CredentialDigest := Authentication_CredentialDigest actor |>).

(** [Manager.BeginTOTPEnrollment] *)
Definition Manager_BeginTOTPEnrollment (actor : Authentication) : M World TOTPEnrollment :=
  provider ← requireTOTPProvider;
  requireRecentInteractive actor;;
  let userID := Authentication_UserID actor in
  user ← call (λ ctx, UserByID ctx userID);
  generated ← attempt (port (λ i, totp_Generate provider i (User_Email user)));
  match generated with
  | Error e => throw (Wrapped "generate totp secret" e)
  | Ok (secret, uri) =>
      encrypted ← seal secret;
      now_ ← now;
      let factor := mkTOTPFactor userID encrypted false 0 now_ now_ in
      commit_change actor Nil "totp.enrollment.begin" "auth.totp.enroll.begin" "user" (UUID_String userID)
        EventTOTPEnrollmentStarted (λ meta, ApplyTOTPEnrollment meta userID)
        (λ commit ctx, SaveTOTPEnrollment ctx factor commit);;
      mret (mkTOTPEnrollment uri)
  end.

(** [Manager.ConfirmTOTPEnrollment] *)
Definition Manager_ConfirmTOTPEnrollment (actor : Authentication) (code : string) : M World (list string) :=
  provider ← requireTOTPProvider;
  requireRecentInteractive actor;;
  let userID := Authentication_UserID actor in
  found ← attempt (call (λ ctx, TOTPByUserID ctx userID));
  factor ← match found with
           | Ok factor => if TOTPFactor_Active factor then throw ErrNotFound else mret factor
           | Error _ => throw ErrNotFound
           end;
  secret ← lift_result (decryptTOTPSecret factor);
  now_ ← now;
  let '(step, valid) := totp_Validate provider (TrimSpace code) secret now_ in
  if negb valid
  then refuse userID "totp.enrollment.confirm" "invalid_credentials" ErrInvalidCredentials
  else
    generated ← generateRecoveryCodes userID;
    let '(codes, records) := generated in
    updatedAt ← now;
    let factor := factor <| TOTPFactor_Active := true |> <| TOTPFactor_LastUsedStep := step |>
      <| TOTPFactor_UpdatedAt := updatedAt |> in
    commit_change actor Nil "totp.enrollment.confirm" "auth.totp.enroll.confirm" "user" (UUID_String userID)
      EventTOTPActivated (λ meta, ApplyTOTPActivation meta userID (Z.of_nat (length records)))
      (λ commit ctx, ActivateTOTP ctx factor records commit);;
    mret codes.

(** The loop of [VerifyTOTP] over the ring of recovery peppers *)
Fixpoint consume_ring (peppers : list string) (userID : UUID) (normalized : string) (event : AuditEvent) :
    M World bool :=
  match peppers with
  | [] => mret false
  | pepper :: peppers' =>
      let recoveryDigest := digest pepper (normalizeRecoveryCode normalized) in
      now_ ← now;
      used ← mapped "auth.totp.verify" (call (λ ctx,
        ConsumeRecoveryCode ctx userID recoveryDigest now_ (audit_commit event)));
      if used : bool then mret true else consume_ring peppers' userID normalized event
  end.

(** The two successes of [VerifyTOTP] *)
Definition totp_verified (actor : Authentication) (name : EventName) (event : AuditEvent) :
    M World Authentication :=
  promoted ← promoteTOTP actor;
  emit_new name "auth.totp.verify" (Authentication_UserID actor) Nil event;;
  emitAuthenticationSucceeded "auth.totp.verify" event promoted;;
  mret promoted.

(** [Manager.VerifyTOTP] *)
Definition Manager_VerifyTOTP (actor : Authentication) (code : string) : M World Authentication :=
  provider ← requireTOTPProvider;
  throw_if (anonymous actor || negb (Interactive actor)) ErrUnauthorized;;
  let userID := Authentication_UserID actor in
  requireUnlocked userID "auth.totp";;
  requireActiveUser userID;;
  found ← attempt (call (λ ctx, TOTPByUserID ctx userID));
  factor ← match found with
           | Ok factor => if TOTPFactor_Active factor then mret factor else throw ErrInvalidCredentials
           | Error _ => throw ErrInvalidCredentials
           end;
  secret ← lift_result (decryptTOTPSecret factor);
  let normalized := TrimSpace code in
  now_ ← now;
  let '(step, valid) := totp_Validate provider normalized secret now_ in
  if valid : bool then
    event ← newAudit userID "auth.totp" "user" (UUID_String userID) Nil AuditSucceeded EmptyString;
    used ← mapped "auth.totp.verify" (call (λ ctx, UseTOTP ctx userID step (audit_commit event)));
    if used : bool then totp_verified actor EventTOTPVerified event
    else
      failedAudit ← recordAuthenticationAudit userID "auth.totp" AuditFailed "invalid_credentials";
      emit_new EventTOTPReplayRejected "auth.totp.verify" userID Nil failedAudit;;
      emitAuthenticationFailed "auth.totp.verify" failedAudit userID;;
      throw ErrInvalidCredentials
  else
    event ← newAudit userID "auth.recovery_code" "user" (UUID_String userID) Nil AuditSucceeded EmptyString;
    used ← consume_ring (m_readRecoveryPeppers m) userID normalized event;
    if used : bool then totp_verified actor EventRecoveryCodeConsumed event
    else
      failedAudit ← recordAuthenticationFailure userID "auth.totp" true;
      emitAuthenticationFailed "auth.totp.verify" failedAudit userID;;
      throw ErrInvalidCredentials.

(** [Manager.DisableTOTP] *)
Definition Manager_DisableTOTP (actor : Authentication) (code : string) : M World unit :=
  _ ← requireTOTPProvider;
  promoted ← Manager_VerifyTOTP actor code;
  requireScopedStepUp promoted StepUpScopeAccount "auth.totp.disable";;
  let userID := Authentication_UserID actor in
  commit_change actor Nil "totp.disable" "auth.totp.disable" "user" (UUID_String userID)
    EventTOTPDisabled (λ meta, ApplyTOTPDisable meta userID)
    (λ commit ctx, DisableTOTP ctx userID commit).

(** [Manager.RegenerateRecoveryCodes] *)
Definition Manager_RegenerateRecoveryCodes (actor : Authentication) : M World (list string) :=
  _ ← requireTOTPProvider;
  requireScopedStepUp actor StepUpScopeAccount "auth.totp.recovery.regenerate";;
  let userID := Authentication_UserID actor in
  factor ← call (λ ctx, TOTPByUserID ctx userID);
  throw_if (negb (TOTPFactor_Active factor)) ErrNotFound;;
  generated ← generateRecoveryCodes userID;
  let '(codes, records) := generated in
  commit_change actor Nil "totp.recovery.regenerate" "auth.totp.recovery.regenerate" "user"
    (UUID_String userID) EventRecoveryCodesRegenerated
    (λ meta, ApplyRecoveryCodeRegeneration meta userID (Z.of_nat (length records)))
    (λ commit ctx, ReplaceRecoveryCodes ctx userID records commit);;
  mret codes.

(** [Manager.TOTPStatus] *)
Definition Manager_TOTPStatus (actor : Authentication) (userID : UUID) : M World TOTPStatus :=
  throw_if (anonymous actor) ErrUnauthorized;;
  let userID := if bool_decide (userID = Nil) then Authentication_UserID actor else userID in
  (if bool_decide (userID = Authentication_UserID actor)
   then requireRecentInteractive actor else AuthorizeAdmin actor PermissionUsersRead);;
  found ← attempt (call (λ ctx, TOTPByUserID ctx userID));
  match found with
  | Error e => if errors_Is e ErrNotFound then mret TOTPStatus_zero else throw e
  | Ok factor =>
      remaining ← if TOTPFactor_Active factor
                  then call (λ ctx, CountUnusedRecoveryCodes ctx userID) else mret 0%Z;
      mret (mkTOTPStatus true (TOTPFactor_Active factor) remaining
        (TOTPFactor_CreatedAt factor) (TOTPFactor_UpdatedAt factor))
  end.

(** ** Codes by email *)

(** [Manager.newEmailOTPCode]: draws until one is below the limit *)
Definition draw_code (_ : unit) : M World (unit + string) :=
  b ← randomBytes 4;
  let value := be_value (string_Z b) in
  if bool_decide (value < otp_limit)%Z
  then mret (inr (Z_string (dec_digits 8 (value mod otp_modulus)))) else mret (inl tt).
Definition newEmailOTPCode : M World string := loop draw_code tt.

Definition otp_secret (id : UUID) (code : string) : string :=
  "email-otp:" +:+ UUID_String id +:+ ":" +:+ code.

(** [Manager.BeginEmailOTP] *)
Definition Manager_BeginEmailOTP (email : string) : M World IssuedEmailOTP :=
  let normalized := normalizeEmail email in
  let action := "email_otp.request" in
  domainRequiresSSO normalized action;;
  allowed ← allowEmailIssuance normalized action;
  if negb allowed then decline Nil action "throttled" IssuedEmailOTP_zero
  else
    found ← attempt (call (λ ctx, UserByEmail ctx normalized));
    id ← newID;
    code ← newEmailOTPCode;
    now_ ← now;
    let expiresAt := (now_ + m_emailAuthTTL m)%Z in
    continuation ← encodeContinuation (mkCeremonyContinuation Nil id emailOTPOperation (UUID_String id)
      (expiresAt + Minute) None);
    let decoy := IssuedEmailOTP_zero <| IssuedEmailOTP_Continuation := continuation |>
      <| IssuedEmailOTP_ExpiresAt := expiresAt |> in
    match found with
    | Error e => if errors_Is e ErrNotFound then decline Nil action "unknown_email" decoy else throw e
    | Ok user =>
        if User_Disabled user then decline (User_ID user) action "user_disabled" decoy
        else
          emailID ← attempt (verifiedEmailID (User_ID user) normalized);
          match emailID with
          | Error e =>
              if errors_Is e ErrNotFound
              then decline (User_ID user) action "unverified_email" decoy else throw e
          | Ok emailID =>
              let credential := EmailAuthenticationCredential_zero
                <| EmailAuthenticationCredential_ID := id |>
                <| EmailAuthenticationCredential_UserID := User_ID user |>
                <| EmailAuthenticationCredential_EmailID := emailID |>
                <| EmailAuthenticationCredential_Digest := tokenDigest (otp_secret id code) |>
                <| EmailAuthenticationCredential_CreatedAt := now_ |>
                <| EmailAuthenticationCredential_ExpiresAt := expiresAt |> in
              commit_audited (User_ID user) action "auth.email_otp.begin" "user"
                (UUID_String (User_ID user)) EventEmailAuthenticationRequested
                (λ commit ctx, CreateEmailAuthentication ctx credential commit);;
              mret (mkIssuedEmailOTP (User_ID user) emailID code continuation expiresAt true)
          end
    end.

(** [Manager.CompleteEmailOTP] *)
Definition Manager_CompleteEmailOTP (continuation code : string) : M World Authentication :=
  let action := "auth.email_otp" in
  state ← decodeContinuation continuation emailOTPOperation;
  credentialID ← match ParseUUID (ceremony_Name state) with
                 | Ok id => mret id
                 | Error _ => throw ErrInvalidCredentials
                 end;
  looked ← attempt (call (λ ctx, EmailAuthenticationByID ctx credentialID));
  match looked with
  | Error e =>
      if errors_Is e ErrNotFound then refuse Nil action "invalid_credentials" ErrInvalidCredentials
      else throw e
  | Ok credential =>
      let owner := EmailAuthenticationCredential_UserID credential in
      if not_nil (EmailAuthenticationCredential_UsedAt credential)
      then refuse owner action "reused" ErrInvalidCredentials
      else
      at_ ← now;
      if negb (Time_Before at_ (EmailAuthenticationCredential_ExpiresAt credential))
      then refuse owner action "expired" ErrExpired
      else
      found ← attempt (call (λ ctx, UserByID ctx owner));
      match (match found with Ok user => if User_Disabled user then None else Some user | Error _ => None end) with
      | None => refuse owner action "user_disabled" ErrInvalidCredentials
      | Some user =>
          address ← attempt (emailAddressByID (User_ID user) (EmailAuthenticationCredential_EmailID credential));
          match address with
          | Error e => throw (if errors_Is e ErrNotFound then Sent ErrInvalidCredentials else e)
          | Ok address =>
              domainRequiresSSO address action;;
              requireUnlocked (User_ID user) action;;
              if negb (matchTokenDigest (EmailAuthenticationCredential_Digest credential)
                         (otp_secret (EmailAuthenticationCredential_ID credential) code))
              then
                audit ← recordAuthenticationFailure (User_ID user) action true;
                emitAuthenticationFailed "auth.email_otp.complete" audit (User_ID user);;
                throw ErrInvalidCredentials
              else
              requiresSecondFactor ← second_factor_due (User_ID user);
              now_ ← now;
              event ← newAudit (User_ID user) action "user" (UUID_String (User_ID user)) Nil
                AuditSucceeded EmptyString;
              mapped_spent "auth.email_otp.complete" (call (λ ctx,
                ConsumeEmailAuthentication ctx (EmailAuthenticationCredential_ID credential) (User_ID user)
                  now_ (negb requiresSecondFactor) (audit_commit event)));;
              let authentication := mkAuthentication (User_ID user) MethodEmail AAL1 now_
                requiresSecondFactor Nil [] EmptyString in
              emitAuthenticationSucceeded "auth.email_otp.complete" event authentication;;
              mret authentication
          end
      end
  end.

End factor.
