(* ===== verification/ManagerPasskey.v ===== *)
(** * Passkeys (src/passkey.go)

    WebAuthn ceremonies.  The provider verifies the responses of the browser;
    the manager binds a ceremony to its account and its expiry by a sealed
    continuation, and spends it in the commit that succeeds. *)
From stdpp Require Import base gmap sets list strings numbers.
From Stdlib Require Import ZArith Lia Ascii.
From S2P Require Import Prelude Bytes GoText Uuid Types OAuthTypes Roles AuditChain Store StoreUsers StoreTokens StoreWorkspaces StorePages Commit StoreSystem Tokens Events Manager ManagerGates ManagerPassword ManagerAdmin ManagerSeal ManagerEmail.

Section passkey.
Context {E : Env}.
Abbreviation m := the_manager.

(** The sequence of [Manager.passkeyUser]: it ends at a credential that does
    not open. *)
Fixpoint decrypt_credentials (l : list Passkey) : list (result Passkey) :=
  match l with
  | [] => []
  | passkey :: l' =>
      match open (Passkey_CredentialJSON passkey) with
      | Ok plaintext => Ok (passkey <| Passkey_CredentialJSON := plaintext |>) :: decrypt_credentials l'
      | Error e => [Error (Wrapped "decrypt passkey credential" e)]
      end
  end.
Definition read_credentials (userID : UUID) : M World (list (result Passkey)) :=
  r ← attempt (call (λ ctx, Passkeys ctx userID));
  mret (match r with Ok l => decrypt_credentials l | Error e => [Error e] end).

(** [Manager.passkeyUser] *)
Definition passkeyUser (userID : UUID) : M World PasskeyUser :=
  user ← call (λ ctx, UserByID ctx userID);
  mret (mkPasskeyUser user userID).

(** What the provider does until it answers; [answer] serves its questions
    and keeps what they resolved. *)
Fixpoint run_ceremony {X Q R} (answer : X → Q → M World (X * result PasskeyUser)) (x : X)
    (c : Ceremony Q R) : M World (X * result R) :=
  match c with
  | Answered r => mret (x, r)
  | ReadCredentials user k =>
      l ← read_credentials (PasskeyUser_Credentials user);
      run_ceremony answer x (k l)
  | Ask q k =>
      p ← answer x q;
      run_ceremony answer p.1 (k p.2)
  end.

(** A call of the provider about one user. *)
Definition ceremony {R} (f : nat → Ceremony Empty_set R) : M World R :=
  c ← port (λ i, Ok (f i));
  p ← run_ceremony (λ (x : unit) (q : Empty_set), match q with end) tt c;
  lift_result p.2.

(** [Manager.requirePasskeyProvider] *)
Definition requirePasskeyProvider : M World PasskeyProvider :=
  ok_or (m_passkeys m) (Wrapped "no passkey provider configured" ErrNotSupported).

(** The continuation of a started ceremony. *)
Definition begin_ceremony (id userID : UUID) (operation name : string) (session : option string) :
    M World string :=
  now_ ← now;
  encodeContinuation (mkCeremonyContinuation id userID operation name (now_ + m_ceremonyTTL m)%Z session).

(** [Manager.BeginPasskeyRegistration] *)
Definition Manager_BeginPasskeyRegistration (actor : Authentication) (name : string) :
    M World PasskeyChallenge :=
  provider ← requirePasskeyProvider;
  requireRecentInteractive actor;;
  let name := TrimSpace name in
  throw_if (bool_decide (name = EmptyString) || bool_decide (100 < str_len name))
    (Wrapped "passkey name is required and limited to 100 characters" ErrInvalidInput);;
  user ← passkeyUser (Authentication_UserID actor);
  begun ← attempt (ceremony (λ i, passkey_BeginRegistration provider i user));
  match begun with
  | Error e => throw (Wrapped "begin passkey registration" e)
  | Ok (options, session) =>
      ceremonyID ← newID;
      continuation ← begin_ceremony ceremonyID (Authentication_UserID actor) passkeyRegistration name session;
      mret (mkPasskeyChallenge options continuation)
  end.

(** [Manager.FinishPasskeyRegistration] *)
Definition Manager_FinishPasskeyRegistration (actor : Authentication) (continuation response : string) :
    M World Passkey :=
  provider ← requirePasskeyProvider;
  requireRecentInteractive actor;;
  let userID := Authentication_UserID actor in
  state ← decodeContinuation continuation passkeyRegistration;
  throw_if (negb (bool_decide (ceremony_UserID state = userID))) ErrInvalidCredentials;;
  user ← passkeyUser userID;
  finished ← attempt (ceremony (λ i, passkey_FinishRegistration provider i user (ceremony_Session state) response));
  match finished with
  | Error _ => refuse userID "passkey.registration" "invalid_credentials" ErrInvalidCredentials
  | Ok (credentialID, credentialJSON) =>
      throw_if (bool_decide (credentialID = EmptyString) || bool_decide (credentialJSON = EmptyString))
        (Wrapped "passkey provider returned an empty credential" ErrInvalidInput);;
      sealedCredential ← seal credentialJSON;
      id ← newID;
      now_ ← now;
      let passkey := mkPasskey id userID (ceremony_Name state) credentialID sealedCredential now_ None in
      commit_change actor Nil "passkey.create" "auth.passkey.registration.finish" "passkey" (UUID_String id)
        EventPasskeyRegistered (λ meta, ApplyPasskeyRegistration meta id userID (Passkey_Name passkey))
        (λ commit ctx, SavePasskey ctx passkey
           (commit <| Commit_Ceremony := ceremony_consumption state |>));;
      mret (passkey <| Passkey_CredentialJSON := EmptyString |>)
  end.

(** [Manager.decoyPasskeyChallenge] *)
Definition decoyPasskeyChallenge (provider : PasskeyProvider) (normalizedEmail : string) :
    M World PasskeyChallenge :=
  let seed := digest (m_digestKey m) ("passkey-decoy:" +:+ normalizedEmail) in
  begun ← attempt (port (λ i, passkey_BeginDecoy provider i seed));
  match begun with
  | Error _ => throw ErrInvalidCredentials
  | Ok (options, session) =>
      continuation ← begin_ceremony Nil Nil passkeyAuthentication EmptyString session;
      mret (mkPasskeyChallenge options continuation)
  end.

(** [Manager.BeginPasskeyAuthentication] *)
Definition Manager_BeginPasskeyAuthentication (email : string) : M World PasskeyChallenge :=
  provider ← requirePasskeyProvider;
  let normalized := normalizeEmail email in
  domainRequiresSSO normalized "passkey.authentication.begin";;
  found ← attempt (call (λ ctx, UserByEmail ctx normalized));
  match found with
  | Error e => if errors_Is e ErrNotFound then decoyPasskeyChallenge provider normalized else throw e
  | Ok userRecord =>
      if User_Disabled userRecord then decoyPasskeyChallenge provider normalized
      else
        user ← passkeyUser (User_ID userRecord);
        begun ← attempt (ceremony (λ i, passkey_BeginAuthentication provider i user));
        match begun with
        | Error e =>
            if errors_Is e ErrNoPasskey then decoyPasskeyChallenge provider normalized
            else throw ErrInvalidCredentials
        | Ok (options, session) =>
            ceremonyID ← newID;
            continuation ← begin_ceremony ceremonyID (User_ID userRecord) passkeyAuthentication
              EmptyString session;
            mret (mkPasskeyChallenge options continuation)
        end
  end.

(** [Manager.passkeyIDByCredential] *)
Definition passkeyIDByCredential (userID : UUID) (credentialID : string) : M World UUID :=
  r ← attempt (call (λ ctx, Passkeys ctx userID));
  mret (match r with
        | Error _ => Nil
        | Ok l => default Nil (Passkey_ID <$>
            head (base.filter (λ p, Passkey_CredentialID p = credentialID) l))
        end).

(** [Manager.commitPasskeyAuthentication] *)
Definition commitPasskeyAuthentication (operation : string) (state : ceremonyContinuation) (userID : UUID)
    (credentialID credentialJSON : string) : M World Authentication :=
  event ← newAudit userID "auth.passkey" "user" (UUID_String userID) Nil AuditSucceeded EmptyString;
  now_ ← now;
  sealedCredential ← seal credentialJSON;
  _ ← passkeyIDByCredential userID credentialID;
  mapped_spent operation (call (λ ctx, TouchPasskey ctx userID credentialID sealedCredential now_
    (audit_commit event <| Commit_Ceremony := ceremony_consumption state |>)));;
  let authentication := Authentication_zero <| Authentication_UserID := userID |>
    <| Authentication_Method := MethodPasskey |> <| Authentication_Level := AAL2 |>
    <| Authentication_AuthenticatedAt := now_ |> in
  emit_new EventPasskeyAuthenticated operation userID Nil event;;
  emitAuthenticationSucceeded operation event authentication;;
  mret authentication.

(** A response the provider rejects is audited against the account. *)
Definition reject_passkey {A} (operation : string) (userID : UUID) (e : error) : M World A :=
  let reason := if errors_Is e ErrPasskeyCloneDetected then "cloned_authenticator" else "invalid_credentials" in
  audit ← recordAuthenticationAudit userID "auth.passkey" AuditFailed reason;
  emitAuthenticationFailed operation audit userID;;
  throw ErrInvalidCredentials.

(** [record, lookupErr := m.store.UserByID(...); if lookupErr != nil || record.Disabled] *)
Definition enabled_record (userID : UUID) : M World User :=
  looked ← attempt (call (λ ctx, UserByID ctx userID));
  match looked with
  | Ok record => if User_Disabled record then throw ErrInvalidCredentials else mret record
  | Error _ => throw ErrInvalidCredentials
  end.

(** [Manager.FinishPasskeyAuthentication] *)
Definition Manager_FinishPasskeyAuthentication (continuation response : string) : M World Authentication :=
  provider ← requirePasskeyProvider;
  let operation := "auth.passkey.authentication.finish" in
  state ← decodeContinuation continuation passkeyAuthentication;
  let userID := ceremony_UserID state in
  found ← attempt (passkeyUser userID);
  match found with
  | Error _ => throw ErrInvalidCredentials
  | Ok user =>
      record ← enabled_record userID;
      domainRequiresSSO (normalizeEmail (User_Email record)) "passkey.authentication.finish";;
      finished ← attempt (ceremony (λ i,
        passkey_FinishAuthentication provider i user (ceremony_Session state) response));
      match finished with
      | Error e => reject_passkey operation userID e
      | Ok (credentialID, credentialJSON) =>
          commitPasskeyAuthentication operation state userID credentialID credentialJSON
      end
  end.

(** [Manager.discoverablePasskeys] *)
Definition discoverablePasskeys : M World DiscoverablePasskeyProvider :=
  provider ← requirePasskeyProvider;
  discoverable ← ok_or (passkey_Discoverable provider)
    (Wrapped "passkey provider does not support discoverable authentication" ErrNotSupported);
  throw_if (negb (m_passkeyCredentialStore m))
    (Wrapped "store does not implement PasskeyCredentialStore" ErrNotSupported);;
  mret discoverable.

(** [Manager.BeginDiscoverablePasskeyAuthentication] *)
Definition Manager_BeginDiscoverablePasskeyAuthentication : M World PasskeyChallenge :=
  provider ← discoverablePasskeys;
  begun ← attempt (port (passkey_BeginDiscoverable provider));
  match begun with
  | Error _ => throw ErrInvalidCredentials
  | Ok (options, session) =>
      ceremonyID ← newID;
      continuation ← begin_ceremony ceremonyID Nil passkeyDiscoverable EmptyString session;
      mret (mkPasskeyChallenge options continuation)
  end.

(** The lookup of a discoverable ceremony: the last account it resolved is kept. *)
Definition resolve_credential (resolved : UUID) (credentialID : string) :
    M World (UUID * result PasskeyUser) :=
  r ← attempt (passkey ← call (λ ctx, PasskeyByCredentialID ctx credentialID);
               passkeyUser (Passkey_UserID passkey));
  mret (match r with Ok user => PasskeyUser_Credentials user | Error _ => resolved end, r).

(** [Manager.FinishDiscoverablePasskeyAuthentication] *)
Definition Manager_FinishDiscoverablePasskeyAuthentication (continuation response : string) :
    M World Authentication :=
  provider ← discoverablePasskeys;
  let operation := "auth.passkey.discoverable.finish" in
  state ← decodeContinuation continuation passkeyDiscoverable;
  c ← port (λ i, Ok (passkey_FinishDiscoverable provider i (ceremony_Session state) response));
  p ← run_ceremony resolve_credential Nil c;
  let '(resolvedUserID, finished) := p in
  match finished with
  | Error e =>
      if bool_decide (resolvedUserID = Nil) then throw ErrInvalidCredentials
      else reject_passkey operation resolvedUserID e
  | Ok (credentialID, credentialJSON) =>
      throw_if (bool_decide (resolvedUserID = Nil)) ErrInvalidCredentials;;
      record ← enabled_record resolvedUserID;
      domainRequiresSSO (normalizeEmail (User_Email record)) "passkey.discoverable.finish";;
      commitPasskeyAuthentication operation state resolvedUserID credentialID credentialJSON
  end.

(** [Manager.DeletePasskey] *)
Definition Manager_DeletePasskey (actor : Authentication) (passkeyID : UUID) : M World unit :=
  requireScopedStepUp actor StepUpScopeAccount "auth.passkey.delete";;
  throw_if (bool_decide (passkeyID = Nil)) (Wrapped "passkey id is required" ErrInvalidInput);;
  let userID := Authentication_UserID actor in
  commit_change actor Nil "passkey.delete" "auth.passkey.delete" "passkey" (UUID_String passkeyID)
    EventPasskeyDeleted (λ meta, ApplyPasskeyDeletion meta passkeyID userID)
    (λ commit ctx, DeletePasskey ctx userID passkeyID commit).

(** [Manager.Passkeys] *)
Definition Manager_Passkeys (actor : Authentication) (userID : UUID) : M World (Stream Passkey) :=
  let userID := if bool_decide (userID = Nil) then Authentication_UserID actor else userID in
  r ← attempt (throw_if (anonymous actor) ErrUnauthorized;;
        if bool_decide (userID = Authentication_UserID actor)
        then requireRecentInteractive actor else AuthorizeAdmin actor PermissionUsersRead);
  match r with
  | Error e => mret (errorSeq e)
  | Ok _ =>
      r ← attempt (call (λ ctx, Passkeys ctx userID));
      mret (match r with
            | Error e => [Error e]
            | Ok l => (λ p, Ok (p <| Passkey_CredentialJSON := EmptyString |>)) <$> l
            end)
  end.

End passkey.
