(* ===== verification/ManagerSSO.v ===== *)
(** * Single sign-on (src/sso.go)

    Sign-in, linking and step-up through an identity provider, with the
    just-in-time provisioning of accounts by a confirmed domain. *)
From stdpp Require Import base gmap sets list strings numbers.
From Stdlib Require Import ZArith Lia Ascii.
From S2P Require Import Prelude Bytes GoText Uuid Types OAuthTypes Roles AuditChain Store StoreUsers StoreTokens StoreWorkspaces StorePages Commit StoreSystem Tokens Events Manager ManagerGates ManagerPassword ManagerAdmin ManagerSeal ManagerEmail ManagerPasskey.

Section sso.
Context {E : Env}.
Abbreviation m := the_manager.

(** [Manager.beginSSO] *)
Definition beginSSO (actor : Authentication) (providerConfigurationID : UUID) (operation : string) :
    M World SSOChallenge :=
  provider ← ok_or (m_ssoProviders m !! providerConfigurationID) ErrNotFound;
  begun ← attempt (port (λ i, sso_Begin provider i (mkSSORequest (bool_decide (operation = ssoStepUp)))));
  match begun with
  | Error e => throw (Wrapped "begin SSO" e)
  | Ok challenge =>
      let redirectURL := SSOProviderChallenge_RedirectURL challenge in
      let session := SSOProviderChallenge_Session challenge in
      throw_if (bool_decide (TrimSpace redirectURL = EmptyString) || bool_decide (session = EmptyString))
        (Wrapped "SSO provider returned an incomplete challenge" ErrInvalidInput);;
      ceremonyID ← newID;
      now_ ← now;
      continuation ← encodeSSOContinuation (mkSSOContinuation ceremonyID providerConfigurationID operation
        (Authentication_UserID actor) (now_ + m_ceremonyTTL m)%Z (Some session));
      emit_new EventSSOChallengeIssued "auth.sso.begin" (Authentication_UserID actor) Nil AuditEvent_zero;;
      mret (mkSSOChallenge redirectURL continuation)
  end.

(** [Manager.BeginSSO], [Manager.BeginSSOLink] and [Manager.BeginSSOStepUp] *)
Definition Manager_BeginSSO (providerConfigurationID : UUID) : M World SSOChallenge :=
  beginSSO Authentication_zero providerConfigurationID ssoLogin.
Definition Manager_BeginSSOLink (actor : Authentication) (providerConfigurationID : UUID) :
    M World SSOChallenge :=
  requireRecentInteractive actor;;
  beginSSO actor providerConfigurationID ssoLink.
Definition Manager_BeginSSOStepUp (actor : Authentication) (providerConfigurationID : UUID) :
    M World SSOChallenge :=
  requireRecentInteractive actor;;
  beginSSO actor providerConfigurationID ssoStepUp.

Definition sso_authentication (userID : UUID) (level : AssuranceLevel) (at_ : Z) : Authentication :=
  Authentication_zero <| Authentication_UserID := userID |> <| Authentication_Method := MethodSSO |>
    <| Authentication_Level := level |> <| Authentication_AuthenticatedAt := at_ |>.

Definition new_identity (id userID : UUID) (provider : SSOProvider) (state : ssoContinuation)
    (claims : SSOClaims) (at_ : Z) : SSOIdentity :=
  mkSSOIdentity id userID (sso_ProviderConfigurationID state) (sso_Kind provider) (SSOClaims_Issuer claims)
    (SSOClaims_Subject claims) (SSOClaims_Email claims) at_ (Some at_).

(** A failure before the account is known; a ceremony bound to a user is audited. *)
Definition reject_sso {A} (state : ssoContinuation) (reason : string) (err : error) : M World A :=
  (if bool_decide (sso_UserID state = Nil) then mret tt
   else
     audit ← recordAuthenticationAudit (sso_UserID state) "auth.sso" AuditFailed reason;
     emitAuthenticationFailed "auth.sso.finish" audit (sso_UserID state));;
  throw err.

(** [Manager.finishSSOJIT] *)
Definition finishSSOJIT (provider : SSOProvider) (state : ssoContinuation) (claims : SSOClaims)
    (level : AssuranceLevel) : M World Authentication :=
  let email := SSOClaims_Email claims in
  throw_if (negb (m_domainStore m) || negb (SSOClaims_EmailVerified claims) ||
            bool_decide (email = EmptyString)) ErrInvalidCredentials;;
  domainName ← ok_or (after_last "@" email) ErrInvalidCredentials;
  throw_if (bool_decide (domainName = EmptyString)) ErrInvalidCredentials;;
  domain ← lookup_token (λ ctx, ConfirmedWorkspaceDomainByName ctx domainName);
  throw_if (negb (WorkspaceDomain_AutoJoin domain) ||
            negb (bool_decide (WorkspaceDomain_SSOProviderConfigurationID domain =
                               sso_ProviderConfigurationID state))) ErrInvalidCredentials;;
  let workspaceID := WorkspaceDomain_WorkspaceID domain in
  workspace ← lookup_token (λ ctx, WorkspaceByID ctx workspaceID);
  throw_if (not_nil (Workspace_DisabledAt workspace)) ErrInvalidCredentials;;
  owner ← attempt (call (λ ctx, UserByEmail ctx email));
  (match owner with
   | Ok _ => throw ErrInvalidCredentials
   | Error e => if errors_Is e ErrNotFound then mret tt else throw e
   end);;
  userID ← newID;
  emailID ← newID;
  identityID ← newID;
  now_ ← now;
  let role := if bool_decide (WorkspaceDomain_AutoJoinRole domain = EmptyString) then RoleMember
              else WorkspaceDomain_AutoJoinRole domain in
  let user := new_user userID email email (Some now_) now_ in
  let primaryEmail := new_primary_email emailID userID email now_ in
  let membership := new_membership workspaceID userID role MembershipActive now_ now_
    <| Membership_ProvisioningSource := "jit:" +:+ UUID_String (WorkspaceDomain_ID domain) |> in
  let identity := new_identity identityID userID provider state claims now_ in
  event ← newAudit userID "auth.sso" "sso_identity" (UUID_String identityID) workspaceID
    AuditSucceeded EmptyString;
  userMeta ← newEventMeta EventUserCreated "auth.sso.finish" userID workspaceID event;
  linkMeta ← newEventMeta EventSSOLinked "auth.sso.finish" userID workspaceID event;
  jitMeta ← newEventMeta EventSSOJITProvisioned "auth.sso.finish" userID workspaceID event;
  let commit := two_hooks event (ApplyUserCreate userMeta user primaryEmail membership)
    (ApplySSOLink linkMeta identity) <| Commit_Ceremony := sso_consumption state |> in
  mapped_spent "auth.sso.finish" (call (λ ctx,
    JITProvisionSSOUser ctx user primaryEmail membership identity commit));;
  emit userMeta;; emit linkMeta;; emit jitMeta;;
  let authentication := sso_authentication userID level now_ in
  emitAuthenticationSucceeded "auth.sso.finish" event authentication;;
  mret authentication.

(** [Manager.finishSSOLink] *)
Definition finishSSOLink (provider : SSOProvider) (state : ssoContinuation) (claims : SSOClaims)
    (level : AssuranceLevel) : M World Authentication :=
  let userID := sso_UserID state in
  id ← newID;
  now_ ← now;
  let identity := new_identity id userID provider state claims now_ in
  event ← newAudit userID "sso.link" "sso_identity" (UUID_String id) Nil AuditSucceeded EmptyString;
  meta ← newEventMeta EventSSOLinked "auth.sso.finish" userID Nil event;
  mapped "auth.sso.link" (call (λ ctx, LinkSSO ctx identity
    (transactionalCommit event (ApplySSOLink meta identity)
       <| Commit_Ceremony := sso_consumption state |>)));;
  emit meta;;
  mret (sso_authentication userID level now_).

(** The resolved identity signs in. *)
Definition finish_known (state : ssoContinuation) (identity : SSOIdentity) (level : AssuranceLevel) :
    M World Authentication :=
  throw_if (bool_decide (sso_Operation state = ssoStepUp) &&
            negb (bool_decide (SSOIdentity_UserID identity = sso_UserID state))) ErrInvalidCredentials;;
  user ← enabled_record (SSOIdentity_UserID identity);
  now_ ← now;
  event ← newAudit (User_ID user) "auth.sso" "sso_identity" (UUID_String (SSOIdentity_ID identity)) Nil
    AuditSucceeded EmptyString;
  mapped_spent "auth.sso.finish" (call (λ ctx,
    TouchSSO ctx (User_ID user) (SSOIdentity_ID identity) now_
      (audit_commit event <| Commit_Ceremony := sso_consumption state |>)));;
  let authentication := sso_authentication (User_ID user) level now_ in
  emit_new EventSSOAuthenticated "auth.sso.finish" (User_ID user) Nil event;;
  emitAuthenticationSucceeded "auth.sso.finish" event authentication;;
  mret authentication.

(** [len(value) > 500] after trimming, or nothing left *)
Definition bad_claim (value : string) : bool :=
  bool_decide (value = EmptyString) || bool_decide (500 < str_len value).

(** [Manager.FinishSSO] *)
Definition Manager_FinishSSO (continuation response : string) : M World Authentication :=
  state ← decodeSSOContinuation continuation;
  let configurationID := sso_ProviderConfigurationID state in
  provider ← ok_or (m_ssoProviders m !! configurationID) ErrInvalidCredentials;
  finished ← attempt (port (λ i, sso_Finish provider i (default EmptyString (sso_Session state)) response));
  match finished with
  | Error _ => reject_sso state "invalid_credentials" ErrInvalidCredentials
  | Ok claims =>
      let claims := claims <| SSOClaims_Issuer := TrimSpace (SSOClaims_Issuer claims) |>
        <| SSOClaims_Subject := TrimSpace (SSOClaims_Subject claims) |> in
      throw_if (bad_claim (SSOClaims_Issuer claims) || bad_claim (SSOClaims_Subject claims))
        ErrInvalidCredentials;;
      level ← match m_ssoAssurance m !! configurationID with
              | None => mret AAL1
              | Some policy =>
                  if SSOAssurancePolicy_satisfiedBy policy claims then mret AAL2
                  else reject_sso state "assurance_policy" ErrStepUpRequired
              end;
      claims ← if bool_decide (SSOClaims_Email claims = EmptyString) then mret claims
               else match validEmail (SSOClaims_Email claims) with
                    | Ok email => mret (claims <| SSOClaims_Email := email |>)
                    | Error _ => throw ErrInvalidCredentials
                    end;
      if bool_decide (sso_Operation state = ssoLink) then finishSSOLink provider state claims level
      else
        looked ← attempt (call (λ ctx,
          SSOIdentity_ ctx configurationID (SSOClaims_Issuer claims) (SSOClaims_Subject claims)));
        match looked with
        | Ok known => finish_known state known level
        | Error e =>
            if negb (errors_Is e ErrNotFound) then throw e
            else if bool_decide (sso_Operation state = ssoLogin) then finishSSOJIT provider state claims level
            else throw ErrInvalidCredentials
        end
  end.

(** [Manager.UnlinkSSO] *)
Definition Manager_UnlinkSSO (actor : Authentication) (identityID : UUID) : M World unit :=
  requireScopedStepUp actor StepUpScopeAccount "auth.sso.unlink";;
  throw_if (negb (validUUIDv7 identityID)) (Wrapped "invalid SSO identity id" ErrInvalidInput);;
  let userID := Authentication_UserID actor in
  commit_change actor Nil "sso.unlink" "auth.sso.unlink" "sso_identity" (UUID_String identityID)
    EventSSOUnlinked (λ meta, ApplySSOUnlink meta userID identityID)
    (λ commit ctx, UnlinkSSO ctx userID identityID commit).

(** [Manager.SSOIdentities] *)
Definition Manager_SSOIdentities (actor : Authentication) (userID : UUID) (page : PageRequest)
    (during : nat → Context) : M World (Stream (PageEvent SSOIdentity)) :=
  let userID := if bool_decide (userID = Nil) then Authentication_UserID actor else userID in
  listing
    (throw_if (anonymous actor) ErrUnauthorized;;
     if bool_decide (userID = Authentication_UserID actor)
     then requireRecentInteractive actor else AuthorizeAdmin actor PermissionUsersRead)
    page (λ page ctx, SSOIdentities ctx during userID page).

End sso.
