(* ===== verification/ManagerScim.v ===== *)
(** * Directory provisioning (src/scim.go)

    Connections of a workspace to a directory, their credentials, and the
    users and groups the directory pushes; the roles of managed members follow
    the mappings of the connection.  Inputs are values: that normalization
    also writes through the slice of addresses of its caller is not modelled. *)
From stdpp Require Import base gmap sets list strings numbers sorting.
From Stdlib Require Import ZArith Lia Ascii.
From S2P Require Import Prelude Bytes GoText Uuid Types OAuthTypes Roles AuditChain Store StoreUsers StoreTokens StoreWorkspaces StoreScim StorePages Commit StoreSystem Tokens Events Manager ManagerGates ManagerPassword ManagerAdmin ManagerEmail.

(** [parseSCIMToken] *)
Definition scimPrefix : string := "cbs".
Definition parseSCIMToken (raw : string) : option string := parsePAT scimPrefix raw.
Definition scim_secret (raw : string) : string := "scim" +:+ String Ascii.zero raw.

(** [slices.SortFunc(ids, UUID.Compare); slices.Compact(ids)] *)
Definition uuid_le (u v : UUID) : Prop := (UUID_Compare u v ≤ 0)%Z.
#[export] Instance uuid_le_dec : RelDecision uuid_le := λ u v, Z_le_dec (UUID_Compare u v) 0.
Fixpoint slices_Compact (l : list UUID) : list UUID :=
  match l with
  | a :: (b :: _) as l' => if bool_decide (a = b) then slices_Compact l' else a :: slices_Compact l'
  | l => l
  end.
Definition sorted_ids (l : list UUID) : list UUID := slices_Compact (merge_sort uuid_le l).

(** [validSCIMFilter] *)
Definition validSCIMFilter (filter : SCIMFilter) (user : bool) : bool :=
  let attribute := SCIMFilter_Attribute filter in
  if bool_decide (attribute = EmptyString) then true
  else if negb user then bool_decide (attribute ∈ ["id"; "externalId"; "displayName"])
  else bool_decide (attribute ∈ ["id"; "externalId"; "userName"; "emails.value"; "active"]).

(** [normalizeSCIMGroupInput] *)
Definition normalizeSCIMGroupInput (input : SCIMGroupInput) : result SCIMGroupInput :=
  let externalID := TrimSpace (SCIMGroupInput_ExternalID input) in
  let displayName := TrimSpace (SCIMGroupInput_DisplayName input) in
  if bool_decide (displayName = EmptyString) || bool_decide (255 < str_len displayName) ||
     bool_decide (255 < str_len externalID)
  then Error (Wrapped "invalid SCIM group" ErrInvalidInput)
  else if negb (forallb validUUIDv7 (SCIMGroupInput_MemberIDs input))
  then Error (Wrapped "invalid SCIM group member" ErrInvalidInput)
  else Ok (mkSCIMGroupInput externalID displayName (sorted_ids (SCIMGroupInput_MemberIDs input))).

(** ** Roles of members *)

(** The selection of [scimRoleForUser]: the role and priority chosen so far. *)
Definition select_mapping (selected : Role * option Z) (mapping : SCIMGroupRoleMapping) :
    result (Role * option Z) :=
  let '(role, priority) := selected in
  let chosen := (SCIMGroupRoleMapping_Role mapping, Some (SCIMGroupRoleMapping_Priority mapping)) in
  match priority with
  | None => Ok chosen
  | Some p =>
      if bool_decide (p < SCIMGroupRoleMapping_Priority mapping)%Z then Ok chosen
      else if bool_decide (SCIMGroupRoleMapping_Priority mapping = p) &&
              negb (bool_decide (SCIMGroupRoleMapping_Role mapping = role))
      then Error (Wrapped "ambiguous SCIM group role mapping" ErrConflict)
      else Ok selected
  end.
Fixpoint select_mappings (selected : Role * option Z) (mappings : list SCIMGroupRoleMapping) :
    result (Role * option Z) :=
  match mappings with
  | [] => Ok selected
  | mapping :: mappings' =>
      match select_mapping selected mapping with
      | Ok selected => select_mappings selected mappings'
      | Error e => Error e
      end
  end.

(** The mappings that apply, in the order of the two loops. *)
Definition group_member (linkID : UUID) (group : SCIMGroup) : bool :=
  negb (not_nil (SCIMGroup_DeletedAt group)) && bool_decide (linkID ∈ SCIMGroup_MemberIDs group).
Definition applicable (configuration : SCIMConfiguration) (groups : list SCIMGroup) (linkID : UUID) :
    list SCIMGroupRoleMapping :=
  concat ((λ group, base.filter (λ mapping,
             SCIMGroupRoleMapping_ExternalID mapping = SCIMGroup_ExternalID group)
             (SCIMConfiguration_GroupRoleMappings configuration)) <$>
          base.filter (λ group, group_member linkID group = true) groups).

(** [Manager.scimRoleForUser] *)
Definition scimRoleForUser (configuration : SCIMConfiguration) (groups : list SCIMGroup) (linkID : UUID) :
    result Role :=
  match select_mappings (SCIMConfiguration_DefaultRole configuration, None)
          (applicable configuration groups linkID) with
  | Ok (role, _) => Ok role
  | Error e => Error e
  end.

(** The groups with the replacement in its place, or at the end when it is new. *)
Fixpoint replace_group (replacement : SCIMGroup) (deleted : bool) (groups : list SCIMGroup) :
    list SCIMGroup :=
  match groups with
  | [] => if deleted then [] else [replacement]
  | g :: groups' =>
      if bool_decide (SCIMGroup_ID g = SCIMGroup_ID replacement)
      then if deleted then groups' else replacement :: groups'
      else g :: replace_group replacement deleted groups'
  end.

Section scim.
Context {E : Env}.
Abbreviation m := the_manager.

(** [Manager.newServiceAudit] *)
Definition newServiceAudit (actor : UUID) (action resourceType resourceID : string) (workspaceID : UUID) :
    M World AuditEvent :=
  event ← newAudit actor action resourceType resourceID workspaceID AuditSucceeded EmptyString;
  mret (event <| AuditEvent_ActorKind := ActorService |>).

(** ** Inputs *)

(** The loop of [normalizeSCIMUserInput]: the addresses and the primary ones *)
Fixpoint normalize_emails (seen : list string) (l : list SCIMEmail) :
    result (list SCIMEmail * list string) :=
  match l with
  | [] => Ok ([], [])
  | e :: l' =>
      match validEmail (SCIMEmail_Value e) with
      | Error err => Error err
      | Ok email =>
          if bool_decide (email ∈ seen) then Error (Wrapped "duplicate SCIM email" ErrInvalidInput)
          else
            match normalize_emails (email :: seen) l' with
            | Error err => Error err
            | Ok (emails, primaries) =>
                let e' := mkSCIMEmail email (TrimSpace (SCIMEmail_Type e)) (SCIMEmail_Primary e) in
                Ok (e' :: emails, if SCIMEmail_Primary e then email :: primaries else primaries)
            end
      end
  end.

(** [normalizeSCIMUserInput] *)
Definition normalizeSCIMUserInput (input : SCIMUserInput) (requireEmail : bool) :
    result (SCIMUserInput * string) :=
  let externalID := TrimSpace (SCIMUserInput_ExternalID input) in
  let userName := ToLower (TrimSpace (SCIMUserInput_UserName input)) in
  let displayName := TrimSpace (SCIMUserInput_DisplayName input) in
  if bool_decide (userName = EmptyString) || bool_decide (320 < str_len userName) ||
     bool_decide (255 < str_len externalID)
  then Error (Wrapped "SCIM userName is required" ErrInvalidInput)
  else
    let displayName := if bool_decide (displayName = EmptyString) then userName else displayName in
    if bool_decide (255 < str_len displayName)
    then Error (Wrapped "SCIM displayName is too long" ErrInvalidInput)
    else
      match normalize_emails [] (SCIMUserInput_Emails input) with
      | Error e => Error e
      | Ok (emails, primaries) =>
          if bool_decide (1 < length primaries)
          then Error (Wrapped "multiple primary SCIM emails" ErrInvalidInput)
          else
            let '(emails, primary) :=
              match primaries, emails with
              | p :: _, _ => (emails, p)
              | [], e :: rest => (e <| SCIMEmail_Primary := true |> :: rest, SCIMEmail_Value e)
              | [], [] => (emails, EmptyString)
              end in
            if requireEmail && bool_decide (primary = EmptyString)
            then Error (Wrapped "a SCIM email is required" ErrInvalidInput)
            else Ok (input <| SCIMUserInput_ExternalID := externalID |>
                       <| SCIMUserInput_UserName := userName |>
                       <| SCIMUserInput_DisplayName := displayName |>
                       <| SCIMUserInput_Emails := emails |>, primary)
      end.

(** The loop of [validateSCIMRoleConfiguration] *)
Fixpoint validate_mappings (seen : list string) (l : list SCIMGroupRoleMapping) :
    result (list SCIMGroupRoleMapping) :=
  match l with
  | [] => Ok []
  | mapping :: l' =>
      let externalID := TrimSpace (SCIMGroupRoleMapping_ExternalID mapping) in
      if bool_decide (externalID = EmptyString) || bool_decide (255 < str_len externalID)
      then Error (Wrapped "invalid SCIM group mapping" ErrInvalidInput)
      else if bool_decide (externalID ∈ seen)
      then Error (Wrapped "duplicate SCIM group mapping" ErrInvalidInput)
      else
        match roleCatalog_normalize (m_workspaceRoles m) (SCIMGroupRoleMapping_Role mapping) with
        | Error e => Error e
        | Ok role =>
            match validate_mappings (externalID :: seen) l' with
            | Error e => Error e
            | Ok rest => Ok (mkSCIMGroupRoleMapping externalID role (SCIMGroupRoleMapping_Priority mapping) :: rest)
            end
        end
  end.

(** [Manager.validateSCIMRoleConfiguration] *)
Definition validateSCIMRoleConfiguration (defaultRole : Role) (mappings : list SCIMGroupRoleMapping) :
    result (Role * list SCIMGroupRoleMapping) :=
  let defaultRole := if bool_decide (defaultRole = EmptyString) then RoleMember else defaultRole in
  match roleCatalog_normalize (m_workspaceRoles m) defaultRole with
  | Error e => Error e
  | Ok role =>
      match validate_mappings [] mappings with
      | Error e => Error e
      | Ok result => Ok (role, result)
      end
  end.

(** ** Access *)

(** [Manager.requireSCIMAdmin] *)
Definition requireSCIMAdmin (actor : Authentication) (configurationID : UUID) (operation : string) :
    M World SCIMConfiguration :=
  throw_if (negb (m_scimStore m)) ErrNotSupported;;
  requireScopedStepUp actor StepUpScopeWorkspace operation;;
  configuration ← call (λ ctx, SCIMConfiguration_ ctx configurationID);
  AuthorizePermission actor (SCIMConfiguration_WorkspaceID configuration) PermissionWorkspaceRBACWrite;;
  mret configuration.

(** [Manager.scimConfigurationForPrincipal] *)
Definition scimConfigurationForPrincipal (principal : SCIMAuthentication) : M World SCIMConfiguration :=
  throw_if (negb (m_scimStore m)) ErrNotSupported;;
  throw_if (bool_decide (SCIMAuthentication_ConfigurationID principal = Nil) ||
            bool_decide (SCIMAuthentication_CredentialID principal = Nil) ||
            bool_decide (SCIMAuthentication_WorkspaceID principal = Nil)) ErrUnauthorized;;
  configuration ← call (λ ctx, SCIMConfiguration_ ctx (SCIMAuthentication_ConfigurationID principal));
  throw_if (negb (SCIMConfiguration_Enabled configuration) ||
            negb (bool_decide (SCIMConfiguration_WorkspaceID configuration =
                               SCIMAuthentication_WorkspaceID principal))) ErrUnauthorized;;
  mret configuration.

(** ** Whole listings *)

(** [allSCIMGroups] and [allSCIMUsers]: page after page of fifty *)
Definition all_page {T} (page : PageRequest → (nat → Context) → Context → M Store (Stream (PageEvent T)))
    (acc : string * list T) : M World ((string * list T) + list T) :=
  w ← get;
  events ← call (page (mkPageRequest acc.1 50) (λ i, Ctx_Err the_ctx (W_tick w + i)));
  r ← lift_result (CollectPage events [] PageEnd_zero);
  let '(items, e) := r in
  let result := acc.2 ++ items in
  if negb (PageEnd_HasMore e) then mret (inr result) else mret (inl (PageEnd_NextCursor e, result)).
Definition allSCIMGroups (configurationID : UUID) : M World (list SCIMGroup) :=
  loop (all_page (λ page during ctx,
          SCIMGroups ctx during configurationID SCIMFilter_zero page)) (EmptyString, []).
Definition allSCIMUsers (configurationID : UUID) : M World (list SCIMUser) :=
  loop (all_page (λ page during ctx,
          SCIMUsers (m_unicode_ToLower m) ctx during configurationID SCIMFilter_zero page)) (EmptyString, []).

(** ** Connections *)

(** [Manager.newSCIMCredential] *)
Definition newSCIMCredential (configurationID : UUID) (expiresAt : option Z) :
    M World (SCIMCredential * string) :=
  prefixBytes ← randomBytes 6;
  secret ← randomBytes 32;
  id ← newID;
  let prefix := hex_Encode prefixBytes in
  let raw := token_text scimPrefix prefix secret in
  now_ ← now;
  mret (SCIMCredential_zero <| SCIMCredential_ID := id |>
          <| SCIMCredential_ConfigurationID := configurationID |> <| SCIMCredential_Prefix := prefix |>
          <| SCIMCredential_Digest := digest (m_patPepper m) (scim_secret raw) |>
          <| SCIMCredential_CreatedAt := now_ |> <| SCIMCredential_ExpiresAt := expiresAt |>, raw).

(** [if expiresAt != nil && !expiresAt.After(m.now())] *)
Definition future_expiry (expiresAt : option Z) : M World unit :=
  match expiresAt with
  | None => mret tt
  | Some at_ =>
      now_ ← now;
      throw_if (negb (Time_After at_ now_))
        (Wrapped "SCIM credential expiration must be in the future" ErrInvalidInput)
  end.

Definition public_credential (credential : SCIMCredential) : SCIMCredential :=
  credential <| SCIMCredential_Digest := EmptyString |>.

(** [Manager.CreateSCIMConfiguration] *)
Definition Manager_CreateSCIMConfiguration (actor : Authentication) (workspaceID : UUID)
    (input : CreateSCIMConfigurationInput) : M World IssuedSCIMCredential :=
  let operation := "scim.configuration.create" in
  throw_if (negb (m_scimStore m)) ErrNotSupported;;
  requireScopedStepUp actor StepUpScopeWorkspace operation;;
  AuthorizePermission actor workspaceID PermissionWorkspaceRBACWrite;;
  roles ← lift_result (validateSCIMRoleConfiguration (CreateSCIMConfigurationInput_DefaultRole input)
    (CreateSCIMConfigurationInput_GroupRoleMappings input));
  let expiresAt := CreateSCIMConfigurationInput_CredentialExpiresAt input in
  future_expiry expiresAt;;
  configurationID ← newID;
  issued ← newSCIMCredential configurationID expiresAt;
  let '(credential, raw) := issued in
  now_ ← now;
  let configuration := mkSCIMConfiguration configurationID workspaceID true roles.1
    (CreateSCIMConfigurationInput_TrustDirectoryEmails input) roles.2 now_ now_ in
  commit_change actor workspaceID operation operation "scim_configuration" (UUID_String configurationID)
    EventSCIMConfigurationCreated (λ meta, ApplySCIMConfigurationCreate meta configuration)
    (λ commit ctx, CreateSCIMConfiguration ctx configuration credential commit);;
  mret (mkIssuedSCIMCredential configuration (public_credential credential) raw).

(** The commits of the administration: audited, without hooks or events. *)
Definition commit_silent (actor : Authentication) (workspaceID : UUID)
    (operation resourceType resourceID : string) (f : Commit → Context → M Store unit) : M World unit :=
  event ← newAudit (Authentication_UserID actor) operation resourceType resourceID workspaceID
    AuditSucceeded EmptyString;
  mapped operation (call (f (audit_commit event))).
Definition commit_silent_at (actor : Authentication) (workspaceID : UUID)
    (operation resourceType resourceID : string) (f : Z → Commit → Context → M Store unit) : M World unit :=
  event ← newAudit (Authentication_UserID actor) operation resourceType resourceID workspaceID
    AuditSucceeded EmptyString;
  now_ ← now;
  mapped operation (call (f now_ (audit_commit event))).

(** The member a directory manages, with the role its groups give it. *)
Definition managed_membership (configuration : SCIMConfiguration) (userID : UUID) : M World Membership :=
  membership ← call (λ ctx, Membership_ ctx (SCIMConfiguration_WorkspaceID configuration) userID);
  throw_if (negb (bool_decide (Membership_ProvisioningSource membership =
                               UUID_String (SCIMConfiguration_ID configuration)))) ErrConflict;;
  mret membership.

(** The members of [UpdateSCIMConfiguration] *)
Fixpoint remapped_members (configuration : SCIMConfiguration) (groups : list SCIMGroup)
    (users : list SCIMUser) : M World (list Membership) :=
  match users with
  | [] => mret []
  | user :: users' =>
      membership ← managed_membership configuration (SCIMUser_UserID user);
      role ← lift_result (scimRoleForUser configuration groups (SCIMUser_ID user));
      rest ← remapped_members configuration groups users';
      mret (membership <| Membership_Role := role |>
              <| Membership_UpdatedAt := SCIMConfiguration_UpdatedAt configuration |> :: rest)
  end.

(** [Manager.UpdateSCIMConfiguration] *)
Definition Manager_UpdateSCIMConfiguration (actor : Authentication) (configurationID : UUID)
    (input : UpdateSCIMConfigurationInput) : M World SCIMConfiguration :=
  let operation := "scim.configuration.update" in
  configuration ← requireSCIMAdmin actor configurationID operation;
  roles ← lift_result (validateSCIMRoleConfiguration (UpdateSCIMConfigurationInput_DefaultRole input)
    (UpdateSCIMConfigurationInput_GroupRoleMappings input));
  now_ ← now;
  let configuration := configuration <| SCIMConfiguration_DefaultRole := roles.1 |>
    <| SCIMConfiguration_TrustDirectoryEmails := UpdateSCIMConfigurationInput_TrustDirectoryEmails input |>
    <| SCIMConfiguration_GroupRoleMappings := roles.2 |> <| SCIMConfiguration_UpdatedAt := now_ |> in
  groups ← allSCIMGroups (SCIMConfiguration_ID configuration);
  users ← allSCIMUsers (SCIMConfiguration_ID configuration);
  memberships ← remapped_members configuration groups users;
  commit_silent actor (SCIMConfiguration_WorkspaceID configuration) operation "scim_configuration"
    (UUID_String configurationID)
    (λ commit ctx, UpdateSCIMConfiguration ctx configuration memberships commit);;
  mret configuration.

(** [Manager.SCIMConfigurations] *)
Definition Manager_SCIMConfigurations (actor : Authentication) (workspaceID : UUID) :
    M World (Stream SCIMConfiguration) :=
  r ← attempt (throw_if (negb (m_scimStore m)) ErrNotSupported;;
        throw_if (negb (validUUIDv7 workspaceID)) (Wrapped "invalid workspace id" ErrInvalidInput);;
        AuthorizePermission actor workspaceID PermissionWorkspaceRBACWrite);
  match r with
  | Error e => mret (errorSeq e)
  | Ok _ => call (λ ctx, SCIMConfigurations ctx workspaceID)
  end.

(** [Manager.SCIMCredentials] *)
Definition Manager_SCIMCredentials (actor : Authentication) (configurationID : UUID) :
    M World (Stream SCIMCredential) :=
  r ← attempt (throw_if (negb (m_scimStore m)) ErrNotSupported;;
        configuration ← call (λ ctx, SCIMConfiguration_ ctx configurationID);
        AuthorizePermission actor (SCIMConfiguration_WorkspaceID configuration) PermissionWorkspaceRBACWrite);
  match r with
  | Error e => mret (errorSeq e)
  | Ok _ => call (λ ctx, SCIMCredentials ctx configurationID)
  end.

(** [Manager.RotateSCIMCredential] *)
Definition Manager_RotateSCIMCredential (actor : Authentication) (configurationID : UUID)
    (expiresAt : option Z) : M World IssuedSCIMCredential :=
  let operation := "scim.credential.rotate" in
  configuration ← requireSCIMAdmin actor configurationID operation;
  future_expiry expiresAt;;
  issued ← newSCIMCredential configurationID expiresAt;
  let '(credential, raw) := issued in
  commit_silent actor (SCIMConfiguration_WorkspaceID configuration) operation "scim_configuration"
    (UUID_String configurationID) (λ commit ctx, SaveSCIMCredential ctx credential commit);;
  mret (mkIssuedSCIMCredential configuration (public_credential credential) raw).

(** [Manager.RevokeSCIMCredential] *)
Definition Manager_RevokeSCIMCredential (actor : Authentication) (configurationID credentialID : UUID) :
    M World unit :=
  let operation := "scim.credential.revoke" in
  configuration ← requireSCIMAdmin actor configurationID operation;
  commit_silent_at actor (SCIMConfiguration_WorkspaceID configuration) operation "scim_credential"
    (UUID_String credentialID)
    (λ now_ commit ctx, RevokeSCIMCredential ctx configurationID credentialID now_ commit).

(** [Manager.DisableSCIMConfiguration] *)
Definition Manager_DisableSCIMConfiguration (actor : Authentication) (configurationID : UUID) :
    M World unit :=
  let operation := "scim.configuration.disable" in
  configuration ← requireSCIMAdmin actor configurationID operation;
  commit_silent_at actor (SCIMConfiguration_WorkspaceID configuration) operation "scim_configuration"
    (UUID_String configurationID)
    (λ now_ commit ctx, DisableSCIMConfiguration ctx configurationID now_ commit).

(** [valid := validShape && err == nil && ...] *)
Definition scim_credential_valid (now_ : Z) (raw : string)
    (p : SCIMConfiguration * SCIMCredential) : bool :=
  SCIMConfiguration_Enabled p.1 && negb (not_nil (SCIMCredential_RevokedAt p.2)) &&
  match SCIMCredential_ExpiresAt p.2 with Some t => Time_Before now_ t | None => true end &&
  matchDigestRing (SCIMCredential_Digest p.2) (m_readPATPeppers m) (scim_secret raw).

(** [Manager.AuthenticateSCIM] *)
Definition Manager_AuthenticateSCIM (raw : string) : M World SCIMAuthentication :=
  throw_if (negb (m_scimStore m)) ErrNotSupported;;
  found ← match parseSCIMToken raw with
          | None => mret None
          | Some prefix =>
              r ← attempt (call (λ ctx, SCIMConfigurationByCredentialPrefix ctx prefix));
              mret (match r with Ok p => Some p | Error _ => None end)
          end;
  now_ ← now;
  match found with
  | None => throw ErrInvalidCredentials
  | Some (configuration, credential) =>
      throw_if (negb (scim_credential_valid now_ raw (configuration, credential))) ErrInvalidCredentials;;
      let workspaceID := SCIMConfiguration_WorkspaceID configuration in
      looked ← attempt (call (λ ctx, WorkspaceByID ctx workspaceID));
      (match looked with
       | Ok workspace => throw_if (not_nil (Workspace_DisabledAt workspace)) ErrInvalidCredentials
       | Error _ => throw ErrInvalidCredentials
       end);;
      audit ← newServiceAudit (SCIMCredential_ID credential) "auth.scim" "scim_configuration"
        (UUID_String (SCIMConfiguration_ID configuration)) workspaceID;
      mapped "scim.authenticate" (call (λ ctx,
        TouchSCIMCredential ctx (SCIMCredential_ID credential) now_ (audit_commit audit)));;
      mret (mkSCIMAuthentication (SCIMConfiguration_ID configuration) workspaceID
        (SCIMCredential_ID credential) now_)
  end.

(** ** Users *)

(** A commit of the directory, with its hook and its event. *)
Definition commit_service (principal : SCIMAuthentication) (workspaceID : UUID)
    (action resourceType resourceID : string) (name : EventName) (change : EventMeta → Change)
    (f : Commit → Context → M Store unit) : M World AuditEvent :=
  let credentialID := SCIMAuthentication_CredentialID principal in
  audit ← newServiceAudit credentialID action resourceType resourceID workspaceID;
  meta ← newEventMeta name action credentialID workspaceID audit;
  mapped action (call (f (transactionalCommit audit (change meta))));;
  emit meta;;
  mret audit.

Definition membership_status (active : bool) : MembershipStatus :=
  if active then MembershipActive else MembershipSuspended.

Definition new_link (id configurationID userID : UUID) (input : SCIMUserInput) (at_ : Z) : SCIMUser :=
  mkSCIMUser id configurationID userID (SCIMUserInput_Schemas input) (SCIMUserInput_ExternalID input)
    (SCIMUserInput_UserName input) (SCIMUserInput_DisplayName input) (SCIMUserInput_Emails input)
    (SCIMUserInput_Attributes input) (SCIMUserInput_Active input) at_ at_ None.

(** [Manager.ProvisionSCIMUser] *)
Definition Manager_ProvisionSCIMUser (principal : SCIMAuthentication) (input : SCIMUserInput) :
    M World SCIMUser :=
  configuration ← scimConfigurationForPrincipal principal;
  normalized ← lift_result (normalizeSCIMUserInput input true);
  let '(input, primaryEmail) := normalized in
  userID ← newID;
  emailID ← newID;
  linkID ← newID;
  now_ ← now;
  let workspaceID := SCIMConfiguration_WorkspaceID configuration in
  let user := new_user userID primaryEmail (SCIMUserInput_DisplayName input) None now_ in
  let email := new_primary_email emailID userID primaryEmail now_
    <| EmailAddress_VerifiedAt := if SCIMConfiguration_TrustDirectoryEmails configuration
                                  then Some now_ else None |> in
  let membership := new_membership workspaceID userID (SCIMConfiguration_DefaultRole configuration)
    (membership_status (SCIMUserInput_Active input)) now_ now_
    <| Membership_ProvisioningSource := UUID_String (SCIMConfiguration_ID configuration) |> in
  let link := new_link linkID (SCIMConfiguration_ID configuration) userID input now_ in
  _ ← commit_service principal workspaceID "scim.user.provision" "scim_user" (UUID_String linkID)
    EventSCIMUserProvisioned (λ meta, ApplySCIMUserProvision meta link)
    (λ commit ctx, CreateSCIMUser ctx user email membership link commit);
  mret link.

(** [Manager.AdoptSCIMUser] *)
Definition Manager_AdoptSCIMUser (actor : Authentication) (configurationID userID : UUID)
    (input : SCIMUserInput) : M World SCIMUser :=
  configuration ← requireSCIMAdmin actor configurationID "scim.user.adopt";
  normalized ← lift_result (normalizeSCIMUserInput input false);
  let input := normalized.1 in
  _ ← call (λ ctx, UserByID ctx userID);
  let workspaceID := SCIMConfiguration_WorkspaceID configuration in
  membership ← call (λ ctx, Membership_ ctx workspaceID userID);
  throw_if (negb (bool_decide (Membership_ProvisioningSource membership = ProvisioningSourceLocal))) ErrConflict;;
  linkID ← newID;
  now_ ← now;
  let link := new_link linkID (SCIMConfiguration_ID configuration) userID input now_ in
  let membership := membership
    <| Membership_ProvisioningSource := UUID_String (SCIMConfiguration_ID configuration) |>
    <| Membership_Status := membership_status (SCIMUserInput_Active input) |>
    <| Membership_UpdatedAt := now_ |> in
  commit_change actor workspaceID "scim.user.adopt" "scim.user.adopt" "scim_user" (UUID_String linkID)
    EventSCIMUserProvisioned (λ meta, ApplySCIMUserProvision meta link)
    (λ commit ctx, AdoptSCIMUser ctx membership link commit);;
  mret link.

(** [Manager.commitSCIMUserUpdate] *)
Definition commitSCIMUserUpdate (principal : SCIMAuthentication) (configuration : SCIMConfiguration)
    (user : SCIMUser) (membership : Membership) (name : EventName) (revokeWorkspacePATs : bool) :
    M World SCIMUser :=
  let deprovisioned := bool_decide (name = EventSCIMUserDeprovisioned) in
  let action := if deprovisioned then "scim.user.deprovision" else "scim.user.update" in
  _ ← commit_service principal (SCIMConfiguration_WorkspaceID configuration) action "scim_user"
    (UUID_String (SCIMUser_ID user)) name
    (λ meta, if deprovisioned then ApplySCIMUserDeprovision meta user else ApplySCIMUserUpdate meta user)
    (λ commit ctx, UpdateSCIMUser ctx user membership revokeWorkspacePATs commit);
  mret user.

(** [Manager.ReplaceSCIMUser] *)
Definition Manager_ReplaceSCIMUser (principal : SCIMAuthentication) (id : UUID) (input : SCIMUserInput) :
    M World SCIMUser :=
  configuration ← scimConfigurationForPrincipal principal;
  normalized ← lift_result (normalizeSCIMUserInput input false);
  let input := normalized.1 in
  current ← call (λ ctx, SCIMUser_ ctx (SCIMConfiguration_ID configuration) id);
  membership ← managed_membership configuration (SCIMUser_UserID current);
  now_ ← now;
  let active := SCIMUserInput_Active input in
  let updated := current <| SCIMUser_ExternalID := SCIMUserInput_ExternalID input |>
    <| SCIMUser_UserName := SCIMUserInput_UserName input |>
    <| SCIMUser_DisplayName := SCIMUserInput_DisplayName input |>
    <| SCIMUser_Schemas := SCIMUserInput_Schemas input |> <| SCIMUser_Emails := SCIMUserInput_Emails input |>
    <| SCIMUser_Attributes := SCIMUserInput_Attributes input |> <| SCIMUser_Active := active |>
    <| SCIMUser_UpdatedAt := now_ |> <| SCIMUser_DeprovisionedAt := None |> in
  let membership := membership <| Membership_Status := membership_status active |>
    <| Membership_UpdatedAt := now_ |> in
  let name := if negb (SCIMUser_Active current) && active then EventSCIMUserActivated
              else if SCIMUser_Active current && negb active then EventSCIMUserSuspended
              else EventSCIMUserUpdated in
  commitSCIMUserUpdate principal configuration updated membership name false.

(** [Manager.DeprovisionSCIMUser] *)
Definition Manager_DeprovisionSCIMUser (principal : SCIMAuthentication) (id : UUID) : M World unit :=
  configuration ← scimConfigurationForPrincipal principal;
  found ← attempt (call (λ ctx, SCIMUser_ ctx (SCIMConfiguration_ID configuration) id));
  match found with
  | Error e => if errors_Is e ErrNotFound then mret tt else throw e
  | Ok current =>
      if not_nil (SCIMUser_DeprovisionedAt current) then mret tt
      else
        membership ← managed_membership configuration (SCIMUser_UserID current);
        now_ ← now;
        let current := current <| SCIMUser_Active := false |> <| SCIMUser_UpdatedAt := now_ |>
          <| SCIMUser_DeprovisionedAt := Some now_ |> in
        let membership := membership <| Membership_Status := MembershipSuspended |>
          <| Membership_UpdatedAt := now_ |> in
        _ ← commitSCIMUserUpdate principal configuration current membership EventSCIMUserDeprovisioned true;
        mret tt
  end.

(** [Manager.SCIMUser] *)
Definition Manager_SCIMUser (principal : SCIMAuthentication) (id : UUID) : M World SCIMUser :=
  configuration ← scimConfigurationForPrincipal principal;
  call (λ ctx, SCIMUser_ ctx (SCIMConfiguration_ID configuration) id).

(** The filtered listings of the directory. *)
Definition scim_listing {T} (principal : SCIMAuthentication) (page : PageRequest) (valid : bool)
    (message : string) (f : UUID → PageRequest → Context → M Store (Stream (PageEvent T))) :
    M World (Stream (PageEvent T)) :=
  r ← attempt (configuration ← scimConfigurationForPrincipal principal;
        page ← lift_result (normalizePage page);
        throw_if (negb valid) (Wrapped message ErrInvalidInput);;
        mret (SCIMConfiguration_ID configuration, page));
  match r with
  | Error e => mret (errorSeq e)
  | Ok (configurationID, page) => call (f configurationID page)
  end.

(** [Manager.SCIMUsers] *)
Definition Manager_SCIMUsers (principal : SCIMAuthentication) (filter : SCIMFilter) (page : PageRequest)
    (during : nat → Context) : M World (Stream (PageEvent SCIMUser)) :=
  scim_listing principal page (validSCIMFilter filter true) "unsupported SCIM user filter"
    (λ configurationID page ctx,
       SCIMUsers (m_unicode_ToLower m) ctx during configurationID filter page).

(** ** Groups *)

(** The members whose role a change of a group can move. *)
Fixpoint regrouped_members (configuration : SCIMConfiguration) (groups : list SCIMGroup)
    (affected : list UUID) : M World (list Membership) :=
  match affected with
  | [] => mret []
  | linkID :: affected' =>
      link ← call (λ ctx, SCIMUser_ ctx (SCIMConfiguration_ID configuration) linkID);
      membership ← managed_membership configuration (SCIMUser_UserID link);
      role ← lift_result (scimRoleForUser configuration groups linkID);
      now_ ← now;
      rest ← regrouped_members configuration groups affected';
      mret (membership <| Membership_Role := role |> <| Membership_UpdatedAt := now_ |> :: rest)
  end.

(** [Manager.scimMembershipsForGroupChange] *)
Definition scimMembershipsForGroupChange (configuration : SCIMConfiguration) (replacement : SCIMGroup)
    (deleted : bool) (priorMembers : list UUID) : M World (list Membership) :=
  groups ← allSCIMGroups (SCIMConfiguration_ID configuration);
  regrouped_members configuration (replace_group replacement deleted groups)
    (sorted_ids (priorMembers ++ SCIMGroup_MemberIDs replacement)).

(** Every member of the input is a user of the connection. *)
Fixpoint known_members (configurationID : UUID) (members : list UUID) : M World unit :=
  match members with
  | [] => mret tt
  | memberID :: members' =>
      r ← attempt (call (λ ctx, SCIMUser_ ctx configurationID memberID));
      (match r with
       | Ok member => throw_if (not_nil (SCIMUser_DeprovisionedAt member))
                        (Wrapped "unknown SCIM group member" ErrInvalidInput)
       | Error _ => throw (Wrapped "unknown SCIM group member" ErrInvalidInput)
       end);;
      known_members configurationID members'
  end.

(** [Manager.UpsertSCIMGroup] *)
Definition Manager_UpsertSCIMGroup (principal : SCIMAuthentication) (id : UUID) (input : SCIMGroupInput) :
    M World SCIMGroup :=
  let operation := "scim.group.upsert" in
  configuration ← scimConfigurationForPrincipal principal;
  input ← lift_result (normalizeSCIMGroupInput input);
  let configurationID := SCIMConfiguration_ID configuration in
  let workspaceID := SCIMConfiguration_WorkspaceID configuration in
  looked ← attempt (call (λ ctx, SCIMGroup_ ctx configurationID id));
  let created := bool_decide (id = Nil) in
  current ← (if created then
               id ← newID;
               now_ ← now;
               mret (SCIMGroup_zero <| SCIMGroup_ID := id |>
                       <| SCIMGroup_ConfigurationID := configurationID |> <| SCIMGroup_CreatedAt := now_ |>)
             else lift_result looked);
  known_members configurationID (SCIMGroupInput_MemberIDs input);;
  now_ ← now;
  let group := current <| SCIMGroup_ExternalID := SCIMGroupInput_ExternalID input |>
    <| SCIMGroup_DisplayName := SCIMGroupInput_DisplayName input |>
    <| SCIMGroup_MemberIDs := SCIMGroupInput_MemberIDs input |> <| SCIMGroup_UpdatedAt := now_ |>
    <| SCIMGroup_DeletedAt := None |> in
  let membersChanged := negb (bool_decide (SCIMGroup_MemberIDs current = SCIMGroup_MemberIDs group)) in
  memberships ← scimMembershipsForGroupChange configuration group false (SCIMGroup_MemberIDs current);
  audit ← commit_service principal workspaceID operation "scim_group" (UUID_String (SCIMGroup_ID group))
    (if created then EventSCIMGroupCreated else EventSCIMGroupUpdated)
    (λ meta, ApplySCIMGroupUpsert meta group)
    (λ commit ctx, UpsertSCIMGroup ctx group memberships commit);
  (if membersChanged
   then emit_new EventSCIMGroupMembersChanged operation (SCIMAuthentication_CredentialID principal)
          workspaceID audit
   else mret tt);;
  mret group.

(** [Manager.DeleteSCIMGroup] *)
Definition Manager_DeleteSCIMGroup (principal : SCIMAuthentication) (id : UUID) : M World unit :=
  configuration ← scimConfigurationForPrincipal principal;
  found ← attempt (call (λ ctx, SCIMGroup_ ctx (SCIMConfiguration_ID configuration) id));
  match found with
  | Error e => if errors_Is e ErrNotFound then mret tt else throw e
  | Ok group =>
      memberships ← scimMembershipsForGroupChange configuration group true (SCIMGroup_MemberIDs group);
      now_ ← now;
      let group := group <| SCIMGroup_DeletedAt := Some now_ |> <| SCIMGroup_UpdatedAt := now_ |> in
      _ ← commit_service principal (SCIMConfiguration_WorkspaceID configuration) "scim.group.delete"
        "scim_group" (UUID_String (SCIMGroup_ID group)) EventSCIMGroupDeleted
        (λ meta, ApplySCIMGroupDelete meta group)
        (λ commit ctx, DeleteSCIMGroup ctx group memberships commit);
      mret tt
  end.

(** [Manager.SCIMGroup] *)
Definition Manager_SCIMGroup (principal : SCIMAuthentication) (id : UUID) : M World SCIMGroup :=
  configuration ← scimConfigurationForPrincipal principal;
  call (λ ctx, SCIMGroup_ ctx (SCIMConfiguration_ID configuration) id).

(** [Manager.SCIMGroups] *)
Definition Manager_SCIMGroups (principal : SCIMAuthentication) (filter : SCIMFilter) (page : PageRequest)
    (during : nat → Context) : M World (Stream (PageEvent SCIMGroup)) :=
  scim_listing principal page (validSCIMFilter filter false) "unsupported SCIM group filter"
    (λ configurationID page ctx, SCIMGroups ctx during configurationID filter page).

End scim.
