(* ===== verification/OAuthPolicy.v ===== *)
(** * OAuth validation rules (src/oauth.go, src/oauth_tokens.go, src/oauth_types.go)

    URLs of issuers, resources, clients and redirections, scopes, flows, the
    policy of an issuer, the hash of a client's metadata, PKCE. *)
From stdpp Require Import base gmap sets list strings numbers sorting.
From Stdlib Require Import ZArith Lia Ascii.
From S2P Require Import Prelude Bytes GoText GoNet GoUrl GoJson GoTime GoEncoding Uuid Types OAuthTypes Roles Store StoreOAuth StorePages Tokens Events Manager Config.

(** ** Constants *)
Definition OAuthCIMDDisabled : OAuthCIMDMode := "disabled".
Definition OAuthCIMDAllowlist : OAuthCIMDMode := "allowlist".
Definition OAuthCIMDPublicWeb : OAuthCIMDMode := "public_web".
Definition OAuthDCRDisabled : OAuthDCRMode := "disabled".
Definition OAuthDCRProtected : OAuthDCRMode := "protected".
Definition OAuthClientPreRegistered : OAuthClientSource := "pre_registered".
Definition OAuthClientCIMD : OAuthClientSource := "cimd".
Definition OAuthApplicationWeb : OAuthApplicationType := "web".
Definition OAuthApplicationNative : OAuthApplicationType := "native".
Definition OAuthAuthNone : OAuthTokenEndpointAuthMethod := "none".
Definition OAuthAuthPrivateKeyJWT : OAuthTokenEndpointAuthMethod := "private_key_jwt".
Definition OAuthAuthClientSecretBasic : OAuthTokenEndpointAuthMethod := "client_secret_basic".

Definition defaultOAuthCodeTTL : Z := 5 * Minute.
Definition defaultOAuthAccessTokenTTL : Z := 15 * Minute.
Definition defaultOAuthRefreshTTL : Z := 30 * 24 * Hour.
Definition maxOAuthCodeTTL : Z := 10 * Minute.
Definition maxOAuthAccessTokenTTL : Z := Hour.
Definition maxOAuthRefreshTTL : Z := 90 * 24 * Hour.

Definition empty_string (s : string) : bool := bool_decide (s = EmptyString).
Definition contains (l : list string) (s : string) : bool := bool_decide (s ∈ l).
Definition sorted_unique (l : list string) : list string := slices_Compact (merge_sort str_le l).

(** ** Patterns *)

(** [^[A-Za-z0-9][A-Za-z0-9._~+:/-]{0,127}$] *)
Definition oauthScopePattern (s : string) : bool :=
  match s with
  | EmptyString => false
  | String a s' =>
      is_alphanumeric a && bool_decide (str_len s' ≤ 127) &&
      forallb (λ c, is_alphanumeric c || one_of "._~+:/-" c) (bytes_of s')
  end.
(** [^[A-Za-z0-9._~-]{43,128}$] *)
Definition pkceVerifierPattern (s : string) : bool :=
  bool_decide (43 ≤ str_len s ≤ 128) &&
  forallb (λ c, is_alphanumeric c || one_of "._~-" c) (bytes_of s).

(** ** Scopes *)
Definition reserved_scopes : list string := ["openid"; "profile"; "email"; "offline_access"].
Definition oauthReservedScope (scope : string) : bool := contains reserved_scopes scope.

Definition oauthReservedScopeDescription (scope : string) : string :=
  if bool_decide (scope = "openid") then "Identify the signed-in user"
  else if bool_decide (scope = "profile") then "Read the user's basic profile"
  else if bool_decide (scope = "email") then "Read the user's primary email address"
  else if bool_decide (scope = "offline_access") then "Keep access when the user is not present"
  else scope.

Definition oauthScopeDefinition (definitions : list OAuthScopeDefinition) (name : string) :
    option OAuthScopeDefinition :=
  snd <$> list_find (λ d, OAuthScopeDefinition_Name d = name) definitions.

Fixpoint valid_scopes (scopes : list string) : result (list string) :=
  match scopes with
  | [] => Ok []
  | scope :: scopes' =>
      let scope := TrimSpace scope in
      _ ← invalid_when (negb (oauthScopePattern scope)) "invalid OAuth scope";
      rest ← valid_scopes scopes';
      Ok (scope :: rest)
  end.
Definition normalizeOptionalOAuthScopes (scopes : list string) : result (list string) :=
  _ ← invalid_when (bool_decide (100 < length scopes)) "too many OAuth scopes";
  result ← valid_scopes scopes;
  Ok (sorted_unique result).

Definition scopesSubset (requested available : list string) : bool :=
  forallb (contains available) requested.

(** [clientCredentialsScopes] *)
Definition client_scope_allowed (client : OAuthClient) (resource : OAuthProtectedResource) (scope : string) :
    bool :=
  negb (oauthReservedScope scope) &&
  not_nil (oauthScopeDefinition (OAuthProtectedResource_Scopes resource) scope) &&
  contains (OAuthClient_Scopes client) scope.
Fixpoint requested_scopes (allowed : string → bool) (requested : list string) : result (list string) :=
  match requested with
  | [] => Ok []
  | scope :: rest =>
      let scope := TrimSpace scope in
      if negb (allowed scope) then Error ErrForbidden
      else granted ← requested_scopes allowed rest; Ok (scope :: granted)
  end.
Definition clientCredentialsScopes (client : OAuthClient) (resource : OAuthProtectedResource)
    (requested : list string) : result (list string) :=
  let allowed := client_scope_allowed client resource in
  match requested with
  | [] => Ok (List.filter allowed (OAuthScopeDefinition_Name <$> OAuthProtectedResource_Scopes resource))
  | _ => requested_scopes allowed requested
  end.

(** [normalizeOAuthScopeDefinitions]; [seen] are the names so far *)
Definition normalize_definition (known : gset WorkspacePermission) (seen : list string)
    (definition : OAuthScopeDefinition) : result OAuthScopeDefinition :=
  let name := TrimSpace (OAuthScopeDefinition_Name definition) in
  let description := TrimSpace (OAuthScopeDefinition_Description definition) in
  _ ← invalid_when (negb (oauthScopePattern name) || oauthReservedScope name || empty_string description ||
               bool_decide (500 < str_len description)) "invalid OAuth scope definition";
  _ ← invalid_when (contains seen name) "duplicate OAuth scope";
  let minimum := if bool_decide (OAuthScopeDefinition_MinimumAAL definition = 0%Z) then AAL1
                 else OAuthScopeDefinition_MinimumAAL definition in
  _ ← invalid_when ((negb (bool_decide (minimum = AAL1)) && negb (bool_decide (minimum = AAL2))) ||
               bool_decide (OAuthScopeDefinition_MaxAuthAge definition < 0)%Z)
        "invalid OAuth scope assurance policy";
  let permissions := uniqueWorkspacePermissions (OAuthScopeDefinition_Permissions definition) in
  _ ← invalid_when (bool_decide (permissions = [])) "OAuth scopes require workspace permissions";
  _ ← invalid_when (negb (forallb (λ p, bool_decide (p ∈ known)) permissions))
        "OAuth scope references an unknown workspace permission";
  Ok (mkOAuthScopeDefinition name description permissions minimum
        (OAuthScopeDefinition_MaxAuthAge definition)).
Fixpoint normalized_definitions (known : gset WorkspacePermission) (seen : list string)
    (input : list OAuthScopeDefinition) : result (list OAuthScopeDefinition) :=
  match input with
  | [] => Ok []
  | definition :: input' =>
      definition ← normalize_definition known seen definition;
      rest ← normalized_definitions known (OAuthScopeDefinition_Name definition :: seen) input';
      Ok (definition :: rest)
  end.
Definition definition_le (a b : OAuthScopeDefinition) : Prop :=
  str_le (OAuthScopeDefinition_Name a) (OAuthScopeDefinition_Name b).
#[export] Instance definition_le_dec : RelDecision definition_le := λ a b, str_le_dec _ _.
Definition normalizeOAuthScopeDefinitions (known : gset WorkspacePermission)
    (input : list OAuthScopeDefinition) : result (list OAuthScopeDefinition) :=
  _ ← invalid_when (bool_decide (input = []) || bool_decide (100 < length input))
        "at least one and at most 100 OAuth scopes are required";
  result ← normalized_definitions known [] input;
  Ok (merge_sort definition_le result).

(** ** Flows *)
Definition flow_grants : list string := ["authorization_code"; "refresh_token"; "client_credentials"].
Definition normalizeOAuthFlowMetadata (grants responses : list string) :
    result (list string * list string) :=
  let grants := sorted_unique (if bool_decide (grants = []) then ["authorization_code"] else grants) in
  let responses := sorted_unique (if bool_decide (responses = []) then ["code"] else responses) in
  _ ← invalid_when (negb (forallb (contains flow_grants) grants)) "unsupported OAuth grant type";
  let hasCode := contains grants "authorization_code" in
  _ ← invalid_when (negb hasCode && negb (contains grants "client_credentials"))
        "at least one of authorization_code or client_credentials is required";
  _ ← invalid_when (hasCode && negb (bool_decide (responses = ["code"])))
        "authorization_code requires response type code";
  Ok (grants, responses).

(** ** URLs *)
Definition TrimSuffix (suffix : ascii) (s : string) : string :=
  match rev (bytes_of s) with
  | a :: r => if bool_decide (a = suffix) then of_bytes (rev r) else s
  | [] => s
  end.

Definition bad_url_text (raw : string) : bool :=
  empty_string raw || negb (bool_decide (raw = TrimSpace raw)) || bool_decide (2048 < str_len raw).

(** [validatePublicHTTPSURL] *)
Definition validatePublicHTTPSURL (raw : string) (requirePath : bool) : result URL :=
  _ ← invalid_when (bad_url_text raw) "invalid HTTPS URL";
  match url_Parse raw with
  | None => Error (Wrapped "invalid HTTPS URL" ErrInvalidInput)
  | Some value =>
      _ ← invalid_when (negb (bool_decide (URL_Scheme value = "https")) || empty_string (URL_Host value) ||
                   URL_User value || negb (empty_string (URL_Fragment value))) "invalid HTTPS URL";
      _ ← invalid_when (requirePath && (empty_string (EscapedPath value) || bool_decide (EscapedPath value = "/")))
            "HTTPS URL requires a non-root path";
      Ok value
  end.

(** An HTTPS URL without a query, or the given message. *)
Definition without_query (raw : string) (requirePath : bool) (message : string) : result URL :=
  match validatePublicHTTPSURL raw requirePath with
  | Error _ => Error (Wrapped message ErrInvalidInput)
  | Ok value => _ ← invalid_when (negb (empty_string (URL_RawQuery value))) message; Ok value
  end.
Definition validateIssuerURL (raw : string) : result string :=
  value ← without_query raw false "issuer must be an HTTPS URL without query or fragment";
  Ok (TrimSuffix "/" (URL_String value)).
Definition validateResourceURL (raw : string) : result string :=
  value ← without_query raw false "resource must be an HTTPS URL without query or fragment";
  Ok (URL_String value).

Definition bad_segment (segment : string) : bool :=
  match PathUnescape segment with
  | None => true
  | Some decoded =>
      bool_decide (decoded = ".") || bool_decide (decoded = "..") || contains_byte "/" decoded ||
      contains_byte "\" decoded
  end.
Definition validateCIMDClientID (raw : string) : result URL :=
  value ← without_query raw true "invalid Client Identifier URL";
  let path := EscapedPath value in
  _ ← invalid_when (existsb bad_segment (Split "/" path)) "invalid Client Identifier URL path";
  _ ← invalid_when (negb (bool_decide (path_Clean path = path))) "non-canonical Client Identifier URL path";
  Ok value.

(** [normalizeClientCredentialsResources] *)
Fixpoint resource_urls (found raw : list string) : result (list string) :=
  match raw with
  | [] => Ok found
  | entry :: raw' =>
      match validateResourceURL entry with
      | Error _ => Error (Wrapped "invalid client_credentials resource" ErrInvalidInput)
      | Ok value => resource_urls (if contains found value then found else found ++ [value]) raw'
      end
  end.
Definition normalizeClientCredentialsResources (raw : list string) : result (list string) :=
  _ ← invalid_when (bool_decide (32 < length raw)) "at most 32 client_credentials resources";
  result ← resource_urls [] raw;
  Ok (merge_sort str_le result).

(** [isLocalhostName]: equal under case folding *)
Definition isLocalhostName (host : string) : bool := is_field "localhost" (string_Z host).
Definition isLoopbackRedirectHost (host : string) : bool := isLocalhostName host || is_loopback host.

Definition redirect_uri (applicationType : OAuthApplicationType) (raw : string) : result unit :=
  _ ← invalid_when (bad_url_text raw) "invalid redirect URI";
  match url_Parse raw with
  | None => Error (Wrapped "invalid redirect URI" ErrInvalidInput)
  | Some value =>
      _ ← invalid_when (empty_string (URL_Host value) || URL_User value || negb (empty_string (URL_Fragment value)))
            "invalid redirect URI";
      let https := bool_decide (URL_Scheme value = "https") in
      if bool_decide (applicationType = OAuthApplicationWeb)
      then invalid_when (negb https) "web redirect URIs require HTTPS"
      else invalid_when (negb https && (negb (bool_decide (URL_Scheme value = "http")) ||
                                   negb (isLoopbackRedirectHost (Hostname value))))
             "native HTTP redirects require a loopback host"
  end.
Definition normalizeRedirectURIs (applicationType : OAuthApplicationType) (input : list string) :
    result (list string) :=
  _ ← invalid_when (bool_decide (input = []) || bool_decide (20 < length input))
        "between one and 20 redirect URIs are required";
  _ ← each (redirect_uri applicationType) input;
  let result := sorted_unique input in
  _ ← invalid_when (negb (bool_decide (length result = length input))) "duplicate redirect URI";
  Ok result.

(** ** The hash of a client's metadata *)
Fixpoint join_texts (l : list (list Z)) : list Z :=
  match l with
  | [] => []
  | [t] => t
  | t :: l' => t ++ [44%Z] ++ join_texts l'
  end.
Definition strings_json (l : list string) : list Z := 91%Z :: join_texts (json_quote <$> l) ++ [93%Z].

(** [json.Marshal] of a [json.RawMessage]: white space outside strings is
    dropped, and the bytes HTML treats specially are escaped. *)
Fixpoint json_compact (in_string escaped : bool) (l : list Z) : list Z :=
  match l with
  | [] => []
  | c :: l' =>
      let quote := bool_decide (c = 34%Z) in
      let within := if in_string then escaped || negb quote else quote in
      let next := in_string && negb escaped && bool_decide (c = 92%Z) in
      if negb in_string && is_json_space c then json_compact false false l'
      else if bool_decide (c ∈ [60; 62; 38]%Z) then u_escape c ++ json_compact within next l'
      else match l' with
           | 128%Z :: 168%Z :: l'' =>
               if bool_decide (c = 226%Z) then u_escape 0x2028 ++ json_compact within next l''
               else c :: json_compact within next l'
           | 128%Z :: 169%Z :: l'' =>
               if bool_decide (c = 226%Z) then u_escape 0x2029 ++ json_compact within next l''
               else c :: json_compact within next l'
           | _ => c :: json_compact within next l'
           end
  end.
(** An empty slice is nil. *)
Definition raw_message (s : string) : option (list Z) :=
  if empty_string s then Some (string_Z "null")
  else if json_Valid s then Some (json_compact false false (string_Z s)) else None.

Definition oauth_client_json (client : OAuthClient) : option string :=
  jwks ← raw_message (OAuthClient_JWKS client);
  Some (Z_string (object_text
    [("ClientID", json_quote (OAuthClient_ClientID client));
     ("Name", json_quote (OAuthClient_Name client));
     ("ApplicationType", json_quote (OAuthClient_ApplicationType client));
     ("AuthMethod", json_quote (OAuthClient_TokenEndpointAuthMethod client));
     ("JWKSURI", json_quote (OAuthClient_JWKSURI client));
     ("SectorIdentifier", json_quote (OAuthClient_SectorIdentifier client));
     ("RedirectURIs", strings_json (OAuthClient_RedirectURIs client));
     ("GrantTypes", strings_json (OAuthClient_GrantTypes client));
     ("ResponseTypes", strings_json (OAuthClient_ResponseTypes client));
     ("Scopes", strings_json (OAuthClient_Scopes client));
     ("ClientCredentialsResources", strings_json (OAuthClient_ClientCredentialsResources client));
     ("JWKS", jwks)])).
(** [oauthClientMetadataHash]; the error of [json.Marshal] is dropped. *)
Definition oauthClientMetadataHash (client : OAuthClient) : string :=
  sha256_Sum (default EmptyString (oauth_client_json client)).

(** [publicOAuthClient] *)
Definition publicOAuthClient (client : OAuthClient) : OAuthClient :=
  client <| OAuthClient_SecretDigest := EmptyString |>.

(** ** Proofs of possession and freshness *)
Definition validPKCEChallenge (challenge : string) : bool :=
  match base64_RawURL_DecodeString challenge with
  | Some decoded => bool_decide (str_len decoded = 32) && bool_decide (str_len challenge = 43)
  | None => false
  end.
Definition verifyPKCE (verifier expected : string) : bool :=
  bool_decide (base64_RawURL_EncodeToString (sha256_Sum verifier) = expected).
Definition freshAuthentication (now_ authenticatedAt maxAge : Z) : bool :=
  bool_decide (0 ≤ Time_Sub now_ authenticatedAt ≤ maxAge)%Z.

(** [parseOAuthBearer] accepts the shape [parsePAT] accepts. *)
Definition parseOAuthBearer (marker raw : string) : option string := parsePAT marker raw.

Section policy.
Context {E : Env}.
Abbreviation m := the_manager.

(** [normalizeHTTPSOrigin] *)
Definition normalizeHTTPSOrigin (raw : string) : result string :=
  match validatePublicHTTPSURL (TrimSuffix "/" (TrimSpace raw)) false with
  | Error _ => Error (Wrapped "invalid CIMD allowlist origin" ErrInvalidInput)
  | Ok value =>
      _ ← invalid_when (negb (empty_string (URL_Path value)) || negb (empty_string (URL_RawQuery value)))
            "invalid CIMD allowlist origin";
      Ok ("https://" +:+ ToLower (URL_Host value))
  end.
Fixpoint normalize_origins (l : list string) : result (list string) :=
  match l with
  | [] => Ok []
  | raw :: l' => origin ← normalizeHTTPSOrigin raw; rest ← normalize_origins l'; Ok (origin :: rest)
  end.

(** [issuerAllowsCIMD] *)
Definition issuerAllowsCIMD (issuer : OAuthIssuer) (clientURL : URL) : bool :=
  if bool_decide (OAuthIssuer_CIMDMode issuer = OAuthCIMDDisabled) then false
  else if bool_decide (OAuthIssuer_CIMDMode issuer = OAuthCIMDPublicWeb) then true
  else contains (OAuthIssuer_CIMDAllowedOrigins issuer) ("https://" +:+ ToLower (URL_Host clientURL)).

(** [oauthSectorIdentifier]; without OIDC the sector of several is the one
    the map yields first. *)
Fixpoint sectors_of (redirects : list string) (oidc : bool) (sectors : list string) :
    result (list string) :=
  match redirects with
  | [] => Ok sectors
  | raw :: redirects' =>
      match url_Parse raw with
      | None => Error (Wrapped "invalid redirect URI" ErrInvalidInput)
      | Some parsed =>
          let sector := ToLower (Hostname parsed) in
          if empty_string sector then
            _ ← invalid_when oidc "OIDC redirect URIs require a host for pairwise subjects";
            sectors_of redirects' oidc sectors
          else sectors_of redirects' oidc (if contains sectors sector then sectors else sectors ++ [sector])
      end
  end.
Definition oauthSectorIdentifier (redirects : list string) (oidc : bool) : M World string :=
  sectors ← lift_result (sectors_of redirects oidc []);
  throw_if (oidc && negb (bool_decide (length sectors = 1)))
    (Wrapped "OIDC clients require redirect URIs in one sector" ErrInvalidInput);;
  if bool_decide (sectors = []) then mret EmptyString
  else first ← map_first (length sectors); mret (nth first sectors EmptyString).

(** [Manager.normalizeOAuthIssuerPolicy] *)
Definition check_signer (signer : option OIDCSigner) (enabled : bool) : result unit :=
  if negb enabled then Ok tt
  else
    match signer with
    | None => Error (Wrapped "OIDC signer is required" ErrInvalidInput)
    | Some s =>
        _ ← invalid_when (bool_decide (oidc_Algorithms s = [])) "OIDC signer must advertise an algorithm";
        invalid_when (existsb (λ a, empty_string a || bool_decide (a = "none")) (oidc_Algorithms s))
          "invalid OIDC signing algorithm"
    end.
Definition registration_limit (dcr : OAuthDCRMode) (limit : Z) : result Z :=
  if bool_decide (dcr = OAuthDCROpen) then
    let limit := if bool_decide (limit = 0)%Z then 1000%Z else limit in
    _ ← invalid_when (bool_decide (limit < 1)%Z || bool_decide (100000 < limit)%Z)
          "open DCR registration limit must be between 1 and 100000";
    Ok limit
  else
    _ ← invalid_when (negb (bool_decide (limit = 0)%Z)) "open DCR registration limit requires open mode";
    Ok limit.
Definition lifetime (value default_ : Z) : Z := if bool_decide (value = 0)%Z then default_ else value.
Definition bad_lifetime (value max : Z) : bool := bool_decide (value ≤ 0)%Z || bool_decide (max < value)%Z.
Definition normalizeOAuthIssuerPolicy (oauth : OAuthConfig) (input : UpdateOAuthIssuerInput) :
    result UpdateOAuthIssuerInput :=
  let or_default (mode default_ : string) := if empty_string mode then default_ else mode in
  let cimd := or_default (UpdateOAuthIssuerInput_CIMDMode input) OAuthCIMDDisabled in
  let dcr := or_default (UpdateOAuthIssuerInput_DCRMode input) OAuthDCRDisabled in
  let oidc := UpdateOAuthIssuerInput_OIDCEnabled input in
  let secrets := UpdateOAuthIssuerInput_DCRAllowClientSecrets input in
  _ ← invalid_when (negb (contains [OAuthCIMDDisabled; OAuthCIMDAllowlist; OAuthCIMDPublicWeb] cimd))
        "invalid CIMD mode";
  _ ← invalid_when (negb (contains [OAuthDCRDisabled; OAuthDCRProtected; OAuthDCROpen] dcr)) "invalid DCR mode";
  _ ← invalid_when (negb (bool_decide (dcr = OAuthDCRProtected)) && secrets)
        "client secrets require protected DCR";
  limit ← registration_limit dcr (UpdateOAuthIssuerInput_DCROpenRegistrationLimit input);
  _ ← check_signer (OAuthConfig_OIDCSigner oauth) oidc;
  origins ← normalize_origins (UpdateOAuthIssuerInput_CIMDAllowedOrigins input);
  let origins := sorted_unique origins in
  _ ← invalid_when (bool_decide (cimd = OAuthCIMDAllowlist) && bool_decide (origins = []))
        "CIMD allowlist cannot be empty";
  let code := lifetime (UpdateOAuthIssuerInput_CodeTTL input) defaultOAuthCodeTTL in
  let access := lifetime (UpdateOAuthIssuerInput_AccessTokenTTL input) defaultOAuthAccessTokenTTL in
  let refresh := lifetime (UpdateOAuthIssuerInput_RefreshTokenTTL input) defaultOAuthRefreshTTL in
  _ ← invalid_when (bad_lifetime code maxOAuthCodeTTL || bad_lifetime access maxOAuthAccessTokenTTL ||
               bad_lifetime refresh maxOAuthRefreshTTL) "invalid OAuth token lifetime";
  Ok (mkUpdateOAuthIssuerInput oidc cimd origins dcr secrets limit code access refresh).

End policy.
