(* ===== verification/ManagerOAuth.v ===== *)
(** * The OAuth authorization server (src/oauth.go, src/oauth_events.go)

    Issuers, protected resources, client registration and resolution, and the
    consent ceremony up to the authorization code. *)
From stdpp Require Import base gmap sets list strings numbers.
From Stdlib Require Import ZArith Lia Ascii.
From S2P Require Import Prelude Bytes GoText GoUrl GoJson GoTime GoEncoding Uuid Types OAuthTypes Roles AuditChain Store StoreUsers StoreTokens StoreWorkspaces StoreOAuth StorePages Commit StoreSystem Tokens Events Manager ManagerGates Config ManagerEmail ManagerSeal OAuthPolicy.

(** ** The continuation of a consent *)
Record oauthAuthorizationContinuation := mkOAuthContinuation {
  consent_UserID : UUID;
  consent_ClientRecordID : UUID;
  consent_ResourceID : UUID;
  consent_RedirectURI : string;
  consent_Scopes : list string;
  consent_State : string;
  consent_CodeChallenge : string;
  consent_Nonce : string;
  consent_MetadataHash : option string;
  consent_AuthTime : Z;
  consent_AuthMethod : AuthMethod;
  consent_AAL : AssuranceLevel;
  consent_MaxAge : Z;
  consent_ExpiresAt : Z }.
#[export] Instance oauthAuthorizationContinuation_eta : Settable oauthAuthorizationContinuation := λ c,
  mkOAuthContinuation (consent_UserID c) (consent_ClientRecordID c) (consent_ResourceID c)
    (consent_RedirectURI c) (consent_Scopes c) (consent_State c) (consent_CodeChallenge c)
    (consent_Nonce c) (consent_MetadataHash c) (consent_AuthTime c) (consent_AuthMethod c)
    (consent_AAL c) (consent_MaxAge c) (consent_ExpiresAt c).
Definition consent_zero : oauthAuthorizationContinuation :=
  mkOAuthContinuation Nil Nil Nil EmptyString [] EmptyString EmptyString EmptyString None zero_time
    EmptyString 0 0 zero_time.

Definition consent_members (c : oauthAuthorizationContinuation) (authenticated expires : list Z) :
    list (string * list Z) :=
  [("uid", quoted (UUID_String (consent_UserID c)));
   ("cid", quoted (UUID_String (consent_ClientRecordID c)));
   ("rid", quoted (UUID_String (consent_ResourceID c)));
   ("redirect_uri", json_quote (consent_RedirectURI c));
   ("scopes", strings_json (consent_Scopes c));
   ("state", json_quote (consent_State c));
   ("code_challenge", json_quote (consent_CodeChallenge c))] ++
  (if empty_string (consent_Nonce c) then [] else [("nonce", json_quote (consent_Nonce c))]) ++
  (if empty_slice (consent_MetadataHash c) then []
   else [("metadata_hash", slice_json (consent_MetadataHash c))]) ++
  [("auth_time", quoted_text authenticated);
   ("auth_method", json_quote (consent_AuthMethod c));
   ("aal", string_Z (FormatInt (consent_AAL c)))] ++
  (if bool_decide (consent_MaxAge c = 0)%Z then []
   else [("max_age", string_Z (FormatInt (consent_MaxAge c)))]) ++
  [("exp", quoted_text expires)].
Definition consent_json (c : oauthAuthorizationContinuation) : option string :=
  authenticated ← MarshalTime (consent_AuthTime c);
  expires ← MarshalTime (consent_ExpiresAt c);
  Some (Z_string (object_text (consent_members c authenticated expires))).

(** An assignment to a field of type [[]string]; [null] elements keep the
    string of an earlier member of the same name. *)
Definition to_strings (v : json) (old : list string) : option (list string) :=
  match v with
  | JNull => Some []
  | JArray l => mapM (λ p, to_string p.2 (nth p.1 old EmptyString)) (zip (seq 0 (length l)) l)
  | _ => None
  end.
Definition assign_consent (key : list Z) (v : json) (c : oauthAuthorizationContinuation) :
    option oauthAuthorizationContinuation :=
  if is_field "uid" key then
    x ← to_text UnmarshalText v (consent_UserID c); Some (c <| consent_UserID := x |>)
  else if is_field "cid" key then
    x ← to_text UnmarshalText v (consent_ClientRecordID c); Some (c <| consent_ClientRecordID := x |>)
  else if is_field "rid" key then
    x ← to_text UnmarshalText v (consent_ResourceID c); Some (c <| consent_ResourceID := x |>)
  else if is_field "redirect_uri" key then
    x ← to_string v (consent_RedirectURI c); Some (c <| consent_RedirectURI := x |>)
  else if is_field "scopes" key then
    x ← to_strings v (consent_Scopes c); Some (c <| consent_Scopes := x |>)
  else if is_field "state" key then
    x ← to_string v (consent_State c); Some (c <| consent_State := x |>)
  else if is_field "code_challenge" key then
    x ← to_string v (consent_CodeChallenge c); Some (c <| consent_CodeChallenge := x |>)
  else if is_field "nonce" key then
    x ← to_string v (consent_Nonce c); Some (c <| consent_Nonce := x |>)
  else if is_field "metadata_hash" key then
    x ← to_slice v (consent_MetadataHash c); Some (c <| consent_MetadataHash := x |>)
  else if is_field "auth_time" key then
    x ← to_time v (consent_AuthTime c); Some (c <| consent_AuthTime := x |>)
  else if is_field "auth_method" key then
    x ← to_string v (consent_AuthMethod c); Some (c <| consent_AuthMethod := x |>)
  else if is_field "aal" key then
    x ← to_uint8 v (consent_AAL c); Some (c <| consent_AAL := x |>)
  else if is_field "max_age" key then
    x ← to_int64 v (consent_MaxAge c); Some (c <| consent_MaxAge := x |>)
  else if is_field "exp" key then
    x ← to_time v (consent_ExpiresAt c); Some (c <| consent_ExpiresAt := x |>)
  else Some c.
Definition consent_unmarshal (payload : string) : option oauthAuthorizationContinuation :=
  v ← json_parse payload; json_struct assign_consent consent_zero v.

Section oauth.
Context {E : Env}.
Abbreviation m := the_manager.

(** ** Shared steps *)

(** [Manager.requireOAuth]; [New] refuses the configuration of a store without
    the capability. *)
Definition requireOAuth : M World OAuthConfig := ok_or (m_oauth m) ErrNotSupported.

(** [if err != nil || bad { return err }] after a lookup *)
Definition lookup_valid {A} (f : Context → M Store A) (bad : A → bool) (err : error) : M World A :=
  r ← attempt (call f);
  match r with
  | Ok a => throw_if (bad a) err;; mret a
  | Error _ => throw err
  end.

(** [Manager.oauthDigest] *)
Definition oauthDigest (oauth : OAuthConfig) (purpose raw : string) : string :=
  digest (OAuthConfig_Pepper oauth) (purpose +:+ String Ascii.zero raw).

(** [Manager.newOAuthBearer] *)
Definition newOAuthBearer (marker : string) : M World (string * string) :=
  prefixBytes ← randomBytes 6;
  secret ← randomBytes 32;
  let prefix := hex_Encode prefixBytes in
  mret (prefix, token_text marker prefix secret).

(** [Manager.newOAuthChange] *)
Definition newOAuthChange (name : EventName) (operation : string) (audit : AuditEvent)
    (client : OAuthClient) (grantID tokenID resourceID workspaceID : UUID) (scopes : list string) :
    M World (EventMeta * Commit) :=
  meta ← newEventMeta name operation (AuditEvent_ActorID audit) workspaceID audit;
  mret (meta, transactionalCommit audit
    (ApplyOAuthChange meta (OAuthClient_IssuerID client) (OAuthClient_ID client) (OAuthClient_Source client)
       grantID tokenID resourceID scopes)).

(** [Manager.emitOAuthChange] *)
Definition emitOAuthChange (change : EventMeta) : M World unit := emit change.

(** The change of a client alone, the call with the instant read just before. *)
Definition commit_client (name : EventName) (operation : string) (audit : AuditEvent)
    (client : OAuthClient) (scopes : list string) (f : Z → Commit → Context → M Store unit) : M World unit :=
  change ← newOAuthChange name operation audit client Nil Nil Nil Nil scopes;
  at_ ← now;
  mapped operation (call (f at_ change.2));;
  emitOAuthChange change.1.

(** The gates of the operations on the instance's settings. *)
Definition settings_gate (actor : Authentication) (request : TrustedRequest) (operation : string) :
    M World unit :=
  AuthorizeAdmin actor PermissionSettingsWrite;;
  requireAdminMutation actor request operation.

(** An identifier that is not a UUIDv7 is refused. *)
Definition require_v7 (id : UUID) (message : string) : M World unit :=
  throw_if (negb (validUUIDv7 id)) (Wrapped message ErrInvalidInput).

(** ** Issuers and resources *)

(** [Manager.CreateOAuthIssuer] *)
Definition Manager_CreateOAuthIssuer (actor : Authentication) (request : TrustedRequest)
    (input : CreateOAuthIssuerInput) : M World OAuthIssuer :=
  oauth ← requireOAuth;
  settings_gate actor request "oauth.issuer.create";;
  issuerURL ← lift_result (validateIssuerURL (CreateOAuthIssuerInput_Issuer input));
  policy ← lift_result (normalizeOAuthIssuerPolicy oauth (mkUpdateOAuthIssuerInput
    (CreateOAuthIssuerInput_OIDCEnabled input) (CreateOAuthIssuerInput_CIMDMode input)
    (CreateOAuthIssuerInput_CIMDAllowedOrigins input) (CreateOAuthIssuerInput_DCRMode input)
    (CreateOAuthIssuerInput_DCRAllowClientSecrets input)
    (CreateOAuthIssuerInput_DCROpenRegistrationLimit input) (CreateOAuthIssuerInput_CodeTTL input)
    (CreateOAuthIssuerInput_AccessTokenTTL input) (CreateOAuthIssuerInput_RefreshTokenTTL input)));
  id ← newID;
  now_ ← now;
  let issuer := mkOAuthIssuer id issuerURL (UpdateOAuthIssuerInput_OIDCEnabled policy)
    (UpdateOAuthIssuerInput_CIMDMode policy) (UpdateOAuthIssuerInput_CIMDAllowedOrigins policy)
    (UpdateOAuthIssuerInput_DCRMode policy) (UpdateOAuthIssuerInput_DCRAllowClientSecrets policy)
    (UpdateOAuthIssuerInput_DCROpenRegistrationLimit policy) (UpdateOAuthIssuerInput_CodeTTL policy)
    (UpdateOAuthIssuerInput_AccessTokenTTL policy) (UpdateOAuthIssuerInput_RefreshTokenTTL policy)
    now_ now_ None in
  audit ← newAudit (Authentication_UserID actor) "oauth.issuer.create" "oauth_issuer" (UUID_String id) Nil
    AuditSucceeded EmptyString;
  mapped "oauth.issuer.create" (call (λ ctx, CreateOAuthIssuer ctx issuer (audit_commit audit)));;
  mret issuer.

(** [Manager.UpdateOAuthIssuer] *)
Definition Manager_UpdateOAuthIssuer (actor : Authentication) (request : TrustedRequest)
    (issuerID : UUID) (input : UpdateOAuthIssuerInput) : M World OAuthIssuer :=
  oauth ← requireOAuth;
  settings_gate actor request "oauth.issuer.update";;
  require_v7 issuerID "invalid OAuth issuer id";;
  issuer ← call (λ ctx, OAuthIssuerByID ctx issuerID);
  policy ← lift_result (normalizeOAuthIssuerPolicy oauth input);
  now_ ← now;
  let issuer := issuer
    <| OAuthIssuer_OIDCEnabled := UpdateOAuthIssuerInput_OIDCEnabled policy |>
    <| OAuthIssuer_CIMDMode := UpdateOAuthIssuerInput_CIMDMode policy |>
    <| OAuthIssuer_CIMDAllowedOrigins := UpdateOAuthIssuerInput_CIMDAllowedOrigins policy |>
    <| OAuthIssuer_DCRMode := UpdateOAuthIssuerInput_DCRMode policy |>
    <| OAuthIssuer_DCRAllowClientSecrets := UpdateOAuthIssuerInput_DCRAllowClientSecrets policy |>
    <| OAuthIssuer_DCROpenRegistrationLimit := UpdateOAuthIssuerInput_DCROpenRegistrationLimit policy |>
    <| OAuthIssuer_CodeTTL := UpdateOAuthIssuerInput_CodeTTL policy |>
    <| OAuthIssuer_AccessTokenTTL := UpdateOAuthIssuerInput_AccessTokenTTL policy |>
    <| OAuthIssuer_RefreshTokenTTL := UpdateOAuthIssuerInput_RefreshTokenTTL policy |>
    <| OAuthIssuer_UpdatedAt := now_ |> in
  audit ← newAudit (Authentication_UserID actor) "oauth.issuer.update" "oauth_issuer"
    (UUID_String (OAuthIssuer_ID issuer)) Nil AuditSucceeded EmptyString;
  mapped "oauth.issuer.update" (call (λ ctx, UpdateOAuthIssuer ctx issuer (audit_commit audit)));;
  mret issuer.

(** [Manager.CreateOAuthProtectedResource] *)
Definition Manager_CreateOAuthProtectedResource (actor : Authentication) (workspaceID : UUID)
    (input : CreateOAuthProtectedResourceInput) : M World OAuthProtectedResource :=
  _ ← requireOAuth;
  requireScopedStepUp actor StepUpScopeWorkspace "oauth.resource.create";;
  AuthorizePermission actor workspaceID PermissionOAuthResourceManage;;
  let issuerID := CreateOAuthProtectedResourceInput_IssuerID input in
  require_v7 issuerID "invalid OAuth issuer id";;
  issuer ← call (λ ctx, OAuthIssuerByID ctx issuerID);
  throw_if (not_nil (OAuthIssuer_DisabledAt issuer)) ErrForbidden;;
  resourceURL ← lift_result (validateResourceURL (CreateOAuthProtectedResourceInput_Resource input));
  scopes ← lift_result (normalizeOAuthScopeDefinitions (roleCatalog_permissions (m_workspaceRoles m))
    (CreateOAuthProtectedResourceInput_Scopes input));
  id ← newID;
  now_ ← now;
  let resource := mkOAuthProtectedResource id (OAuthIssuer_ID issuer) workspaceID resourceURL scopes
    now_ now_ None in
  audit ← newAudit (Authentication_UserID actor) "oauth.resource.create" "oauth_resource" (UUID_String id)
    workspaceID AuditSucceeded EmptyString;
  mapped "oauth.resource.create" (call (λ ctx,
    CreateOAuthProtectedResource ctx resource (audit_commit audit)));;
  mret resource.

(** ** Clients *)

(** The rules of the client_credentials grant. *)
Definition machine_grant (source : OAuthClientSource) (grants scopes ccResources : list string) :
    result unit :=
  if contains grants "client_credentials" then
    _ ← invalid_when (negb (bool_decide (source = OAuthClientPreRegistered)))
          "client_credentials requires a pre-registered client";
    _ ← invalid_when (bool_decide (scopes = [])) "client_credentials requires registered scopes";
    invalid_when (bool_decide (ccResources = [])) "client_credentials requires a resource allowlist"
  else invalid_when (negb (bool_decide (ccResources = [])))
         "a resource allowlist requires the client_credentials grant".

(** The rules of the authentication method and of its keys. *)
Definition client_method (method : OAuthTokenEndpointAuthMethod) (grants : list string)
    (jwks jwksURI : string) (allowSecret : bool) : result unit :=
  _ ← invalid_when (negb (contains [OAuthAuthNone; OAuthAuthPrivateKeyJWT; OAuthAuthClientSecretBasic] method))
        "unsupported OAuth client authentication method";
  _ ← invalid_when (bool_decide (method = OAuthAuthNone) && contains grants "client_credentials")
        "client_credentials requires client authentication";
  _ ← invalid_when (bool_decide (method = OAuthAuthPrivateKeyJWT) && empty_string jwks && empty_string jwksURI)
        "private_key_jwt requires jwks or jwks_uri";
  _ ← invalid_when (bool_decide (method = OAuthAuthClientSecretBasic) && negb allowSecret)
        "client secrets are not allowed";
  _ ← if empty_string jwksURI then Ok tt
      else match validatePublicHTTPSURL jwksURI false with
           | Ok _ => Ok tt
           | Error _ => Error (Wrapped "invalid jwks_uri" ErrInvalidInput)
           end;
  invalid_when (bool_decide (32 * 1024 < Z.of_nat (str_len jwks))%Z || (negb (empty_string jwks) && negb (json_Valid jwks)))
    "invalid jwks".

(** [Manager.newOAuthClient] *)
Definition newOAuthClient (oauth : OAuthConfig) (issuer : OAuthIssuer) (source : OAuthClientSource)
    (input : OAuthClientRegistrationInput) (allowSecret : bool) : M World (OAuthClient * string) :=
  let name := TrimSpace (OAuthClientRegistrationInput_Name input) in
  let application := OAuthClientRegistrationInput_ApplicationType input in
  lift_result (invalid_when (empty_string name || bool_decide (200 < str_len name))
    "OAuth client name is required and limited to 200 characters");;
  lift_result (invalid_when (negb (contains [OAuthApplicationWeb; OAuthApplicationNative] application))
    "OAuth application type must be web or native");;
  redirects ← lift_result (normalizeRedirectURIs application (OAuthClientRegistrationInput_RedirectURIs input));
  flows ← lift_result (normalizeOAuthFlowMetadata (OAuthClientRegistrationInput_GrantTypes input)
    (OAuthClientRegistrationInput_ResponseTypes input));
  scopes ← lift_result (normalizeOptionalOAuthScopes (OAuthClientRegistrationInput_Scopes input));
  ccResources ← lift_result (normalizeClientCredentialsResources
    (OAuthClientRegistrationInput_ClientCredentialsResources input));
  lift_result (machine_grant source flows.1 scopes ccResources);;
  sectorIdentifier ← oauthSectorIdentifier redirects (OAuthIssuer_OIDCEnabled issuer);
  let method := if empty_string (OAuthClientRegistrationInput_TokenEndpointAuthMethod input)
                then OAuthAuthNone else OAuthClientRegistrationInput_TokenEndpointAuthMethod input in
  let jwks := OAuthClientRegistrationInput_JWKS input in
  let jwksURI := OAuthClientRegistrationInput_JWKSURI input in
  lift_result (client_method method flows.1 jwks jwksURI allowSecret);;
  id ← newID;
  now_ ← now;
  let client := mkOAuthClient id (OAuthIssuer_ID issuer) (UUID_String id) source name application redirects
    sectorIdentifier flows.1 flows.2 scopes ccResources method jwksURI jwks
    (OAuthClientRegistrationInput_Trusted input && bool_decide (source = OAuthClientPreRegistered))
    EmptyString EmptyString None now_ now_ None in
  let client := client <| OAuthClient_MetadataHash := oauthClientMetadataHash client |> in
  if bool_decide (method = OAuthAuthClientSecretBasic) then
    secret ← randomBytes 32;
    let rawSecret := "cbos_" +:+ base64_RawURL_EncodeToString secret in
    mret (client <| OAuthClient_SecretDigest := oauthDigest oauth "client-secret" rawSecret |>, rawSecret)
  else mret (client, EmptyString).

(** [Manager.PreRegisterOAuthClient] *)
Definition Manager_PreRegisterOAuthClient (actor : Authentication) (request : TrustedRequest)
    (issuerID : UUID) (input : OAuthClientRegistrationInput) : M World IssuedOAuthClient :=
  oauth ← requireOAuth;
  settings_gate actor request "oauth.client.pre_register";;
  issuer ← call (λ ctx, OAuthIssuerByID ctx issuerID);
  p ← newOAuthClient oauth issuer OAuthClientPreRegistered input true;
  let '(client, rawSecret) := p in
  audit ← newAudit (Authentication_UserID actor) "oauth.client.pre_register" "oauth_client"
    (UUID_String (OAuthClient_ID client)) Nil AuditSucceeded EmptyString;
  commit_client EventOAuthClientRegistered "oauth.client.pre_register" audit client (OAuthClient_Scopes client)
    (λ at_ commit ctx, CreateOAuthClient ctx client Nil at_ commit);;
  mret (mkIssuedOAuthClient (publicOAuthClient client) rawSecret).

(** [Manager.CreateOAuthInitialAccessToken] *)
Definition Manager_CreateOAuthInitialAccessToken (actor : Authentication) (request : TrustedRequest)
    (issuerID : UUID) (input : CreateOAuthInitialAccessTokenInput) : M World IssuedOAuthInitialAccessToken :=
  oauth ← requireOAuth;
  settings_gate actor request "oauth.initial_access_token.create";;
  issuer ← call (λ ctx, OAuthIssuerByID ctx issuerID);
  throw_if (negb (bool_decide (OAuthIssuer_DCRMode issuer = OAuthDCRProtected)) ||
            not_nil (OAuthIssuer_DisabledAt issuer)) ErrNotSupported;;
  let expires := CreateOAuthInitialAccessTokenInput_ExpiresAt input in
  let bad := Wrapped "initial access token expiration must be within 30 days" ErrInvalidInput in
  earliest ← now;
  throw_if (negb (Time_After expires earliest)) bad;;
  latest ← now;
  throw_if (Time_After expires (latest + 30 * 24 * Hour)%Z) bad;;
  let given := CreateOAuthInitialAccessTokenInput_MaxRegistrations input in
  let limit := if bool_decide (given = 0)%Z then 1%Z else given in
  throw_if (bool_decide (limit < 1)%Z || bool_decide (100 < limit)%Z)
    (Wrapped "registration limit must be between 1 and 100" ErrInvalidInput);;
  id ← newID;
  bearer ← newOAuthBearer "cbi";
  let '(prefix, raw) := bearer in
  now_ ← now;
  let credential := mkOAuthInitialAccessToken id (OAuthIssuer_ID issuer) prefix
    (oauthDigest oauth "initial-access-token" raw) limit 0 now_ expires None in
  audit ← newAudit (Authentication_UserID actor) "oauth.initial_access_token.create"
    "oauth_initial_access_token" (UUID_String id) Nil AuditSucceeded EmptyString;
  mapped "oauth.initial_access_token.create" (call (λ ctx,
    CreateOAuthInitialAccessToken ctx credential (audit_commit audit)));;
  mret (mkIssuedOAuthInitialAccessToken
    (credential <| OAuthInitialAccessToken_Digest := EmptyString |>) raw).

(** [Manager.OAuthInitialAccessTokens] *)
Definition Manager_OAuthInitialAccessTokens (actor : Authentication) (issuerID : UUID) :
    M World (Stream OAuthInitialAccessToken) :=
  r ← attempt (_ ← requireOAuth;
               AuthorizeAdmin actor PermissionSettingsRead;;
               require_v7 issuerID "invalid issuer id");
  match r with
  | Error e => mret (errorSeq e)
  | Ok _ => call (λ ctx, OAuthInitialAccessTokens ctx issuerID)
  end.

(** [Manager.RevokeOAuthInitialAccessToken] *)
Definition Manager_RevokeOAuthInitialAccessToken (actor : Authentication) (request : TrustedRequest)
    (tokenID : UUID) : M World unit :=
  _ ← requireOAuth;
  settings_gate actor request "oauth.initial_access_token.revoke";;
  require_v7 tokenID "invalid initial access token id";;
  audit ← newAudit (Authentication_UserID actor) "oauth.initial_access_token.revoke"
    "oauth_initial_access_token" (UUID_String tokenID) Nil AuditSucceeded EmptyString;
  at_ ← now;
  mapped "oauth.initial_access_token.revoke" (call (λ ctx,
    RevokeOAuthInitialAccessToken ctx tokenID at_ (audit_commit audit))).

(** The initial access token of a protected registration. *)
Definition redeem_initial_token (oauth : OAuthConfig) (issuer : OAuthIssuer) (raw : string) : M World UUID :=
  prefix ← ok_or (parseOAuthBearer "cbi" raw) ErrInvalidCredentials;
  found ← attempt (call (λ ctx, OAuthInitialAccessTokenByPrefix ctx prefix));
  now_ ← now;
  match found with
  | Error _ => throw ErrInvalidCredentials
  | Ok credential =>
      throw_if (negb (bool_decide (OAuthInitialAccessToken_IssuerID credential = OAuthIssuer_ID issuer)) ||
                not_nil (OAuthInitialAccessToken_RevokedAt credential) ||
                negb (Time_Before now_ (OAuthInitialAccessToken_ExpiresAt credential)) ||
                bool_decide (OAuthInitialAccessToken_MaxRegistrations credential ≤
                             OAuthInitialAccessToken_RegistrationCount credential)%Z ||
                negb (bool_decide (OAuthInitialAccessToken_Digest credential =
                                   oauthDigest oauth "initial-access-token" raw))) ErrInvalidCredentials;;
      mret (OAuthInitialAccessToken_ID credential)
  end.

(** [Manager.RegisterOAuthClient] *)
Definition Manager_RegisterOAuthClient (issuerURL initialAccessToken : string)
    (input : OAuthClientRegistrationInput) : M World IssuedOAuthClient :=
  oauth ← requireOAuth;
  issuerURL ← lift_result (validateIssuerURL issuerURL);
  issuer ← call (λ ctx, OAuthIssuerByURL ctx issuerURL);
  throw_if (not_nil (OAuthIssuer_DisabledAt issuer) ||
            bool_decide (OAuthIssuer_DCRMode issuer = OAuthDCRDisabled)) ErrNotSupported;;
  let protected := bool_decide (OAuthIssuer_DCRMode issuer = OAuthDCRProtected) in
  p ← newOAuthClient oauth issuer OAuthClientDCR (input <| OAuthClientRegistrationInput_Trusted := false |>)
    (protected && OAuthIssuer_DCRAllowClientSecrets issuer);
  let '(client, rawSecret) := p in
  initialID ← if protected then redeem_initial_token oauth issuer initialAccessToken
              else throw_if (negb (empty_string initialAccessToken))
                     (Wrapped "initial access token is not accepted by open DCR" ErrInvalidInput);;
                   mret Nil;
  audit ← newAudit initialID "oauth.client.dynamic_register" "oauth_client"
    (UUID_String (OAuthClient_ID client)) Nil AuditSucceeded EmptyString;
  let audit := audit <| AuditEvent_ActorKind := if protected then ActorService else ActorSystem |> in
  commit_client EventOAuthClientRegistered "oauth.client.dynamic_register" audit client
    (OAuthClient_Scopes client) (λ at_ commit ctx, CreateOAuthClient ctx client initialID at_ commit);;
  mret (mkIssuedOAuthClient (publicOAuthClient client) rawSecret).

(** *** Clients identified by the URL of their metadata *)

(** [Manager.emitOAuthCIMDRejected] *)
Definition emitOAuthCIMDRejected (issuer : OAuthIssuer) (clientID reason : string) : M World unit :=
  _ ← attempt (
    audit ← newAudit Nil "oauth.cimd.reject" "oauth_client" clientID Nil AuditFailed reason;
    let audit := audit <| AuditEvent_ActorKind := ActorSystem |> in
    let client := OAuthClient_zero <| OAuthClient_IssuerID := OAuthIssuer_ID issuer |>
      <| OAuthClient_ClientID := clientID |> <| OAuthClient_Source := OAuthClientCIMD |> in
    change ← newOAuthChange EventOAuthCIMDRejected "oauth.cimd.reject" audit client Nil Nil Nil Nil [];
    call (λ ctx, AppendAudit ctx change.2);;
    emitOAuthChange change.1);
  mret tt.

(** [Manager.oauthClientFromMetadata] *)
Definition oauthClientFromMetadata (oauth : OAuthConfig) (issuer : OAuthIssuer)
    (document : OAuthClientMetadataDocument) : M World OAuthClient :=
  let clientID := OAuthClientMetadataDocument_ClientID document in
  let fetched := OAuthClientMetadataDocument_FetchedAt document in
  let expires := OAuthClientMetadataDocument_ExpiresAt document in
  throw_if (match validateCIMDClientID clientID with
            | Ok clientURL => negb (issuerAllowsCIMD issuer clientURL)
            | Error _ => true
            end) ErrInvalidCredentials;;
  let bad := Wrapped "invalid CIMD cache lifetime" ErrInvalidInput in
  throw_if (Time_IsZero fetched || Time_IsZero expires || negb (Time_After expires fetched)) bad;;
  now_ ← now;
  throw_if (negb (Time_After expires now_)) bad;;
  p ← newOAuthClient oauth issuer OAuthClientCIMD (mkOAuthClientRegistrationInput
    (OAuthClientMetadataDocument_ClientName document) (OAuthClientMetadataDocument_ApplicationType document)
    (OAuthClientMetadataDocument_RedirectURIs document) (OAuthClientMetadataDocument_GrantTypes document)
    (OAuthClientMetadataDocument_ResponseTypes document) (Fields (OAuthClientMetadataDocument_Scope document))
    [] (OAuthClientMetadataDocument_TokenEndpointAuthMethod document)
    (OAuthClientMetadataDocument_JWKSURI document) (OAuthClientMetadataDocument_JWKS document) false) false;
  updated ← now;
  let client := p.1 <| OAuthClient_ClientID := clientID |> <| OAuthClient_MetadataExpiresAt := Some expires |>
    <| OAuthClient_CreatedAt := fetched |> <| OAuthClient_UpdatedAt := updated |> in
  mret (client <| OAuthClient_MetadataHash := oauthClientMetadataHash client |>).

(** The document is fetched anew; [client] is the cached record, or zero. *)
Definition refresh_client (oauth : OAuthConfig) (issuer : OAuthIssuer) (clientID : string)
    (client : OAuthClient) : M World OAuthClient :=
  fetch ← ok_or (if bool_decide (OAuthIssuer_CIMDMode issuer = OAuthCIMDDisabled) then None
                 else OAuthConfig_Fetch oauth) ErrInvalidCredentials;
  let reject {A} reason : M World A :=
    emitOAuthCIMDRejected issuer clientID reason;; throw ErrInvalidCredentials in
  (if match validateCIMDClientID clientID with
      | Ok clientURL => issuerAllowsCIMD issuer clientURL
      | Error _ => false
      end
   then mret tt else reject "policy_rejected");;
  fetched ← attempt (port (λ i, fetch i clientID));
  document ← match fetched with Ok d => mret d | Error _ => reject "metadata_fetch_failed" end;
  made ← attempt (oauthClientFromMetadata oauth issuer document);
  resolved ← match made with
             | Ok c => if bool_decide (OAuthClient_ClientID c = clientID) then mret c
                       else reject "metadata_invalid"
             | Error _ => reject "metadata_invalid"
             end;
  let known := bool_decide (OAuthClient_ID client ≠ Nil) in
  let changed := known && negb (bool_decide (OAuthClient_MetadataHash client =
                                             OAuthClient_MetadataHash resolved)) in
  let name := if changed then EventOAuthCIMDChanged else EventOAuthCIMDResolved in
  let action := if changed then "oauth.cimd.change" else "oauth.cimd.resolve" in
  let resolved := if known then resolved <| OAuthClient_ID := OAuthClient_ID client |>
                                         <| OAuthClient_CreatedAt := OAuthClient_CreatedAt client |>
                  else resolved in
  audit ← newAudit Nil action "oauth_client" (UUID_String (OAuthClient_ID resolved)) Nil
    AuditSucceeded EmptyString;
  let audit := audit <| AuditEvent_ActorKind := ActorSystem |> in
  change ← newOAuthChange name action audit resolved Nil Nil Nil Nil (OAuthClient_Scopes resolved);
  mapped "oauth.cimd.resolve" (call (λ ctx, UpsertOAuthCIMDClient ctx resolved change.2));;
  emitOAuthChange change.1;;
  mret resolved.

(** Whether the stored client can be used as it is. *)
Definition still_cached (client : OAuthClient) : M World bool :=
  match OAuthClient_MetadataExpiresAt client with
  | Some expires =>
      if bool_decide (OAuthClient_Source client = OAuthClientCIMD)
      then now_ ← now; mret (Time_Before now_ expires) else mret true
  | None => mret true
  end.

(** [Manager.resolveOAuthClient] *)
Definition resolveOAuthClient (oauth : OAuthConfig) (issuer : OAuthIssuer) (clientID : string) :
    M World OAuthClient :=
  let clientID := TrimSpace clientID in
  throw_if (empty_string clientID || bool_decide (2048 < str_len clientID)) ErrInvalidCredentials;;
  found ← attempt (call (λ ctx, OAuthClientByClientID ctx (OAuthIssuer_ID issuer) clientID));
  match found with
  | Ok client =>
      cached ← still_cached client;
      if cached : bool then mret client else refresh_client oauth issuer clientID client
  | Error e =>
      if errors_Is e ErrNotFound then refresh_client oauth issuer clientID OAuthClient_zero else throw e
  end.

(** ** Consent *)

(** The enabled issuer of a URL. *)
Definition enabled_issuer (issuerURL : string) : M World OAuthIssuer :=
  lookup_valid (λ ctx, OAuthIssuerByURL ctx issuerURL) (λ i, not_nil (OAuthIssuer_DisabledAt i))
    ErrInvalidCredentials.

(** [Manager.ValidateOAuthAuthorizationRedirect] *)
Definition Manager_ValidateOAuthAuthorizationRedirect (issuerURL clientID redirectURI : string) :
    M World unit :=
  oauth ← requireOAuth;
  issuerURL ← lift_result (validateIssuerURL issuerURL);
  issuer ← enabled_issuer issuerURL;
  resolved ← attempt (resolveOAuthClient oauth issuer clientID);
  match resolved with
  | Error _ => throw ErrInvalidCredentials
  | Ok client =>
      throw_if (not_nil (OAuthClient_DisabledAt client)) ErrInvalidCredentials;;
      throw_if (negb (contains (OAuthClient_RedirectURIs client) redirectURI))
        (Wrapped "redirect URI is not registered" ErrInvalidInput)
  end.

(** [Manager.authorizedOAuthScopes] *)
Fixpoint authorize_permissions (actor : Authentication) (workspaceID : UUID)
    (permissions : list WorkspacePermission) : M World unit :=
  match permissions with
  | [] => mret tt
  | permission :: permissions' =>
      r ← attempt (AuthorizePermission actor workspaceID permission);
      match r with
      | Ok _ => authorize_permissions actor workspaceID permissions'
      | Error _ => throw ErrForbidden
      end
  end.
Definition check_reserved (issuer : OAuthIssuer) (scopes : list string) (scope : string) : result unit :=
  if contains ["openid"; "profile"; "email"] scope && negb (OAuthIssuer_OIDCEnabled issuer)
  then Error ErrForbidden
  else invalid_when (contains ["profile"; "email"] scope && negb (contains scopes "openid"))
         "OIDC claim scopes require openid".
Fixpoint authorize_scopes (actor : Authentication) (issuer : OAuthIssuer)
    (resource : OAuthProtectedResource) (scopes rest : list string) : M World (list OAuthScopeDefinition) :=
  match rest with
  | [] => mret []
  | scope :: rest' =>
      if oauthReservedScope scope then
        lift_result (check_reserved issuer scopes scope);;
        authorize_scopes actor issuer resource scopes rest'
      else
        definition ← ok_or (oauthScopeDefinition (OAuthProtectedResource_Scopes resource) scope) ErrForbidden;
        authorize_permissions actor (OAuthProtectedResource_WorkspaceID resource)
          (OAuthScopeDefinition_Permissions definition);;
        definitions ← authorize_scopes actor issuer resource scopes rest';
        mret (definition :: definitions)
  end.
Definition authorizedOAuthScopes (actor : Authentication) (issuer : OAuthIssuer)
    (resource : OAuthProtectedResource) (requested : list string) :
    M World (list string * list OAuthScopeDefinition) :=
  scopes ← ok_or (match normalizeOptionalOAuthScopes requested with
                  | Ok (s :: l) => Some (s :: l)
                  | _ => None
                  end) (Wrapped "at least one OAuth scope is required" ErrInvalidInput);
  definitions ← authorize_scopes actor issuer resource scopes scopes;
  mret (scopes, definitions).

(** [maxAge > 0 && !freshAuthentication(m.now(), actor.AuthenticatedAt, maxAge)] *)
Definition too_old (actor : Authentication) (maxAge : Z) : M World bool :=
  if bool_decide (0 < maxAge)%Z
  then now_ ← now; mret (negb (freshAuthentication now_ (Authentication_AuthenticatedAt actor) maxAge))
  else mret false.
Definition demands_step_up (actor : Authentication) (definition : OAuthScopeDefinition) : M World bool :=
  if bool_decide (Authentication_Level actor < OAuthScopeDefinition_MinimumAAL definition)%Z then mret true
  else too_old actor (OAuthScopeDefinition_MaxAuthAge definition).
(** The loop of the first half, over every definition, *)
Fixpoint any_step_up (actor : Authentication) (definitions : list OAuthScopeDefinition) : M World bool :=
  match definitions with
  | [] => mret false
  | definition :: definitions' =>
      demanded ← demands_step_up actor definition;
      later ← any_step_up actor definitions';
      mret (demanded || later)
  end.
(** and that of the second half, which stops at the first. *)
Fixpoint require_step_up (actor : Authentication) (definitions : list OAuthScopeDefinition) : M World unit :=
  match definitions with
  | [] => mret tt
  | definition :: definitions' =>
      demanded ← demands_step_up actor definition;
      throw_if demanded ErrStepUpRequired;;
      require_step_up actor definitions'
  end.

(** [Manager.encodeOAuthContinuation] *)
Definition encodeOAuthContinuation (value : oauthAuthorizationContinuation) : M World string :=
  payload ← ok_or (consent_json value)
    (Wrapped "marshal OAuth continuation" (Opaque "year outside of range [0,9999]"));
  sealed ← seal payload;
  mret (base64_RawURL_EncodeToString sealed).

(** [Manager.decodeOAuthContinuation] *)
Definition decodeOAuthContinuation (raw : string) : M World oauthAuthorizationContinuation :=
  value ← ok_or (payload ← open_payload raw; consent_unmarshal payload) ErrInvalidCredentials;
  throw_if (bool_decide (consent_UserID value = Nil) || bool_decide (consent_ClientRecordID value = Nil) ||
            bool_decide (consent_ResourceID value = Nil)) ErrInvalidCredentials;;
  now_ ← now;
  throw_if (negb (Time_Before now_ (consent_ExpiresAt value))) ErrExpired;;
  mret value.

(** What a consent screen shows of a scope. *)
Definition consent_scope (definitions : list OAuthScopeDefinition) (scope : string) : OAuthConsentScope :=
  mkOAuthConsentScope scope
    (match oauthScopeDefinition definitions scope with
     | Some definition => OAuthScopeDefinition_Description definition
     | None => oauthReservedScopeDescription scope
     end).

(** [url.Parse] whose error is dropped, and the URL dereferenced. *)
Definition must_parse (raw : string) : M World URL :=
  ok_or (url_Parse raw) (Opaque "panic: invalid memory address or nil pointer dereference").

(** [Manager.BeginOAuthAuthorization] *)
Definition Manager_BeginOAuthAuthorization (actor : Authentication) (input : BeginOAuthAuthorizationInput) :
    M World OAuthConsent :=
  oauth ← requireOAuth;
  throw_if (bool_decide (Authentication_UserID actor = Nil) || negb (Interactive actor)) ErrUnauthorized;;
  issuerURL ← lift_result (validateIssuerURL (BeginOAuthAuthorizationInput_Issuer input));
  issuer ← enabled_issuer issuerURL;
  client ← resolveOAuthClient oauth issuer (BeginOAuthAuthorizationInput_ClientID input);
  throw_if (not_nil (OAuthClient_DisabledAt client) ||
            negb (contains (OAuthClient_GrantTypes client) "authorization_code")) ErrInvalidCredentials;;
  let requested := BeginOAuthAuthorizationInput_Scopes input in
  throw_if (negb (bool_decide (OAuthClient_Scopes client = [])) &&
            negb (scopesSubset (TrimSpace <$> requested) (OAuthClient_Scopes client))) ErrForbidden;;
  resourceURL ← lift_result (validateResourceURL (BeginOAuthAuthorizationInput_Resource input));
  resource ← lookup_valid (λ ctx, OAuthProtectedResourceByURI ctx resourceURL)
    (λ r, negb (bool_decide (OAuthProtectedResource_IssuerID r = OAuthIssuer_ID issuer)) ||
          not_nil (OAuthProtectedResource_DisabledAt r)) ErrForbidden;
  let redirectURI := BeginOAuthAuthorizationInput_RedirectURI input in
  let challenge := BeginOAuthAuthorizationInput_CodeChallenge input in
  let state := BeginOAuthAuthorizationInput_State input in
  let nonce := BeginOAuthAuthorizationInput_Nonce input in
  let maxAge := BeginOAuthAuthorizationInput_MaxAge input in
  throw_if (negb (contains (OAuthClient_RedirectURIs client) redirectURI))
    (Wrapped "redirect URI is not registered" ErrInvalidInput);;
  throw_if (negb (bool_decide (BeginOAuthAuthorizationInput_CodeChallengeMethod input = "S256")) ||
            negb (validPKCEChallenge challenge)) (Wrapped "PKCE S256 is required" ErrInvalidInput);;
  throw_if (empty_string state || bool_decide (1024 < str_len state)%nat || bool_decide (1024 < str_len nonce)%nat)
    (Wrapped "state is required and request values are limited" ErrInvalidInput);;
  authorized ← authorizedOAuthScopes actor issuer resource requested;
  let '(scopes, definitions) := authorized in
  demanded ← any_step_up actor definitions;
  stale ← too_old actor maxAge;
  now_ ← now;
  rawContinuation ← encodeOAuthContinuation (mkOAuthContinuation (Authentication_UserID actor)
    (OAuthClient_ID client) (OAuthProtectedResource_ID resource) redirectURI scopes state challenge nonce
    (Some (OAuthClient_MetadataHash client)) (Authentication_AuthenticatedAt actor)
    (Authentication_Method actor) (Authentication_Level actor) maxAge (now_ + m_ceremonyTTL m)%Z);
  clientURL ← must_parse (OAuthClient_ClientID client);
  redirectURL ← must_parse redirectURI;
  mret (mkOAuthConsent rawContinuation (OAuthClient_ClientID client) (OAuthClient_Name client)
    (Hostname clientURL) redirectURI (Hostname redirectURL) (OAuthProtectedResource_Resource resource)
    (OAuthProtectedResource_WorkspaceID resource) (consent_scope definitions <$> scopes)
    (demanded || stale) (isLocalhostName (Hostname redirectURL))).

(** The refusal of a consent. *)
Definition deny_authorization (actor : Authentication) (client : OAuthClient)
    (resource : OAuthProtectedResource) (scopes : list string) : M World unit :=
  let workspaceID := OAuthProtectedResource_WorkspaceID resource in
  audit ← newAudit (Authentication_UserID actor) "oauth.authorization.denied" "oauth_client"
    (UUID_String (OAuthClient_ID client)) workspaceID AuditFailed "access_denied";
  change ← newOAuthChange EventOAuthAuthorizationDenied "oauth.authorization.denied" audit client Nil Nil
    (OAuthProtectedResource_ID resource) workspaceID scopes;
  mapped "oauth.authorization.denied" (call (λ ctx, AppendAudit ctx change.2));;
  emitOAuthChange change.1.

(** The grant of a consent and its authorization code. *)
Definition grant_authorization (oauth : OAuthConfig) (actor : Authentication) (issuer : OAuthIssuer)
    (client : OAuthClient) (resource : OAuthProtectedResource)
    (continuation : oauthAuthorizationContinuation) : M World string :=
  let workspaceID := OAuthProtectedResource_WorkspaceID resource in
  let scopes := consent_Scopes continuation in
  grantID ← newID;
  codeID ← newID;
  bearer ← newOAuthBearer "cbc";
  let '(prefix, rawCode) := bearer in
  now_ ← now;
  let grant := mkOAuthGrant grantID (OAuthIssuer_ID issuer) (OAuthClient_ID client)
    (Authentication_UserID actor) workspaceID (OAuthProtectedResource_ID resource) scopes
    (OAuthClient_MetadataHash client) (Authentication_AuthenticatedAt actor) (Authentication_Method actor)
    (Authentication_Level actor) now_ now_ None in
  let code := mkOAuthAuthorizationCode codeID prefix (oauthDigest oauth "authorization-code" rawCode) grantID
    (OAuthClient_ID client) (consent_RedirectURI continuation) (OAuthProtectedResource_ID resource) scopes
    (consent_CodeChallenge continuation) (consent_Nonce continuation) now_
    (now_ + OAuthIssuer_CodeTTL issuer)%Z None in
  audit ← newAudit (Authentication_UserID actor) "oauth.authorization.granted" "oauth_grant"
    (UUID_String grantID) workspaceID AuditSucceeded EmptyString;
  change ← newOAuthChange EventOAuthAuthorizationGranted "oauth.authorization.granted" audit client grantID
    Nil (OAuthProtectedResource_ID resource) workspaceID scopes;
  mapped "oauth.authorization.granted" (call (λ ctx, CreateOAuthGrantAndCode ctx grant code change.2));;
  emitOAuthChange change.1;;
  mret rawCode.

(** [Manager.CompleteOAuthAuthorization] *)
Definition Manager_CompleteOAuthAuthorization (actor : Authentication) (rawContinuation : string)
    (approved : bool) : M World OAuthAuthorizationResult :=
  oauth ← requireOAuth;
  continuation ← decodeOAuthContinuation rawContinuation;
  let userID := Authentication_UserID actor in
  throw_if (bool_decide (userID = Nil) || negb (bool_decide (userID = consent_UserID continuation)) ||
            negb (Interactive actor)) ErrUnauthorized;;
  client ← lookup_valid (λ ctx, OAuthClientByID ctx (consent_ClientRecordID continuation))
    (λ c, not_nil (OAuthClient_DisabledAt c) ||
          negb (bool_decide (OAuthClient_MetadataHash c =
                             default EmptyString (consent_MetadataHash continuation)))) ErrInvalidCredentials;
  resource ← lookup_valid (λ ctx, OAuthProtectedResourceByID ctx (consent_ResourceID continuation))
    (λ r, not_nil (OAuthProtectedResource_DisabledAt r)) ErrForbidden;
  issuer ← lookup_valid (λ ctx, OAuthIssuerByID ctx (OAuthProtectedResource_IssuerID resource))
    (λ i, not_nil (OAuthIssuer_DisabledAt i) ||
          negb (bool_decide (OAuthClient_IssuerID client = OAuthIssuer_ID i))) ErrForbidden;
  authorized ← authorizedOAuthScopes actor issuer resource (consent_Scopes continuation);
  require_step_up actor authorized.2;;
  stale ← too_old actor (consent_MaxAge continuation);
  throw_if stale ErrStepUpRequired;;
  let answer code err := mkOAuthAuthorizationResult (consent_RedirectURI continuation) code
    (consent_State continuation) (OAuthIssuer_Issuer issuer) err in
  if approved then
    code ← grant_authorization oauth actor issuer client resource continuation;
    mret (answer code EmptyString)
  else
    deny_authorization actor client resource (consent_Scopes continuation);;
    mret (answer EmptyString "access_denied").

End oauth.
