(* ===== verification/ManagerOAuthTokens.v ===== *)
(** * OAuth tokens (src/oauth_tokens.go)

    The token endpoint, bearer validation, revocation, UserInfo and the
    discovery documents. *)
From stdpp Require Import base gmap sets list strings numbers.
From Stdlib Require Import ZArith Lia Ascii.
From S2P Require Import Prelude Bytes GoText GoUrl Uuid Types OAuthTypes Roles AuditChain Store StoreUsers StoreTokens StoreWorkspaces StoreOAuth StorePages Commit StoreSystem Tokens Events Manager ManagerGates Config ManagerEmail ManagerSeal OAuthPolicy ManagerOAuth.

Definition jwtBearerAssertionType : string := "urn:ietf:params:oauth:client-assertion-type:jwt-bearer".
Definition Second : Z := 10 ^ 9.

Section oauth_tokens.
Context {E : Env}.
Abbreviation m := the_manager.

(** ** Clients at the token endpoint *)

(** The credentials a request presents for its client. *)
Record client_credentials := mkClientCredentials {
  cc_Issuer : string;
  cc_ClientID : string;
  cc_Secret : string;
  cc_SecretInBody : bool;
  cc_Assertion : string;
  cc_AssertionType : string }.

(** The switch over the registered method. *)
Definition proves_client (oauth : OAuthConfig) (issuer : OAuthIssuer) (client : OAuthClient)
    (input : client_credentials) : M World unit :=
  let method := OAuthClient_TokenEndpointAuthMethod client in
  let secret := cc_Secret input in
  let assertion := cc_Assertion input in
  if bool_decide (method = OAuthAuthNone) then
    throw_if (negb (empty_string secret) || negb (empty_string assertion)) ErrInvalidCredentials
  else if bool_decide (method = OAuthAuthClientSecretBasic) then
    throw_if (negb (empty_string assertion) || empty_string secret || cc_SecretInBody input ||
              negb (bool_decide (OAuthClient_SecretDigest client = oauthDigest oauth "client-secret" secret)))
      ErrInvalidCredentials
  else if bool_decide (method = OAuthAuthPrivateKeyJWT) then
    throw_if (negb (empty_string secret) || empty_string assertion) ErrInvalidCredentials;;
    verify ← ok_or (OAuthConfig_VerifyAssertion oauth) ErrInvalidCredentials;
    now_ ← now;
    refused ← port (λ i, Ok (verify i client (OAuthIssuer_Issuer issuer +:+ "/token") assertion now_));
    throw_if (not_nil refused) ErrInvalidCredentials
  else throw ErrInvalidCredentials.

(** [Manager.authenticateOAuthClient] *)
Definition authenticateOAuthClient (oauth : OAuthConfig) (input : client_credentials) :
    M World (OAuthIssuer * OAuthClient) :=
  let assertion := cc_Assertion input in
  let type := cc_AssertionType input in
  throw_if ((negb (empty_string assertion) && negb (bool_decide (type = jwtBearerAssertionType))) ||
            (empty_string assertion && negb (empty_string type))) ErrInvalidCredentials;;
  issuerURL ← ok_or (match validateIssuerURL (cc_Issuer input) with Ok u => Some u | Error _ => None end)
    ErrInvalidCredentials;
  issuer ← enabled_issuer issuerURL;
  resolved ← attempt (resolveOAuthClient oauth issuer (cc_ClientID input));
  client ← ok_or (match resolved with Ok c => Some c | Error _ => None end) ErrInvalidCredentials;
  throw_if (not_nil (OAuthClient_DisabledAt client)) ErrInvalidCredentials;;
  proves_client oauth issuer client input;;
  mret (issuer, client).

(** ** Grants *)

(** [resourceURI != ""] and it is another resource *)
Definition other_resource (resourceURI : string) (resource : OAuthProtectedResource) : bool :=
  negb (empty_string resourceURI) &&
  match validateResourceURL resourceURI with
  | Ok normalized => negb (bool_decide (normalized = OAuthProtectedResource_Resource resource))
  | Error _ => true
  end.

(** The permissions behind the scopes of a grant. *)
Fixpoint grant_permissions (actor : Authentication) (resource : OAuthProtectedResource)
    (scopes : list string) : M World unit :=
  match scopes with
  | [] => mret tt
  | scope :: scopes' =>
      (if oauthReservedScope scope then mret tt
       else
         definition ← ok_or (oauthScopeDefinition (OAuthProtectedResource_Scopes resource) scope)
           ErrInvalidCredentials;
         authorize_permissions actor (OAuthProtectedResource_WorkspaceID resource)
           (OAuthScopeDefinition_Permissions definition));;
      grant_permissions actor resource scopes'
  end.

(** [Manager.activeOAuthGrant] *)
Definition activeOAuthGrant (grantID : UUID) (client : OAuthClient) (resourceURI : string) :
    M World (OAuthGrant * OAuthProtectedResource) :=
  throw_if (not_nil (OAuthClient_DisabledAt client)) ErrInvalidCredentials;;
  grant ← lookup_valid (λ ctx, OAuthGrant_ ctx grantID)
    (λ g, not_nil (OAuthGrant_RevokedAt g) ||
          negb (bool_decide (OAuthGrant_ClientRecordID g = OAuthClient_ID client)) ||
          negb (bool_decide (OAuthGrant_MetadataHash g = OAuthClient_MetadataHash client)))
    ErrInvalidCredentials;
  resource ← lookup_valid (λ ctx, OAuthProtectedResourceByID ctx (OAuthGrant_ResourceID grant))
    (λ r, not_nil (OAuthProtectedResource_DisabledAt r) ||
          negb (bool_decide (OAuthProtectedResource_WorkspaceID r = OAuthGrant_WorkspaceID grant)))
    ErrInvalidCredentials;
  throw_if (other_resource resourceURI resource) ErrInvalidCredentials;;
  _ ← lookup_valid (λ ctx, OAuthIssuerByID ctx (OAuthGrant_IssuerID grant))
    (λ i, not_nil (OAuthIssuer_DisabledAt i) ||
          negb (bool_decide (OAuthIssuer_ID i = OAuthProtectedResource_IssuerID resource)))
    ErrInvalidCredentials;
  _ ← lookup_valid (λ ctx, UserByID ctx (OAuthGrant_UserID grant)) User_Disabled ErrInvalidCredentials;
  _ ← lookup_valid (λ ctx, WorkspaceByID ctx (OAuthGrant_WorkspaceID grant))
    (λ w, not_nil (Workspace_DisabledAt w)) ErrInvalidCredentials;
  let actor := Authentication_zero <| Authentication_UserID := OAuthGrant_UserID grant |>
    <| Authentication_WorkspaceID := OAuthGrant_WorkspaceID grant |> in
  grant_permissions actor resource (OAuthGrant_Scopes grant);;
  mret (grant, resource).

(** The same where every refusal is [ErrInvalidCredentials], with what the
    caller demands of the answer. *)
Definition active_grant (grantID : UUID) (client : OAuthClient) (resourceURI : string)
    (bad : OAuthGrant → OAuthProtectedResource → bool) : M World (OAuthGrant * OAuthProtectedResource) :=
  r ← attempt (activeOAuthGrant grantID client resourceURI);
  match r with
  | Ok (grant, resource) => throw_if (bad grant resource) ErrInvalidCredentials;; mret (grant, resource)
  | Error _ => throw ErrInvalidCredentials
  end.

(** [Manager.newOAuthAccessToken] *)
Definition newOAuthAccessToken (oauth : OAuthConfig) (grant : OAuthGrant) (ttl : Z) :
    M World (OAuthAccessToken * string) :=
  id ← newID;
  bearer ← newOAuthBearer "cba";
  let '(prefix, raw) := bearer in
  now_ ← now;
  mret (mkOAuthAccessToken id prefix (oauthDigest oauth "access-token" raw) (OAuthGrant_ID grant)
    (OAuthGrant_ClientRecordID grant) (OAuthGrant_UserID grant) (OAuthGrant_WorkspaceID grant)
    (OAuthGrant_ResourceID grant) (OAuthGrant_Scopes grant) now_ (now_ + ttl)%Z None, raw).

(** [Manager.newOAuthRefreshToken] *)
Definition newOAuthRefreshToken (oauth : OAuthConfig) (grant : OAuthGrant) (familyID : UUID) (ttl : Z) :
    M World (OAuthRefreshToken * string) :=
  id ← newID;
  familyID ← if bool_decide (familyID = Nil) then newID else mret familyID;
  bearer ← newOAuthBearer "cbr";
  let '(prefix, raw) := bearer in
  now_ ← now;
  mret (mkOAuthRefreshToken id familyID prefix (oauthDigest oauth "refresh-token" raw) (OAuthGrant_ID grant)
    (OAuthGrant_ClientRecordID grant) (OAuthGrant_UserID grant) (OAuthGrant_WorkspaceID grant)
    (OAuthGrant_ResourceID grant) (OAuthGrant_Scopes grant) now_ (now_ + ttl)%Z None Nil None, raw).

(** [Manager.mapOAuthCredentialStoreError] around a call of the store *)
Definition mapped_credential {A} (operation : string) (f : M World A) : M World A :=
  r ← attempt f;
  match r with
  | Ok a => mret a
  | Error e =>
      if errors_Is e ErrConflict || errors_Is e ErrExpired then throw ErrInvalidCredentials
      else e' ← mapStoreError operation e; throw e'
  end.

(** [Manager.newAudit] by a client *)
Definition client_audit (client : OAuthClient) (action resourceType resourceID : string)
    (workspaceID : UUID) (reason : string) : M World AuditEvent :=
  audit ← newAudit (OAuthClient_ID client) action resourceType resourceID workspaceID AuditSucceeded reason;
  mret (audit <| AuditEvent_ActorKind := ActorService |>).

(** ** ID tokens *)

(** [Manager.oauthPairwiseSubject] *)
Definition oauthPairwiseSubject (oauth : OAuthConfig) (issuerID : UUID) (sectorIdentifier : string)
    (userID : UUID) : string :=
  let nul s := String Ascii.zero s in
  base64_RawURL_EncodeToString (hmac_sha256 (OAuthConfig_Pepper oauth)
    ("oidc-subject" +:+ nul (UUID_String issuerID +:+ nul (sectorIdentifier +:+ nul (UUID_String userID))))).

(** [Manager.oauthPrimaryEmail] *)
Definition oauthPrimaryEmail (userID : UUID) : M World (string * option bool) :=
  r ← attempt (call (λ ctx, UserByID ctx userID));
  match r with
  | Error _ => mret (EmptyString, None)
  | Ok user =>
      if empty_string (User_Email user) then mret (EmptyString, None)
      else
        found ← attempt (userEmails userID (λ email,
          if EmailAddress_Primary email && bool_decide (EmailAddress_Address email = User_Email user)
          then Some (not_nil (EmailAddress_VerifiedAt email)) else None));
        mret (User_Email user, Some (match found with Ok (Some verified) => verified | _ => false end))
  end.

(** [Manager.oauthIDToken] *)
Definition oauthIDToken (oauth : OAuthConfig) (issuer : OAuthIssuer) (client : OAuthClient)
    (grant : OAuthGrant) (nonce : string) (expiresAt : Z) : M World string :=
  if negb (contains (OAuthGrant_Scopes grant) "openid") then mret EmptyString
  else
    signer ← ok_or (if OAuthIssuer_OIDCEnabled issuer then OAuthConfig_OIDCSigner oauth else None)
      ErrNotSupported;
    now_ ← now;
    email ← if contains (OAuthGrant_Scopes grant) "email" then oauthPrimaryEmail (OAuthGrant_UserID grant)
            else mret (EmptyString, None);
    port (λ i, oidc_SignIDToken signer i (mkOIDCClaims (OAuthIssuer_Issuer issuer)
      (oauthPairwiseSubject oauth (OAuthIssuer_ID issuer) (OAuthClient_SectorIdentifier client)
         (OAuthGrant_UserID grant))
      (OAuthClient_ClientID client) (expiresAt / Second)%Z (now_ / Second)%Z (OAuthGrant_AuthTime grant / Second)%Z
      nonce ("urn:credbound:aal:" +:+ FormatInt (OAuthGrant_AAL grant))
      (if empty_string (OAuthGrant_AuthMethod grant) then [] else [OAuthGrant_AuthMethod grant])
      email.1 email.2)).

Definition token_response (raw : string) (issuer : OAuthIssuer) (refresh : string) (scopes : list string)
    (idToken : string) : OAuthTokenResponse :=
  mkOAuthTokenResponse raw "Bearer" (Z.quot (OAuthIssuer_AccessTokenTTL issuer) Second) refresh
    (Join " " scopes) idToken.

(** ** The token endpoint *)

(** [Manager.revokeOAuthGrantForCodeReplay]: best effort *)
Definition revokeOAuthGrantForCodeReplay (client : OAuthClient) (code : OAuthAuthorizationCode) :
    M World unit :=
  _ ← attempt (
    grant ← lookup_valid (λ ctx, OAuthGrant_ ctx (OAuthAuthorizationCode_GrantID code))
      (λ g, not_nil (OAuthGrant_RevokedAt g)) ErrNotFound;
    audit ← client_audit client "oauth.code.reuse_detected" "oauth_grant" (UUID_String (OAuthGrant_ID grant))
      (OAuthGrant_WorkspaceID grant) "reuse_detected";
    change ← newOAuthChange EventOAuthCodeReuseDetected "oauth.code.reuse_detected" audit client
      (OAuthGrant_ID grant) Nil (OAuthGrant_ResourceID grant) (OAuthGrant_WorkspaceID grant)
      (OAuthGrant_Scopes grant);
    at_ ← now;
    call (λ ctx, RevokeOAuthGrant ctx (OAuthGrant_ID grant) at_ change.2);;
    emitOAuthChange change.1);
  mret tt.

(** The refresh token an exchange adds for offline access. *)
Definition offline_token (oauth : OAuthConfig) (issuer : OAuthIssuer) (client : OAuthClient)
    (grant : OAuthGrant) : M World (option OAuthRefreshToken * string) :=
  if contains (OAuthGrant_Scopes grant) "offline_access" && contains (OAuthClient_GrantTypes client) "refresh_token"
  then
    made ← newOAuthRefreshToken oauth grant Nil (OAuthIssuer_RefreshTokenTTL issuer);
    mret (Some made.1, made.2)
  else mret (None, EmptyString).

(** [Manager.ExchangeOAuthAuthorizationCode] *)
Definition Manager_ExchangeOAuthAuthorizationCode (input : ExchangeOAuthAuthorizationCodeInput) :
    M World OAuthTokenResponse :=
  oauth ← requireOAuth;
  authenticated ← authenticateOAuthClient oauth (mkClientCredentials
    (ExchangeOAuthAuthorizationCodeInput_Issuer input) (ExchangeOAuthAuthorizationCodeInput_ClientID input)
    (ExchangeOAuthAuthorizationCodeInput_ClientSecret input)
    (ExchangeOAuthAuthorizationCodeInput_ClientSecretInBody input)
    (ExchangeOAuthAuthorizationCodeInput_ClientAssertion input)
    (ExchangeOAuthAuthorizationCodeInput_ClientAssertionType input));
  let '(issuer, client) := authenticated in
  let raw := ExchangeOAuthAuthorizationCodeInput_Code input in
  let verifier := ExchangeOAuthAuthorizationCodeInput_CodeVerifier input in
  prefix ← ok_or (parseOAuthBearer "cbc" raw) ErrInvalidCredentials;
  throw_if (negb (pkceVerifierPattern verifier)) ErrInvalidCredentials;;
  code ← lookup_valid (λ ctx, OAuthAuthorizationCodeByPrefix ctx prefix)
    (λ c, negb (bool_decide (OAuthAuthorizationCode_ClientRecordID c = OAuthClient_ID client)) ||
          negb (bool_decide (OAuthAuthorizationCode_Digest c = oauthDigest oauth "authorization-code" raw)))
    ErrInvalidCredentials;
  (if not_nil (OAuthAuthorizationCode_UsedAt code)
   then revokeOAuthGrantForCodeReplay client code;; throw ErrInvalidCredentials else mret tt);;
  throw_if (negb (bool_decide (OAuthAuthorizationCode_RedirectURI code =
                               ExchangeOAuthAuthorizationCodeInput_RedirectURI input))) ErrInvalidCredentials;;
  checked ← now;
  throw_if (negb (Time_Before checked (OAuthAuthorizationCode_ExpiresAt code)) ||
            negb (verifyPKCE verifier (OAuthAuthorizationCode_CodeChallenge code))) ErrInvalidCredentials;;
  active ← active_grant (OAuthAuthorizationCode_GrantID code) client
    (ExchangeOAuthAuthorizationCodeInput_Resource input)
    (λ grant resource,
      negb (bool_decide (OAuthProtectedResource_ID resource = OAuthAuthorizationCode_ResourceID code)) ||
      negb (bool_decide (OAuthGrant_Scopes grant = OAuthAuthorizationCode_Scopes code)));
  let '(grant, resource) := active in
  made ← newOAuthAccessToken oauth grant (OAuthIssuer_AccessTokenTTL issuer);
  let '(access, rawAccess) := made in
  offline ← offline_token oauth issuer client grant;
  let '(refresh, rawRefresh) := offline in
  let workspaceID := OAuthGrant_WorkspaceID grant in
  audit ← client_audit client "oauth.token.issued" "oauth_grant" (UUID_String (OAuthGrant_ID grant))
    workspaceID EmptyString;
  change ← newOAuthChange EventOAuthTokenIssued "oauth.token.exchange" audit client (OAuthGrant_ID grant)
    (OAuthAccessToken_ID access) (OAuthProtectedResource_ID resource) workspaceID (OAuthGrant_Scopes grant);
  usedAt ← now;
  mapped_credential "oauth.token.exchange" (call (λ ctx,
    ConsumeOAuthAuthorizationCode ctx (OAuthAuthorizationCode_ID code) usedAt access refresh change.2));;
  emitOAuthChange change.1;;
  idToken ← oauthIDToken oauth issuer client grant (OAuthAuthorizationCode_Nonce code)
    (OAuthAccessToken_ExpiresAt access);
  mret (token_response rawAccess issuer rawRefresh (OAuthGrant_Scopes grant) idToken).

(** [Manager.IssueOAuthClientCredentials] *)
Definition Manager_IssueOAuthClientCredentials (input : OAuthClientCredentialsInput) :
    M World OAuthTokenResponse :=
  oauth ← requireOAuth;
  authenticated ← authenticateOAuthClient oauth (mkClientCredentials
    (OAuthClientCredentialsInput_Issuer input) (OAuthClientCredentialsInput_ClientID input)
    (OAuthClientCredentialsInput_ClientSecret input) (OAuthClientCredentialsInput_ClientSecretInBody input)
    (OAuthClientCredentialsInput_ClientAssertion input) (OAuthClientCredentialsInput_ClientAssertionType input));
  let '(issuer, client) := authenticated in
  throw_if (bool_decide (OAuthClient_TokenEndpointAuthMethod client = OAuthAuthNone) ||
            negb (bool_decide (OAuthClient_Source client = OAuthClientPreRegistered)) ||
            negb (contains (OAuthClient_GrantTypes client) "client_credentials")) ErrForbidden;;
  resourceURL ← lift_result (validateResourceURL (OAuthClientCredentialsInput_Resource input));
  throw_if (negb (contains (OAuthClient_ClientCredentialsResources client) resourceURL)) ErrForbidden;;
  resource ← lookup_valid (λ ctx, OAuthProtectedResourceByURI ctx resourceURL)
    (λ r, negb (bool_decide (OAuthProtectedResource_IssuerID r = OAuthIssuer_ID issuer)) ||
          not_nil (OAuthProtectedResource_DisabledAt r)) ErrForbidden;
  scopes ← lift_result (clientCredentialsScopes client resource (OAuthClientCredentialsInput_Scopes input));
  id ← newID;
  bearer ← newOAuthBearer "cba";
  let '(prefix, raw) := bearer in
  now_ ← now;
  let workspaceID := OAuthProtectedResource_WorkspaceID resource in
  let token := mkOAuthClientAccessToken id prefix (oauthDigest oauth "access-token" raw)
    (OAuthClient_ID client) (OAuthIssuer_ID issuer) (OAuthProtectedResource_ID resource) workspaceID scopes
    now_ (now_ + OAuthIssuer_AccessTokenTTL issuer)%Z None in
  audit ← client_audit client "oauth.token.client_credentials" "oauth_client"
    (UUID_String (OAuthClient_ID client)) workspaceID EmptyString;
  mapped_credential "oauth.token.client_credentials" (call (λ ctx,
    CreateOAuthClientAccessToken ctx token (audit_commit audit)));;
  mret (token_response raw issuer EmptyString scopes EmptyString).

(** [Manager.revokeOAuthRefreshFamily] *)
Definition revokeOAuthRefreshFamily (token : OAuthRefreshToken) (client : OAuthClient) (reason : string) :
    M World unit :=
  audit ← client_audit client "oauth.refresh_family.revoked" "oauth_refresh_family"
    (UUID_String (OAuthRefreshToken_FamilyID token)) (OAuthRefreshToken_WorkspaceID token) reason;
  let name := if bool_decide (reason = "reuse_detected") then EventOAuthRefreshReuseDetected
              else EventOAuthTokenRevoked in
  change ← newOAuthChange name "oauth.refresh_family.revoke" audit client (OAuthRefreshToken_GrantID token)
    (OAuthRefreshToken_ID token) (OAuthRefreshToken_ResourceID token) (OAuthRefreshToken_WorkspaceID token)
    (OAuthRefreshToken_Scopes token);
  at_ ← now;
  mapped "oauth.refresh_family.revoke" (call (λ ctx,
    RevokeOAuthRefreshFamily ctx (OAuthRefreshToken_FamilyID token) at_ change.2));;
  emitOAuthChange change.1.

(** A spent refresh token burns its family, whatever comes of it. *)
Definition reuse_detected {A} (token : OAuthRefreshToken) (client : OAuthClient) : M World A :=
  _ ← attempt (revokeOAuthRefreshFamily token client "reuse_detected");
  throw ErrInvalidCredentials.

(** The scopes of a refresh: those of the token, or a subset. *)
Definition refresh_scopes (requested granted : list string) : M World (list string) :=
  if bool_decide (requested = []) then mret granted
  else
    let bad := Wrapped "refresh scopes must be a subset of the grant" ErrInvalidInput in
    scopes ← ok_or (match normalizeOptionalOAuthScopes requested with Ok l => Some l | Error _ => None end) bad;
    throw_if (negb (scopesSubset scopes granted)) bad;;
    mret scopes.

(** [Manager.RefreshOAuthToken] *)
Definition Manager_RefreshOAuthToken (input : RefreshOAuthTokenInput) : M World OAuthTokenResponse :=
  oauth ← requireOAuth;
  authenticated ← authenticateOAuthClient oauth (mkClientCredentials
    (RefreshOAuthTokenInput_Issuer input) (RefreshOAuthTokenInput_ClientID input)
    (RefreshOAuthTokenInput_ClientSecret input) (RefreshOAuthTokenInput_ClientSecretInBody input)
    (RefreshOAuthTokenInput_ClientAssertion input) (RefreshOAuthTokenInput_ClientAssertionType input));
  let '(issuer, client) := authenticated in
  let raw := RefreshOAuthTokenInput_RefreshToken input in
  prefix ← ok_or (parseOAuthBearer "cbr" raw) ErrInvalidCredentials;
  previous ← lookup_valid (λ ctx, OAuthRefreshTokenByPrefix ctx prefix)
    (λ t, negb (bool_decide (OAuthRefreshToken_ClientRecordID t = OAuthClient_ID client)) ||
          negb (bool_decide (OAuthRefreshToken_Digest t = oauthDigest oauth "refresh-token" raw)))
    ErrInvalidCredentials;
  (if not_nil (OAuthRefreshToken_UsedAt previous) || not_nil (OAuthRefreshToken_RevokedAt previous)
   then reuse_detected previous client else mret tt);;
  checked ← now;
  throw_if (negb (Time_Before checked (OAuthRefreshToken_ExpiresAt previous))) ErrExpired;;
  active ← active_grant (OAuthRefreshToken_GrantID previous) client (RefreshOAuthTokenInput_Resource input)
    (λ _ resource,
      negb (bool_decide (OAuthProtectedResource_ID resource = OAuthRefreshToken_ResourceID previous)));
  let '(grant, resource) := active in
  scopes ← refresh_scopes (RefreshOAuthTokenInput_Scopes input) (OAuthRefreshToken_Scopes previous);
  let grant := grant <| OAuthGrant_Scopes := scopes |> in
  made ← newOAuthAccessToken oauth grant (OAuthIssuer_AccessTokenTTL issuer);
  let '(access, rawAccess) := made in
  next ← newOAuthRefreshToken oauth grant (OAuthRefreshToken_FamilyID previous)
    (OAuthIssuer_RefreshTokenTTL issuer);
  let '(replacement, rawRefresh) := next in
  let workspaceID := OAuthGrant_WorkspaceID grant in
  audit ← client_audit client "oauth.token.refreshed" "oauth_grant" (UUID_String (OAuthGrant_ID grant))
    workspaceID EmptyString;
  change ← newOAuthChange EventOAuthTokenRefreshed "oauth.token.refresh" audit client (OAuthGrant_ID grant)
    (OAuthAccessToken_ID access) (OAuthProtectedResource_ID resource) workspaceID scopes;
  usedAt ← now;
  rotated ← attempt (call (λ ctx,
    RotateOAuthRefreshToken ctx (OAuthRefreshToken_ID previous) usedAt access replacement change.2));
  (match rotated with
   | Ok _ => mret tt
   | Error e =>
       if errors_Is e ErrConflict || errors_Is e ErrInvalidCredentials then reuse_detected previous client
       else e' ← mapStoreError "oauth.token.refresh" e; throw e'
   end);;
  emitOAuthChange change.1;;
  idToken ← oauthIDToken oauth issuer client grant EmptyString (OAuthAccessToken_ExpiresAt access);
  mret (token_response rawAccess issuer rawRefresh scopes idToken).

(** ** Revocation *)

(** [Manager.revokeOAuthClientAccessToken] *)
Definition revokeOAuthClientAccessToken (oauth : OAuthConfig) (client : OAuthClient) (prefix raw : string)
    (now_ : Z) : M World unit :=
  found ← attempt (lookup_valid (λ ctx, OAuthClientAccessTokenByPrefix ctx prefix)
    (λ t, negb (bool_decide (OAuthClientAccessToken_ClientRecordID t = OAuthClient_ID client)) ||
          not_nil (OAuthClientAccessToken_RevokedAt t) ||
          negb (bool_decide (OAuthClientAccessToken_Digest t = oauthDigest oauth "access-token" raw)))
    ErrNotFound);
  match found with
  | Error _ => mret tt
  | Ok token =>
      audit ← client_audit client "oauth.token.revoked" "oauth_client_access_token"
        (UUID_String (OAuthClientAccessToken_ID token)) (OAuthClientAccessToken_WorkspaceID token) EmptyString;
      change ← newOAuthChange EventOAuthTokenRevoked "oauth.token.revoke" audit client Nil
        (OAuthClientAccessToken_ID token) (OAuthClientAccessToken_ResourceID token)
        (OAuthClientAccessToken_WorkspaceID token) (OAuthClientAccessToken_Scopes token);
      mapped "oauth.token.revoke" (call (λ ctx,
        RevokeOAuthClientAccessToken ctx (OAuthClientAccessToken_ID token) now_ change.2));;
      emitOAuthChange change.1
  end.

(** The branch of an access token. *)
Definition revoke_access (oauth : OAuthConfig) (client : OAuthClient) (prefix raw : string) (now_ : Z) :
    M World unit :=
  found ← attempt (lookup_valid (λ ctx, OAuthAccessTokenByPrefix ctx prefix)
    (λ t, negb (bool_decide (OAuthAccessToken_ClientRecordID t = OAuthClient_ID client)) ||
          negb (bool_decide (OAuthAccessToken_Digest t = oauthDigest oauth "access-token" raw)))
    ErrNotFound);
  match found with
  | Error _ => revokeOAuthClientAccessToken oauth client prefix raw now_
  | Ok token =>
      audit ← client_audit client "oauth.token.revoked" "oauth_access_token"
        (UUID_String (OAuthAccessToken_ID token)) (OAuthAccessToken_WorkspaceID token) EmptyString;
      change ← newOAuthChange EventOAuthTokenRevoked "oauth.token.revoke" audit client
        (OAuthAccessToken_GrantID token) (OAuthAccessToken_ID token) (OAuthAccessToken_ResourceID token)
        (OAuthAccessToken_WorkspaceID token) (OAuthAccessToken_Scopes token);
      mapped "oauth.token.revoke" (call (λ ctx,
        RevokeOAuthAccessToken ctx (OAuthAccessToken_ID token) now_ change.2));;
      emitOAuthChange change.1
  end.

(** [Manager.RevokeOAuthToken] *)
Definition Manager_RevokeOAuthToken (input : RevokeOAuthTokenInput) : M World unit :=
  oauth ← requireOAuth;
  authenticated ← authenticateOAuthClient oauth (mkClientCredentials
    (RevokeOAuthTokenInput_Issuer input) (RevokeOAuthTokenInput_ClientID input)
    (RevokeOAuthTokenInput_ClientSecret input) (RevokeOAuthTokenInput_ClientSecretInBody input)
    (RevokeOAuthTokenInput_ClientAssertion input) (RevokeOAuthTokenInput_ClientAssertionType input));
  let client := authenticated.2 in
  let raw := RevokeOAuthTokenInput_Token input in
  now_ ← now;
  match parseOAuthBearer "cba" raw with
  | Some prefix => revoke_access oauth client prefix raw now_
  | None =>
      match parseOAuthBearer "cbr" raw with
      | None => mret tt
      | Some prefix =>
          found ← attempt (lookup_valid (λ ctx, OAuthRefreshTokenByPrefix ctx prefix)
            (λ t, negb (bool_decide (OAuthRefreshToken_ClientRecordID t = OAuthClient_ID client)) ||
                  negb (bool_decide (OAuthRefreshToken_Digest t = oauthDigest oauth "refresh-token" raw)))
            ErrNotFound);
          match found with
          | Error _ => mret tt
          | Ok token => revokeOAuthRefreshFamily token client "client_revocation"
          end
      end
  end.

(** ** Bearer validation *)

(** [Manager.authenticateOAuthClientToken] *)
Definition authenticateOAuthClientToken (oauth : OAuthConfig) (prefix raw resourceURI : string) :
    M World OAuthAuthentication :=
  token ← lookup_valid (λ ctx, OAuthClientAccessTokenByPrefix ctx prefix)
    (λ t, not_nil (OAuthClientAccessToken_RevokedAt t)) ErrInvalidCredentials;
  checked ← now;
  throw_if (negb (Time_Before checked (OAuthClientAccessToken_ExpiresAt token)) ||
            negb (bool_decide (OAuthClientAccessToken_Digest token = oauthDigest oauth "access-token" raw)))
    ErrInvalidCredentials;;
  client ← lookup_valid (λ ctx, OAuthClientByID ctx (OAuthClientAccessToken_ClientRecordID token))
    (λ c, not_nil (OAuthClient_DisabledAt c) ||
          negb (bool_decide (OAuthClient_IssuerID c = OAuthClientAccessToken_IssuerID token)) ||
          negb (bool_decide (OAuthClient_Source c = OAuthClientPreRegistered))) ErrInvalidCredentials;
  issuer ← lookup_valid (λ ctx, OAuthIssuerByID ctx (OAuthClientAccessToken_IssuerID token))
    (λ i, not_nil (OAuthIssuer_DisabledAt i)) ErrInvalidCredentials;
  resource ← lookup_valid (λ ctx, OAuthProtectedResourceByID ctx (OAuthClientAccessToken_ResourceID token))
    (λ r, not_nil (OAuthProtectedResource_DisabledAt r) ||
          negb (bool_decide (OAuthProtectedResource_IssuerID r = OAuthIssuer_ID issuer)) ||
          negb (bool_decide (OAuthProtectedResource_WorkspaceID r = OAuthClientAccessToken_WorkspaceID token)))
    ErrInvalidCredentials;
  throw_if (negb (contains (OAuthClient_ClientCredentialsResources client)
                    (OAuthProtectedResource_Resource resource))) ErrInvalidCredentials;;
  throw_if (other_resource resourceURI resource) ErrInvalidCredentials;;
  _ ← lookup_valid (λ ctx, WorkspaceByID ctx (OAuthClientAccessToken_WorkspaceID token))
    (λ w, not_nil (Workspace_DisabledAt w)) ErrInvalidCredentials;
  now_ ← now;
  mret (mkOAuthAuthentication (OAuthClientAccessToken_ID token) Nil (OAuthClient_ID client)
    (OAuthClient_ClientID client) Nil (OAuthClientAccessToken_WorkspaceID token)
    (OAuthProtectedResource_Resource resource) (OAuthClientAccessToken_Scopes token) now_).

(** The digest and the lifetime of a user's access token. *)
Definition live_token (oauth : OAuthConfig) (raw : string) (token : OAuthAccessToken) : M World unit :=
  throw_if (not_nil (OAuthAccessToken_RevokedAt token)) ErrInvalidCredentials;;
  checked ← now;
  throw_if (negb (Time_Before checked (OAuthAccessToken_ExpiresAt token)) ||
            negb (bool_decide (OAuthAccessToken_Digest token = oauthDigest oauth "access-token" raw)))
    ErrInvalidCredentials.

(** [Manager.AuthenticateOAuthAccessToken] *)
Definition Manager_AuthenticateOAuthAccessToken (resourceURI raw : string) : M World OAuthAuthentication :=
  oauth ← requireOAuth;
  prefix ← ok_or (parseOAuthBearer "cba" raw) ErrInvalidCredentials;
  found ← attempt (call (λ ctx, OAuthAccessTokenByPrefix ctx prefix));
  match found with
  | Error e =>
      if errors_Is e ErrNotFound then authenticateOAuthClientToken oauth prefix raw resourceURI
      else throw ErrInvalidCredentials
  | Ok token =>
      live_token oauth raw token;;
      client ← lookup_valid (λ ctx, OAuthClientByID ctx (OAuthAccessToken_ClientRecordID token))
        (λ _, false) ErrInvalidCredentials;
      active ← active_grant (OAuthAccessToken_GrantID token) client resourceURI
        (λ grant resource,
          negb (bool_decide (OAuthAccessToken_ResourceID token = OAuthProtectedResource_ID resource)) ||
          negb (bool_decide (OAuthAccessToken_UserID token = OAuthGrant_UserID grant)) ||
          negb (bool_decide (OAuthAccessToken_WorkspaceID token = OAuthGrant_WorkspaceID grant)) ||
          negb (scopesSubset (OAuthAccessToken_Scopes token) (OAuthGrant_Scopes grant)));
      let '(grant, resource) := active in
      now_ ← now;
      mret (mkOAuthAuthentication (OAuthAccessToken_ID token) (OAuthGrant_ID grant) (OAuthClient_ID client)
        (OAuthClient_ClientID client) (OAuthAccessToken_UserID token) (OAuthAccessToken_WorkspaceID token)
        (OAuthProtectedResource_Resource resource) (OAuthAccessToken_Scopes token) now_)
  end.

(** [Manager.OAuthUserInfo] *)
Definition Manager_OAuthUserInfo (issuerURL rawAccessToken : string) : M World OIDCUserInfo :=
  oauth ← requireOAuth;
  issuerURL ← lift_result (validateIssuerURL issuerURL);
  issuer ← lookup_valid (λ ctx, OAuthIssuerByURL ctx issuerURL)
    (λ i, negb (OAuthIssuer_OIDCEnabled i) || not_nil (OAuthIssuer_DisabledAt i)) ErrNotSupported;
  prefix ← ok_or (parseOAuthBearer "cba" rawAccessToken) ErrInvalidCredentials;
  token ← lookup_valid (λ ctx, OAuthAccessTokenByPrefix ctx prefix) (λ _, false) ErrInvalidCredentials;
  live_token oauth rawAccessToken token;;
  throw_if (negb (contains (OAuthAccessToken_Scopes token) "openid")) ErrInvalidCredentials;;
  grant ← lookup_valid (λ ctx, OAuthGrant_ ctx (OAuthAccessToken_GrantID token))
    (λ g, negb (bool_decide (OAuthGrant_IssuerID g = OAuthIssuer_ID issuer)) ||
          not_nil (OAuthGrant_RevokedAt g)) ErrInvalidCredentials;
  client ← lookup_valid (λ ctx, OAuthClientByID ctx (OAuthAccessToken_ClientRecordID token))
    (λ _, false) ErrInvalidCredentials;
  let userID := OAuthAccessToken_UserID token in
  _ ← lookup_valid (λ ctx, UserByID ctx userID) User_Disabled ErrInvalidCredentials;
  _ ← lookup_valid (λ ctx, WorkspaceByID ctx (OAuthGrant_WorkspaceID grant))
    (λ w, not_nil (Workspace_DisabledAt w)) ErrInvalidCredentials;
  email ← if contains (OAuthAccessToken_Scopes token) "email" then oauthPrimaryEmail userID
          else mret (EmptyString, None);
  mret (mkOIDCUserInfo (oauthPairwiseSubject oauth (OAuthIssuer_ID issuer)
    (OAuthClient_SectorIdentifier client) userID) email.1 email.2).

(** ** Discovery *)

(** [Manager.OAuthAuthorizationServerMetadata] *)
Definition Manager_OAuthAuthorizationServerMetadata (issuerURL : string) :
    M World OAuthAuthorizationServerMetadata :=
  oauth ← requireOAuth;
  issuerURL ← lift_result (validateIssuerURL issuerURL);
  issuer ← lookup_valid (λ ctx, OAuthIssuerByURL ctx issuerURL) (λ i, not_nil (OAuthIssuer_DisabledAt i))
    ErrNotFound;
  let base := OAuthIssuer_Issuer issuer in
  let oidc := OAuthIssuer_OIDCEnabled issuer in
  let when {A} (b : bool) (v zero : A) := if b then v else zero in
  mret (mkOAuthAuthorizationServerMetadata base (base +:+ "/authorize") (base +:+ "/token") (base +:+ "/revoke")
    (when (negb (bool_decide (OAuthIssuer_DCRMode issuer = OAuthDCRDisabled))) (base +:+ "/register") EmptyString)
    (when oidc (base +:+ "/.well-known/jwks.json") EmptyString)
    (when oidc (base +:+ "/userinfo") EmptyString) []
    ["code"] ["authorization_code"; "refresh_token"; "client_credentials"]
    [OAuthAuthNone; OAuthAuthPrivateKeyJWT; OAuthAuthClientSecretBasic] ["S256"] true
    (negb (bool_decide (OAuthIssuer_CIMDMode issuer = OAuthCIMDDisabled)))
    (when oidc ["pairwise"] [])
    (when oidc (match OAuthConfig_OIDCSigner oauth with Some s => oidc_Algorithms s | None => [] end) [])).

(** [Manager.OAuthProtectedResourceMetadata] *)
Definition Manager_OAuthProtectedResourceMetadata (resourceURI : string) :
    M World OAuthProtectedResourceMetadata :=
  _ ← requireOAuth;
  resourceURI ← lift_result (validateResourceURL resourceURI);
  resource ← lookup_valid (λ ctx, OAuthProtectedResourceByURI ctx resourceURI)
    (λ r, not_nil (OAuthProtectedResource_DisabledAt r)) ErrNotFound;
  issuer ← lookup_valid (λ ctx, OAuthIssuerByID ctx (OAuthProtectedResource_IssuerID resource))
    (λ i, not_nil (OAuthIssuer_DisabledAt i)) ErrNotFound;
  mret (mkOAuthProtectedResourceMetadata (OAuthProtectedResource_Resource resource) [OAuthIssuer_Issuer issuer]
    (OAuthScopeDefinition_Name <$> OAuthProtectedResource_Scopes resource) ["header"]).

(** [Manager.OAuthJWKS] *)
Definition Manager_OAuthJWKS (issuerURL : string) : M World string :=
  oauth ← requireOAuth;
  issuerURL ← lift_result (validateIssuerURL issuerURL);
  _ ← lookup_valid (λ ctx, OAuthIssuerByURL ctx issuerURL)
    (λ i, negb (OAuthIssuer_OIDCEnabled i) || not_nil (OAuthIssuer_DisabledAt i)) ErrNotSupported;
  signer ← ok_or (OAuthConfig_OIDCSigner oauth) ErrNotSupported;
  port (oidc_JWKS signer).

End oauth_tokens.
