(* ===== verification/ManagerOAuthAdmin.v ===== *)
(** * OAuth administration (src/oauth_admin.go)

    The kill switches of issuers, resources and clients, the rotation of
    client credentials, the revocation of grants, the listings. *)
From stdpp Require Import base gmap sets list strings numbers.
From Stdlib Require Import ZArith Lia Ascii.
From S2P Require Import Prelude Bytes GoJson Uuid Types OAuthTypes Roles AuditChain Store StoreUsers StoreTokens StoreWorkspaces StoreOAuth StorePages Commit StoreSystem Tokens Events Manager ManagerGates Config ManagerEmail OAuthPolicy ManagerOAuth.

Section oauth_admin.
Context {E : Env}.
Abbreviation m := the_manager.

(** ** Kill switches *)

(** [Manager.setOAuthIssuerDisabled] *)
Definition setOAuthIssuerDisabled (actor : Authentication) (request : TrustedRequest) (issuerID : UUID)
    (disabled : bool) : M World unit :=
  let operation := if disabled then "oauth.issuer.disable" else "oauth.issuer.enable" in
  let name := if disabled then EventOAuthIssuerDisabled else EventOAuthIssuerEnabled in
  _ ← requireOAuth;
  settings_gate actor request operation;;
  require_v7 issuerID "invalid OAuth issuer id";;
  issuer ← call (λ ctx, OAuthIssuerByID ctx issuerID);
  if Bool.eqb (not_nil (OAuthIssuer_DisabledAt issuer)) disabled then mret tt
  else
    audit ← newAudit (Authentication_UserID actor) operation "oauth_issuer" (UUID_String issuerID) Nil
      AuditSucceeded EmptyString;
    commit_client name operation audit (OAuthClient_zero <| OAuthClient_IssuerID := issuerID |>) []
      (λ at_ commit ctx, SetOAuthIssuerDisabled ctx issuerID disabled at_ commit).

(** [Manager.DisableOAuthIssuer] and [Manager.EnableOAuthIssuer] *)
Definition Manager_DisableOAuthIssuer (actor : Authentication) (request : TrustedRequest)
    (issuerID : UUID) : M World unit := setOAuthIssuerDisabled actor request issuerID true.
Definition Manager_EnableOAuthIssuer (actor : Authentication) (request : TrustedRequest)
    (issuerID : UUID) : M World unit := setOAuthIssuerDisabled actor request issuerID false.

(** [Manager.setOAuthProtectedResourceDisabled] *)
Definition setOAuthProtectedResourceDisabled (actor : Authentication) (workspaceID resourceID : UUID)
    (disabled : bool) : M World unit :=
  let operation := if disabled then "oauth.resource.disable" else "oauth.resource.enable" in
  let name := if disabled then EventOAuthResourceDisabled else EventOAuthResourceEnabled in
  _ ← requireOAuth;
  authorizeWorkspaceMutation actor workspaceID PermissionOAuthResourceManage operation;;
  resource ← call (λ ctx, OAuthProtectedResourceByID ctx resourceID);
  throw_if (negb (bool_decide (OAuthProtectedResource_WorkspaceID resource = workspaceID))) ErrForbidden;;
  if Bool.eqb (not_nil (OAuthProtectedResource_DisabledAt resource)) disabled then mret tt
  else
    audit ← newAudit (Authentication_UserID actor) operation "oauth_resource" (UUID_String resourceID)
      workspaceID AuditSucceeded EmptyString;
    change ← newOAuthChange name operation audit
      (OAuthClient_zero <| OAuthClient_IssuerID := OAuthProtectedResource_IssuerID resource |>)
      Nil Nil resourceID workspaceID [];
    at_ ← now;
    mapped operation (call (λ ctx,
      SetOAuthProtectedResourceDisabled ctx resourceID disabled at_ change.2));;
    emitOAuthChange change.1.

(** [Manager.DisableOAuthProtectedResource] and [Manager.EnableOAuthProtectedResource] *)
Definition Manager_DisableOAuthProtectedResource (actor : Authentication)
    (workspaceID resourceID : UUID) : M World unit :=
  setOAuthProtectedResourceDisabled actor workspaceID resourceID true.
Definition Manager_EnableOAuthProtectedResource (actor : Authentication)
    (workspaceID resourceID : UUID) : M World unit :=
  setOAuthProtectedResourceDisabled actor workspaceID resourceID false.

(** [Manager.setOAuthClientDisabled] *)
Definition setOAuthClientDisabled (actor : Authentication) (request : TrustedRequest)
    (clientRecordID : UUID) (disabled : bool) : M World unit :=
  let operation := if disabled then "oauth.client.disable" else "oauth.client.enable" in
  let name := if disabled then EventOAuthClientDisabled else EventOAuthClientEnabled in
  _ ← requireOAuth;
  settings_gate actor request operation;;
  require_v7 clientRecordID "invalid OAuth client id";;
  client ← call (λ ctx, OAuthClientByID ctx clientRecordID);
  if Bool.eqb (not_nil (OAuthClient_DisabledAt client)) disabled then mret tt
  else
    audit ← newAudit (Authentication_UserID actor) operation "oauth_client" (UUID_String clientRecordID) Nil
      AuditSucceeded EmptyString;
    commit_client name operation audit client (OAuthClient_Scopes client)
      (λ at_ commit ctx, SetOAuthClientDisabled ctx clientRecordID disabled at_ commit).

(** [Manager.DisableOAuthClient] and [Manager.EnableOAuthClient] *)
Definition Manager_DisableOAuthClient (actor : Authentication) (request : TrustedRequest)
    (clientRecordID : UUID) : M World unit := setOAuthClientDisabled actor request clientRecordID true.
Definition Manager_EnableOAuthClient (actor : Authentication) (request : TrustedRequest)
    (clientRecordID : UUID) : M World unit := setOAuthClientDisabled actor request clientRecordID false.

(** ** Credentials of clients *)
Definition cimd_credentials : error :=
  Wrapped "a CIMD client's credentials follow its published metadata" ErrConflict.

(** [Manager.RotateOAuthClientSecret] *)
Definition Manager_RotateOAuthClientSecret (actor : Authentication) (request : TrustedRequest)
    (clientRecordID : UUID) : M World IssuedOAuthClient :=
  oauth ← requireOAuth;
  settings_gate actor request "oauth.client.rotate_secret";;
  require_v7 clientRecordID "invalid OAuth client id";;
  client ← call (λ ctx, OAuthClientByID ctx clientRecordID);
  throw_if (bool_decide (OAuthClient_Source client = OAuthClientCIMD)) cimd_credentials;;
  throw_if (negb (bool_decide (OAuthClient_TokenEndpointAuthMethod client = OAuthAuthClientSecretBasic)))
    (Wrapped "client does not authenticate with client_secret_basic" ErrInvalidInput);;
  secret ← randomBytes 32;
  let rawSecret := "cbos_" +:+ base64_RawURL_EncodeToString secret in
  let secretDigest := oauthDigest oauth "client-secret" rawSecret in
  audit ← newAudit (Authentication_UserID actor) "oauth.client.rotate_secret" "oauth_client"
    (UUID_String clientRecordID) Nil AuditSucceeded EmptyString;
  change ← newOAuthChange EventOAuthClientSecretRotated "oauth.client.rotate_secret" audit client
    Nil Nil Nil Nil (OAuthClient_Scopes client);
  now_ ← now;
  mapped "oauth.client.rotate_secret" (call (λ ctx,
    RotateOAuthClientCredentials ctx clientRecordID (Some secretDigest) None EmptyString now_ change.2));;
  emitOAuthChange change.1;;
  mret (mkIssuedOAuthClient (publicOAuthClient (client <| OAuthClient_SecretDigest := secretDigest |>
    <| OAuthClient_UpdatedAt := now_ |>)) rawSecret).

(** [Manager.ReplaceOAuthClientJWKS] *)
Definition Manager_ReplaceOAuthClientJWKS (actor : Authentication) (request : TrustedRequest)
    (clientRecordID : UUID) (jwks : string) : M World unit :=
  _ ← requireOAuth;
  settings_gate actor request "oauth.client.replace_jwks";;
  require_v7 clientRecordID "invalid OAuth client id";;
  throw_if (empty_string jwks || bool_decide (32 * 1024 < Z.of_nat (str_len jwks))%Z || negb (json_Valid jwks))
    (Wrapped "invalid jwks" ErrInvalidInput);;
  client ← call (λ ctx, OAuthClientByID ctx clientRecordID);
  throw_if (bool_decide (OAuthClient_Source client = OAuthClientCIMD)) cimd_credentials;;
  throw_if (negb (bool_decide (OAuthClient_TokenEndpointAuthMethod client = OAuthAuthPrivateKeyJWT)))
    (Wrapped "client does not authenticate with private_key_jwt" ErrInvalidInput);;
  throw_if (empty_string (OAuthClient_JWKS client))
    (Wrapped "client publishes a jwks_uri and rotates keys there" ErrConflict);;
  let metadataHash := oauthClientMetadataHash (client <| OAuthClient_JWKS := jwks |>) in
  audit ← newAudit (Authentication_UserID actor) "oauth.client.replace_jwks" "oauth_client"
    (UUID_String clientRecordID) Nil AuditSucceeded EmptyString;
  commit_client EventOAuthClientJWKSReplaced "oauth.client.replace_jwks" audit client
    (OAuthClient_Scopes client) (λ at_ commit ctx,
      RotateOAuthClientCredentials ctx clientRecordID None (Some jwks) metadataHash at_ commit).

(** ** Grants *)

(** [Manager.RevokeOAuthGrant] *)
Definition Manager_RevokeOAuthGrant (actor : Authentication) (grantID : UUID) : M World unit :=
  _ ← requireOAuth;
  require_v7 grantID "invalid OAuth grant id";;
  grant ← call (λ ctx, OAuthGrant_ ctx grantID);
  let workspaceID := OAuthGrant_WorkspaceID grant in
  (if bool_decide (OAuthGrant_UserID grant = Authentication_UserID actor)
   then requireScopedStepUp actor StepUpScopeAccount "oauth.grant.revoke"
   else authorizeWorkspaceMutation actor workspaceID PermissionOAuthResourceManage "oauth.grant.revoke");;
  client ← call (λ ctx, OAuthClientByID ctx (OAuthGrant_ClientRecordID grant));
  audit ← newAudit (Authentication_UserID actor) "oauth.consent.revoke" "oauth_grant" (UUID_String grantID)
    workspaceID AuditSucceeded EmptyString;
  change ← newOAuthChange EventOAuthConsentRevoked "oauth.grant.revoke" audit client grantID Nil
    (OAuthGrant_ResourceID grant) workspaceID (OAuthGrant_Scopes grant);
  at_ ← now;
  mapped "oauth.grant.revoke" (call (λ ctx, RevokeOAuthGrant ctx grantID at_ change.2));;
  emitOAuthChange change.1.

(** ** Listings *)

(** [Manager.OAuthIssuers] *)
Definition Manager_OAuthIssuers (actor : Authentication) (page : PageRequest) :
    M World (Stream (PageEvent OAuthIssuer)) :=
  listing (_ ← requireOAuth; AuthorizeAdmin actor PermissionSettingsRead) page
    (λ page ctx, OAuthIssuers ctx page).

(** [Manager.OAuthProtectedResources] *)
Definition Manager_OAuthProtectedResources (actor : Authentication) (workspaceID : UUID)
    (page : PageRequest) : M World (Stream (PageEvent OAuthProtectedResource)) :=
  listing (_ ← requireOAuth; AuthorizePermission actor workspaceID PermissionOAuthResourceManage) page
    (λ page ctx, OAuthProtectedResources ctx workspaceID page).

(** [Manager.OAuthClients] *)
Definition Manager_OAuthClients (actor : Authentication) (issuerID : UUID) (page : PageRequest) :
    M World (Stream (PageEvent OAuthClient)) :=
  listing (_ ← requireOAuth;
           AuthorizeAdmin actor PermissionSettingsRead;;
           require_v7 issuerID "invalid OAuth issuer id") page
    (λ page ctx, OAuthClients ctx issuerID page).

(** [Manager.OAuthGrants] *)
Definition Manager_OAuthGrants (actor : Authentication) (workspaceID : UUID) (page : PageRequest) :
    M World (Stream (PageEvent OAuthGrant)) :=
  let everyone := bool_decide (workspaceID ≠ Nil) in
  listing (_ ← requireOAuth;
           if everyone then AuthorizePermission actor workspaceID PermissionOAuthResourceManage
           else requireRecentInteractive actor) page
    (λ page ctx, OAuthGrants ctx (if everyone then Nil else Authentication_UserID actor) workspaceID page).

End oauth_admin.
