(* ===== verification/OAuthHttp.v ===== *)
(** * The OAuth protocol endpoints (src/oauthhttp/handler.go)

    Routing, parsing of requests, the calls of the manager and the answers:
    status, headers and the value whose JSON is the body.  What the host
    supplies, the session behind an authorization request and the consent
    page, is a port and an outcome. *)
From stdpp Require Import base gmap sets list strings numbers.
From Stdlib Require Import ZArith Lia Ascii.
From S2P Require Import Prelude Bytes GoText GoNet GoJson GoUrl GoRunes GoHttp Uuid Types OAuthTypes Roles AuditChain Store StoreUsers StoreTokens StoreWorkspaces StoreOAuth StorePages Commit StoreSystem Tokens Events Manager ManagerGates Config ManagerEmail ManagerSeal OAuthPolicy ManagerOAuth ManagerOAuthTokens.

Definition maxProtocolBody : Z := 64 * 1024.

(** ** Parameters *)

(** [clientCredentials]: identifier, secret, and whether the form carried it *)
Definition clientCredentials (r : HTTPRequest) (form : Values) : result (string * string * bool) :=
  match BasicAuth r with
  | None =>
      let secret := Values_Get form "client_secret" in
      Ok (Values_Get form "client_id", secret, negb (bool_decide (secret = EmptyString)))
  | Some (basicID, basicSecret) =>
      if negb (bool_decide (Values_Get form "client_secret" = EmptyString))
      then Error (Wrapped "multiple client authentication methods" ErrInvalidCredentials)
      else Ok (basicID, basicSecret, false)
  end.

Definition bearerToken (r : HTTPRequest) : string :=
  match cut_at " " (TrimSpace (Authorization r)) with
  | Some (scheme, token) => if EqualFold scheme "Bearer" then TrimSpace token else EmptyString
  | None => EmptyString
  end.

(** [parseMaxAge]; a duration is in nanoseconds *)
Definition parseMaxAge (raw : string) : option Z :=
  if bool_decide (raw = EmptyString) then Some 0%Z
  else
    seconds ← Atoi raw;
    if bool_decide (seconds < 0)%Z then None
    else if bool_decide (seconds = 0)%Z then Some 1%Z
    else if bool_decide (int64_max / Second < seconds)%Z then None
    else Some (wrap64 (seconds * Second)).

(** [quoteAuthParam] *)
Definition quote_rune (r : Z) : list Z :=
  if bool_decide (r < 0x20)%Z || bool_decide (r = 0x7f)%Z then []
  else (if bool_decide (r = 34)%Z || bool_decide (r = 92)%Z then [92%Z] else []) ++ EncodeRune r.
Definition quoteAuthParam (value : string) : string :=
  Z_string (34%Z :: (runes value ≫= quote_rune) ++ [34%Z]).

Definition bearerChallenge (metadataURL scope problem : string) : string :=
  let part name value :=
    if bool_decide (value = EmptyString) then [] else [name +:+ "=" +:+ quoteAuthParam value] in
  let parts := part "resource_metadata" metadataURL ++ part "scope" scope ++ part "error" problem in
  if bool_decide (parts = []) then "Bearer" else "Bearer " +:+ Join ", " parts.

Definition endpointPath (raw : string) : string :=
  match url_Parse raw with
  | None => EmptyString
  | Some parsed =>
      let path := OAuthPolicy.TrimSuffix "/" (EscapedPath parsed) in
      if bool_decide (path = "/") then EmptyString else path
  end.

Definition validHandlerURL (raw : string) (issuer : bool) : bool :=
  if bool_decide (raw = EmptyString) || negb (bool_decide (raw = TrimSpace raw)) || bool_decide (2048 < str_len raw)
  then false
  else
    match url_Parse raw with
    | None => false
    | Some parsed =>
        if negb (bool_decide (URL_Scheme parsed = "https")) || bool_decide (URL_Host parsed = EmptyString) ||
           URL_User parsed || negb (bool_decide (URL_RawQuery parsed = EmptyString)) ||
           negb (bool_decide (URL_Fragment parsed = EmptyString)) || negb (bool_decide (URL_String parsed = raw))
        then false
        else negb issuer || negb (HasSuffix raw "/")
    end.

(** ** Registration documents *)
Record wireClient := mkwireClient {
  wire_ClientID : string; wire_ClientName : string; wire_ApplicationType : string;
  wire_RedirectURIs : list string; wire_GrantTypes : list string; wire_ResponseTypes : list string;
  wire_Scope : string; wire_TokenEndpointAuthMethod : string; wire_JWKSURI : string; wire_JWKS : string }.
#[export] Instance wireClient_eta : Settable wireClient := λ r,
  mkwireClient (wire_ClientID r) (wire_ClientName r) (wire_ApplicationType r) (wire_RedirectURIs r)
    (wire_GrantTypes r) (wire_ResponseTypes r) (wire_Scope r) (wire_TokenEndpointAuthMethod r) (wire_JWKSURI r)
    (wire_JWKS r).
Definition wireClient_zero : wireClient :=
  mkwireClient EmptyString EmptyString EmptyString [] [] [] EmptyString EmptyString EmptyString EmptyString.

(** The struct a registration or, with its identifier, a metadata document is
    read into; unknown members are refused. *)
Definition assign_client (with_id : bool) (key : list Z) (v : json) (raw : list Z) (c : wireClient) :
    option wireClient :=
  if with_id && is_field "client_id" key then
    x ← to_string v (wire_ClientID c); Some (c <| wire_ClientID := x |>)
  else if is_field "client_name" key then
    x ← to_string v (wire_ClientName c); Some (c <| wire_ClientName := x |>)
  else if is_field "application_type" key then
    x ← to_string v (wire_ApplicationType c); Some (c <| wire_ApplicationType := x |>)
  else if is_field "redirect_uris" key then
    x ← to_strings v (wire_RedirectURIs c); Some (c <| wire_RedirectURIs := x |>)
  else if is_field "grant_types" key then
    x ← to_strings v (wire_GrantTypes c); Some (c <| wire_GrantTypes := x |>)
  else if is_field "response_types" key then
    x ← to_strings v (wire_ResponseTypes c); Some (c <| wire_ResponseTypes := x |>)
  else if is_field "scope" key then
    x ← to_string v (wire_Scope c); Some (c <| wire_Scope := x |>)
  else if is_field "token_endpoint_auth_method" key then
    x ← to_string v (wire_TokenEndpointAuthMethod c); Some (c <| wire_TokenEndpointAuthMethod := x |>)
  else if is_field "jwks_uri" key then
    x ← to_string v (wire_JWKSURI c); Some (c <| wire_JWKSURI := x |>)
  else if is_field "jwks" key then Some (c <| wire_JWKS := Z_string raw |>)
  else None.

(** ** Answers *)

(** What the register endpoint renders of the client it made. *)
Record registrationResponse := mkregistrationResponse {
  reg_client_id : string; reg_client_name : string; reg_application_type : string;
  reg_redirect_uris : list string; reg_grant_types : list string; reg_response_types : list string;
  reg_scope : string; reg_token_endpoint_auth_method : string; reg_client_secret : option string }.

(** The value whose encoding is the body. *)
Inductive Content :=
| NoContent
| RawContent (raw : string)
| Problem (code description : string)
| ServerDocument (metadata : OAuthAuthorizationServerMetadata)
| ResourceDocument (metadata : OAuthProtectedResourceMetadata)
| TokenDocument (tokens : OAuthTokenResponse)
| ClientDocument (client : registrationResponse)
| ClaimsDocument (info : OIDCUserInfo).
Record Response := mkResponse {
  Status : Z;
  Header : list (string * string);
  Payload : Content }.
(** The host renders the consent page itself. *)
Inductive Reply :=
| Answered (r : Response)
| PresentConsent (consent : OAuthConsent).

Definition writeJSON (header : list (string * string)) (status : Z) (value : Content) : Response :=
  mkResponse status (header ++ [("Content-Type", "application/json"); ("X-Content-Type-Options", "nosniff")]) value.
Definition writeOAuthError (header : list (string * string)) (status : Z) (code description : string) : Response :=
  writeJSON header status (Problem code description).
Definition methodNotAllowed (methods : list string) : Response :=
  mkResponse 405 [("Allow", Join ", " methods)] NoContent.

Definition basic_challenge : string := "Basic realm=" +:+ String double_quote ("oauth" +:+ String double_quote EmptyString).
(** [Handler.writeError] *)
Definition writeError (err : error) : Response :=
  if errors_Is err ErrNotFound || errors_Is err ErrNotSupported
  then writeOAuthError [] 404 "invalid_request" "resource not found"
  else if errors_Is err ErrInvalidCredentials || errors_Is err ErrUnauthorized
  then writeOAuthError [("WWW-Authenticate", basic_challenge)] 401 "invalid_client" "client authentication failed"
  else if errors_Is err ErrForbidden
  then writeOAuthError [] 400 "invalid_scope" "requested access is not allowed"
  else if errors_Is err ErrExpired
  then writeOAuthError [] 400 "invalid_grant" "credential expired"
  else writeOAuthError [] 400 "invalid_request" "request rejected".

Definition authorizationError (err : error) : string * string :=
  if errors_Is err ErrForbidden then ("invalid_scope", "requested access is not allowed")
  else if errors_Is err ErrUnauthorized then ("login_required", "interactive authentication is required")
  else if errors_Is err ErrStepUpRequired then ("interaction_required", "stronger authentication is required")
  else ("invalid_request", "request rejected").

(** [Handler.writeAuthorizationError]; the URI is a registered one, so it has a
    host and neither user information nor fragment. *)
Definition writeAuthorizationError (issuer redirectURI state code description : string) : Response :=
  match url_Parse redirectURI with
  | None => writeOAuthError [] 400 "invalid_request" "request rejected"
  | Some target =>
      let query := (ParseQuery (URL_RawQuery target)).1 in
      let query := Values_Set query "error" code in
      let query := Values_Set query "error_description" description in
      let query := if bool_decide (state = EmptyString) then query else Values_Set query "state" state in
      let query := Values_Set query "iss" issuer in
      let target := mkURL (URL_Scheme target) (URL_Opaque target) (URL_User target) (URL_Host target)
        (URL_Path target) (URL_RawPath target) (URL_ForceQuery target) (Values_Encode query)
        (URL_Fragment target) in
      mkResponse 302 [("Location", URL_String target); ("Cache-Control", "no-store")] NoContent
  end.

(** [HandlerConfig]: the host's session lookup, absent when nil, and whether
    there is a consent page. *)
Record HandlerConfig := mkHandlerConfig {
  hc_Issuer : string;
  hc_Resource : string;
  hc_Authenticate : option (nat → HTTPRequest → result Authentication);
  hc_PresentConsent : bool }.

(** [New], for a manager that is not nil *)
Definition New_Handler (config : HandlerConfig) : result HandlerConfig :=
  if negb (validHandlerURL (hc_Issuer config) true) ||
     negb (bool_decide (hc_Resource config = EmptyString)) && negb (validHandlerURL (hc_Resource config) false)
  then Error (Wrapped "OAuth manager and issuer are required" ErrInvalidInput)
  else Ok config.

Section handler.
Context {E : Env}.

(** [if err != nil { h.writeError(w, err); return }] after a call *)
Definition answer {A} (p : M World A) (f : A → Response) : M World Reply :=
  r ← attempt p;
  mret (Answered (match r with Ok a => f a | Error e => writeError e end)).
Definition only (methods : list string) (r : HTTPRequest) (p : M World Reply) : M World Reply :=
  if contains methods (Method r) then p else mret (Answered (methodNotAllowed methods)).

Definition Handler_discovery (config : HandlerConfig) (r : HTTPRequest) : M World Reply :=
  only ["GET"] r
    (answer (Manager_OAuthAuthorizationServerMetadata (hc_Issuer config)) (λ metadata,
       if HasSuffix (OAuthPolicy.TrimSuffix "/" (Path r)) "/.well-known/openid-configuration" &&
          bool_decide (OAuthAuthorizationServerMetadata_JWKSURI metadata = EmptyString)
       then writeError ErrNotFound
       else writeJSON [] 200 (ServerDocument metadata))).

Definition Handler_resourceMetadata (config : HandlerConfig) (r : HTTPRequest) : M World Reply :=
  only ["GET"] r
    (if bool_decide (hc_Resource config = EmptyString) then mret (Answered (writeError ErrNotFound))
     else answer (Manager_OAuthProtectedResourceMetadata (hc_Resource config)) (λ metadata,
            writeJSON [] 200 (ResourceDocument metadata))).

Definition Handler_jwks (config : HandlerConfig) (r : HTTPRequest) : M World Reply :=
  only ["GET"] r
    (answer (Manager_OAuthJWKS (hc_Issuer config)) (λ raw,
       mkResponse 200 [("Content-Type", "application/json"); ("Cache-Control", "public, max-age=300")]
         (RawContent raw))).

Definition Handler_authorize (config : HandlerConfig) (r : HTTPRequest) : M World Reply :=
  only ["GET"] r
    match hc_Authenticate config with
    | None => mret (Answered (writeError ErrNotFound))
    | Some authenticate =>
        if negb (hc_PresentConsent config) then mret (Answered (writeError ErrNotFound))
        else
          let query := (ParseQuery (RawQuery r)).1 in
          let redirectURI := Values_Get query "redirect_uri" in
          let state := Values_Get query "state" in
          let reject code description :=
            mret (Answered (writeAuthorizationError (hc_Issuer config) redirectURI state code description)) in
          checked ← attempt (Manager_ValidateOAuthAuthorizationRedirect (hc_Issuer config)
                               (Values_Get query "client_id") redirectURI);
          match checked with
          | Error e => mret (Answered (writeError e))
          | Ok _ =>
              if negb (bool_decide (Values_Get query "response_type" = "code"))
              then reject "unsupported_response_type" "only response_type=code is supported"
              else
                actor ← attempt (port (λ i, authenticate i r));
                match actor with
                | Error _ => reject "login_required" "interactive authentication is required"
                | Ok actor =>
                    match parseMaxAge (Values_Get query "max_age") with
                    | None => reject "invalid_request" "max_age must be a non-negative number of seconds"
                    | Some maxAge =>
                        consent ← attempt (Manager_BeginOAuthAuthorization actor (mkBeginOAuthAuthorizationInput
                          (hc_Issuer config) (Values_Get query "client_id") (Values_Get query "redirect_uri")
                          (Values_Get query "resource") (Fields (Values_Get query "scope")) (Values_Get query "state")
                          (Values_Get query "code_challenge") (Values_Get query "code_challenge_method")
                          (Values_Get query "nonce") maxAge));
                        match consent with
                        | Error e => reject (authorizationError e).1 (authorizationError e).2
                        | Ok consent => mret (PresentConsent consent)
                        end
                    end
                end
          end
    end.

(** [protocolForm] followed by [clientCredentials] *)
Definition protocolForm (r : HTTPRequest) : result Values :=
  match ParseForm ToLower maxProtocolBody r with
  | Some form => Ok form
  | None => Error (Wrapped "invalid form body" ErrInvalidInput)
  end.

Definition Handler_token (config : HandlerConfig) (r : HTTPRequest) : M World Reply :=
  only ["POST"] r
    match protocolForm r with
    | Error e => mret (Answered (writeError e))
    | Ok form =>
        match clientCredentials r form with
        | Error e => mret (Answered (writeError e))
        | Ok (clientID, secret, secretInBody) =>
            let grantType := Values_Get form "grant_type" in
            let tokens p := answer p (λ result,
              writeJSON [("Cache-Control", "no-store"); ("Pragma", "no-cache")] 200 (TokenDocument result)) in
            if bool_decide (grantType = "authorization_code") then
              tokens (Manager_ExchangeOAuthAuthorizationCode (mkExchangeOAuthAuthorizationCodeInput
                (hc_Issuer config) clientID secret secretInBody (Values_Get form "client_assertion")
                (Values_Get form "client_assertion_type") (Values_Get form "code") (Values_Get form "redirect_uri")
                (Values_Get form "code_verifier") (Values_Get form "resource")))
            else if bool_decide (grantType = "refresh_token") then
              tokens (Manager_RefreshOAuthToken (mkRefreshOAuthTokenInput
                (hc_Issuer config) clientID secret secretInBody (Values_Get form "client_assertion")
                (Values_Get form "client_assertion_type") (Values_Get form "refresh_token")
                (Values_Get form "resource") (Fields (Values_Get form "scope"))))
            else if bool_decide (grantType = "client_credentials") then
              tokens (Manager_IssueOAuthClientCredentials (mkOAuthClientCredentialsInput
                (hc_Issuer config) clientID secret secretInBody (Values_Get form "client_assertion")
                (Values_Get form "client_assertion_type") (Values_Get form "resource")
                (Fields (Values_Get form "scope"))))
            else mret (Answered (writeOAuthError [] 400 "unsupported_grant_type" "unsupported grant_type"))
        end
    end.

Definition Handler_revoke (config : HandlerConfig) (r : HTTPRequest) : M World Reply :=
  only ["POST"] r
    match protocolForm r with
    | Error e => mret (Answered (writeError e))
    | Ok form =>
        match clientCredentials r form with
        | Error e => mret (Answered (writeError e))
        | Ok (clientID, secret, secretInBody) =>
            answer (Manager_RevokeOAuthToken (mkRevokeOAuthTokenInput (hc_Issuer config) clientID secret secretInBody
              (Values_Get form "client_assertion") (Values_Get form "client_assertion_type")
              (Values_Get form "token"))) (λ _, mkResponse 200 [] NoContent)
        end
    end.

Definition registration_document (issued : IssuedOAuthClient) : registrationResponse :=
  let client := IssuedOAuthClient_Client issued in
  let secret := IssuedOAuthClient_ClientSecret issued in
  mkregistrationResponse (OAuthClient_ClientID client) (OAuthClient_Name client) (OAuthClient_ApplicationType client)
    (OAuthClient_RedirectURIs client) (OAuthClient_GrantTypes client) (OAuthClient_ResponseTypes client)
    (Join " " (OAuthClient_Scopes client)) (OAuthClient_TokenEndpointAuthMethod client)
    (if bool_decide (secret = EmptyString) then None else Some secret).

Definition Handler_register (config : HandlerConfig) (r : HTTPRequest) : M World Reply :=
  only ["POST"] r
    (metadata ← attempt (Manager_OAuthAuthorizationServerMetadata (hc_Issuer config));
     match metadata with
     | Error _ => mret (Answered (writeError ErrNotFound))
     | Ok metadata =>
         if bool_decide (OAuthAuthorizationServerMetadata_RegistrationEndpoint metadata = EmptyString)
         then mret (Answered (writeError ErrNotFound))
         else
           match decode_document (assign_client false) wireClient_zero maxProtocolBody (Body r) with
           | None => mret (Answered (writeError (Wrapped "invalid JSON body" ErrInvalidInput)))
           | Some wire =>
               answer (Manager_RegisterOAuthClient (hc_Issuer config) (bearerToken r) (mkOAuthClientRegistrationInput
                 (wire_ClientName wire) (wire_ApplicationType wire) (wire_RedirectURIs wire) (wire_GrantTypes wire)
                 (wire_ResponseTypes wire) (Fields (wire_Scope wire)) [] (wire_TokenEndpointAuthMethod wire)
                 (wire_JWKSURI wire) (wire_JWKS wire) false))
                 (λ issued, writeJSON [("Cache-Control", "no-store")] 201
                              (ClientDocument (registration_document issued)))
           end
     end).

Definition Handler_userInfo (config : HandlerConfig) (r : HTTPRequest) : M World Reply :=
  only ["GET"; "POST"] r
    (answer (Manager_OAuthUserInfo (hc_Issuer config) (bearerToken r)) (λ info,
       writeJSON [] 200 (ClaimsDocument info))).

(** [Handler.ServeHTTP] *)
Definition Handler_ServeHTTP (config : HandlerConfig) (r : HTTPRequest) : M World Reply :=
  let path := OAuthPolicy.TrimSuffix "/" (Path r) in
  let issuerPath := endpointPath (hc_Issuer config) in
  let resourcePath := endpointPath (hc_Resource config) in
  if bool_decide (path = "/.well-known/oauth-authorization-server" +:+ issuerPath) ||
     bool_decide (path = issuerPath +:+ "/.well-known/openid-configuration") then Handler_discovery config r
  else if bool_decide (path = "/.well-known/oauth-protected-resource" +:+ resourcePath) then
    Handler_resourceMetadata config r
  else if bool_decide (path = issuerPath +:+ "/.well-known/jwks.json") then Handler_jwks config r
  else if bool_decide (path = issuerPath +:+ "/authorize") then Handler_authorize config r
  else if bool_decide (path = issuerPath +:+ "/token") then Handler_token config r
  else if bool_decide (path = issuerPath +:+ "/revoke") then Handler_revoke config r
  else if bool_decide (path = issuerPath +:+ "/register") then Handler_register config r
  else if bool_decide (path = issuerPath +:+ "/userinfo") then Handler_userInfo config r
  else mret (Answered (writeError ErrNotFound)).

(** ** Protected resources *)

(** [OAuthAuthentication.HasScope] *)
Definition token_has_scope (a : OAuthAuthentication) (required : string) : bool :=
  bool_decide (required = EmptyString) || contains (OAuthAuthentication_Scopes a) required.

(** The wrapped handler is reached with an authentication in its context. *)
Inductive Protected :=
| Refused (r : Response)
| Served (authentication : OAuthAuthentication).

Definition Protect (resource requiredScope metadataURL : string) (r : HTTPRequest) : M World Protected :=
  checked ← attempt (Manager_AuthenticateOAuthAccessToken resource (bearerToken r));
  match checked with
  | Error _ =>
      mret (Refused (mkResponse 401
        [("WWW-Authenticate", bearerChallenge metadataURL requiredScope EmptyString)] NoContent))
  | Ok authentication =>
      if negb (token_has_scope authentication requiredScope)
      then mret (Refused (mkResponse 403
             [("WWW-Authenticate", bearerChallenge metadataURL requiredScope "insufficient_scope")] NoContent))
      else mret (Served authentication)
  end.
End handler.
