(* ===== verification/OAuthFetcher.v ===== *)
(** * Client metadata documents (src/oauthhttp/fetcher.go)

    The download of a Client Identifier Metadata Document: which addresses its
    connections may reach, what a response must be, and how long the document
    is kept.  The network is a parameter: [resolve] is the resolver, [Do] the
    HTTP client whose connections are made by [dialContext]. *)
From stdpp Require Import base gmap sets list strings numbers.
From Stdlib Require Import ZArith Lia Ascii.
From S2P Require Import Prelude Bytes GoText GoNet GoJson GoUrl GoNetip Ssrf GoHttp Types OAuthTypes StorePages Config ManagerOAuthTokens OAuthHttp.

Definition maxMetadataDocument : Z := 5 * 1024.

(** [strings.Trim] with a cutset of one byte *)
Fixpoint drop_byte (a : ascii) (l : list ascii) : list ascii :=
  match l with b :: l' => if bool_decide (b = a) then drop_byte a l' else l | [] => [] end.
Definition TrimByte (a : ascii) (s : string) : string :=
  of_bytes (reverse (drop_byte a (reverse (drop_byte a (bytes_of s))))).

(** [cacheLifetime]: the last readable max-age counts *)
Definition max_age_directive (directive : string) : option Z :=
  '(name, raw) ← cut_at "=" (TrimSpace directive);
  if EqualFold name "max-age" then Atoi (TrimByte double_quote raw) else None.
Fixpoint directives (l : list string) (duration : Z) : Z :=
  match l with
  | [] => duration
  | directive :: l' =>
      directives l' (match max_age_directive directive with
                     | Some seconds => wrap64 (seconds * Second)
                     | None => duration
                     end)
  end.
Definition cacheLifetime (value : string) : Z :=
  let duration := directives (Split "," value) (5 * Minute) in
  if bool_decide (duration < Minute)%Z then Minute
  else if bool_decide (Hour < duration)%Z then Hour
  else duration.

(** ** Connections *)

(** [net.SplitHostPort], the port *)
Definition port_part (address : string) : string :=
  match cut_last colon address with Some (_, port) => port | None => EmptyString end.
(** [net.JoinHostPort] *)
Definition JoinHostPort (host port : string) : string :=
  if contains_byte colon host then "[" +:+ host +:+ "]:" +:+ port else host +:+ ":" +:+ port.

(** [MetadataFetcher.dialContext]: the address that is dialed *)
Definition dialContext (resolve : string → result (list Addr)) (address : string) : result string :=
  match SplitHostPort address with
  | None => Error (Opaque "split host and port")
  | Some host =>
      match resolve host with
      | Error e => Error (Wrapped "resolve CIMD host" e)
      | Ok [] => Error (Opaque "resolve CIMD host")
      | Ok (first :: rest) =>
          if forallb PublicAddress (first :: rest)
          then Ok (JoinHostPort (Addr_String first) (port_part address))
          else Error (Opaque "CIMD host resolves to a non-public address")
      end
  end.

(** ** Documents *)
Record MetadataResponse := mkMetadataResponse {
  mr_StatusCode : Z;
  mr_ContentType : string;
  mr_CacheControl : string;
  mr_Body : result string }.

(** [MetadataFetcher.Fetch]: [acquire] is the slot or the error of the context,
    [lower] the Unicode tables, [now] the clock. *)
Definition Fetch (lower : string → string) (now : Z) (acquire : result unit)
    (Do : string → result MetadataResponse) (clientID : string) : result OAuthClientMetadataDocument :=
  match acquire with
  | Error e => Error e
  | Ok _ =>
      match url_Parse clientID with
      | None => Error (Wrapped "invalid Client Identifier URL" ErrInvalidInput)
      | Some _ =>
          match Do clientID with
          | Error e => Error (Wrapped "fetch CIMD" e)
          | Ok response =>
              if negb (bool_decide (mr_StatusCode response = 200)%Z)
              then Error (Wrapped "CIMD returned HTTP" ErrInvalidCredentials)
              else if negb (bool_decide (ParseMediaType lower (mr_ContentType response) = Some "application/json"))
              then Error (Wrapped "CIMD must be application/json" ErrInvalidInput)
              else
                match mr_Body response with
                | Error _ => Error (Wrapped "CIMD exceeds 5 KiB" ErrInvalidInput)
                | Ok raw =>
                    if bool_decide (maxMetadataDocument < Z.of_nat (str_len raw))%Z
                    then Error (Wrapped "CIMD exceeds 5 KiB" ErrInvalidInput)
                    else
                      match decode_first (assign_client true) wireClient_zero raw with
                      | None => Error (Wrapped "invalid CIMD document" ErrInvalidInput)
                      | Some (wire, ended) =>
                          if negb (bool_decide (wire_ClientID wire = clientID)) ||
                             bool_decide (wire_ClientName wire = EmptyString) ||
                             bool_decide (200 < str_len (wire_ClientName wire)) ||
                             bool_decide (wire_RedirectURIs wire = [])
                          then Error (Wrapped "invalid CIMD document" ErrInvalidInput)
                          else if negb (ended : bool)
                          then Error (Wrapped "trailing CIMD value" ErrInvalidInput)
                          else Ok (mkOAuthClientMetadataDocument (wire_ClientID wire) (wire_ClientName wire)
                                 (wire_ApplicationType wire) (wire_RedirectURIs wire) (wire_GrantTypes wire)
                                 (wire_ResponseTypes wire) (wire_Scope wire) (wire_TokenEndpointAuthMethod wire)
                                 (wire_JWKSURI wire) (wire_JWKS wire) now
                                 (now + cacheLifetime (mr_CacheControl response)))
                      end
                end
          end
      end
  end.

(** ** What a fetched document is *)
Lemma cacheLifetime_bounds value : (Minute ≤ cacheLifetime value ≤ Hour)%Z.
Proof. unfold cacheLifetime, Hour, Minute. cbv zeta. repeat case_bool_decide; lia. Qed.

(** A lifetime whose nanoseconds overflow counts as a short one. *)
Example cacheLifetime_examples :
  cacheLifetime "public, max-age=600" = (10 * Minute)%Z ∧ cacheLifetime "no-store" = (5 * Minute)%Z ∧
  cacheLifetime "max-age=86400" = Hour ∧ cacheLifetime "max-age=9223372037" = Minute.
Proof. vm_compute. repeat split. Qed.

(** Connections reach public addresses only: every address the name resolves
    to is public, and it is the first of them that is dialed, not the name. *)
Theorem dial_public resolve address target :
  dialContext resolve address = Ok target →
  ∃ host first rest, SplitHostPort address = Some host ∧ resolve host = Ok (first :: rest) ∧
    Forall (λ a, PublicAddress a = true) (first :: rest) ∧
    target = JoinHostPort (Addr_String first) (port_part address).
Proof.
  unfold dialContext. destruct (SplitHostPort address) as [host|]; [|done].
  destruct (resolve host) as [[|first rest]|e] eqn:Hr; [done| |done].
  destruct (forallb _ _) eqn:Hp; [|done]. intros [= <-]. exists host, first, rest. split_and!; [done..| |done].
  apply Forall_forall. by apply forallb_forall.
Qed.

(** A document is accepted only from a 200 of type application/json of at most
    5 KiB that names the very URL it was fetched from, a client and its redirect
    URIs, and is kept between a minute and an hour whatever its headers say. *)
Theorem fetch_sound lower now acquire Do clientID document :
  Fetch lower now acquire Do clientID = Ok document →
  ∃ response raw, acquire = Ok tt ∧ Do clientID = Ok response ∧ mr_StatusCode response = 200%Z ∧
    ParseMediaType lower (mr_ContentType response) = Some "application/json" ∧
    mr_Body response = Ok raw ∧ (Z.of_nat (str_len raw) ≤ maxMetadataDocument)%Z ∧
    OAuthClientMetadataDocument_ClientID document = clientID ∧
    1 ≤ str_len (OAuthClientMetadataDocument_ClientName document) ≤ 200 ∧
    OAuthClientMetadataDocument_RedirectURIs document ≠ [] ∧
    OAuthClientMetadataDocument_FetchedAt document = now ∧
    (now + Minute ≤ OAuthClientMetadataDocument_ExpiresAt document ≤ now + Hour)%Z.
Proof.
  unfold Fetch. destruct acquire as [[]|]; [|done]. destruct (url_Parse clientID); [|done].
  destruct (Do clientID) as [response|] eqn:Hd; [|done].
  case_bool_decide as Hs; cbn [negb]; [|done]. case_bool_decide as Hm; cbn [negb]; [|done].
  destruct (mr_Body response) as [raw|] eqn:Hb; [|done]. case_bool_decide as Hl; [done|].
  destruct (decode_first _ _ _) as [[wire ended]|]; [|done].
  repeat case_bool_decide; cbn [negb orb]; try done. destruct ended; [|done]. intros [= <-].
  pose proof (cacheLifetime_bounds (mr_CacheControl response)). exists response, raw.
  cbn [OAuthClientMetadataDocument_ClientID OAuthClientMetadataDocument_ClientName
       OAuthClientMetadataDocument_RedirectURIs OAuthClientMetadataDocument_FetchedAt
       OAuthClientMetadataDocument_ExpiresAt].
  split_and!; try done; try lia. destruct (wire_ClientName wire); [done|cbn; lia].
Qed.
