(* ===== verification/ManagerListings.v ===== *)
(** * Listings and the data export
    (src/session.go, src/pat.go, src/lifecycle.go, src/admin.go, src/audit.go, src/export.go)

    The streams of the manager are the lists of what they yield; a listing the
    host consumes at its own pace receives the state of the context before each
    item as the function [during]. *)
From stdpp Require Import base gmap sets list strings numbers.
From Stdlib Require Import ZArith Lia Ascii.
From S2P Require Import Prelude Bytes GoText Uuid Types OAuthTypes Roles AuditChain Store StoreUsers StoreTokens StoreWorkspaces StoreScim StoreOAuth StorePages Commit StoreSystem Tokens Events Manager ManagerGates Config ManagerEmail.

(** [type WorkspaceMember struct], lifecycle.go:580 *)
Record WorkspaceMember := mkWorkspaceMember {
  WorkspaceMember_User : User;
  WorkspaceMember_Membership : Membership }.
(** [type WorkspacePAT struct], lifecycle.go:589 *)
Record WorkspacePAT := mkWorkspacePAT {
  WorkspacePAT_PAT : PAT;
  WorkspacePAT_User : User }.
(** [type WorkspaceMembership struct], export.go:11 *)
Record WorkspaceMembership := mkWorkspaceMembership {
  WorkspaceMembership_Workspace : Workspace;
  WorkspaceMembership_Membership : Membership }.
(** [type UserDataExport struct], export.go:23 *)
Record UserDataExport := mkUserDataExport {
  UserDataExport_User : User;
  UserDataExport_Emails : list EmailAddress;
  UserDataExport_Workspaces : list WorkspaceMembership;
  UserDataExport_SSOIdentities : list SSOIdentity;
  UserDataExport_Passkeys : list Passkey;
  UserDataExport_PATs : list PAT;
  UserDataExport_Sessions : list Session;
  UserDataExport_SCIMUsers : list SCIMUser;
  UserDataExport_Invitations : list WorkspaceInvitation;
  UserDataExport_OAuthGrants : list OAuthGrant }.

Section listings.
Context {E : Env}.
Abbreviation m := the_manager.

(** An empty user is the actor. *)
Definition or_actor (actor : Authentication) (userID : UUID) : UUID :=
  if bool_decide (userID = Nil) then Authentication_UserID actor else userID.

(** [Manager.Sessions] *)
Definition Manager_Sessions (actor : Authentication) (userID : UUID) (page : PageRequest)
    (during : nat → Context) : M World (Stream (PageEvent Session)) :=
  let userID' := or_actor actor userID in
  listing
    (throw_if (negb (m_sessionStore m)) ErrNotSupported;;
     throw_if (anonymous actor) ErrUnauthorized;;
     if bool_decide (userID' = Authentication_UserID actor) then requireRecentInteractive actor
     else requireScopedStepUp actor StepUpScopeAccount "auth.session.list";;
          AuthorizeAdmin actor PermissionUsersRead)
    page (λ page ctx, Sessions ctx during userID' page).

(** [Manager.PATs] *)
Definition Manager_PATs (actor : Authentication) (userID : UUID) (page : PageRequest)
    (during : nat → Context) : M World (Stream (PageEvent PAT)) :=
  let userID' := or_actor actor userID in
  listing
    (throw_if (anonymous actor) ErrUnauthorized;;
     if bool_decide (userID' = Authentication_UserID actor) then requireInteractive actor
     else AuthorizeAdmin actor PermissionUsersRead)
    page (λ page ctx, PATs ctx during userID' page).

(** A page of the store joined with the account each item names: an account
    that is gone is skipped, another error ends the stream.  Where the store
    looks at the context before each item ([watched]), it does so between the
    lookups. *)
Fixpoint joined {T U} (watched : bool) (owner : T → UUID) (join : T → User → U)
    (events : Stream (PageEvent T)) : M World (Stream (PageEvent U)) :=
  match events with
  | [] => mret []
  | Error e :: _ => mret [Error e]
  | Ok (EndEvent e) :: events' =>
      rest ← joined watched owner join events';
      mret (Ok (EndEvent e) :: rest)
  | Ok (ItemEvent item) :: events' =>
      w ← get;
      match (if watched then Ctx_Err the_ctx (W_tick w) else None) with
      | Some e => mret [Error e]
      | None =>
          found ← attempt (call (λ ctx, UserByID ctx (owner item)));
          match found with
          | Ok user =>
              rest ← joined watched owner join events';
              mret (Ok (ItemEvent (join item user)) :: rest)
          | Error e =>
              if errors_Is e ErrNotFound then joined watched owner join events' else mret [Error e]
          end
      end
  end.

(** [Manager.WorkspacePATs] *)
Definition Manager_WorkspacePATs (actor : Authentication) (workspaceID : UUID) (page : PageRequest) :
    M World (Stream (PageEvent WorkspacePAT)) :=
  events ← listing (AuthorizePermission actor workspaceID PermissionWorkspaceCredentialsManage) page
    (λ page ctx, WorkspacePATs ctx unwatched workspaceID page);
  joined true PAT_UserID (λ pat user, mkWorkspacePAT (pat <| PAT_Digest := EmptyString |>) user) events.

(** [Manager.Users] *)
Definition Manager_Users (actor : Authentication) (page : PageRequest) :
    M World (Stream (PageEvent User)) :=
  listing (AuthorizeAdmin actor PermissionUsersRead) page (λ page ctx, Users ctx page).

(** [Manager.Workspaces] *)
Definition Manager_Workspaces (actor : Authentication) (page : PageRequest) :
    M World (Stream (PageEvent Workspace)) :=
  listing (AuthorizeAdmin actor PermissionWorkspacesRead) page (λ page ctx, Workspaces ctx page).

(** [Manager.UserWorkspaces] *)
Definition Manager_UserWorkspaces (actor : Authentication) (page : PageRequest) :
    M World (Stream (PageEvent Workspace)) :=
  let userID := Authentication_UserID actor in
  listing
    (throw_if (anonymous actor) ErrUnauthorized;;
     found ← attempt (call (λ ctx, UserByID ctx userID));
     throw_if (match found with Ok user => User_Disabled user | Error _ => true end) ErrForbidden)
    page (λ page ctx, UserWorkspaces ctx userID page).

(** [Manager.Memberships] *)
Definition Manager_Memberships (actor : Authentication) (workspaceID : UUID) (page : PageRequest) :
    M World (Stream (PageEvent Membership)) :=
  listing (AuthorizePermission actor workspaceID PermissionWorkspaceUsersRead) page
    (λ page ctx, Memberships ctx workspaceID page).

(** [Manager.WorkspaceMembers] *)
Definition Manager_WorkspaceMembers (actor : Authentication) (workspaceID : UUID) (page : PageRequest) :
    M World (Stream (PageEvent WorkspaceMember)) :=
  events ← listing (AuthorizePermission actor workspaceID PermissionWorkspaceUsersRead) page
    (λ page ctx, Memberships ctx workspaceID page);
  joined false Membership_UserID (λ membership user, mkWorkspaceMember user membership) events.

(** [Manager.InstanceAdministrators] *)
Definition Manager_InstanceAdministrators (actor : Authentication) : M World (Stream InstanceAdministrator) :=
  r ← attempt (AuthorizeAdmin actor PermissionInstanceRolesRead);
  match r with
  | Error e => mret (errorSeq e)
  | Ok _ => call (λ ctx, InstanceAdministrators ctx)
  end.

(** [Manager.AuditEvents] *)
Definition Manager_AuditEvents (actor : Authentication) (workspaceID : UUID) (page : PageRequest) :
    M World (Stream (PageEvent AuditEvent)) :=
  listing
    (requireScopedStepUp actor StepUpScopeWorkspace "audit.workspace.list";;
     AuthorizePermission actor workspaceID PermissionWorkspaceAuditRead)
    page (λ page ctx, AuditEvents ctx workspaceID page).

(** [Manager.InstanceAuditEvents] *)
Definition Manager_InstanceAuditEvents (actor : Authentication) (page : PageRequest) :
    M World (Stream (PageEvent AuditEvent)) :=
  listing (AuthorizeAdmin actor PermissionAuditRead) page (λ page ctx, InstanceAuditEvents ctx page).

(** ** The data export *)

(** [drainPages]: one round; the context is looked at again as the store yields *)
Definition drain_page {T} (query : PageRequest → (nat → Context) → Context → M Store (Stream (PageEvent T)))
    (acc : string * list T) : M World ((string * list T) + list T) :=
  w ← get;
  events ← call (query (mkPageRequest acc.1 100) (λ i, Ctx_Err the_ctx (W_tick w + i)));
  r ← lift_result (CollectPage events [] PageEnd_zero);
  let '(items, e) := r in
  let all := acc.2 ++ items in
  if negb (PageEnd_HasMore e) || bool_decide (PageEnd_NextCursor e = EmptyString) then mret (inr all)
  else mret (inl (PageEnd_NextCursor e, all)).
Definition drainPages {T} (query : PageRequest → (nat → Context) → Context → M Store (Stream (PageEvent T))) :
    M World (list T) := loop (drain_page query) (EmptyString, []).

(** A listing without pages, to its first error. *)
Fixpoint drained {T} (events : Stream T) : result (list T) :=
  match events with
  | [] => Ok []
  | Error e :: _ => Error e
  | Ok t :: events' => match drained events' with Ok l => Ok (t :: l) | Error e => Error e end
  end.

(** The workspaces with the membership of the user; one that is gone is skipped. *)
Fixpoint affiliations (userID : UUID) (l : list Workspace) : M World (list WorkspaceMembership) :=
  match l with
  | [] => mret []
  | workspace :: l' =>
      found ← attempt (call (λ ctx, Membership_ ctx (Workspace_ID workspace) userID));
      match found with
      | Ok membership =>
          rest ← affiliations userID l';
          mret (mkWorkspaceMembership workspace membership :: rest)
      | Error e => if errors_Is e ErrNotFound then affiliations userID l' else throw e
      end
  end.

(** Who may read the data of a user. *)
Definition export_gate (actor : Authentication) (userID : UUID) : M World unit :=
  throw_if (anonymous actor) ErrUnauthorized;;
  if bool_decide (userID = Authentication_UserID actor) then requireRecentInteractive actor
  else requireScopedStepUp actor StepUpScopeAccount "user.data.export";;
       AuthorizeAdmin actor PermissionUsersRead.

(** [Manager.ExportUserData] *)
Definition Manager_ExportUserData (actor : Authentication) (userID : UUID) : M World UserDataExport :=
  let userID := or_actor actor userID in
  export_gate actor userID;;
  user ← call (λ ctx, UserByID ctx userID);
  emails ← drainPages (λ page _ ctx, Emails ctx userID page);
  all ← drainPages (λ page _ ctx, UserWorkspaces ctx userID page);
  workspaces ← affiliations userID all;
  identities ← drainPages (λ page during ctx, SSOIdentities ctx during userID page);
  keys ← call (λ ctx, Passkeys ctx userID);
  tokens ← drainPages (λ page during ctx, PATs ctx during userID page);
  sessions ← (if m_sessionStore m
              then drainPages (λ page during ctx, Sessions ctx during userID page) else mret []);
  links ← (if m_privacyStore m
           then events ← call (λ ctx, SCIMUsersByUser ctx userID); lift_result (drained events) else mret []);
  invitations ← (if m_privacyStore m
                 then events ← call (λ ctx, AcceptedWorkspaceInvitations ctx userID);
                      lift_result (drained events) else mret []);
  grants ← (if not_nil (m_oauth m) then drainPages (λ page _ ctx, OAuthGrants ctx userID Nil page) else mret []);
  mret (mkUserDataExport user emails workspaces identities
    ((λ p, p <| Passkey_CredentialJSON := EmptyString |>) <$> keys)
    ((λ p, p <| PAT_Digest := EmptyString |>) <$> tokens)
    ((λ s, s <| Session_Digest := EmptyString |>) <$> sessions) links
    ((λ i, i <| WorkspaceInvitation_Digest := EmptyString |>) <$> invitations) grants).
End listings.
