(* ===== verification/ManagerScenario.v ===== *)
(** * A small service

    A manager built by [New] over the empty store, a host whose requests run
    alone, and the first requests of a deployment; the theorems about the
    manager are evaluated on it.  The password hasher keeps the password
    behind a marker, the clock advances by a millisecond at every step. *)
From stdpp Require Import base gmap sets list strings numbers.
From Stdlib Require Import ZArith Ascii.
From S2P Require Import Prelude Bytes Uuid Types OAuthTypes Roles AuditChain Store StoreUsers StoreTokens StoreWorkspaces StoreScim StoreOAuth Commit StoreSystem GoText Tokens Events Manager ManagerGates Config ManagerSession ManagerPAT ManagerPassword ManagerAdmin.

Definition the_ok {A} (r : result A) : is_ok r = true → A :=
  match r with Ok a => λ _, a | Error _ => λ H, match diff_false_true H with end end.

Lemma the_ok_eq {A} (r : result A) (H : is_ok r = true) : r = Ok (the_ok r H).
Proof. by destruct r. Qed.

Definition demo_hasher : PasswordHasher :=
  mkPasswordHasher (λ _ p, Ok ("hash:" +:+ p))
    (λ p h, Ok (bool_decide (h = "hash:" +:+ p), false)).

Definition demo_key (a : ascii) : string := of_bytes (replicate 32 a).

Definition demo_config : Config := {|
  cfg_Store := Some (mkStoreCapabilities true true true true true true true true);
  cfg_Passwords := Some demo_hasher;
  cfg_TOTP := None;
  cfg_Passkeys := None;
  cfg_DomainVerifier := None;
  cfg_TrustActorDomainVerification := false;
  cfg_SecretKey := demo_key "s";
  cfg_PATPepper := demo_key "p";
  cfg_RecoveryPepper := demo_key "r";
  cfg_RetiredSecretKeys := [];
  cfg_RetiredPATPeppers := [];
  cfg_RetiredRecoveryPeppers := [];
  cfg_PATPrefix := EmptyString;
  cfg_PATTouchInterval := 0;
  cfg_StepUpMaxAge := 0;
  cfg_StepUp := StepUpPolicies_zero <| StepUpPolicies_Default := StepUpPolicyNone |>;
  cfg_CeremonyTTL := 0;
  cfg_MinPasswordLen := 0;
  cfg_PasswordPolicy := None;
  cfg_MaxFailedLogins := 0;
  cfg_LockoutDuration := 0;
  cfg_AdminPermissions := ∅;
  cfg_WorkspaceRoles := [];
  cfg_EmailVerificationTTL := 0;
  cfg_PasswordResetTTL := 0;
  cfg_EmailAuthenticationTTL := 0;
  cfg_InvitationTTL := 0;
  cfg_DomainClaimTTL := 0;
  cfg_SessionTTL := 0;
  cfg_SessionIdleTimeout := 0;
  cfg_SessionTouchInterval := Minute;
  cfg_EmailIssuanceCooldown := 0;
  cfg_SSOProviders := [];
  cfg_SSOAssurance := ∅;
  cfg_TransactionHooks := [];
  cfg_EventListeners := [];
  cfg_OAuth := None;
  cfg_SignUp := None;
  cfg_unicode_ToLower := λ s, s;
  cfg_unicode_ToUpper := λ s, s;
  cfg_idna_ToASCII := λ s, Some s;
  cfg_PublicSuffix := λ s, s;
  cfg_Clock := λ t, (10 ^ 18 + Z.of_nat t * 10 ^ 6)%Z;
  cfg_random_error := λ _, None;
  cfg_random_byte := λ t i, ascii_of_nat ((t * 37 + i * 11) mod 256);
  cfg_mapOrder := λ _, 0;
  cfg_interference := λ _, [] |}.

Definition demo_manager : Manager := the_ok (New_Manager key_order demo_config) eq_refl.

(** The same configuration after a rotation of the root key and of the pepper
    of the access tokens. *)
Definition rotated_config : Config :=
  demo_config <| cfg_SecretKey := demo_key "S" |> <| cfg_RetiredSecretKeys := [demo_key "s"] |>
    <| cfg_PATPepper := demo_key "P" |> <| cfg_RetiredPATPeppers := [demo_key "p"] |>.
Definition rotated_manager : Manager := the_ok (New_Manager key_order rotated_config) eq_refl.

Lemma demo_built : New_Manager key_order demo_config = Ok demo_manager.
Proof. exact (the_ok_eq (New_Manager key_order demo_config) eq_refl). Qed.
Lemma rotated_built : New_Manager key_order rotated_config = Ok rotated_manager.
Proof. exact (the_ok_eq (New_Manager key_order rotated_config) eq_refl). Qed.

(** A live context. *)
Definition background : Ctx := mkCtx (λ _, None) (mkRequestMetadata "192.0.2.1" "agent").
Definition demo : Env := mkEnv demo_manager background.

(** The same host while another request runs before the step [t]. *)
Definition demo_with (t : nat) (l : list Foreign) : Env :=
  mkEnv (demo_manager <| m_interference := λ t', if Nat.eqb t t' then l else [] |>) background.

Definition empty_world : World := mkWorld New 0 0 [] 0.

(** The answer and the world of a request that succeeds. *)
Definition ok_of {A} (d : A) (r : result A * World) : A :=
  match r.1 with Ok a => a | Error _ => d end.

Definition demo_bootstrap : BootstrapInput :=
  mkBootstrapInput "root@example.com" "Root" "correct horse battery" "Acme".
Definition booted : result (Authentication * Workspace) * World :=
  @Manager_Bootstrap demo demo_bootstrap empty_world.
Definition root : Authentication := (ok_of (Authentication_zero, Workspace_zero) booted).1.
Definition acme : Workspace := (ok_of (Authentication_zero, Workspace_zero) booted).2.
Definition served : World := booted.2.

Lemma booted_ok : is_ok booted.1 = true.
Proof. vm_compute. reflexivity. Qed.
