(* ===== verification/ManagerTrace.v ===== *)
(** * The manager runs the store

    Whatever other goroutines do in between, every step of the manager moves
    the store along a trace of its operations; what holds of all traces
    therefore holds across any operation of the manager.  [Traced] is that
    property, [wp_call] the rule that reasons about one call of the store
    under interference. *)
From stdpp Require Import base gmap sets list strings numbers.
From Stdlib Require Import ZArith Lia.
From S2P Require Import Prelude Bytes Uuid Types OAuthTypes Roles AuditChain Store StoreUsers StoreTokens StoreWorkspaces StoreScim StoreOAuth StorePages Commit StoreSystem GoText GoNet Tokens Events Manager ManagerGates ManagerSession ManagerPAT ManagerPassword ManagerAdmin ManagerEmail ManagerInvite ManagerScenario.

(** ** Later states *)
Definition reaches (s s' : Store) : Prop := ∃ ops, Forall wf_op ops ∧ s' = run_trace ops s.

#[export] Instance reaches_preorder : PreOrder reaches.
Proof.
  split.
  - intros s. by exists [].
  - intros s1 s2 s3 (l1 & H1 & ->) (l2 & H2 & ->). exists (l1 ++ l2).
    split; [by apply Forall_app|]. unfold run_trace. by rewrite foldl_app.
Qed.

Lemma reaches_refl s : reaches s s.
Proof. reflexivity. Qed.

Lemma reaches_step o s : wf_op o → reaches s (step o s).
Proof. intros Ho. exists [o]. split; [by constructor|done]. Qed.

(** Other goroutines follow the same discipline as this one. *)
Definition wf_foreign (f : Foreign) : Prop :=
  match f with ForeignOp o => wf_op o | ForeignID _ => True end.
(** A context that is done reports one of the two errors of its package. *)
Definition wf_context (cx : Context) : Prop :=
  match cx with
  | None => True
  | Some e => e = ErrContextCanceled ∨ e = ErrDeadlineExceeded
  end.
Class WfEnv (E : Env) : Prop := {
  wf_interference t : Forall wf_foreign (m_interference the_manager t);
  wf_ctx t : wf_context (Ctx_Err the_ctx t) }.

(** ** Computations that run the store *)
Class StoreCall {A} (f : Context → M Store A) : Prop := store_call cx s : reaches s (f cx s).2.

Lemma StoreCall_ReadOnly {A} (f : Context → M Store A) : (∀ cx, ReadOnly (f cx)) → StoreCall f.
Proof. intros H cx s. by rewrite H. Qed.

Lemma ran_state {A} (p : M Store A) s : (ran p s).2 = (p s).2.
Proof. unfold ran, mbind, M_bind. by destruct (p s) as [[] ?]. Qed.

Lemma StoreCall_mutation {A} (mu : Mutation) (c : Commit) (f : Context → M Store A) :
  (Commit_Unchained c = true → AuditEvent_Sequence (Commit_Audit c) = 0%Z) →
  (∀ cx s, (f cx s).2 = (run_mutation mu cx c s).2) → StoreCall f.
Proof. intros Hc Hf cx s. rewrite Hf. by apply (reaches_step (OpMutation mu cx c)). Qed.

Lemma StoreCall_claim a p t n : StoreCall (λ cx, ClaimEmailIssuance cx a p t n).
Proof. intros cx s. by apply (reaches_step (OpClaimEmailIssuance cx a p t n)). Qed.

(** The sequence of the identifier generator is of 12 bits. *)
Definition id_range (w : World) : Prop := (0 ≤ W_idSequence w < 4096)%Z.

Lemma advance_id_range t w : id_range w → id_range (advance_id t w).
Proof.
  unfold id_range, advance_id, next_id. intros H. cbn [set_field W_idSequence].
  repeat case_bool_decide; cbn; lia.
Qed.

(** A later world: the store was moved along a trace, the steps taken were
    counted, the generator kept in range. *)
Definition later (w w' : World) : Prop :=
  reaches (W_store w) (W_store w') ∧ W_tick w ≤ W_tick w' ∧ (id_range w → id_range w').

#[export] Instance later_preorder : PreOrder later.
Proof.
  split; [by intros w; split; [apply reaches_refl|]|].
  intros w1 w2 w3 (H1 & T1 & I1) (H2 & T2 & I2). split_and!; [by trans (W_store w2)|lia|auto].
Qed.

Lemma later_refl w : later w w.
Proof. reflexivity. Qed.
Lemma later_same w w' :
  W_store w' = W_store w → W_tick w ≤ W_tick w' → (id_range w → id_range w') → later w w'.
Proof. intros Hs Ht Hi. split_and!; [rewrite Hs; apply reaches_refl|done|done]. Qed.
Lemma later_tick w : later w (tick w).
Proof. apply later_same; cbn; [done|lia|done]. Qed.

Section traced.
Context {E : Env}.

Definition Traced {A} (p : M World A) : Prop := ∀ w, later w (p w).2.

Lemma Traced_ret {A} (a : A) : Traced (mret a).
Proof. intros w. apply later_refl. Qed.
Lemma Traced_throw {A} e : Traced (throw e : M World A).
Proof. intros w. apply later_refl. Qed.
Lemma Traced_throw_if b e : Traced (throw_if b e).
Proof. destruct b; intros w; apply later_refl. Qed.
Lemma Traced_lift_result {A} (r : result A) : Traced (lift_result r).
Proof. destruct r; intros w; apply later_refl. Qed.
Lemma Traced_get : Traced get.
Proof. intros w. apply later_refl. Qed.
Lemma Traced_now : Traced now.
Proof. intros w. apply later_tick. Qed.
Lemma Traced_randomBytes n : Traced (randomBytes n).
Proof. intros w. unfold randomBytes. destruct (m_random_error _ _); apply later_tick. Qed.
Lemma Traced_passwords_Hash p : Traced (passwords_Hash p).
Proof. intros w. apply later_tick. Qed.
Lemma Traced_modify g :
  (∀ w, W_store (g w) = W_store w ∧ W_tick w ≤ W_tick (g w) ∧ (id_range w → id_range (g w))) →
  Traced (modify g).
Proof. intros H w. by apply later_same; apply H. Qed.
Lemma Traced_attempt {A} (p : M World A) : Traced p → Traced (attempt p).
Proof. intros H w. apply H. Qed.
Lemma Traced_bind {A B} (p : M World A) (k : A → M World B) :
  Traced p → (∀ a, Traced (k a)) → Traced (p ≫= k).
Proof.
  intros Hp Hk w. specialize (Hp w). unfold mbind, M_bind.
  destruct (p w) as [[a|e] w']; [|done]. trans w'; [done|apply Hk].
Qed.

Lemma Traced_loop {A B} (body : A → M World (A + B)) a : (∀ a, Traced (body a)) → Traced (loop body a).
Proof.
  intros Hb. apply Traced_bind; [|intros []; [apply Traced_throw|apply Traced_ret]].
  generalize rounds as n. intros n. revert a.
  induction n as [n IH|n IH|]; intros a; cbn [iterate]; [..|apply Hb];
    repeat (apply Traced_bind; [auto|intros []; [|apply Traced_ret]]); auto.
Qed.

(** The answers of a computation satisfy [P]. *)
Definition Answers {A} (P : A → Prop) (p : M World A) : Prop :=
  ∀ w a w', p w = (Ok a, w') → P a.

Lemma Traced_bind_answers {A B} (P : A → Prop) (p : M World A) (k : A → M World B) :
  Traced p → Answers P p → (∀ a, P a → Traced (k a)) → Traced (p ≫= k).
Proof.
  intros Hp HP Hk w. specialize (Hp w). specialize (HP w). unfold mbind, M_bind.
  destruct (p w) as [[a|e] w']; [|done]. trans w'; [done|]. apply Hk. by eapply HP.
Qed.

Context `{!WfEnv E}.

Lemma Traced_interfere : Traced interfere.
Proof.
  intros w. unfold interfere. cbn [snd]. pose proof (wf_interference (W_tick w)) as H.
  revert H. generalize (m_interference the_manager (W_tick w)) as l. intros l. revert w.
  induction l as [|f l IH]; intros w Hl; [apply later_refl|]. apply Forall_cons_1 in Hl as [Hf Hl].
  cbn [foldl]. trans (run_foreign f w); [|by apply IH].
  destruct f as [o|t]; [|by apply later_same; [..|apply advance_id_range]].
  split; [by apply reaches_step|done].
Qed.

Lemma Traced_store_step {A} (f : Context → M Store A) : StoreCall f → Traced (store_step f).
Proof. intros Hf w. split_and!; [apply Hf|cbn; lia|done]. Qed.
Lemma Traced_call {A} (f : Context → M Store A) : StoreCall f → Traced (call f).
Proof.
  intros Hf. apply Traced_bind; [apply Traced_interfere|intros _]. by apply Traced_store_step.
Qed.

(** ** Reasoning under interference *)

(** A call of the store runs, atomically, at some later state. *)
Lemma wp_call {A} (f : Context → M Store A) Q w :
  (∀ w1 r s', later w w1 → f (Ctx_Err the_ctx (W_tick w1)) (W_store w1) = (r, s') →
    Q r (tick (w1 <| W_store := s' |>))) →
  wp (call f) Q w.
Proof.
  intros HQ. apply wp_bind. pose proof (Traced_interfere w) as Hi.
  unfold wp. change (interfere w) with (Ok tt, (interfere w).2). cbv beta iota.
  cbn [fst snd]. revert Hi. generalize (interfere w).2. intros w1 Hi. unfold store_step.
  destruct (f _ (W_store w1)) as [r s'] eqn:Hf. by apply HQ.
Qed.

Lemma wp_mutation {A} (f : Context → M Store A) Q w :
  StoreCall f →
  (∀ w1 r w2, later w w1 → later w1 w2 →
    f (Ctx_Err the_ctx (W_tick w1)) (W_store w1) = (r, W_store w2) → Q r w2) →
  wp (call f) Q w.
Proof.
  intros Hf HQ. apply wp_call. intros w1 r s' Hl Hr. apply (HQ w1); [done| |done].
  split_and!; [|cbn; lia|done]. pose proof (Hf (Ctx_Err the_ctx (W_tick w1)) (W_store w1)) as H.
  by rewrite Hr in H.
Qed.

(** A computation about which only the discipline is known. *)
Lemma wp_traced {A} (p : M World A) Q w :
  Traced p → (∀ r w', later w w' → Q r w') → wp p Q w.
Proof. intros Hp HQ. apply HQ, Hp. Qed.

End traced.

(** What a computation guarantees when it succeeds. *)
Definition on_ok {A} (Q : A → World → Prop) (r : result A) (w : World) : Prop :=
  match r with Ok a => Q a w | Error _ => True end.
Abbreviation wp_ok p Q w := (wp p (on_ok Q) w).

Section wp_ok.
Context {E : Env} `{!WfEnv E} {A : Type}.
Implicit Types (Q : A → World → Prop) (w : World).

Lemma ok_bind {B} (p : M World B) (k : B → M World A) Q w :
  wp_ok p (λ b w', wp_ok (k b) Q w') w → wp_ok (p ≫= k) Q w.
Proof. intros H. apply wp_bind. eapply wp_mono; [exact H|]. by intros [] ?. Qed.
Lemma ok_attempt {B} (p : M World B) (Q : result B → World → Prop) w :
  wp p Q w → wp_ok (attempt p) Q w.
Proof. done. Qed.
Lemma ok_throw e Q w : wp_ok (throw e) Q w.
Proof. done. Qed.
Lemma ok_ret (a : A) Q w : Q a w → wp_ok (mret a) Q w.
Proof. done. Qed.
Lemma ok_throw_if b e (Q : unit → World → Prop) w :
  (b = false → Q tt w) → wp_ok (throw_if b e) Q w.
Proof. intros H. destruct b; [done|by apply H]. Qed.
Lemma ok_lift_result (r : result A) Q w : (∀ a, r = Ok a → Q a w) → wp_ok (lift_result r) Q w.
Proof. intros H. destruct r; [by apply H|done]. Qed.
Lemma ok_now (Q : Z → World → Prop) w :
  Q (m_clock the_manager (W_tick w)) (tick w) → wp_ok now Q w.
Proof. done. Qed.
Lemma ok_call (f : Context → M Store A) Q w :
  (∀ w1 a s', later w w1 → f (Ctx_Err the_ctx (W_tick w1)) (W_store w1) = (Ok a, s') →
    Q a (tick (w1 <| W_store := s' |>))) →
  wp_ok (call f) Q w.
Proof. intros HQ. apply wp_call. intros w1 [a|e] s' ??; [by apply HQ|done]. Qed.
Lemma ok_traced (p : M World A) Q w :
  Traced p → (∀ a w', later w w' → Q a w') → wp_ok p Q w.
Proof. intros Hp HQ. apply wp_traced; [done|]. intros []; [apply HQ|done]. Qed.
Lemma ok_mapped o (p : M World A) Q w : wp_ok p Q w → wp_ok (mapped o p) Q w.
Proof.
  intros H. apply ok_bind, ok_attempt. eapply wp_mono; [exact H|].
  intros [a|e] w' Hr; [by apply ok_ret|]. apply ok_bind, wp_intro. by intros [] ??.
Qed.
Lemma ok_run (p : M World A) Q w a w' : wp_ok p Q w → p w = (Ok a, w') → Q a w'.
Proof. intros H Hp. exact (wp_run p _ w _ _ H Hp). Qed.
End wp_ok.

Create HintDb cb_traced discriminated.
#[export] Hint Constants Opaque : cb_traced.
#[export] Hint Resolve Traced_ret Traced_throw Traced_throw_if Traced_lift_result Traced_get
  Traced_now Traced_randomBytes Traced_passwords_Hash Traced_interfere : cb_traced.

(** The mutation a call of the store runs. *)
Ltac mutation_of f :=
  lazymatch f with
  | (λ cx, Bootstrap cx ?a ?b ?d ?e ?g ?h _) => constr:(Do_Bootstrap a b d e g h)
  | (λ cx, CreateUser cx ?a ?b ?d ?e _) => constr:(Do_CreateUser a b d e)
  | (λ cx, CreateSignup cx ?a ?b ?d ?e ?g ?h _) => constr:(Do_CreateSignup a b d e g h)
  | (λ cx, SetUserDisabled cx ?a ?b ?d _) => constr:(Do_SetUserDisabled a b d)
  | (λ cx, UpdateUser cx ?a _) => constr:(Do_UpdateUser a)
  | (λ cx, ChangePassword cx ?a ?b _) => constr:(Do_ChangePassword a b)
  | (λ cx, RehashPassword cx ?a ?b _) => constr:(Do_RehashPassword a b)
  | (λ cx, RecordAuthentication cx ?a ?b _) => constr:(Do_RecordAuthentication a b)
  | (λ cx, RecordPasswordAuthentication cx ?a ?b ?d _) =>
      constr:(Do_RecordPasswordAuthentication a b d)
  | (λ cx, RecordLoginFailure cx ?a ?b ?d ?e _) => constr:(Do_RecordLoginFailure a b d e)
  | (λ cx, CreatePasswordReset cx ?a _) => constr:(Do_CreatePasswordReset a)
  | (λ cx, CompletePasswordReset cx ?a ?b ?d _) => constr:(Do_CompletePasswordReset a b d)
  | (λ cx, CreateEmailAuthentication cx ?a _) => constr:(Do_CreateEmailAuthentication a)
  | (λ cx, ConsumeEmailAuthentication cx ?a ?b ?d ?e _) =>
      constr:(Do_ConsumeEmailAuthentication a b d e)
  | (λ cx, SaveEmail cx ?a ?b _) => constr:(Do_SaveEmail a b)
  | (λ cx, ReissueEmailVerification cx ?a ?b _) => constr:(Do_ReissueEmailVerification a b)
  | (λ cx, VerifyEmail cx ?a ?b _) => constr:(Do_VerifyEmail a b)
  | (λ cx, SetPrimaryEmail cx ?a ?b _) => constr:(Do_SetPrimaryEmail a b)
  | (λ cx, RemoveEmail cx ?a ?b _) => constr:(Do_RemoveEmail a b)
  | (λ cx, SaveTOTPEnrollment cx ?a _) => constr:(Do_SaveTOTPEnrollment a)
  | (λ cx, ActivateTOTP cx ?a ?b _) => constr:(Do_ActivateTOTP a b)
  | (λ cx, UseTOTP cx ?a ?b _) => constr:(Do_UseTOTP a b)
  | (λ cx, ConsumeRecoveryCode cx ?a ?b ?d _) => constr:(Do_ConsumeRecoveryCode a b d)
  | (λ cx, DisableTOTP cx ?a _) => constr:(Do_DisableTOTP a)
  | (λ cx, ReplaceRecoveryCodes cx ?a ?b _) => constr:(Do_ReplaceRecoveryCodes a b)
  | (λ cx, ResetSecondFactor cx ?a ?b _) => constr:(Do_ResetSecondFactor a b)
  | (λ cx, SavePasskey cx ?a _) => constr:(Do_SavePasskey a)
  | (λ cx, TouchPasskey cx ?a ?b ?d ?e _) => constr:(Do_TouchPasskey a b d e)
  | (λ cx, DeletePasskey cx ?a ?b _) => constr:(Do_DeletePasskey a b)
  | (λ cx, CreatePAT cx ?a _) => constr:(Do_CreatePAT a)
  | (λ cx, TouchPAT cx ?a ?b _) => constr:(Do_TouchPAT a b)
  | (λ cx, RevokePAT cx ?a ?b ?d _) => constr:(Do_RevokePAT a b d)
  | (λ cx, RevokeUserCredentials cx ?a ?b _) => constr:(Do_RevokeUserCredentials a b)
  | (λ cx, CreateSession cx ?a ?b _) => constr:(Do_CreateSession a b)
  | (λ cx, TouchSession cx ?a ?b _) => constr:(Do_TouchSession a b)
  | (λ cx, RevokeSession cx ?a ?b _) => constr:(Do_RevokeSession a b)
  | (λ cx, RevokeUserSessions cx ?a ?b _) => constr:(Do_RevokeUserSessions a b)
  | (λ cx, CreateWorkspace cx ?a ?b _) => constr:(Do_CreateWorkspace a b)
  | (λ cx, UpdateWorkspace cx ?a _) => constr:(Do_UpdateWorkspace a)
  | (λ cx, SetWorkspaceDisabled cx ?a ?b ?d _) => constr:(Do_SetWorkspaceDisabled a b d)
  | (λ cx, UpsertMembership cx ?a _) => constr:(Do_UpsertMembership a)
  | (λ cx, RemoveMembership cx ?a ?b ?d _) => constr:(Do_RemoveMembership a b d)
  | (λ cx, CreateWorkspaceInvitation cx ?a _) => constr:(Do_CreateWorkspaceInvitation a)
  | (λ cx, AcceptWorkspaceInvitation cx ?a ?b ?d ?e _) =>
      constr:(Do_AcceptWorkspaceInvitation a b d e)
  | (λ cx, RegisterInvitedUser cx ?a ?b ?d ?e ?g ?h _) =>
      constr:(Do_RegisterInvitedUser a b d e g h)
  | (λ cx, RevokeWorkspaceInvitation cx ?a ?b ?d _) => constr:(Do_RevokeWorkspaceInvitation a b d)
  | (λ cx, CreateWorkspaceDomain cx ?a ?b _) => constr:(Do_CreateWorkspaceDomain a b)
  | (λ cx, ConfirmWorkspaceDomain cx ?a ?b _) => constr:(Do_ConfirmWorkspaceDomain a b)
  | (λ cx, UpdateWorkspaceDomainPolicy cx ?a ?b ?d _) =>
      constr:(Do_UpdateWorkspaceDomainPolicy a b d)
  | (λ cx, DeleteWorkspaceDomain cx ?a _) => constr:(Do_DeleteWorkspaceDomain a)
  | (λ cx, SetInstanceRole cx ?a _) => constr:(Do_SetInstanceRole a)
  | (λ cx, RemoveInstanceRole cx ?a _) => constr:(Do_RemoveInstanceRole a)
  | (λ cx, LinkSSO cx ?a _) => constr:(Do_LinkSSO a)
  | (λ cx, TouchSSO cx ?a ?b ?d _) => constr:(Do_TouchSSO a b d)
  | (λ cx, UnlinkSSO cx ?a ?b _) => constr:(Do_UnlinkSSO a b)
  | (λ cx, JITProvisionSSOUser cx ?a ?b ?d ?e _) => constr:(Do_JITProvisionSSOUser a b d e)
  | (λ cx, CreateSCIMConfiguration cx ?a ?b _) => constr:(Do_CreateSCIMConfiguration a b)
  | (λ cx, UpdateSCIMConfiguration cx ?a ?b _) => constr:(Do_UpdateSCIMConfiguration a b)
  | (λ cx, SaveSCIMCredential cx ?a _) => constr:(Do_SaveSCIMCredential a)
  | (λ cx, RevokeSCIMCredential cx ?a ?b ?d _) => constr:(Do_RevokeSCIMCredential a b d)
  | (λ cx, TouchSCIMCredential cx ?a ?b _) => constr:(Do_TouchSCIMCredential a b)
  | (λ cx, DisableSCIMConfiguration cx ?a ?b _) => constr:(Do_DisableSCIMConfiguration a b)
  | (λ cx, CreateSCIMUser cx ?a ?b ?d ?e _) => constr:(Do_CreateSCIMUser a b d e)
  | (λ cx, AdoptSCIMUser cx ?a ?b _) => constr:(Do_AdoptSCIMUser a b)
  | (λ cx, UpdateSCIMUser cx ?a ?b ?d _) => constr:(Do_UpdateSCIMUser a b d)
  | (λ cx, UpsertSCIMGroup cx ?a ?b _) => constr:(Do_UpsertSCIMGroup a b)
  | (λ cx, DeleteSCIMGroup cx ?a ?b _) => constr:(Do_DeleteSCIMGroup a b)
  | (λ cx, AnonymizeUser cx ?a ?b _) => constr:(Do_AnonymizeUser a b)
  | (λ cx, CreateOAuthIssuer cx ?a _) => constr:(Do_CreateOAuthIssuer a)
  | (λ cx, UpdateOAuthIssuer cx ?a _) => constr:(Do_UpdateOAuthIssuer a)
  | (λ cx, SetOAuthIssuerDisabled cx ?a ?b ?d _) => constr:(Do_SetOAuthIssuerDisabled a b d)
  | (λ cx, CreateOAuthProtectedResource cx ?a _) => constr:(Do_CreateOAuthProtectedResource a)
  | (λ cx, SetOAuthProtectedResourceDisabled cx ?a ?b ?d _) =>
      constr:(Do_SetOAuthProtectedResourceDisabled a b d)
  | (λ cx, CreateOAuthClient cx ?a ?b ?d _) => constr:(Do_CreateOAuthClient a b d)
  | (λ cx, UpsertOAuthCIMDClient cx ?a _) => constr:(Do_UpsertOAuthCIMDClient a)
  | (λ cx, RotateOAuthClientCredentials cx ?a ?b ?d ?e ?g _) =>
      constr:(Do_RotateOAuthClientCredentials a b d e g)
  | (λ cx, SetOAuthClientDisabled cx ?a ?b ?d _) => constr:(Do_SetOAuthClientDisabled a b d)
  | (λ cx, CreateOAuthInitialAccessToken cx ?a _) => constr:(Do_CreateOAuthInitialAccessToken a)
  | (λ cx, RevokeOAuthInitialAccessToken cx ?a ?b _) =>
      constr:(Do_RevokeOAuthInitialAccessToken a b)
  | (λ cx, CreateOAuthGrantAndCode cx ?a ?b _) => constr:(Do_CreateOAuthGrantAndCode a b)
  | (λ cx, RevokeOAuthGrant cx ?a ?b _) => constr:(Do_RevokeOAuthGrant a b)
  | (λ cx, ConsumeOAuthAuthorizationCode cx ?a ?b ?d ?e _) =>
      constr:(Do_ConsumeOAuthAuthorizationCode a b d e)
  | (λ cx, CreateOAuthClientAccessToken cx ?a _) => constr:(Do_CreateOAuthClientAccessToken a)
  | (λ cx, RevokeOAuthClientAccessToken cx ?a ?b _) =>
      constr:(Do_RevokeOAuthClientAccessToken a b)
  | (λ cx, RotateOAuthRefreshToken cx ?a ?b ?d ?e _) =>
      constr:(Do_RotateOAuthRefreshToken a b d e)
  | (λ cx, RevokeOAuthAccessToken cx ?a ?b _) => constr:(Do_RevokeOAuthAccessToken a b)
  | (λ cx, RevokeOAuthRefreshFamily cx ?a ?b _) => constr:(Do_RevokeOAuthRefreshFamily a b)
  | (λ cx, AppendAudit cx _) => constr:(Do_AppendAudit)
  end.

Lemma ReadOnly_call_ctx cx : ReadOnly (check_ctx cx).
Proof. apply ReadOnly_check_ctx. Qed.
#[export] Hint Resolve ReadOnly_call_ctx : cb_readonly.

Ltac storecall :=
  cbv beta;
  lazymatch goal with
  | |- StoreCall ?f =>
      first
        [ let mu := mutation_of f in
          eapply (StoreCall_mutation mu);
            [|intros; first [symmetry; apply ran_state|reflexivity]]; first [done|congruence|cbn in *; congruence|auto]
        | apply StoreCall_claim
        | apply StoreCall_ReadOnly; intros ?;
          lazymatch goal with
          | |- ReadOnly (_ ≫= _) => idtac
          | |- ReadOnly ?op => let h := get_head op in unfold h
          end;
          readonly ]
  end.

(** Steps with a rule of their own; the default unfolds nothing. *)
Ltac traced_step := fail.
(** Steps whose answers satisfy something the rest needs. *)
Ltac traced_bind := fail.
Ltac traced :=
  repeat (cbv zeta beta;
    lazymatch goal with
    | |- Traced (_ ≫= _) => first [traced_bind|apply Traced_bind; [|intros ?]]
    | |- Traced (match ?x with _ => _ end) => destruct x
    | |- Traced (attempt _) => apply Traced_attempt
    | |- Traced (modify _) => apply Traced_modify; intros ?; split_and!; [done|cbn; lia|done]
    | |- Traced (call _) => apply Traced_call; first [solve [auto]|storecall]
    | |- Traced _ => first [solve [eauto with cb_traced]|traced_step]
    end).

Lemma Traced_port {E : Env} `{!WfEnv E} {A} (f : nat → result A) : Traced (port f).
Proof. intros w. split_and!; [reflexivity|cbn; lia|done]. Qed.
#[export] Hint Resolve Traced_port : cb_traced.
Lemma Traced_map_first {E : Env} `{!WfEnv E} n : Traced (map_first n).
Proof. intros w. split_and!; [reflexivity|cbn; lia|done]. Qed.
#[export] Hint Resolve Traced_map_first : cb_traced.
Lemma Traced_newID {E : Env} `{!WfEnv E} : Traced (newID).
Proof.
  unfold newID. apply Traced_bind; [traced|intros _]. apply Traced_bind; [traced|intros t].
  apply Traced_bind; [|intros _; traced]. apply Traced_modify. intros w.
  split_and!; [done|cbn; lia|apply advance_id_range].
Qed.
#[export] Hint Resolve Traced_newID : cb_traced.
Lemma Traced_newEventMeta {E : Env} `{!WfEnv E} n o a w e : Traced (newEventMeta n o a w e).
Proof. unfold newEventMeta. traced. Qed.
#[export] Hint Resolve Traced_newEventMeta : cb_traced.
Lemma Traced_emit {E : Env} `{!WfEnv E} meta : Traced (emit meta).
Proof. unfold emit. traced. Qed.
#[export] Hint Resolve Traced_emit : cb_traced.
Lemma Traced_emit_new {E : Env} `{!WfEnv E} n o a w e : Traced (emit_new n o a w e).
Proof. unfold emit_new. traced. Qed.
#[export] Hint Resolve Traced_emit_new : cb_traced.
Lemma Traced_newAudit {E : Env} `{!WfEnv E} a b c d e f g : Traced (newAudit a b c d e f g).
Proof. unfold newAudit. traced. Qed.
#[export] Hint Resolve Traced_newAudit : cb_traced.
Lemma Traced_mapStoreError {E : Env} `{!WfEnv E} o e : Traced (mapStoreError o e).
Proof. unfold mapStoreError. traced. Qed.
#[export] Hint Resolve Traced_mapStoreError : cb_traced.
Lemma Traced_mapped {E : Env} `{!WfEnv E} {A} o (p : M World A) : Traced p → Traced (mapped o p).
Proof. intros Hp. unfold mapped. traced. Qed.

Lemma Traced_lookup_or_forbidden {E : Env} `{!WfEnv E} {A} (f : Context → M Store A) absent :
  StoreCall f → Traced absent → Traced (lookup_or_forbidden f absent).
Proof. intros Hf Ha. unfold lookup_or_forbidden. traced. Qed.
Lemma Traced_optional {E : Env} `{!WfEnv E} {A} (f : Context → M Store A) :
  StoreCall f → Traced (optional f).
Proof. intros Hf. unfold optional. traced. Qed.

Ltac traced_step ::=
  lazymatch goal with
  | |- Traced (mapped _ _) => apply Traced_mapped
  | |- Traced (lookup_or_forbidden _ _) => apply Traced_lookup_or_forbidden; [storecall|]
  | |- Traced (optional _) => apply Traced_optional; storecall
  | |- Traced ?p => let h := get_head p in unfold h
  end.

Lemma Traced_recordAuthenticationAudit {E : Env} `{!WfEnv E} a b c d : Traced (recordAuthenticationAudit a b c d).
Proof. unfold recordAuthenticationAudit. traced. Qed.
#[export] Hint Resolve Traced_recordAuthenticationAudit : cb_traced.
Lemma Traced_appendAuthenticationAudit {E : Env} `{!WfEnv E} a b c d : Traced (appendAuthenticationAudit a b c d).
Proof. unfold appendAuthenticationAudit. traced. Qed.
#[export] Hint Resolve Traced_appendAuthenticationAudit : cb_traced.
Lemma Traced_recordAuthenticationFailure {E : Env} `{!WfEnv E} a b c : Traced (recordAuthenticationFailure a b c).
Proof. unfold recordAuthenticationFailure. traced. Qed.
#[export] Hint Resolve Traced_recordAuthenticationFailure : cb_traced.
Lemma Traced_requireUnlocked {E : Env} `{!WfEnv E} a b : Traced (requireUnlocked a b).
Proof. unfold requireUnlocked. traced. Qed.
#[export] Hint Resolve Traced_requireUnlocked : cb_traced.
Lemma Traced_emitAuthenticationSucceeded {E : Env} `{!WfEnv E} a b c : Traced (emitAuthenticationSucceeded a b c).
Proof. unfold emitAuthenticationSucceeded. traced. Qed.
#[export] Hint Resolve Traced_emitAuthenticationSucceeded : cb_traced.
Lemma Traced_emitAuthenticationFailed {E : Env} `{!WfEnv E} a b c : Traced (emitAuthenticationFailed a b c).
Proof. unfold emitAuthenticationFailed. traced. Qed.
#[export] Hint Resolve Traced_emitAuthenticationFailed : cb_traced.
Lemma Traced_requireActiveUser {E : Env} `{!WfEnv E} u : Traced (requireActiveUser u).
Proof. unfold requireActiveUser. traced. Qed.
#[export] Hint Resolve Traced_requireActiveUser : cb_traced.
Lemma Traced_requireInteractive {E : Env} `{!WfEnv E} a : Traced (requireInteractive a).
Proof. unfold requireInteractive. traced. Qed.
#[export] Hint Resolve Traced_requireInteractive : cb_traced.
Lemma Traced_requireRecentInteractive {E : Env} `{!WfEnv E} a : Traced (requireRecentInteractive a).
Proof. unfold requireRecentInteractive. traced. Qed.
#[export] Hint Resolve Traced_requireRecentInteractive : cb_traced.
Lemma Traced_RequireStepUp {E : Env} `{!WfEnv E} a : Traced (RequireStepUp a).
Proof. unfold RequireStepUp. traced. Qed.
#[export] Hint Resolve Traced_RequireStepUp : cb_traced.
Lemma Traced_stepUpCapable {E : Env} `{!WfEnv E} u : Traced (stepUpCapable u).
Proof. unfold stepUpCapable. traced. Qed.
#[export] Hint Resolve Traced_stepUpCapable : cb_traced.
Lemma Traced_step_up_demanded {E : Env} `{!WfEnv E} a s : Traced (step_up_demanded a s).
Proof. unfold step_up_demanded. traced. Qed.
#[export] Hint Resolve Traced_step_up_demanded : cb_traced.
Lemma Traced_RequireStepUpFor {E : Env} `{!WfEnv E} a s : Traced (RequireStepUpFor a s).
Proof. unfold RequireStepUpFor. traced. Qed.
#[export] Hint Resolve Traced_RequireStepUpFor : cb_traced.
Lemma Traced_denyStepUp {E : Env} `{!WfEnv E} a o e : Traced (denyStepUp a o e).
Proof. unfold denyStepUp. traced. Qed.
#[export] Hint Resolve Traced_denyStepUp : cb_traced.
Lemma Traced_requireScopedStepUp {E : Env} `{!WfEnv E} a s o : Traced (requireScopedStepUp a s o).
Proof. unfold requireScopedStepUp. traced. Qed.
#[export] Hint Resolve Traced_requireScopedStepUp : cb_traced.
Lemma Traced_emitAuthorizationDenied {E : Env} `{!WfEnv E} a w : Traced (emitAuthorizationDenied a w).
Proof. unfold emitAuthorizationDenied. traced. Qed.
#[export] Hint Resolve Traced_emitAuthorizationDenied : cb_traced.
Lemma Traced_Authorize {E : Env} `{!WfEnv E} a w r : Traced (Authorize a w r).
Proof. unfold Authorize. traced. Qed.
#[export] Hint Resolve Traced_Authorize : cb_traced.
Lemma Traced_AuthorizePermission {E : Env} `{!WfEnv E} a w p : Traced (AuthorizePermission a w p).
Proof. unfold AuthorizePermission. traced. Qed.
#[export] Hint Resolve Traced_AuthorizePermission : cb_traced.
Lemma Traced_authorizeWorkspaceMutation {E : Env} `{!WfEnv E} a w p o : Traced (authorizeWorkspaceMutation a w p o).
Proof. unfold authorizeWorkspaceMutation. traced. Qed.
#[export] Hint Resolve Traced_authorizeWorkspaceMutation : cb_traced.
Lemma Traced_AuthorizeAdmin {E : Env} `{!WfEnv E} a p : Traced (AuthorizeAdmin a p).
Proof. unfold AuthorizeAdmin. traced. Qed.
#[export] Hint Resolve Traced_AuthorizeAdmin : cb_traced.
Lemma Traced_RequireAdminMutation {E : Env} `{!WfEnv E} a r : Traced (RequireAdminMutation a r).
Proof. unfold RequireAdminMutation. traced. Qed.
#[export] Hint Resolve Traced_RequireAdminMutation : cb_traced.
Lemma Traced_requireAdminMutation {E : Env} `{!WfEnv E} a r o : Traced (requireAdminMutation a r o).
Proof. unfold requireAdminMutation. traced. Qed.
#[export] Hint Resolve Traced_requireAdminMutation : cb_traced.

(** The small service runs alone, under a live context. *)
#[export] Instance demo_wf : WfEnv demo.
Proof. split; intros t; [constructor|exact I]. Qed.
