(* ===== verification/OAuthScenario.v ===== *)
(** * A small authorization server

    The service of ManagerScenario with OAuth configured: an issuer, a
    resource of the first workspace, a client registered with a secret and one
    known by the URL of its metadata, and a consent up to the access token.  The
    host caches metadata for forty milliseconds. *)
From stdpp Require Import base gmap sets list strings numbers.
From Stdlib Require Import ZArith Ascii.
From S2P Require Import Prelude Bytes GoText Uuid Types OAuthTypes Roles AuditChain Store StoreUsers StoreTokens StoreWorkspaces StoreScim StoreOAuth StorePages Commit StoreSystem Tokens Events Manager ManagerGates Config OAuthPolicy ManagerOAuth ManagerOAuthTokens ManagerOAuthAdmin ManagerScenario ManagerTrace.

Definition demo_document (i : nat) (clientID : string) : OAuthClientMetadataDocument :=
  mkOAuthClientMetadataDocument clientID "Reader" OAuthApplicationWeb ["https://app.example/callback"]
    ["authorization_code"] ["code"] EmptyString OAuthAuthNone EmptyString EmptyString
    (cfg_Clock demo_config i) (cfg_Clock demo_config i + 40 * 10 ^ 6)%Z.
Definition demo_oauth : OAuthConfig :=
  mkOAuthConfig (demo_key "o") (Some (λ i clientID, Ok (demo_document i clientID)))
    (Some (λ _ _ _ _ _, None))
    (Some (mkOIDCSigner (λ _ claims, Ok "id-token") (λ _, Ok "keys") ["RS256"])).
Definition server_config : Config := demo_config <| cfg_OAuth := Some demo_oauth |>.
Definition server_manager : Manager := the_ok (New_Manager key_order server_config) eq_refl.
Definition server : Env := mkEnv server_manager background.
#[export] Instance server_wf : WfEnv server.
Proof. split; intros t; [constructor|exact I]. Qed.

Definition demo_request : TrustedRequest := mkTrustedRequest true.
Definition demo_issuer_input : CreateOAuthIssuerInput :=
  CreateOAuthIssuerInput_zero <| CreateOAuthIssuerInput_Issuer := "https://auth.example" |>
    <| CreateOAuthIssuerInput_OIDCEnabled := true |>
    <| CreateOAuthIssuerInput_CIMDMode := OAuthCIMDPublicWeb |>.
Definition issuing := @Manager_CreateOAuthIssuer server root demo_request demo_issuer_input served.
Definition demo_issuer : OAuthIssuer := ok_of OAuthIssuer_zero issuing.

Definition demo_scope : OAuthScopeDefinition :=
  mkOAuthScopeDefinition "notes" "Read the notes" [PermissionWorkspaceAccess] AAL1 Hour.
Definition opening := @Manager_CreateOAuthProtectedResource server root (Workspace_ID acme)
  (mkCreateOAuthProtectedResourceInput (OAuthIssuer_ID demo_issuer) "https://api.example" [demo_scope]) issuing.2.
Definition demo_resource : OAuthProtectedResource := ok_of OAuthProtectedResource_zero opening.

Definition registering_client := @Manager_PreRegisterOAuthClient server root demo_request
  (OAuthIssuer_ID demo_issuer)
  (OAuthClientRegistrationInput_zero <| OAuthClientRegistrationInput_Name := "Reader" |>
    <| OAuthClientRegistrationInput_ApplicationType := OAuthApplicationWeb |>
    <| OAuthClientRegistrationInput_RedirectURIs := ["https://app.example/callback"] |>
    <| OAuthClientRegistrationInput_GrantTypes := ["authorization_code"; "refresh_token"; "client_credentials"] |>
    <| OAuthClientRegistrationInput_ResponseTypes := ["code"] |>
    <| OAuthClientRegistrationInput_Scopes := ["openid"; "notes"; "offline_access"] |>
    <| OAuthClientRegistrationInput_ClientCredentialsResources := ["https://api.example"] |>
    <| OAuthClientRegistrationInput_TokenEndpointAuthMethod := OAuthAuthClientSecretBasic |>) opening.2.
Definition demo_client : OAuthClient := IssuedOAuthClient_Client (ok_of IssuedOAuthClient_zero registering_client).
Definition demo_secret : string := IssuedOAuthClient_ClientSecret (ok_of IssuedOAuthClient_zero registering_client).

Definition demo_verifier : string := "dBjftJeZ4CVP-mB92K27uhbUJU1p1r_wW1gFWFOEjXk".
Definition asking := @Manager_BeginOAuthAuthorization server root
  (mkBeginOAuthAuthorizationInput "https://auth.example" (OAuthClient_ClientID demo_client)
    "https://app.example/callback" "https://api.example" ["openid"; "notes"; "offline_access"] "state"
    (base64_RawURL_EncodeToString (sha256_Sum demo_verifier)) "S256" "nonce" 0) registering_client.2.
Definition demo_continuation : string := OAuthConsent_Continuation (ok_of OAuthConsent_zero asking).
Definition consenting := @Manager_CompleteOAuthAuthorization server root demo_continuation true asking.2.
Definition demo_code : string :=
  OAuthAuthorizationResult_Code (ok_of OAuthAuthorizationResult_zero consenting).

Definition demo_exchange : ExchangeOAuthAuthorizationCodeInput :=
  mkExchangeOAuthAuthorizationCodeInput "https://auth.example" (OAuthClient_ClientID demo_client) demo_secret
    false EmptyString EmptyString demo_code "https://app.example/callback" demo_verifier "https://api.example".
Definition exchanging := @Manager_ExchangeOAuthAuthorizationCode server demo_exchange consenting.2.
Definition demo_tokens : OAuthTokenResponse := ok_of OAuthTokenResponse_zero exchanging.
Definition demo_refresh : RefreshOAuthTokenInput :=
  mkRefreshOAuthTokenInput "https://auth.example" (OAuthClient_ClientID demo_client) demo_secret
    false EmptyString EmptyString (OAuthTokenResponse_RefreshToken demo_tokens) "https://api.example" ["notes"].
Definition refreshing := @Manager_RefreshOAuthToken server demo_refresh exchanging.2.
Definition accepting := @Manager_AuthenticateOAuthAccessToken server "https://api.example"
  (OAuthTokenResponse_AccessToken demo_tokens) exchanging.2.

(** Every request of the flow succeeds. *)
Lemma flow_succeeds :
  is_ok consenting.1 && (is_ok exchanging.1 && (is_ok refreshing.1 && is_ok accepting.1)) = true.
Proof. vm_compute. reflexivity. Qed.

Lemma run_ok {A} (p : M World A) w d :
  is_ok (p w).1 = true → p w = (Ok (ok_of d (p w)), (p w).2).
Proof. unfold ok_of. by destruct (p w) as [[] ?]. Qed.
