(* ===== verification/ManagerSystem.v ===== *)
(** * The manager as a service

    Every operation of the manager that is modelled, as a request; a history
    is a list of requests, each with its own context, clock, entropy and
    interference.  A history only ever runs operations of the store, so the
    invariants of the store hold at every point of it. *)
From stdpp Require Import base gmap sets list strings numbers.
From Stdlib Require Import ZArith Lia.
From S2P Require Import Prelude Bytes Uuid Types OAuthTypes Roles AuditChain Store StoreUsers StoreTokens StoreWorkspaces StoreScim StoreOAuth StorePages Commit StoreSystem GoText GoNet Tokens Events Manager ManagerGates ManagerSession ManagerPAT ManagerPassword ManagerAdmin ManagerEmail ManagerInvite ManagerSeal ManagerFactor ManagerPasskey ManagerSSO ManagerScim OAuthPolicy ManagerOAuth ManagerOAuthTokens ManagerOAuthAdmin ManagerListings ManagerScenario ManagerTrace.

Inductive Request :=
| Req_CreateSession (actor : Authentication)
| Req_AuthenticateSession (raw : string)
| Req_SignOut (raw : string)
| Req_RevokeSession (actor : Authentication) (sessionID : UUID)
| Req_RevokeUserSessions (actor : Authentication) (request : TrustedRequest) (userID : UUID)
| Req_CreatePAT (actor : Authentication) (input : CreatePATInput)
| Req_AuthenticatePAT (raw : string)
| Req_RevokePAT (actor : Authentication) (patID : UUID)
| Req_RevokeWorkspacePAT (actor : Authentication) (workspaceID patID : UUID)
| Req_Bootstrap (input : BootstrapInput)
| Req_CreateUser (actor : Authentication) (workspaceID : UUID) (input : CreateUserInput)
| Req_AuthenticatePassword (email password : string)
| Req_ChangePassword (actor : Authentication) (currentPassword newPassword : string)
| Req_GrantRole (actor : Authentication) (workspaceID userID : UUID) (role : Role)
| Req_InstanceAdministrator (actor : Authentication) (userID : UUID)
| Req_SetInstanceRole (actor : Authentication) (request : TrustedRequest) (userID : UUID) (role :
    InstanceRole)
| Req_RemoveInstanceRole (actor : Authentication) (request : TrustedRequest) (userID : UUID)
| Req_CreateWorkspace (actor : Authentication) (input : CreateWorkspaceInput)
| Req_UpdateWorkspace (actor : Authentication) (workspaceID : UUID) (input : UpdateWorkspaceInput)
| Req_AdminUpdateWorkspace (actor : Authentication) (request : TrustedRequest) (workspaceID :
    UUID) (input : UpdateWorkspaceInput)
| Req_DisableWorkspace (actor : Authentication) (workspaceID : UUID)
| Req_EnableWorkspace (actor : Authentication) (workspaceID : UUID)
| Req_AdminDisableWorkspace (actor : Authentication) (request : TrustedRequest) (workspaceID :
    UUID)
| Req_AdminEnableWorkspace (actor : Authentication) (request : TrustedRequest) (workspaceID :
    UUID)
| Req_setUserDisabled (actor : Authentication) (request : TrustedRequest) (userID : UUID)
    (disabled : bool)
| Req_UpdateUser (actor : Authentication) (input : UpdateUserInput)
| Req_AdminUpdateUser (actor : Authentication) (request : TrustedRequest) (userID : UUID) (input :
    UpdateUserInput)
| Req_AddMembership (actor : Authentication) (workspaceID userID : UUID) (role : Role)
| Req_SetMembershipStatus (actor : Authentication) (workspaceID userID : UUID) (status :
    MembershipStatus)
| Req_RemoveMembership (actor : Authentication) (workspaceID userID : UUID)
| Req_User (actor : Authentication) (userID : UUID)
| Req_Workspace (actor : Authentication) (workspaceID : UUID)
| Req_Membership (actor : Authentication) (workspaceID userID : UUID)
| Req_RevokeUserCredentials (actor : Authentication) (request : TrustedRequest) (userID : UUID)
| Req_AdminResetSecondFactor (actor : Authentication) (request : TrustedRequest) (userID : UUID)
| Req_AnonymizeUser (actor : Authentication) (request : TrustedRequest) (userID : UUID)
| Req_RecordAudit (actor : Authentication) (input : AuditInput)
| Req_VerifyAuditChainFrom (actor : Authentication) (checkpoint : AuditChainCheckpoint)
| Req_BeginEmailAddition (actor : Authentication) (address : string)
| Req_ResendEmailVerification (address : string)
| Req_ConfirmEmail (raw : string)
| Req_SetPrimaryEmail (actor : Authentication) (emailID : UUID)
| Req_RemoveEmail (actor : Authentication) (emailID : UUID)
| Req_Emails (actor : Authentication) (userID : UUID) (page : PageRequest)
| Req_BeginPasswordReset (email : string)
| Req_CompletePasswordReset (raw newPassword : string)
| Req_BeginEmailAuthentication (email : string)
| Req_CompleteEmailAuthentication (raw : string)
| Req_InviteToWorkspace (actor : Authentication) (workspaceID : UUID) (input :
    InviteToWorkspaceInput)
| Req_AcceptInvitation (actor : Authentication) (raw : string)
| Req_RegisterFromInvitation (raw : string) (input : RegisterFromInvitationInput)
| Req_RevokeInvitation (actor : Authentication) (workspaceID invitationID : UUID)
| Req_WorkspaceInvitations (actor : Authentication) (workspaceID : UUID) (page : PageRequest)
| Req_SignUp (input : SignUpInput)
| Req_CreateWorkspaceDomain (actor : Authentication) (workspaceID : UUID) (domain : string)
| Req_ConfirmWorkspaceDomain (actor : Authentication) (domainID : UUID)
| Req_UpdateWorkspaceDomainPolicy (actor : Authentication) (domainID : UUID) (input :
    WorkspaceDomainPolicyInput)
| Req_RemoveWorkspaceDomain (actor : Authentication) (domainID : UUID)
| Req_WorkspaceDomains (actor : Authentication) (workspaceID : UUID) (page : PageRequest) (during
    : nat → Context)
| Req_BeginTOTPEnrollment (actor : Authentication)
| Req_ConfirmTOTPEnrollment (actor : Authentication) (code : string)
| Req_VerifyTOTP (actor : Authentication) (code : string)
| Req_DisableTOTP (actor : Authentication) (code : string)
| Req_RegenerateRecoveryCodes (actor : Authentication)
| Req_TOTPStatus (actor : Authentication) (userID : UUID)
| Req_BeginEmailOTP (email : string)
| Req_CompleteEmailOTP (continuation code : string)
| Req_BeginPasskeyRegistration (actor : Authentication) (name : string)
| Req_FinishPasskeyRegistration (actor : Authentication) (continuation response : string)
| Req_BeginPasskeyAuthentication (email : string)
| Req_FinishPasskeyAuthentication (continuation response : string)
| Req_BeginDiscoverablePasskeyAuthentication
| Req_FinishDiscoverablePasskeyAuthentication (continuation response : string)
| Req_DeletePasskey (actor : Authentication) (passkeyID : UUID)
| Req_Passkeys (actor : Authentication) (userID : UUID)
| Req_BeginSSO (providerConfigurationID : UUID)
| Req_BeginSSOLink (actor : Authentication) (providerConfigurationID : UUID)
| Req_BeginSSOStepUp (actor : Authentication) (providerConfigurationID : UUID)
| Req_FinishSSO (continuation response : string)
| Req_UnlinkSSO (actor : Authentication) (identityID : UUID)
| Req_SSOIdentities (actor : Authentication) (userID : UUID) (page : PageRequest) (during : nat →
    Context)
| Req_CreateSCIMConfiguration (actor : Authentication) (workspaceID : UUID) (input :
    CreateSCIMConfigurationInput)
| Req_UpdateSCIMConfiguration (actor : Authentication) (configurationID : UUID) (input :
    UpdateSCIMConfigurationInput)
| Req_SCIMConfigurations (actor : Authentication) (workspaceID : UUID)
| Req_SCIMCredentials (actor : Authentication) (configurationID : UUID)
| Req_RotateSCIMCredential (actor : Authentication) (configurationID : UUID) (expiresAt : option
    Z)
| Req_RevokeSCIMCredential (actor : Authentication) (configurationID credentialID : UUID)
| Req_DisableSCIMConfiguration (actor : Authentication) (configurationID : UUID)
| Req_AuthenticateSCIM (raw : string)
| Req_ProvisionSCIMUser (principal : SCIMAuthentication) (input : SCIMUserInput)
| Req_AdoptSCIMUser (actor : Authentication) (configurationID userID : UUID) (input :
    SCIMUserInput)
| Req_ReplaceSCIMUser (principal : SCIMAuthentication) (id : UUID) (input : SCIMUserInput)
| Req_DeprovisionSCIMUser (principal : SCIMAuthentication) (id : UUID)
| Req_SCIMUser (principal : SCIMAuthentication) (id : UUID)
| Req_SCIMUsers (principal : SCIMAuthentication) (filter : SCIMFilter) (page : PageRequest)
    (during : nat → Context)
| Req_UpsertSCIMGroup (principal : SCIMAuthentication) (id : UUID) (input : SCIMGroupInput)
| Req_DeleteSCIMGroup (principal : SCIMAuthentication) (id : UUID)
| Req_SCIMGroup (principal : SCIMAuthentication) (id : UUID)
| Req_SCIMGroups (principal : SCIMAuthentication) (filter : SCIMFilter) (page : PageRequest)
    (during : nat → Context)
| Req_CreateOAuthIssuer (actor : Authentication) (request : TrustedRequest) (input :
    CreateOAuthIssuerInput)
| Req_UpdateOAuthIssuer (actor : Authentication) (request : TrustedRequest) (issuerID : UUID)
    (input : UpdateOAuthIssuerInput)
| Req_CreateOAuthProtectedResource (actor : Authentication) (workspaceID : UUID) (input :
    CreateOAuthProtectedResourceInput)
| Req_PreRegisterOAuthClient (actor : Authentication) (request : TrustedRequest) (issuerID : UUID)
    (input : OAuthClientRegistrationInput)
| Req_CreateOAuthInitialAccessToken (actor : Authentication) (request : TrustedRequest) (issuerID
    : UUID) (input : CreateOAuthInitialAccessTokenInput)
| Req_OAuthInitialAccessTokens (actor : Authentication) (issuerID : UUID)
| Req_RevokeOAuthInitialAccessToken (actor : Authentication) (request : TrustedRequest) (tokenID :
    UUID)
| Req_RegisterOAuthClient (issuerURL initialAccessToken : string) (input :
    OAuthClientRegistrationInput)
| Req_ValidateOAuthAuthorizationRedirect (issuerURL clientID redirectURI : string)
| Req_BeginOAuthAuthorization (actor : Authentication) (input : BeginOAuthAuthorizationInput)
| Req_CompleteOAuthAuthorization (actor : Authentication) (rawContinuation : string) (approved :
    bool)
| Req_ExchangeOAuthAuthorizationCode (input : ExchangeOAuthAuthorizationCodeInput)
| Req_IssueOAuthClientCredentials (input : OAuthClientCredentialsInput)
| Req_RefreshOAuthToken (input : RefreshOAuthTokenInput)
| Req_RevokeOAuthToken (input : RevokeOAuthTokenInput)
| Req_AuthenticateOAuthAccessToken (resourceURI raw : string)
| Req_OAuthUserInfo (issuerURL rawAccessToken : string)
| Req_OAuthAuthorizationServerMetadata (issuerURL : string)
| Req_OAuthProtectedResourceMetadata (resourceURI : string)
| Req_OAuthJWKS (issuerURL : string)
| Req_DisableOAuthIssuer (actor : Authentication) (request : TrustedRequest) (issuerID : UUID)
| Req_EnableOAuthIssuer (actor : Authentication) (request : TrustedRequest) (issuerID : UUID)
| Req_DisableOAuthProtectedResource (actor : Authentication) (workspaceID resourceID : UUID)
| Req_EnableOAuthProtectedResource (actor : Authentication) (workspaceID resourceID : UUID)
| Req_DisableOAuthClient (actor : Authentication) (request : TrustedRequest) (clientRecordID :
    UUID)
| Req_EnableOAuthClient (actor : Authentication) (request : TrustedRequest) (clientRecordID :
    UUID)
| Req_RotateOAuthClientSecret (actor : Authentication) (request : TrustedRequest) (clientRecordID
    : UUID)
| Req_ReplaceOAuthClientJWKS (actor : Authentication) (request : TrustedRequest) (clientRecordID :
    UUID) (jwks : string)
| Req_RevokeOAuthGrant (actor : Authentication) (grantID : UUID)
| Req_OAuthIssuers (actor : Authentication) (page : PageRequest)
| Req_OAuthProtectedResources (actor : Authentication) (workspaceID : UUID) (page : PageRequest)
| Req_OAuthClients (actor : Authentication) (issuerID : UUID) (page : PageRequest)
| Req_OAuthGrants (actor : Authentication) (workspaceID : UUID) (page : PageRequest)
| Req_Sessions (actor : Authentication) (userID : UUID) (page : PageRequest) (during : nat →
    Context)
| Req_PATs (actor : Authentication) (userID : UUID) (page : PageRequest) (during : nat → Context)
| Req_WorkspacePATs (actor : Authentication) (workspaceID : UUID) (page : PageRequest)
| Req_Users (actor : Authentication) (page : PageRequest)
| Req_Workspaces (actor : Authentication) (page : PageRequest)
| Req_UserWorkspaces (actor : Authentication) (page : PageRequest)
| Req_Memberships (actor : Authentication) (workspaceID : UUID) (page : PageRequest)
| Req_WorkspaceMembers (actor : Authentication) (workspaceID : UUID) (page : PageRequest)
| Req_InstanceAdministrators (actor : Authentication)
| Req_AuditEvents (actor : Authentication) (workspaceID : UUID) (page : PageRequest)
| Req_InstanceAuditEvents (actor : Authentication) (page : PageRequest)
| Req_ExportUserData (actor : Authentication) (userID : UUID).

Section run.
Context {E : Env}.

(** The answer of an operation is dropped, its error kept. *)
Definition done_ {A} (p : M World A) : M World unit := _ ← p; mret tt.

Definition run_request (r : Request) : M World unit :=
  match r with
  | Req_CreateSession actor => done_ (Manager_CreateSession actor)
  | Req_AuthenticateSession raw => done_ (Manager_AuthenticateSession raw)
  | Req_SignOut raw => done_ (Manager_SignOut raw)
  | Req_RevokeSession actor sessionID => done_ (Manager_RevokeSession actor sessionID)
  | Req_RevokeUserSessions actor request userID => done_ (Manager_RevokeUserSessions actor request
      userID)
  | Req_CreatePAT actor input => done_ (Manager_CreatePAT actor input)
  | Req_AuthenticatePAT raw => done_ (Manager_AuthenticatePAT raw)
  | Req_RevokePAT actor patID => done_ (Manager_RevokePAT actor patID)
  | Req_RevokeWorkspacePAT actor workspaceID patID => done_ (Manager_RevokeWorkspacePAT actor
      workspaceID patID)
  | Req_Bootstrap input => done_ (Manager_Bootstrap input)
  | Req_CreateUser actor workspaceID input => done_ (Manager_CreateUser actor workspaceID input)
  | Req_AuthenticatePassword email password => done_ (Manager_AuthenticatePassword email password)
  | Req_ChangePassword actor currentPassword newPassword => done_ (Manager_ChangePassword actor
      currentPassword newPassword)
  | Req_GrantRole actor workspaceID userID role => done_ (Manager_GrantRole actor workspaceID userID
      role)
  | Req_InstanceAdministrator actor userID => done_ (Manager_InstanceAdministrator actor userID)
  | Req_SetInstanceRole actor request userID role => done_ (Manager_SetInstanceRole actor request
      userID role)
  | Req_RemoveInstanceRole actor request userID => done_ (Manager_RemoveInstanceRole actor request
      userID)
  | Req_CreateWorkspace actor input => done_ (Manager_CreateWorkspace actor input)
  | Req_UpdateWorkspace actor workspaceID input => done_ (Manager_UpdateWorkspace actor workspaceID
      input)
  | Req_AdminUpdateWorkspace actor request workspaceID input => done_ (Manager_AdminUpdateWorkspace
      actor request workspaceID input)
  | Req_DisableWorkspace actor workspaceID => done_ (Manager_DisableWorkspace actor workspaceID)
  | Req_EnableWorkspace actor workspaceID => done_ (Manager_EnableWorkspace actor workspaceID)
  | Req_AdminDisableWorkspace actor request workspaceID => done_ (Manager_AdminDisableWorkspace
      actor request workspaceID)
  | Req_AdminEnableWorkspace actor request workspaceID => done_ (Manager_AdminEnableWorkspace actor
      request workspaceID)
  | Req_setUserDisabled actor request userID disabled => done_ (setUserDisabled actor request userID
      disabled)
  | Req_UpdateUser actor input => done_ (Manager_UpdateUser actor input)
  | Req_AdminUpdateUser actor request userID input => done_ (Manager_AdminUpdateUser actor request
      userID input)
  | Req_AddMembership actor workspaceID userID role => done_ (Manager_AddMembership actor
      workspaceID userID role)
  | Req_SetMembershipStatus actor workspaceID userID status => done_ (Manager_SetMembershipStatus
      actor workspaceID userID status)
  | Req_RemoveMembership actor workspaceID userID => done_ (Manager_RemoveMembership actor
      workspaceID userID)
  | Req_User actor userID => done_ (Manager_User actor userID)
  | Req_Workspace actor workspaceID => done_ (Manager_Workspace actor workspaceID)
  | Req_Membership actor workspaceID userID => done_ (Manager_Membership actor workspaceID userID)
  | Req_RevokeUserCredentials actor request userID => done_ (Manager_RevokeUserCredentials actor
      request userID)
  | Req_AdminResetSecondFactor actor request userID => done_ (Manager_AdminResetSecondFactor actor
      request userID)
  | Req_AnonymizeUser actor request userID => done_ (Manager_AnonymizeUser actor request userID)
  | Req_RecordAudit actor input => done_ (Manager_RecordAudit actor input)
  | Req_VerifyAuditChainFrom actor checkpoint => done_ (Manager_VerifyAuditChainFrom actor
      checkpoint)
    | Req_BeginEmailAddition actor address => done_ (Manager_BeginEmailAddition actor address)
    | Req_ResendEmailVerification address => done_ (Manager_ResendEmailVerification address)
    | Req_ConfirmEmail raw => done_ (Manager_ConfirmEmail raw)
    | Req_SetPrimaryEmail actor emailID => done_ (Manager_SetPrimaryEmail actor emailID)
    | Req_RemoveEmail actor emailID => done_ (Manager_RemoveEmail actor emailID)
    | Req_Emails actor userID page => done_ (Manager_Emails actor userID page)
    | Req_BeginPasswordReset email => done_ (Manager_BeginPasswordReset email)
    | Req_CompletePasswordReset raw newPassword => done_ (Manager_CompletePasswordReset raw
      newPassword)
    | Req_BeginEmailAuthentication email => done_ (Manager_BeginEmailAuthentication email)
    | Req_CompleteEmailAuthentication raw => done_ (Manager_CompleteEmailAuthentication raw)
    | Req_InviteToWorkspace actor workspaceID input => done_ (Manager_InviteToWorkspace actor
      workspaceID input)
    | Req_AcceptInvitation actor raw => done_ (Manager_AcceptInvitation actor raw)
    | Req_RegisterFromInvitation raw input => done_ (Manager_RegisterFromInvitation raw input)
    | Req_RevokeInvitation actor workspaceID invitationID => done_ (Manager_RevokeInvitation actor
      workspaceID invitationID)
    | Req_WorkspaceInvitations actor workspaceID page => done_ (Manager_WorkspaceInvitations actor
      workspaceID page)
    | Req_SignUp input => done_ (Manager_SignUp input)
    | Req_CreateWorkspaceDomain actor workspaceID domain => done_ (Manager_CreateWorkspaceDomain
      actor workspaceID domain)
    | Req_ConfirmWorkspaceDomain actor domainID => done_ (Manager_ConfirmWorkspaceDomain actor
      domainID)
    | Req_UpdateWorkspaceDomainPolicy actor domainID input => done_
      (Manager_UpdateWorkspaceDomainPolicy actor domainID input)
    | Req_RemoveWorkspaceDomain actor domainID => done_ (Manager_RemoveWorkspaceDomain actor
      domainID)
    | Req_WorkspaceDomains actor workspaceID page during => done_ (Manager_WorkspaceDomains actor
      workspaceID page during)
    | Req_BeginTOTPEnrollment actor => done_ (Manager_BeginTOTPEnrollment actor)
    | Req_ConfirmTOTPEnrollment actor code => done_ (Manager_ConfirmTOTPEnrollment actor code)
    | Req_VerifyTOTP actor code => done_ (Manager_VerifyTOTP actor code)
    | Req_DisableTOTP actor code => done_ (Manager_DisableTOTP actor code)
    | Req_RegenerateRecoveryCodes actor => done_ (Manager_RegenerateRecoveryCodes actor)
    | Req_TOTPStatus actor userID => done_ (Manager_TOTPStatus actor userID)
    | Req_BeginEmailOTP email => done_ (Manager_BeginEmailOTP email)
    | Req_CompleteEmailOTP continuation code => done_ (Manager_CompleteEmailOTP continuation code)
    | Req_BeginPasskeyRegistration actor name => done_ (Manager_BeginPasskeyRegistration actor
      name)
    | Req_FinishPasskeyRegistration actor continuation response => done_
      (Manager_FinishPasskeyRegistration actor continuation response)
    | Req_BeginPasskeyAuthentication email => done_ (Manager_BeginPasskeyAuthentication email)
    | Req_FinishPasskeyAuthentication continuation response => done_
      (Manager_FinishPasskeyAuthentication continuation response)
    | Req_BeginDiscoverablePasskeyAuthentication  => done_
      (Manager_BeginDiscoverablePasskeyAuthentication )
    | Req_FinishDiscoverablePasskeyAuthentication continuation response => done_
      (Manager_FinishDiscoverablePasskeyAuthentication continuation response)
    | Req_DeletePasskey actor passkeyID => done_ (Manager_DeletePasskey actor passkeyID)
    | Req_Passkeys actor userID => done_ (Manager_Passkeys actor userID)
    | Req_BeginSSO providerConfigurationID => done_ (Manager_BeginSSO providerConfigurationID)
    | Req_BeginSSOLink actor providerConfigurationID => done_ (Manager_BeginSSOLink actor
      providerConfigurationID)
    | Req_BeginSSOStepUp actor providerConfigurationID => done_ (Manager_BeginSSOStepUp actor
      providerConfigurationID)
    | Req_FinishSSO continuation response => done_ (Manager_FinishSSO continuation response)
    | Req_UnlinkSSO actor identityID => done_ (Manager_UnlinkSSO actor identityID)
    | Req_SSOIdentities actor userID page during => done_ (Manager_SSOIdentities actor userID page
      during)
    | Req_CreateSCIMConfiguration actor workspaceID input => done_
      (Manager_CreateSCIMConfiguration actor workspaceID input)
    | Req_UpdateSCIMConfiguration actor configurationID input => done_
      (Manager_UpdateSCIMConfiguration actor configurationID input)
    | Req_SCIMConfigurations actor workspaceID => done_ (Manager_SCIMConfigurations actor
      workspaceID)
    | Req_SCIMCredentials actor configurationID => done_ (Manager_SCIMCredentials actor
      configurationID)
    | Req_RotateSCIMCredential actor configurationID expiresAt => done_
      (Manager_RotateSCIMCredential actor configurationID expiresAt)
    | Req_RevokeSCIMCredential actor configurationID credentialID => done_
      (Manager_RevokeSCIMCredential actor configurationID credentialID)
    | Req_DisableSCIMConfiguration actor configurationID => done_
      (Manager_DisableSCIMConfiguration actor configurationID)
    | Req_AuthenticateSCIM raw => done_ (Manager_AuthenticateSCIM raw)
    | Req_ProvisionSCIMUser principal input => done_ (Manager_ProvisionSCIMUser principal input)
    | Req_AdoptSCIMUser actor configurationID userID input => done_ (Manager_AdoptSCIMUser actor
      configurationID userID input)
    | Req_ReplaceSCIMUser principal id input => done_ (Manager_ReplaceSCIMUser principal id input)
    | Req_DeprovisionSCIMUser principal id => done_ (Manager_DeprovisionSCIMUser principal id)
    | Req_SCIMUser principal id => done_ (Manager_SCIMUser principal id)
    | Req_SCIMUsers principal filter page during => done_ (Manager_SCIMUsers principal filter page
      during)
    | Req_UpsertSCIMGroup principal id input => done_ (Manager_UpsertSCIMGroup principal id input)
    | Req_DeleteSCIMGroup principal id => done_ (Manager_DeleteSCIMGroup principal id)
    | Req_SCIMGroup principal id => done_ (Manager_SCIMGroup principal id)
    | Req_SCIMGroups principal filter page during => done_ (Manager_SCIMGroups principal filter
      page during)
    | Req_CreateOAuthIssuer actor request input => done_ (Manager_CreateOAuthIssuer actor request
      input)
    | Req_UpdateOAuthIssuer actor request issuerID input => done_ (Manager_UpdateOAuthIssuer actor
      request issuerID input)
    | Req_CreateOAuthProtectedResource actor workspaceID input => done_
      (Manager_CreateOAuthProtectedResource actor workspaceID input)
    | Req_PreRegisterOAuthClient actor request issuerID input => done_
      (Manager_PreRegisterOAuthClient actor request issuerID input)
    | Req_CreateOAuthInitialAccessToken actor request issuerID input => done_
      (Manager_CreateOAuthInitialAccessToken actor request issuerID input)
    | Req_OAuthInitialAccessTokens actor issuerID => done_ (Manager_OAuthInitialAccessTokens actor
      issuerID)
    | Req_RevokeOAuthInitialAccessToken actor request tokenID => done_
      (Manager_RevokeOAuthInitialAccessToken actor request tokenID)
    | Req_RegisterOAuthClient issuerURL initialAccessToken input => done_
      (Manager_RegisterOAuthClient issuerURL initialAccessToken input)
    | Req_ValidateOAuthAuthorizationRedirect issuerURL clientID redirectURI => done_
      (Manager_ValidateOAuthAuthorizationRedirect issuerURL clientID redirectURI)
    | Req_BeginOAuthAuthorization actor input => done_ (Manager_BeginOAuthAuthorization actor
      input)
    | Req_CompleteOAuthAuthorization actor rawContinuation approved => done_
      (Manager_CompleteOAuthAuthorization actor rawContinuation approved)
    | Req_ExchangeOAuthAuthorizationCode input => done_ (Manager_ExchangeOAuthAuthorizationCode
      input)
    | Req_IssueOAuthClientCredentials input => done_ (Manager_IssueOAuthClientCredentials input)
    | Req_RefreshOAuthToken input => done_ (Manager_RefreshOAuthToken input)
    | Req_RevokeOAuthToken input => done_ (Manager_RevokeOAuthToken input)
    | Req_AuthenticateOAuthAccessToken resourceURI raw => done_
      (Manager_AuthenticateOAuthAccessToken resourceURI raw)
    | Req_OAuthUserInfo issuerURL rawAccessToken => done_ (Manager_OAuthUserInfo issuerURL
      rawAccessToken)
    | Req_OAuthAuthorizationServerMetadata issuerURL => done_
      (Manager_OAuthAuthorizationServerMetadata issuerURL)
    | Req_OAuthProtectedResourceMetadata resourceURI => done_
      (Manager_OAuthProtectedResourceMetadata resourceURI)
    | Req_OAuthJWKS issuerURL => done_ (Manager_OAuthJWKS issuerURL)
    | Req_DisableOAuthIssuer actor request issuerID => done_ (Manager_DisableOAuthIssuer actor
      request issuerID)
    | Req_EnableOAuthIssuer actor request issuerID => done_ (Manager_EnableOAuthIssuer actor
      request issuerID)
    | Req_DisableOAuthProtectedResource actor workspaceID resourceID => done_
      (Manager_DisableOAuthProtectedResource actor workspaceID resourceID)
    | Req_EnableOAuthProtectedResource actor workspaceID resourceID => done_
      (Manager_EnableOAuthProtectedResource actor workspaceID resourceID)
    | Req_DisableOAuthClient actor request clientRecordID => done_ (Manager_DisableOAuthClient
      actor request clientRecordID)
    | Req_EnableOAuthClient actor request clientRecordID => done_ (Manager_EnableOAuthClient actor
      request clientRecordID)
    | Req_RotateOAuthClientSecret actor request clientRecordID => done_
      (Manager_RotateOAuthClientSecret actor request clientRecordID)
    | Req_ReplaceOAuthClientJWKS actor request clientRecordID jwks => done_
      (Manager_ReplaceOAuthClientJWKS actor request clientRecordID jwks)
    | Req_RevokeOAuthGrant actor grantID => done_ (Manager_RevokeOAuthGrant actor grantID)
    | Req_OAuthIssuers actor page => done_ (Manager_OAuthIssuers actor page)
    | Req_OAuthProtectedResources actor workspaceID page => done_ (Manager_OAuthProtectedResources
      actor workspaceID page)
    | Req_OAuthClients actor issuerID page => done_ (Manager_OAuthClients actor issuerID page)
    | Req_OAuthGrants actor workspaceID page => done_ (Manager_OAuthGrants actor workspaceID page)
    | Req_Sessions actor userID page during => done_ (Manager_Sessions actor userID page during)
    | Req_PATs actor userID page during => done_ (Manager_PATs actor userID page during)
    | Req_WorkspacePATs actor workspaceID page => done_ (Manager_WorkspacePATs actor workspaceID
      page)
    | Req_Users actor page => done_ (Manager_Users actor page)
    | Req_Workspaces actor page => done_ (Manager_Workspaces actor page)
    | Req_UserWorkspaces actor page => done_ (Manager_UserWorkspaces actor page)
    | Req_Memberships actor workspaceID page => done_ (Manager_Memberships actor workspaceID page)
    | Req_WorkspaceMembers actor workspaceID page => done_ (Manager_WorkspaceMembers actor
      workspaceID page)
    | Req_InstanceAdministrators actor => done_ (Manager_InstanceAdministrators actor)
    | Req_AuditEvents actor workspaceID page => done_ (Manager_AuditEvents actor workspaceID page)
    | Req_InstanceAuditEvents actor page => done_ (Manager_InstanceAuditEvents actor page)
    | Req_ExportUserData actor userID => done_ (Manager_ExportUserData actor userID)
  end.

End run.

(** ** Operations run traces of the store *)
Section traced_operations.
Context {E : Env} `{!WfEnv E}.

Lemma Answers_newAudit a b c d e f g : Answers (λ v, AuditEvent_Sequence v = 0%Z) (newAudit a b c d e f g).
Proof.
  intros w v w'. unfold newAudit, mbind, M_bind. destruct (newID w) as [[id|]]; [|done].
  cbn. by intros [= <- _].
Qed.

Lemma Traced_recordUnknownPATRejection : Traced recordUnknownPATRejection.
Proof.
  unfold recordUnknownPATRejection.
  eapply Traced_bind_answers; [traced|apply Answers_newAudit|]. intros event Hseq. traced.
Qed.

Lemma Traced_commit_change_by a w b c d e n g f :
  (∀ cm, Commit_Unchained cm = false → StoreCall (f cm)) →
  Traced (commit_change_by a w b c d e n g f).
Proof. intros Hf. unfold commit_change_by. traced. Qed.

Lemma Traced_commit_change_at a w b c d e n g f :
  (∀ t cm, Commit_Unchained cm = false → StoreCall (f t cm)) →
  Traced (commit_change_at a w b c d e n g f).
Proof. intros Hf. unfold commit_change_at. traced. Qed.

Lemma Traced_commit_service p w a b c n g f :
  (∀ cm, Commit_Unchained cm = false → StoreCall (f cm)) → Traced (commit_service p w a b c n g f).
Proof. intros Hf. unfold commit_service, newServiceAudit. traced. Qed.
Lemma Traced_commit_silent a w b c d f :
  (∀ cm, Commit_Unchained cm = false → StoreCall (f cm)) → Traced (commit_silent a w b c d f).
Proof. intros Hf. unfold commit_silent. traced. Qed.
Lemma Traced_commit_silent_at a w b c d f :
  (∀ t cm, Commit_Unchained cm = false → StoreCall (f t cm)) → Traced (commit_silent_at a w b c d f).
Proof. intros Hf. unfold commit_silent_at. traced. Qed.
Lemma Traced_all_page {T} page acc :
  (∀ q d cx, ReadOnly (page q d cx)) → Traced (@all_page _ T page acc).
Proof.
  intros Hp. assert (∀ q d, StoreCall (page q d)) by (intros; by apply StoreCall_ReadOnly).
  unfold all_page. traced.
Qed.

Lemma Traced_seal s : Traced (seal s).
Proof. unfold seal. traced. Qed.
Lemma Traced_run_ceremony {X Q R} (answer : X → Q → M World (X * result PasskeyUser)) x (c : Ceremony Q R) :
  (∀ x q, Traced (answer x q)) → Traced (run_ceremony answer x c).
Proof.
  intros Ha. revert x. induction c as [r|user k IH|q k IH]; intros x; cbn [run_ceremony]; traced.
Qed.
Lemma Traced_ceremony {R} (f : nat → Ceremony Empty_set R) : Traced (ceremony f).
Proof. unfold ceremony. traced. apply Traced_run_ceremony. intros _ []. Qed.
Lemma Traced_generate_codes n u : Traced (generate_codes n u).
Proof. induction n; cbn [generate_codes]; traced. Qed.
Lemma Traced_consume_ring l u c e : Traced (consume_ring l u c e).
Proof. induction l; cbn [consume_ring]; traced. Qed.
Lemma Traced_managed_membership c u : Traced (managed_membership c u).
Proof. unfold managed_membership. traced. Qed.
Lemma Traced_remapped_members c g l : Traced (remapped_members c g l).
Proof. pose proof Traced_managed_membership. induction l; cbn [remapped_members]; traced. Qed.
Lemma Traced_regrouped_members c g l : Traced (regrouped_members c g l).
Proof. pose proof Traced_managed_membership. induction l; cbn [regrouped_members]; traced. Qed.
Lemma Traced_known_members c l : Traced (known_members c l).
Proof. induction l; cbn [known_members]; traced. Qed.

Lemma Traced_lookup_valid {A} (f : Context → M Store A) bad e : StoreCall f → Traced (lookup_valid f bad e).
Proof. intros Hf. unfold lookup_valid. traced. Qed.
Lemma Answers_newOAuthChange a b c d e f g h i :
  Answers (λ p, Commit_Unchained p.2 = false) (newOAuthChange a b c d e f g h i).
Proof.
  intros w v w'. unfold newOAuthChange, mbind, M_bind. destruct (newEventMeta _ _ _ _ _ w) as [[meta|]]; [|done].
  cbn. by intros [= <- _].
Qed.
Lemma Traced_newOAuthChange a b c d e f g h i : Traced (newOAuthChange a b c d e f g h i).
Proof. unfold newOAuthChange. traced. Qed.
Lemma Traced_commit_client n o a c s f :
  (∀ t cm, Commit_Unchained cm = false → StoreCall (f t cm)) → Traced (commit_client n o a c s f).
Proof.
  intros Hf. unfold commit_client.
  eapply Traced_bind_answers; [apply Traced_newOAuthChange|apply Answers_newOAuthChange|].
  intros change Hc. unfold emitOAuthChange. traced.
Qed.
Lemma Traced_authorize_permissions a w l : Traced (authorize_permissions a w l).
Proof. induction l; cbn [authorize_permissions]; traced. Qed.
Lemma Traced_authorize_scopes a i r s l : Traced (authorize_scopes a i r s l).
Proof. pose proof Traced_authorize_permissions. induction l; cbn [authorize_scopes]; traced. Qed.
Lemma Traced_grant_permissions a r l : Traced (grant_permissions a r l).
Proof. pose proof Traced_authorize_permissions. induction l; cbn [grant_permissions]; traced. Qed.
Lemma Traced_any_step_up a l : Traced (any_step_up a l).
Proof. induction l; cbn [any_step_up]; unfold demands_step_up, too_old; traced. Qed.
Lemma Traced_require_step_up a l : Traced (require_step_up a l).
Proof. induction l; cbn [require_step_up]; unfold demands_step_up, too_old; traced. Qed.

Lemma Traced_drain_page {T} (q : PageRequest → (nat → Context) → Context → M Store (Stream (PageEvent T))) acc :
  (∀ p d cx, ReadOnly (q p d cx)) → Traced (drain_page q acc).
Proof.
  intros Hq. assert (∀ p d, StoreCall (q p d)) by (intros; by apply StoreCall_ReadOnly).
  unfold drain_page. traced.
Qed.
Lemma Traced_drainPages {T} (q : PageRequest → (nat → Context) → Context → M Store (Stream (PageEvent T))) :
  (∀ p d cx, ReadOnly (q p d cx)) → Traced (drainPages q).
Proof. intros Hq. apply Traced_loop. intros acc. by apply Traced_drain_page. Qed.
Lemma Traced_joined {T U} b o (j : T → User → U) l : Traced (joined b o j l).
Proof. induction l as [|[[item|e]|e] l IH]; cbn [joined]; traced. Qed.
Lemma Traced_affiliations u l : Traced (affiliations u l).
Proof. induction l; cbn [affiliations]; traced. Qed.

Lemma Traced_finalize_password n u p h : Traced (finalize_password n u p h).
Proof. revert h. induction n as [|n IH]; intros h; cbn [finalize_password]; traced. Qed.

End traced_operations.

#[export] Hint Resolve Traced_recordUnknownPATRejection Traced_finalize_password Traced_seal
  Traced_ceremony Traced_generate_codes Traced_consume_ring Traced_managed_membership
  Traced_remapped_members Traced_regrouped_members Traced_known_members Traced_newOAuthChange
  Traced_authorize_permissions Traced_authorize_scopes Traced_grant_permissions Traced_any_step_up
  Traced_require_step_up Traced_joined Traced_affiliations : cb_traced.

Ltac traced_bind ::=
  lazymatch goal with
  | |- Traced (newOAuthChange _ _ _ _ _ _ _ _ _ ≫= _) =>
      eapply Traced_bind_answers; [apply Traced_newOAuthChange|apply Answers_newOAuthChange|];
      intros ? ?; cbv beta in *
  end.

Ltac traced_step ::=
  lazymatch goal with
  | |- Traced (mapped _ _) => apply Traced_mapped
  | |- Traced (lookup_or_forbidden _ _) => apply Traced_lookup_or_forbidden; [storecall|]
  | |- Traced (optional _) => apply Traced_optional; storecall
  | |- Traced (loop _ _) => apply Traced_loop; intros ?
  | |- Traced (commit_change_by _ _ _ _ _ _ _ _ _) =>
      apply Traced_commit_change_by; intros ? ?; storecall
  | |- Traced (commit_change_at _ _ _ _ _ _ _ _ _) =>
      apply Traced_commit_change_at; intros ? ? ?; storecall
  | |- Traced (commit_service _ _ _ _ _ _ _ _) => apply Traced_commit_service; intros ? ?; storecall
  | |- Traced (commit_silent _ _ _ _ _ _) => apply Traced_commit_silent; intros ? ?; storecall
  | |- Traced (commit_silent_at _ _ _ _ _ _) => apply Traced_commit_silent_at; intros ? ? ?; storecall
  | |- Traced (commit_client _ _ _ _ _ _) => apply Traced_commit_client; intros ? ? ?; storecall
  | |- Traced (lookup_valid _ _ _) => apply Traced_lookup_valid; storecall
  | |- Traced (all_page _ _) => apply Traced_all_page; intros; readonly
  | |- Traced (drainPages _) => apply Traced_drainPages; intros; readonly
  | |- Traced (run_ceremony _ _ _) => apply Traced_run_ceremony; intros ? ?
  | |- Traced ?p => let h := get_head p in unfold h
  end.

(** The shared steps of the OAuth operations. *)
Section traced_oauth.
Context {E : Env} `{!WfEnv E}.

Lemma Traced_settings_gate a r o : Traced (settings_gate a r o).
Proof. unfold settings_gate. traced. Qed.
#[local] Hint Resolve Traced_settings_gate : cb_traced.
Lemma Traced_newOAuthBearer k : Traced (newOAuthBearer k).
Proof. unfold newOAuthBearer. traced. Qed.
#[local] Hint Resolve Traced_newOAuthBearer : cb_traced.
Lemma Traced_oauthSectorIdentifier l b : Traced (oauthSectorIdentifier l b).
Proof. unfold oauthSectorIdentifier. traced. Qed.
#[local] Hint Resolve Traced_oauthSectorIdentifier : cb_traced.
Lemma Traced_newOAuthClient o i s r b : Traced (newOAuthClient o i s r b).
Proof. unfold newOAuthClient. traced. Qed.
#[local] Hint Resolve Traced_newOAuthClient : cb_traced.
Lemma Traced_oauthClientFromMetadata o i d : Traced (oauthClientFromMetadata o i d).
Proof. unfold oauthClientFromMetadata. traced. Qed.
#[local] Hint Resolve Traced_oauthClientFromMetadata : cb_traced.
Lemma Traced_emitOAuthCIMDRejected i c r : Traced (emitOAuthCIMDRejected i c r).
Proof. unfold emitOAuthCIMDRejected. traced. Qed.
#[local] Hint Resolve Traced_emitOAuthCIMDRejected : cb_traced.
Lemma Traced_refresh_client o i s c : Traced (refresh_client o i s c).
Proof. unfold refresh_client. traced. Qed.
#[local] Hint Resolve Traced_refresh_client : cb_traced.
Lemma Traced_resolveOAuthClient o i s : Traced (resolveOAuthClient o i s).
Proof. unfold resolveOAuthClient. traced. Qed.
#[local] Hint Resolve Traced_resolveOAuthClient : cb_traced.
Lemma Traced_enabled_issuer u : Traced (enabled_issuer u).
Proof. unfold enabled_issuer. traced. Qed.
#[local] Hint Resolve Traced_enabled_issuer : cb_traced.
Lemma Traced_authorizedOAuthScopes a i r l : Traced (authorizedOAuthScopes a i r l).
Proof. unfold authorizedOAuthScopes. traced. Qed.
#[local] Hint Resolve Traced_authorizedOAuthScopes : cb_traced.
Lemma Traced_authenticateOAuthClient o i : Traced (authenticateOAuthClient o i).
Proof. unfold authenticateOAuthClient. traced. Qed.
#[local] Hint Resolve Traced_authenticateOAuthClient : cb_traced.
Lemma Traced_active_grant g c u b : Traced (active_grant g c u b).
Proof. unfold active_grant. traced. Qed.
#[local] Hint Resolve Traced_active_grant : cb_traced.
Lemma Traced_oauthPrimaryEmail u : Traced (oauthPrimaryEmail u).
Proof. unfold oauthPrimaryEmail. traced. Qed.
#[local] Hint Resolve Traced_oauthPrimaryEmail : cb_traced.
Lemma Traced_oauthIDToken o i c g n e : Traced (oauthIDToken o i c g n e).
Proof. unfold oauthIDToken. traced. Qed.
#[local] Hint Resolve Traced_oauthIDToken : cb_traced.
Lemma Traced_newOAuthAccessToken o g t : Traced (newOAuthAccessToken o g t).
Proof. unfold newOAuthAccessToken. traced. Qed.
#[local] Hint Resolve Traced_newOAuthAccessToken : cb_traced.
Lemma Traced_newOAuthRefreshToken o g f t : Traced (newOAuthRefreshToken o g f t).
Proof. unfold newOAuthRefreshToken. traced. Qed.
#[local] Hint Resolve Traced_newOAuthRefreshToken : cb_traced.
Lemma Traced_revokeOAuthRefreshFamily t c r : Traced (revokeOAuthRefreshFamily t c r).
Proof. unfold revokeOAuthRefreshFamily. traced. Qed.
#[local] Hint Resolve Traced_revokeOAuthRefreshFamily : cb_traced.

End traced_oauth.

#[export] Hint Resolve Traced_settings_gate Traced_newOAuthBearer Traced_newOAuthClient
  Traced_resolveOAuthClient Traced_enabled_issuer Traced_authorizedOAuthScopes
  Traced_authenticateOAuthClient Traced_active_grant Traced_oauthPrimaryEmail Traced_oauthIDToken
  Traced_newOAuthAccessToken Traced_newOAuthRefreshToken Traced_revokeOAuthRefreshFamily : cb_traced.

Lemma request_traced {E : Env} `{!WfEnv E} r : Traced (run_request r).
Proof. destruct r; cbn [run_request]; unfold done_; traced. Qed.

(** ** Histories *)

(** Requests served one after the other; what runs concurrently with each of
    them is the interference of its environment. *)
Definition run_history (h : list (Env * Request)) (w : World) : World :=
  foldl (λ w er, (@run_request er.1 er.2 w).2) w h.

(** C1: the manager refines the store. Whatever requests are served, whatever
    they answer, and whatever operations other goroutines interleave between
    any two of their steps, the store moves along a sequence of its own
    operations; every theorem about sequences of operations of the store (its
    audit chain verifies, revoked and used rows stay so, a root administrator
    remains) therefore holds of the service. *)
Theorem manager_refines_store h w :
  Forall (λ er, WfEnv er.1) h →
  ∃ ops, Forall wf_op ops ∧ W_store (run_history h w) = run_trace ops (W_store w).
Proof.
  intros Hh. change (reaches (W_store w) (W_store (run_history h w))). revert w.
  induction h as [|[E r] h IH]; intros w; [apply reaches_refl|].
  apply Forall_cons_1 in Hh as [HE Hh]. cbn in HE.
  trans (W_store (@run_request E r w).2); [apply request_traced|by apply IH].
Qed.

Definition demo_history : list (Env * Request) :=
  [(demo, Req_Bootstrap demo_bootstrap);
   (demo_with 60 [ForeignOp (OpMutation Do_AppendAudit None (mkCommit AuditEvent_zero None None false))],
    Req_CreateSession root);
   (demo, Req_CreateWorkspace root (mkCreateWorkspaceInput "Beta" true))].

Lemma manager_refines_store_witness :
  (∃ ops, Forall wf_op ops ∧
    W_store (run_history demo_history empty_world) = run_trace ops New) ∧
  size (sessions (W_store (run_history demo_history empty_world))) = 1 ∧
  size (workspaces (W_store (run_history demo_history empty_world))) = 2.
Proof.
  split; [|by vm_compute].
  apply (manager_refines_store demo_history empty_world).
  repeat (constructor; [split; intros t; cbn; repeat case_match; repeat constructor|]). constructor.
Defined.
