(* ===== verification/ManagerSafety.v ===== *)
(** * What a successful request implies

    Soundness of the gates and of the authentications, under interference:
    when a call succeeds, each fact it relies on held of the store at some
    point between its start and its end. *)
From stdpp Require Import base gmap sets list strings numbers sorting.
From Stdlib Require Import ZArith Lia Ascii.
From S2P Require Import Prelude Bytes Uuid Types OAuthTypes Roles AuditChain Store StoreUsers StoreTokens StoreWorkspaces StoreScim StoreOAuth Commit StoreSystem StoreMonotone GoText Tokens Events Manager ManagerGates Config ManagerSession ManagerPAT ManagerPassword ManagerAdmin ManagerOAuth ManagerOAuthAdmin ManagerListings ManagerScenario ManagerTrace ManagerSystem.

Lemma later_through w w1 : later w w1 → later w (tick w1).
Proof. intros H. trans w1; [done|apply later_tick]. Qed.

(** ** Rows seen later *)
Lemma reaches_sessions s s' : reaches s s' → rows_le session_le (sessions s) (sessions s').
Proof. intros (ops & _ & ->). apply trace_grows; [apply _|apply sessions_grow|done|done]. Qed.
Lemma reaches_pats s s' : reaches s s' → rows_le pat_le (pats s) (pats s').
Proof. intros (ops & _ & ->). apply trace_grows; [apply _|apply pats_grow|done|done]. Qed.

(** [P] held of the store at some point of the interval. *)
Definition at_some (w w' : World) (P : Store → Prop) : Prop :=
  ∃ w1, later w w1 ∧ later w1 w' ∧ P (W_store w1).

Lemma at_some_mono w0 w w' w0' (P : Store → Prop) :
  later w0 w → later w' w0' → at_some w w' P → at_some w0 w0' P.
Proof. intros H1 H2 (w1 & Ha & Hb & HP). exists w1. split_and!; [by trans w|by trans w'|done]. Qed.
Lemma at_some_start w w' (P : Store → Prop) : later w w' → P (W_store w) → at_some w w' P.
Proof. intros H HP. exists w. split_and!; [apply later_refl|done|done]. Qed.

(** The clock showed an instant satisfying [P] during the interval. *)
Definition clock_showed {E : Env} (w w' : World) (P : Z → Prop) : Prop :=
  ∃ t, W_tick w ≤ t < W_tick w' ∧ P (m_clock the_manager t).

Lemma clock_showed_mono {E : Env} w0 w w' w0' P :
  later w0 w → later w' w0' → clock_showed w w' P → clock_showed w0 w0' P.
Proof. intros (_ & H1 & _) (_ & H2 & _) (t & Ht & HP). exists t. split; [lia|done]. Qed.
Lemma clock_showed_now {E : Env} w w' (P : Z → Prop) :
  later (tick w) w' → P (m_clock the_manager (W_tick w)) → clock_showed w w' P.
Proof. intros (_ & H & _) HP. exists (W_tick w). cbn in H. split; [lia|done]. Qed.

(** ** Lookups *)

(** A lookup of the store: it changes nothing, and reports [ErrNotFound] when
    there is no row. *)
Class Lookup {A} (op : Context → M Store A) (f : Store → option A) : Prop :=
  lookup_spec cx s :
    op cx s = (match cx with
               | Some e => Error e
               | None => match f s with Some a => Ok a | None => Error ErrNotFound end
               end, s).

Ltac solve_lookup :=
  intros cx s; destruct cx; [reflexivity|];
  lazymatch goal with |- ?op _ _ = _ => let h := get_head op in unfold h end;
  cbv [check_ctx mbind M_bind get mret M_ret];
  lazymatch goal with |- context [ok_or ?o _] => destruct o; reflexivity end.

#[export] Instance UserByID_lookup id : Lookup (λ cx, UserByID cx id) (λ s, users s !! id).
Proof. solve_lookup. Qed.
#[export] Instance UserByEmail_lookup e :
  Lookup (λ cx, UserByEmail cx e)
    (λ s, (λ id, default User_zero (users s !! id)) <$> emails s !! e).
Proof. solve_lookup. Qed.
#[export] Instance SessionByID_lookup id : Lookup (λ cx, SessionByID cx id) (λ s, sessions s !! id).
Proof. solve_lookup. Qed.
#[export] Instance WorkspaceByID_lookup id :
  Lookup (λ cx, WorkspaceByID cx id) (λ s, workspaces s !! id).
Proof. solve_lookup. Qed.
#[export] Instance PasswordByUserID_lookup id :
  Lookup (λ cx, PasswordByUserID cx id) (λ s, passwords s !! id).
Proof. solve_lookup. Qed.
#[export] Instance LoginThrottleByUserID_lookup id :
  Lookup (λ cx, LoginThrottleByUserID cx id) (λ s, throttles s !! id).
Proof. solve_lookup. Qed.
#[export] Instance TOTPByUserID_lookup id : Lookup (λ cx, TOTPByUserID cx id) (λ s, totp s !! id).
Proof. solve_lookup. Qed.
#[export] Instance InstanceAdministrator_lookup id :
  Lookup (λ cx, InstanceAdministrator_ cx id) (λ s, admins s !! id).
Proof. solve_lookup. Qed.
#[export] Instance Membership_lookup w u :
  Lookup (λ cx, Membership_ cx w u) (λ s, normalizeMembership <$> members_of s w !! u).
Proof. solve_lookup. Qed.
#[export] Instance PATByPrefix_lookup p :
  Lookup (λ cx, PATByPrefix cx p)
    (λ s, (λ id, default PAT_zero (pats s !! id)) <$> patPrefixes s !! p).
Proof. solve_lookup. Qed.

(** The answer of a lookup that ran in the store [s]. *)
Definition answered {A} (f : Store → option A) (s : Store) (r : result A) : Prop :=
  match r with
  | Ok a => f s = Some a
  | Error e => errors_Is e ErrNotFound = true → f s = None
  end.

Lemma tick_same w : tick (w <| W_store := W_store w |>) = tick w.
Proof. by destruct w. Qed.

Lemma wp_lookup {E : Env} `{!WfEnv E} {A} (op : Context → M Store A) f `{!Lookup op f} Q w :
  (∀ w1 r, later w w1 → answered f (W_store w1) r → Q r (tick w1)) → wp (call op) Q w.
Proof.
  intros HQ. apply wp_call. intros w1 r s' Hl Hr. rewrite lookup_spec in Hr.
  apply pair_equal_spec in Hr as [Hr <-]. rewrite tick_same. apply HQ; [done|].
  pose proof (wf_ctx (W_tick w1)) as Hcx. destruct (Ctx_Err the_ctx (W_tick w1)) as [e|].
  - subst r. intros Hn. destruct Hcx as [-> | ->]; discriminate Hn.
  - subst r. by destruct (f (W_store w1)) eqn:?; cbn.
Qed.

(** ** Guarantees of a computation *)
Section ensures.
Context {E : Env} `{!WfEnv E}.

(** Every successful run of [p] satisfies [Q]. *)
Definition Ensures {A} (p : M World A) (Q : World → A → World → Prop) : Prop :=
  ∀ w, wp_ok p (λ a w', later w w' ∧ Q w a w') w.

Lemma ok_ensures {A} (p : M World A) (Q : World → A → World → Prop) (R : A → World → Prop) w :
  Ensures p Q → (∀ a w', later w w' → Q w a w' → R a w') → wp_ok p R w.
Proof. intros Hp HR. eapply wp_mono; [apply Hp|]. intros [a|e] w'; [|done]. intros []. by apply HR. Qed.

Lemma Ensures_run {A} (p : M World A) Q w a w' :
  Ensures p Q → p w = (Ok a, w') → later w w' ∧ Q w a w'.
Proof. intros Hp. exact (wp_run p _ w _ _ (Hp w)). Qed.

(** The same where the error is inspected. *)
Lemma wp_ensures {A} (p : M World A) (Q : World → A → World → Prop) (R : result A → World → Prop) w :
  Traced p → Ensures p Q →
  (∀ r w', later w w' → on_ok (λ a w', Q w a w') r w' → R r w') → wp p R w.
Proof.
  intros Ht Hp HR. pose proof (Ht w) as Hl. pose proof (Hp w) as Hq. unfold wp in *.
  destruct (p w) as [[a|e] w']; apply HR; [done|apply Hq|done|done].
Qed.

(** A refusal never succeeds. *)
Lemma ok_refusal {A B} (p : M World A) (k : A → error) (Q : B → World → Prop) w :
  wp_ok (a ← p; throw (k a)) Q w.
Proof. apply ok_bind, wp_intro. by intros [] ??. Qed.
End ensures.

(** Computations with a rule of their own; extended where they are defined. *)
Ltac ok_special := fail.
Ltac ok_step :=
  lazymatch goal with
  | |- wp (_ ≫= λ _, throw _) _ _ => apply ok_refusal
  | |- wp (_ ≫= _) (on_ok _) _ => apply ok_bind
  | |- wp (attempt _) (on_ok _) _ => apply ok_attempt
  | |- wp (mret _) (on_ok _) _ => apply ok_ret
  | |- wp (throw _) (on_ok _) _ => apply ok_throw
  | |- wp (throw_if _ _) (on_ok _) _ => let H := fresh "Hguard" in apply ok_throw_if; intros H
  | |- wp (lift_result _) (on_ok _) _ => let H := fresh "Hres" in apply ok_lift_result; intros ? H
  | |- wp now (on_ok _) _ => apply ok_now
  | |- wp (mapped _ _) (on_ok _) _ => apply ok_mapped
  | |- wp (call _) _ _ =>
      first [eapply wp_lookup; [apply _|]; intros ?w1 ?r ?Hlater ?Hfound
            |apply wp_mutation; [storecall|]; intros ?w1 ?r ?w2 ?Hlater ?Hlater ?Hrun]
  | |- wp (if ?b then _ else _) _ _ => let H := fresh "Hcase" in destruct b eqn:H
  | |- wp (match ?x with _ => _ end) _ _ => let H := fresh "Hcase" in destruct x eqn:H
  | |- wp _ (on_ok _) _ => ok_special
  end.
Ltac ok_steps := repeat (ok_step; cbv beta iota zeta).

(** [later] along a chain of hypotheses. *)
Ltac later_tac :=
  match goal with
  | |- later ?w ?w => apply later_refl
  | H : later ?w ?w' |- later ?w ?w' => exact H
  | |- later _ (tick _) => apply later_through; later_tac
  | H : later ?u ?v |- later _ ?v => trans u; [later_tac|exact H]
  end.

(** ** Identifiers and secrets *)
Section fresh.
Context {E : Env} `{!WfEnv E}.

Lemma newID_ensures : Ensures newID (λ w id _, id_range w → validUUIDv7 id = true).
Proof.
  intros w. unfold newID. apply ok_bind, ok_traced; [traced|]. intros [] w1 Hl1.
  apply ok_bind, ok_now, ok_bind. eapply wp_modify.
  assert (later w (advance_id (m_clock the_manager (W_tick w1)) (tick w1))) as Hl2.
  { trans w1; [done|]. apply later_same; cbn; [done|lia|].
    intros Hr. by apply (advance_id_range _ (tick w1)). }
  revert Hl2. generalize (advance_id (m_clock the_manager (W_tick w1)) (tick w1)). intros w2 Hl2.
  apply ok_bind, wp_intro. intros [b|e] w3 Hb; [|done]. cbn [on_ok].
  assert (w3 = tick w2) as ->.
  { revert Hb. unfold randomBytes. destruct (m_random_error _ _); by intros [= _ <-]. }
  apply ok_bind. apply wp_get. cbn [on_ok]. apply ok_ret.
  split; [by apply later_through|]. intros Hr. apply v7_bytes_valid. by apply Hl2.
Qed.

Lemma randomBytes_ensures n : Ensures (randomBytes n) (λ _ b _, str_len b = n).
Proof.
  intros w. unfold randomBytes, wp. destruct (m_random_error _ _); [done|].
  split; [apply later_tick|]. by rewrite <- bytes_of_length, bytes_of_of, length_fmap, length_seq.
Qed.
End fresh.

#[export] Instance Passkeys_lookup u :
  Lookup (λ cx, Passkeys cx u)
    (λ s, Some (merge_sort passkey_le (map_to_list (passkeys_of s u)).*2)).
Proof. intros cx s. by destruct cx. Qed.
Lemma no_passkeys (s : Store) u : merge_sort passkey_le (map_to_list (passkeys_of s u)).*2 = [] → passkeys_of s u = ∅.
Proof.
  intros H. apply map_to_list_empty_iff, (fmap_nil_inv snd), Permutation_nil_r. rewrite <- H.
  symmetry. apply merge_sort_Permutation.
Qed.

(** ** The gates *)
Section gates.
Context {E : Env} `{!WfEnv E}.

Definition enabled (u : UUID) (s : Store) : Prop :=
  ∃ user, users s !! u = Some user ∧ User_Disabled user = false.
Definition has_active_totp (u : UUID) (s : Store) : Prop :=
  ∃ f, totp s !! u = Some f ∧ TOTPFactor_Active f = true.

(** What a lookup found held at the instant it ran. *)
Lemma at_some_found w w1 w' (P : Store → Prop) :
  later w w1 → later (tick w1) w' → P (W_store w1) → at_some w w' P.
Proof.
  intros H1 H2 HP. exists w1. split_and!; [done|trans (tick w1); [apply later_tick|done]|done].
Qed.

Lemma requireActiveUser_ensures u :
  Ensures (requireActiveUser u) (λ w _ w', at_some w w' (enabled u)).
Proof.
  intros w. unfold requireActiveUser. ok_steps. split; [by apply later_through|].
  eapply at_some_found; [done|apply later_refl|]. by exists a.
Qed.

(** Neither anonymous, nor a personal access token, nor half signed in. *)
Definition interactive_context (a : Authentication) : Prop :=
  Authentication_UserID a ≠ Nil ∧ Interactive a = true ∧
  Authentication_SecondFactorRequired a = false.
Definition fresh_at (a : Authentication) (t : Z) : Prop := outside_window t a = false.

Lemma requireInteractive_ensures a :
  Ensures (requireInteractive a) (λ w _ w',
    interactive_context a ∧ at_some w w' (enabled (Authentication_UserID a))).
Proof.
  intros w. unfold requireInteractive, anonymous. ok_steps. bool_cases.
  eapply ok_ensures; [apply requireActiveUser_ensures|]. intros [] w' Hl He. done.
Qed.

Lemma requireRecentInteractive_ensures a :
  Ensures (requireRecentInteractive a) (λ w _ w',
    interactive_context a ∧ clock_showed w w' (fresh_at a) ∧
    at_some w w' (enabled (Authentication_UserID a))).
Proof.
  intros w. unfold requireRecentInteractive, anonymous. ok_steps. bool_cases.
  eapply ok_ensures; [apply requireActiveUser_ensures|]. intros [] w' Hl He.
  assert (later w w') by (trans (tick w); [apply later_tick|done]).
  split_and!; [done..|by apply clock_showed_now|].
  eapply at_some_mono; [apply later_tick|apply later_refl|done].
Qed.

(** A fresh interactive context of assurance level 2. *)
Definition stepped_up (a : Authentication) (w w' : World) : Prop :=
  (AAL2 ≤ Authentication_Level a)%Z ∧ clock_showed w w' (fresh_at a).

Lemma RequireStepUp_ensures a :
  Ensures (RequireStepUp a) (λ w _ w', interactive_context a ∧ stepped_up a w w').
Proof.
  intros w. unfold RequireStepUp, anonymous. ok_steps. bool_cases.
  split_and!; [apply later_tick|done|]. split; [lia|].
  by apply clock_showed_now; [apply later_refl|].
Qed.

(** The user could not satisfy a step-up: no active TOTP factor and, where a
    passkey provider is configured, no passkey. *)
Definition incapable (u : UUID) (w w' : World) : Prop :=
  at_some w w' (λ s, ¬ has_active_totp u s) ∧
  (not_nil (m_passkeys the_manager) = true → at_some w w' (λ s, passkeys_of s u = ∅)).

Lemma incapable_mono u w0 w w' w0' : later w0 w → later w' w0' → incapable u w w' → incapable u w0 w0'.
Proof. intros H1 H2 [Ht Hp]. split; [by eapply at_some_mono|]. intros. by eapply at_some_mono; [..|apply Hp]. Qed.

Lemma stepUpCapable_ensures u :
  Ensures (stepUpCapable u) (λ w b w', b = false → u ≠ Nil → incapable u w w').
Proof.
  intros w. unfold stepUpCapable, incapable. ok_step; bool_cases.
  { apply ok_ret. split; [apply later_refl|done]. }
  ok_step. ok_step. ok_step. cbv beta iota zeta.
  set (capable := match r with Ok f => TOTPFactor_Active f | Error e => negb (errors_Is e ErrNotFound) end).
  assert (capable = false → ¬ has_active_totp u (W_store w1)) as Hno.
  { unfold capable, answered in *. destruct r as [f|e]; intros Hc (f' & Hf & Ha); [congruence|].
    bool_cases. by rewrite Hfound in Hf. }
  clearbody capable. destruct capable; [|destruct (not_nil (m_passkeys the_manager)); cbn [negb]].
  - apply ok_ret. split; [by apply later_through|done].
  - do 3 ok_step. cbv beta iota zeta.
    assert (later w w0) by (trans (tick w1); [by apply later_through|done]).
    destruct r0 as [l|e]; apply ok_ret; (split; [by apply later_through|]); [|done].
    intros Hl0 _. apply negb_false_iff, bool_decide_eq_true in Hl0 as ->. split.
    + apply (at_some_found w w1); [done| |by apply Hno]. by apply later_through.
    + intros _. eapply at_some_found; [done|apply later_refl|]. apply no_passkeys. cbn in *. congruence.
  - apply ok_ret. split; [by apply later_through|]. intros _ _. split; [|done].
    eapply at_some_found; [done|apply later_refl|by apply Hno].
Qed.

(** What the gate of a scope implies, for every policy. *)
Definition gate_passed (scope : StepUpScope) (a : Authentication) (w w' : World) : Prop :=
  let policy := policyFor (m_stepUp the_manager) scope in
  interactive_context a ∧ at_some w w' (enabled (Authentication_UserID a)) ∧
  (policy = StepUpPolicyRequired → stepped_up a w w') ∧
  (policy = StepUpPolicyUserCapable →
     stepped_up a w w' ∨ incapable (Authentication_UserID a) w w').

Lemma step_up_demanded_ensures a scope :
  Ensures (step_up_demanded a scope) (λ w b w', b = false →
    policyFor (m_stepUp the_manager) scope ≠ StepUpPolicyRequired ∧
    (policyFor (m_stepUp the_manager) scope = StepUpPolicyUserCapable →
       Authentication_UserID a ≠ Nil → incapable (Authentication_UserID a) w w')).
Proof.
  intros w. unfold step_up_demanded. cbv zeta. ok_step; bool_cases.
  { apply ok_ret. split; [apply later_refl|done]. }
  ok_step; bool_cases.
  - eapply ok_ensures; [apply stepUpCapable_ensures|]. intros b w' Hl Hb. split; [done|].
    intros Hf. split; [done|]. intros _. by apply Hb.
  - apply ok_ret. split; [apply later_refl|done].
Qed.

Lemma RequireStepUpFor_ensures a scope :
  Ensures (RequireStepUpFor a scope) (λ w _ w', gate_passed scope a w w').
Proof.
  intros w. unfold RequireStepUpFor. apply ok_bind.
  eapply ok_ensures; [apply step_up_demanded_ensures|]. intros [] w1 Hl Hd.
  - apply ok_bind. eapply ok_ensures; [apply RequireStepUp_ensures|].
    intros [] w2 Hl2 (Hi & Ha & Hc).
    eapply ok_ensures; [apply requireActiveUser_ensures|]. intros [] w3 Hl3 He.
    assert (later w w3) by (by trans w1; [|trans w2]).
    assert (stepped_up a w w3).
    { split; [done|]. eapply clock_showed_mono; [exact Hl|exact Hl3|done]. }
    split; [done|]. split_and!; [done| |done|by left].
    eapply at_some_mono; [|apply later_refl|done]. by trans w1.
  - eapply ok_ensures; [apply requireInteractive_ensures|]. intros [] w2 Hl2 (Hi & He).
    destruct (Hd eq_refl) as [Hn Hu]. split; [by trans w1|]. split_and!; [done| |done|].
    + eapply at_some_mono; [exact Hl|apply later_refl|done].
    + intros Hp. right. eapply incapable_mono; [apply later_refl|done|]. apply Hu; [done|apply Hi].
Qed.

Lemma requireScopedStepUp_ensures a scope operation :
  Ensures (requireScopedStepUp a scope operation) (λ w _ w', gate_passed scope a w w').
Proof.
  intros w. unfold requireScopedStepUp. apply ok_bind, ok_attempt.
  eapply wp_mono; [apply RequireStepUpFor_ensures|]. intros [[]|e] w' Hw; [by apply ok_ret|].
  apply ok_refusal.
Qed.

End gates.

(** ** Authorization *)
Section authorization.
Context {E : Env} `{!WfEnv E}.

Lemma lookup_or_forbidden_ensures {A} (op : Context → M Store A) f `{!Lookup op f} absent :
  Ensures (lookup_or_forbidden op absent) (λ w a w', at_some w w' (λ s, f s = Some a)).
Proof.
  intros w. unfold lookup_or_forbidden. ok_step. ok_step. eapply wp_lookup; [done|].
  intros w1 [a|e] Hl Hf; [|by ok_steps].
  apply ok_ret. split; [by apply later_through|]. by eapply at_some_found; [|apply later_refl|].
Qed.

(** A workspace the credential may act in. *)
Definition open_workspace (a : Authentication) (id : UUID) (s : Store) : Prop :=
  ∃ w, workspaces s !! id = Some w ∧ Workspace_DisabledAt w = None ∧ mfa_missing w a = false.
(** The user is an active member whose role holds the permission. *)
Definition member_allowed (id user : UUID) (permission : WorkspacePermission) (s : Store) : Prop :=
  ∃ m, normalizeMembership <$> members_of s id !! user = Some m ∧
    Membership_Status m = MembershipActive ∧
    allows (m_workspaceRoles the_manager) (Membership_Role m) permission = true.
(** The scopes and the binding of the credential cover the permission. *)
Definition credential_covers (a : Authentication) (id : UUID)
    (permission : WorkspacePermission) : Prop :=
  (Authentication_Scopes a = [] ∨ HasScope a permission = true) ∧
  (Authentication_WorkspaceID a = Nil ∨ Authentication_WorkspaceID a = id).

Lemma bound_elsewhere_false a id :
  bound_elsewhere a id = false ↔ Authentication_WorkspaceID a = Nil ∨ Authentication_WorkspaceID a = id.
Proof.
  unfold bound_elsewhere. rewrite andb_false_iff, !bool_decide_eq_false.
  destruct (decide (Authentication_WorkspaceID a = Nil)),
    (decide (Authentication_WorkspaceID a = id)); tauto.
Qed.

Definition permission_held (a : Authentication) (id : UUID) (permission : WorkspacePermission)
    (w w' : World) : Prop :=
  Authentication_UserID a ≠ Nil ∧ Authentication_SecondFactorRequired a = false ∧
  credential_covers a id permission ∧
  at_some w w' (enabled (Authentication_UserID a)) ∧
  at_some w w' (open_workspace a id) ∧
  at_some w w' (member_allowed id (Authentication_UserID a) permission).

Lemma permission_held_mono a id permission w0 w w' w0' :
  later w0 w → later w' w0' → permission_held a id permission w w' →
  permission_held a id permission w0 w0'.
Proof. intros H1 H2 (? & ? & ? & ? & ? & ?). split_and!; [done..| | |]; by eapply at_some_mono. Qed.

Lemma AuthorizePermission_ensures a id permission :
  Ensures (AuthorizePermission a id permission) (λ w _ w', permission_held a id permission w w').
Proof.
  intros w. unfold AuthorizePermission, anonymous.
  do 3 (ok_step; ok_step; cbv beta). ok_step.
  destruct (negb _ && _) eqn:Hscope; [apply ok_refusal|]. apply ok_ret, ok_bind.
  eapply ok_ensures; [apply requireActiveUser_ensures|]. intros [] w1 Hl1 He. ok_step.
  destruct (bound_elsewhere a id) eqn:Hbound; [apply ok_refusal|]. apply ok_ret, ok_bind.
  eapply ok_ensures; [by apply lookup_or_forbidden_ensures, _|]. intros workspace w2 Hl2 Hw. cbn in Hw.
  do 2 (ok_step; ok_step; cbv beta). ok_step.
  eapply ok_ensures; [by apply lookup_or_forbidden_ensures, _|]. intros membership w3 Hl3 Hm. cbn in Hm.
  ok_step. bool_cases.
  assert (later w w3) by (by trans w1; [|trans w2]).
  split; [done|]. split_and!; [done|done| | | |].
  - split; [|by apply bound_elsewhere_false]. apply andb_false_iff in Hscope as [?|?]; bool_cases; auto.
  - eapply at_some_mono; [apply later_refl|by trans w2|done].
  - eapply at_some_mono; [exact Hl1|exact Hl3|]. destruct Hw as (wx & Ha & Hb & Hf).
    exists wx. split_and!; [done|done|]. exists workspace. split_and!; [done| |done].
    by destruct (Workspace_DisabledAt workspace).
  - eapply at_some_mono; [by trans w1|apply later_refl|]. destruct Hm as (wx & Ha & Hb & Hf).
    exists wx. split_and!; [done|done|]. exists membership. split_and!; [done| |done]. by apply dec_stable.
Qed.

Lemma gate_passed_mono scope a w0 w w' w0' :
  later w0 w → later w' w0' → gate_passed scope a w w' → gate_passed scope a w0 w0'.
Proof.
  intros H1 H2 (Hi & He & Hr & Hu).
  assert (stepped_up a w w' → stepped_up a w0 w0') as Hs.
  { intros [? ?]. split; [done|]. by eapply clock_showed_mono. }
  split_and!; [done|by eapply at_some_mono|auto|]. intros Hp. destruct (Hu Hp); [left; auto|right].
  by eapply incapable_mono.
Qed.

Lemma authorizeWorkspaceMutation_ensures a id permission operation :
  Ensures (authorizeWorkspaceMutation a id permission operation) (λ w _ w',
    gate_passed StepUpScopeWorkspace a w w' ∧
    (Authentication_WorkspaceID a = Nil ∨ Authentication_WorkspaceID a = id) ∧
    at_some w w' (member_allowed id (Authentication_UserID a) permission)).
Proof.
  intros w. unfold authorizeWorkspaceMutation. ok_step.
  eapply ok_ensures; [apply requireScopedStepUp_ensures|]. intros [] w1 Hl1 Hg. do 3 ok_step.
  eapply ok_ensures; [apply requireActiveUser_ensures|]. intros [] w2 Hl2 _. do 3 ok_step.
  eapply ok_ensures; [by apply lookup_or_forbidden_ensures, _|]. intros workspace w3 Hl3 _. do 3 ok_step.
  eapply ok_ensures; [by apply lookup_or_forbidden_ensures, _|]. intros membership w4 Hl4 Hm. cbn in Hm.
  ok_step. bool_cases.
  assert (later w1 w4) by (by trans w2; [|trans w3]).
  split; [by trans w1|]. split_and!.
  - by eapply gate_passed_mono; [apply later_refl|..].
  - by apply bound_elsewhere_false.
  - eapply at_some_mono; [by trans w1; [|trans w2]|apply later_refl|].
    destruct Hm as (wx & Ha & Hb & Hf). exists wx. split_and!; [done|done|].
    exists membership. split_and!; [done| |done]. by apply dec_stable.
Qed.

(** The context is interactive and complete, unless the request is trusted as
    local. *)
Definition admitted (a : Authentication) (local : bool) : Prop :=
  Authentication_UserID a ≠ Nil ∧ Interactive a = true ∧
  (Authentication_SecondFactorRequired a = false ∨ local = true).

Lemma requireAdminMutation_ensures a request operation :
  Ensures (requireAdminMutation a request operation) (λ _ _ _,
    admitted a (TrustedRequest_Local request)).
Proof.
  intros w. unfold requireAdminMutation, anonymous, admitted. ok_step. ok_step. bool_cases.
  destruct (TrustedRequest_Local request).
  - apply ok_ret. split_and!; [apply later_refl|done|done|by right].
  - eapply ok_ensures; [apply requireScopedStepUp_ensures|].
    intros [] w' Hl ((? & ? & ?) & _). split_and!; auto.
Qed.

Lemma gate_admits scope a w w' local : gate_passed scope a w w' → admitted a local.
Proof. intros ((? & ? & ?) & _). split_and!; auto. Qed.

(** A postcondition that does not depend on how the computation goes. *)
Lemma ok_any {A} (p : M World A) (Q : A → World → Prop) w : (∀ a w', Q a w') → wp_ok p Q w.
Proof. intros HQ. apply wp_intro. intros [] ??; [apply HQ|done]. Qed.

End authorization.

(** ** The gate of a scope *)

(** C19: no step-up policy opens the gate to a non-interactive credential, to a
    context whose second factor is pending or to a disabled account. When the
    gate of a scope passes, the context is interactive and complete and its
    account was enabled during the check; under the policy "required" the
    context is of level 2 and within the window; under "user_capable" that
    holds unless, during the check, the user had no active TOTP factor and,
    where a passkey provider is configured, no passkey. *)
Theorem step_up_gate {E : Env} `{!WfEnv E} a scope operation w w' :
  requireScopedStepUp a scope operation w = (Ok tt, w') → gate_passed scope a w w'.
Proof. intros H. by apply (Ensures_run _ _ _ _ _ (requireScopedStepUp_ensures a scope operation)) in H as []. Qed.

Lemma step_up_gate_witness :
  @gate_passed demo StepUpScopeAccount root served
    (@requireScopedStepUp demo root StepUpScopeAccount "auth.email.remove" served).2.
Proof.
  apply (@step_up_gate demo demo_wf root StepUpScopeAccount "auth.email.remove").
  apply run_split. vm_compute. reflexivity.
Defined.
