(* ===== verification/ManagerAuth.v ===== *)
(** * What an authentication proves

    Sessions, personal access tokens and passwords: a successful
    authentication is backed by a row of the store that was live while the
    call ran, under interference; the context it returns is the snapshot the
    row recorded. *)
From stdpp Require Import base gmap sets list strings numbers.
From Stdlib Require Import ZArith Lia Ascii.
From S2P Require Import Prelude Bytes Uuid Types OAuthTypes Roles AuditChain Store StoreUsers StoreTokens StoreWorkspaces StoreScim StoreOAuth Commit StoreSystem StoreMonotone GoText Tokens Events Manager ManagerGates Config ManagerSession ManagerPAT ManagerPassword ManagerAdmin ManagerScenario ManagerTrace ManagerSystem ManagerSafety.

(** ** Sessions *)
Section sessions.
Context {E : Env} `{!WfEnv E}.

(** The context a session stands for. *)
Definition session_context (s : Session) : Authentication :=
  mkAuthentication (Session_UserID s) (Session_Method s) (Session_Level s)
    (Session_AuthenticatedAt s) (Session_SecondFactorRequired s) Nil [] EmptyString.

(** The row of a session is live: it matches the token, it is not revoked, and
    the clock showed an instant before its expiry and within its idle time. *)
Definition live_session (raw : string) (row : Session) (w w' : World) : Prop :=
  matchTokenDigest (Session_Digest row) (session_secret raw) = true ∧
  Session_RevokedAt row = None ∧
  clock_showed w w' (λ t, (t < Session_ExpiresAt row)%Z) ∧
  ((0 < m_sessionIdleTimeout the_manager)%Z →
   clock_showed w w' (λ t, (t < Session_LastSeenAt row + m_sessionIdleTimeout the_manager)%Z)).

(** What [AuthenticateSession] relies on. *)
Definition session_backed (raw : string) (w : World) (a : Authentication) (w' : World) : Prop :=
  ∃ id row w1, parseSecretToken sessionTokenPrefix raw = Some id ∧
    later w w1 ∧ later w1 w' ∧ sessions (W_store w1) !! id = Some row ∧
    live_session raw row w w' ∧
    at_some w w' (enabled (Session_UserID row)) ∧
    a = session_context row.

Lemma refuse_session_ok {A} u action reason e (Q : A → World → Prop) w :
  wp_ok (refuse_session u action reason e) Q w.
Proof. apply ok_refusal. Qed.

Ltac ok_special ::=
  lazymatch goal with
  | |- wp (refuse_session _ _ _ _) _ _ => apply refuse_session_ok
  end.

Lemma Time_Before_lt t u : Time_Before t u = true → (t < u)%Z.
Proof. apply bool_decide_eq_true. Qed.

Lemma session_backed_intro raw w id row w1 w2 user w' :
  parseSecretToken sessionTokenPrefix raw = Some id →
  later w w1 → sessions (W_store w1) !! id = Some row →
  matchTokenDigest (Session_Digest row) (session_secret raw) = true →
  not_nil (Session_RevokedAt row) = false →
  Time_Before (m_clock the_manager (W_tick (tick w1))) (Session_ExpiresAt row) = true →
  bool_decide (0 < m_sessionIdleTimeout the_manager)%Z &&
    negb (Time_Before (m_clock the_manager (W_tick (tick (tick w1))))
            (Session_LastSeenAt row + m_sessionIdleTimeout the_manager)) = false →
  later (tick (tick (tick w1))) w2 → users (W_store w2) !! Session_UserID row = Some user →
  User_Disabled user = false → later (tick w2) w' →
  later w w' ∧ session_backed raw w (session_context row) w'.
Proof.
  intros Hid Hl1 Hrow Hdigest Hrev Hexp Hidle Hl2 Huser Hdis Hl'.
  assert (later w w') by later_tac. assert (later (tick (tick (tick w1))) w') by later_tac.
  assert (later (tick (tick w1)) w') by (trans (tick (tick (tick w1))); later_tac).
  assert (later (tick w1) w') by (trans (tick (tick w1)); later_tac).
  split; [done|]. exists id, row, w1. split_and!; [done|done|trans (tick w1); later_tac|done| | |done].
  - split_and!; [done|by destruct (Session_RevokedAt row)| |].
    + eapply (clock_showed_mono w (tick w1)); [later_tac|apply later_refl|].
      apply clock_showed_now; [exact H1|cbv beta; apply Time_Before_lt; assumption].
    + intros Hi. rewrite bool_decide_eq_true_2 in Hidle by done.
      apply negb_false_iff in Hidle.
      eapply (clock_showed_mono w (tick (tick w1))); [later_tac|apply later_refl|].
      apply clock_showed_now; [exact H0|cbv beta; apply Time_Before_lt; assumption].
  - apply (at_some_found w w2); [later_tac|done|by exists user].
Qed.

Lemma AuthenticateSession_ensures raw :
  Ensures (Manager_AuthenticateSession raw) (λ w r w', session_backed raw w r.1 w').
Proof.
  intros w. unfold Manager_AuthenticateSession, session_of_token. ok_steps; bool_cases; cbn in *.
  - eapply session_backed_intro; [done..|]. apply later_tick.
  - apply ok_traced; [traced|]. intros event w2 Hl2.
    ok_step. ok_step. apply wp_traced; [traced|]. intros [[]|e] w3 Hl3; [|by ok_steps].
    apply ok_ret. eapply session_backed_intro; [done..|].
    trans (tick (tick w0)); [apply later_tick|]. later_tac.
Qed.

(** C2: a session token authenticates only while its session is live. When
    [AuthenticateSession] succeeds, the token names a row whose digest it
    matches; during the call the row was not revoked, the clock showed an
    instant before its expiry and within its idle time, and its account was
    enabled; the context returned is exactly the one recorded when the session
    was created. In particular a session revoked before the call is refused,
    whatever runs concurrently. *)
Theorem session_authentication_sound raw a s w w' :
  Manager_AuthenticateSession raw w = (Ok (a, s), w') →
  session_backed raw w a w' ∧
  ∀ id row, parseSecretToken sessionTokenPrefix raw = Some id →
    sessions (W_store w) !! id = Some row → Session_RevokedAt row = None.
Proof.
  intros H. apply (Ensures_run _ _ _ _ _ (AuthenticateSession_ensures raw)) in H as [Hl Hb].
  split; [done|]. intros id row Hid Hrow. destruct Hb as (id' & row' & w1 & Hid' & Hl1 & _ & Hrow' & Hlive & _).
  rewrite Hid in Hid'. injection Hid' as <-.
  destruct (reaches_sessions _ _ (proj1 Hl1) _ _ Hrow) as (row'' & Hrow'' & (? & ? & ? & r & -> & Hr)).
  rewrite Hrow' in Hrow''. injection Hrow'' as ->. destruct Hlive as (_ & Hnone & _). cbn in Hnone. subst r.
  destruct (Session_RevokedAt row) eqn:Hx; [|done]. by specialize (Hr _ eq_refl).
Qed.
End sessions.

Definition root_session : result IssuedSession * World := @Manager_CreateSession demo root served.
Definition root_token : string :=
  IssuedSession_Token (ok_of (mkIssuedSession Session_zero EmptyString) root_session).

Lemma session_authentication_sound_witness :
  let w := root_session.2 in
  let r := @Manager_AuthenticateSession demo root_token w in
  @session_backed demo root_token w
    (ok_of (Authentication_zero, Session_zero) r).1 r.2.
Proof.
  intros w r.
  refine (proj1 (@session_authentication_sound demo demo_wf root_token _
    (ok_of (Authentication_zero, Session_zero) r).2 w r.2 _)).
  subst r w. apply run_split. vm_compute. reflexivity.
Defined.

(** ** Issuing a session *)
Section create_session.
Context {E : Env} `{!WfEnv E}.

(** The context a session keeps of the one it was created from. *)
Definition session_part (a : Authentication) : Authentication :=
  mkAuthentication (Authentication_UserID a) (Authentication_Method a) (Authentication_Level a)
    (Authentication_AuthenticatedAt a) (Authentication_SecondFactorRequired a) Nil [] EmptyString.

(** The password the context was obtained with is the account's. *)
Definition password_current (u : UUID) (digest : string) (s : Store) : Prop :=
  ∃ c, passwords s !! u = Some c ∧ CredentialFingerprint (PasswordCredential_Hash c) = digest.

Record session_issued (actor : Authentication) (w : World) (issued : IssuedSession) (w' : World) :
    Prop := {
  issued_interactive : Interactive actor = true;
  issued_enabled : at_some w w' (enabled (Authentication_UserID actor));
  issued_current : 0 < str_len (Authentication_CredentialDigest actor) →
    at_some w w' (password_current (Authentication_UserID actor)
                    (Authentication_CredentialDigest actor));
  issued_row : ∃ row,
    sessions (W_store w') !! Session_ID row = Some row ∧
    IssuedSession_Session issued = row <| Session_Digest := EmptyString |> ∧
    parseSecretToken sessionTokenPrefix (IssuedSession_Token issued) = Some (Session_ID row) ∧
    Session_Digest row = tokenDigest (session_secret (IssuedSession_Token issued)) ∧
    session_context row = session_part actor ∧ Session_RevokedAt row = None }.

Lemma CreateSession_store cx session digest c s s' :
  CreateSession cx session digest c s = (Ok tt, s') →
  stale_credential s (Session_UserID session) digest = false ∧
  sessions s' !! Session_ID session = Some session.
Proof.
  intros H. refine (wp_run _ (λ r s', r = Ok tt → _ ∧ sessions s' !! _ = _) s (Ok tt) s' _ H eq_refl).
  unfold CreateSession. op_success. split; [done|]. rewrite view_commitAudit. cbn.
  apply lookup_insert_eq.
Qed.

Lemma stale_credential_false s u digest :
  stale_credential s u digest = false → 0 < str_len digest → password_current u digest s.
Proof.
  unfold stale_credential. intros H Hd. rewrite bool_decide_eq_true_2 in H by done. cbn [andb] in H.
  destruct (passwords s !! u) as [c|] eqn:Hc; [|done]. apply bool_decide_eq_false in H.
  exists c. split; [done|by apply dec_stable].
Qed.

Lemma CreateSession_ensures actor :
  Ensures (Manager_CreateSession actor) (λ w issued w',
    id_range w → session_issued actor w issued w').
Proof.
  intros w. unfold Manager_CreateSession. do 6 ok_step. ok_step. bool_cases.
  eapply ok_ensures; [apply requireActiveUser_ensures|]. intros [] w1 Hl1 He. ok_step.
  eapply ok_ensures; [apply newID_ensures|]. intros id w2 Hl2 Hid. ok_step.
  eapply ok_ensures; [apply randomBytes_ensures|]. intros secret w3 Hl3 Hsecret. ok_step. ok_step.
  cbv zeta. set (raw := token_text _ _ _). ok_step. apply ok_traced; [traced|]. intros event w4 Hl4.
  ok_step. apply ok_traced; [traced|]. intros meta w5 Hl5. ok_step. ok_step.
  apply wp_mutation; [storecall|]. intros w6 r w7 Hl6 Hl7 Hrun.
  destruct r as [[]|e]; [|ok_step; [|apply ok_refusal]; apply ok_refusal].
  apply CreateSession_store in Hrun as [Hstale Hrow].
  apply ok_bind, wp_modify. cbn [on_ok]. apply ok_ret.
  set (w' := set_field W_events _ w7). assert (later w7 w') by (by apply later_same).
  assert (later w w6) by later_tac.
  split; [later_tac|]. intros Hr. split.
  - done.
  - eapply at_some_mono; [apply later_refl| |done]. later_tac.
  - intros Hd. exists w6. split_and!; [done|later_tac|]. by apply stale_credential_false.
  - eexists. split; [exact Hrow|]. split_and!; [done| |done..].
    apply parseSecretToken_issued; [reflexivity| |done]. by apply Hid, Hl1.
Qed.
End create_session.

(** ** Personal access tokens *)
Section pats.
Context {E : Env} `{!WfEnv E}.

(** The context a workspace-bound token is checked under. *)
Definition pat_owner (row : PAT) : Authentication :=
  Authentication_zero <| Authentication_UserID := PAT_UserID row |>
    <| Authentication_WorkspaceID := PAT_WorkspaceID row |>.

Record pat_backed (raw : string) (w : World) (a : Authentication) (w' : World) (id : UUID)
    (row : PAT) : Prop := {
  backed_row : ∃ prefix, parsePAT (m_patPrefix the_manager) raw = Some prefix ∧
    at_some w w' (λ s, patPrefixes s !! prefix = Some id ∧ pats s !! id = Some row);
  backed_digest : matchDigestRing (PAT_Digest row) (m_readPATPeppers the_manager) raw = true;
  backed_live : PAT_RevokedAt row = None;
  backed_unexpired : ∀ e, PAT_ExpiresAt row = Some e → clock_showed w w' (λ t, (t < e)%Z);
  backed_enabled : at_some w w' (enabled (PAT_UserID row));
  backed_workspace : PAT_WorkspaceID row ≠ Nil →
    permission_held (pat_owner row) (PAT_WorkspaceID row) PermissionWorkspaceAccess w w';
  backed_context : ∃ t, a = mkAuthentication (PAT_UserID row) MethodPAT AAL1 t false
    (PAT_WorkspaceID row) (PAT_Scopes row) EmptyString }.

Lemma matchDigestRing_nonempty stored keys value :
  matchDigestRing stored keys value = true → stored ≠ EmptyString.
Proof.
  intros (key & _ & Hk)%existsb_exists ->. apply bool_decide_eq_true in Hk.
  pose proof (hmac_sha256_len key value) as Hl. unfold digest in Hk. by rewrite <- Hk in Hl.
Qed.

Lemma refuse_pat_ok {A} p (Q : A → World → Prop) w : wp_ok (refuse_pat p) Q w.
Proof. unfold refuse_pat, reject_pat. apply ok_bind, ok_any. intros a w'. apply ok_bind, ok_any. intros ??. apply ok_refusal. Qed.
Lemma reject_pat_ok {A} u ws e (Q : A → World → Prop) w : wp_ok (reject_pat u ws e) Q w.
Proof. unfold reject_pat. apply ok_bind, ok_any. intros ??. apply ok_refusal. Qed.

Ltac ok_special ::=
  lazymatch goal with
  | |- wp (refuse_pat _) _ _ => apply refuse_pat_ok
  | |- wp (reject_pat _ _ _) _ _ => apply reject_pat_ok
  end.

Lemma accept_pat_ensures now_ row :
  Ensures (accept_pat now_ row) (λ w a w',
    (PAT_WorkspaceID row ≠ Nil →
      permission_held (pat_owner row) (PAT_WorkspaceID row) PermissionWorkspaceAccess w w') ∧
    a = mkAuthentication (PAT_UserID row) MethodPAT AAL1 now_ false
      (PAT_WorkspaceID row) (PAT_Scopes row) EmptyString).
Proof.
  intros w. unfold accept_pat. cbv zeta. apply ok_bind.
  assert (wp_ok (if bool_decide (PAT_WorkspaceID row ≠ Nil) then
     r ← attempt (AuthorizePermission (pat_owner row) (PAT_WorkspaceID row) PermissionWorkspaceAccess);
     match r with Ok _ => mret tt | Error _ => throw ErrInvalidCredentials end
   else mret tt) (λ _ w', later w w' ∧ (PAT_WorkspaceID row ≠ Nil →
      permission_held (pat_owner row) (PAT_WorkspaceID row) PermissionWorkspaceAccess w w')) w) as Hws.
  { case_bool_decide; [|by apply ok_ret; split; [apply later_refl|]].
    apply ok_bind, ok_attempt. eapply wp_mono; [apply AuthorizePermission_ensures|].
    intros [[]|e] w'; [|done]. intros [Hl Hp]. apply ok_ret. auto. }
  eapply wp_mono; [exact Hws|]. intros [[]|e] w1; [|done]. intros [Hl1 Hp]. cbn [on_ok].
  ok_step; [by apply ok_ret|].
  ok_step. apply ok_traced; [traced|]. intros event w2 Hl2. ok_step. ok_step.
  apply ok_traced; [traced|]. intros [] w3 Hl3. ok_step. apply ok_traced; [traced|]. intros [] w4 Hl4.
  ok_step. apply ok_traced; [traced|]. intros [] w5 Hl5. apply ok_ret.
  split_and!; [later_tac| |done]. intros Hn.
  eapply permission_held_mono; [apply later_refl| |by apply Hp]. later_tac.
Qed.

Lemma pat_valid_inv now_ raw row :
  pat_valid now_ raw row = true →
  matchDigestRing (PAT_Digest row) (m_readPATPeppers the_manager) raw = true ∧
  PAT_RevokedAt row = None ∧ ∀ e, PAT_ExpiresAt row = Some e → (now_ < e)%Z.
Proof.
  unfold pat_valid. intros [Hd Hr]%andb_true_iff. apply negb_true_iff, orb_false_iff in Hr as [Hr He].
  split_and!; [done|by destruct (PAT_RevokedAt row)|]. intros e Hx. rewrite Hx in He.
  by apply negb_false_iff, Time_Before_lt in He.
Qed.

Lemma AuthenticatePAT_ensures raw :
  Ensures (Manager_AuthenticatePAT raw) (λ w a w', ∃ id row, pat_backed raw w a w' id row).
Proof.
  intros w. unfold Manager_AuthenticatePAT, pat_of_token. ok_steps; simplify_eq.
  { apply ok_any. intros ??. apply reject_pat_ok. }
  destruct r0 as [user|]; [|done]. rename Hcase2 into Hdis.
  apply negb_false_iff, pat_valid_inv in Hcase1 as (Hdigest & Hrev & Hexp).
  unfold answered in *. apply fmap_Some in Hfound as (id & Hid & ->).
  destruct (pats (W_store w1) !! id) as [row|] eqn:Hrow; cbn [default] in *;
    [|by apply matchDigestRing_nonempty in Hdigest].
  eapply ok_ensures; [apply accept_pat_ensures|]. intros a w' Hl' [Hws ->].
  assert (later (tick (tick w1)) w') by later_tac.
  split; [later_tac|]. exists id, row. split; [|done|done| | | |by eexists].
  - exists s. split; [done|]. apply (at_some_found w w1); [later_tac| |done].
    trans (tick (tick w1)); later_tac.
  - intros e He. eapply (clock_showed_mono w (tick w1)); [later_tac|apply later_refl|].
    apply clock_showed_now; [done|by apply Hexp].
  - apply (at_some_found w w0); [later_tac|later_tac|by exists user].
  - intros Hn. eapply permission_held_mono; [|apply later_refl|by apply Hws]. later_tac.
Qed.

(** C4: a personal access token authenticates only while it is live. When
    [AuthenticatePAT] succeeds, the token has the shape of this deployment, its
    prefix names a row whose peppered digest it matches, the row was neither
    revoked nor expired and its owner enabled during the call, and, for a token
    bound to a workspace, the owner held access to that workspace as an active
    member. The context is non-interactive, of level 1, and carries exactly the
    binding and the scopes of the row. A token whose row was revoked before the
    call is refused, whatever runs concurrently. *)
Theorem pat_authentication_sound raw a w w' :
  Manager_AuthenticatePAT raw w = (Ok a, w') →
  ∃ id row, pat_backed raw w a w' id row ∧ Interactive a = false ∧
    ∀ row0, pats (W_store w) !! id = Some row0 → PAT_RevokedAt row0 = None.
Proof.
  intros H. apply (Ensures_run _ _ _ _ _ (AuthenticatePAT_ensures raw)) in H as (_ & id & row & Hb).
  exists id, row. split_and!; [done|by destruct (backed_context _ _ _ _ _ _ Hb) as [t ->]|].
  intros row0 Hrow0. destruct (backed_row _ _ _ _ _ _ Hb) as (p & _ & w1 & Hl & _ & _ & Hrow).
  destruct (reaches_pats _ _ (proj1 Hl) _ _ Hrow0) as (row1 & Hrow1 & (? & ? & r & -> & Hr)).
  rewrite Hrow in Hrow1. injection Hrow1 as ->. pose proof (backed_live _ _ _ _ _ _ Hb) as Hn. cbn in Hn. subst r.
  destruct (PAT_RevokedAt row0); [|done]. destruct Hr as [? Hx]; [by eexists|done].
Qed.
End pats.

Definition root_pat : result IssuedPAT * World :=
  @Manager_CreatePAT demo root
    (mkCreatePATInput "ci" (Workspace_ID acme) [PermissionWorkspaceAccess] None) served.
Definition root_pat_token : string :=
  IssuedPAT_Token (ok_of (mkIssuedPAT PAT_zero EmptyString) root_pat).

Lemma pat_authentication_sound_witness :
  let w := root_pat.2 in
  let r := @Manager_AuthenticatePAT demo root_pat_token w in
  ∃ id row, @pat_backed demo root_pat_token w (ok_of Authentication_zero r) r.2 id row ∧
    Interactive (ok_of Authentication_zero r) = false ∧
    ∀ row0, pats (W_store w) !! id = Some row0 → PAT_RevokedAt row0 = None.
Proof.
  intros w r. apply (@pat_authentication_sound demo demo_wf root_pat_token).
  subst r w. apply run_split. vm_compute. reflexivity.
Defined.

(** ** Passwords *)
Section passwords.
Context {E : Env} `{!WfEnv E}.

(** The hasher accepts the password for the hash. *)
Definition verifies (password hash : string) : Prop :=
  ∃ rehash, m_Verify the_manager password hash = Ok (true, rehash).
(** The contract of the [PasswordHasher] port: what [Hash] derives, [Verify]
    accepts. *)
Definition hasher_correct : Prop :=
  ∀ t password hash, m_Hash the_manager t password = Ok hash → verifies password hash.
Definition stored_hash (u : UUID) (hash : string) (s : Store) : Prop :=
  ∃ c, passwords s !! u = Some c ∧ PasswordCredential_Hash c = hash.

Lemma confirmPasswordCurrent_ensures u password hash :
  verifies password hash →
  Ensures (confirmPasswordCurrent u password hash) (λ w h w',
    verifies password h ∧ at_some w w' (stored_hash u h)).
Proof.
  intros Hv w. unfold confirmPasswordCurrent. ok_steps; simplify_eq; bool_cases.
  - split_and!; [later_tac|done|]. subst hash.
    eapply at_some_found; [done|apply later_refl|]. by eexists.
  - split_and!; [later_tac|by eexists|].
    eapply at_some_found; [done|apply later_refl|]. by eexists.
Qed.

Lemma RecordPasswordAuthentication_store cx u hash t c s s' :
  RecordPasswordAuthentication cx u hash t c s = (Ok tt, s') → stored_hash u hash s.
Proof.
  intros H. refine (wp_run _ (λ r s', r = Ok tt → _) s (Ok tt) s' _ H eq_refl).
  unfold RecordPasswordAuthentication. op_success. apply negb_false_iff in Hguard0.
  unfold current_hash in Hguard0. destruct (passwords s !! u) as [p|] eqn:Hp; [|done].
  apply bool_decide_eq_true in Hguard0. by exists p.
Qed.

Lemma recordPasswordAuthentication_ensures u hash :
  Ensures (recordPasswordAuthentication u hash) (λ w _ w', at_some w w' (stored_hash u hash)).
Proof.
  intros w. unfold recordPasswordAuthentication. ok_step. apply ok_traced; [traced|].
  intros event w1 Hl1. do 5 ok_step. destruct r as [[]|e]; [|by ok_steps].
  apply RecordPasswordAuthentication_store in Hrun. apply ok_ret.
  split; [later_tac|]. exists w0. split_and!; [later_tac|done|done].
Qed.

Lemma failStalePassword_ok {A} u e (Q : A → World → Prop) w : wp_ok (failStalePassword u e) Q w.
Proof.
  unfold failStalePassword. destruct (negb _); [done|]. apply ok_bind, ok_any. intros ??. apply ok_refusal.
Qed.
Ltac ok_special ::=
  lazymatch goal with
  | |- wp (failStalePassword _ _) _ _ => apply failStalePassword_ok
  end.

Lemma finalize_password_ensures n u password hash :
  verifies password hash →
  Ensures (finalize_password n u password hash) (λ w r w',
    verifies password r.2 ∧ at_some w w' (stored_hash u r.2)).
Proof.
  revert hash. induction n as [|n IH]; intros hash Hv w; cbn [finalize_password]; ok_step; ok_step.
  all: eapply wp_ensures; [traced|apply recordPasswordAuthentication_ensures|];
    intros [audit|e] w1 Hl1 Hr; [apply ok_ret; by split_and!|].
  - ok_steps.
  - ok_step; [done|]. ok_step. ok_step.
    eapply wp_ensures; [traced|by apply confirmPasswordCurrent_ensures|].
    intros [h|stale] w2 Hl2 Hh; [|by ok_steps]. destruct Hh as [Hh _].
    eapply ok_ensures; [by apply IH|]. intros r w3 Hl3 [Hv' Hs].
    split_and!; [later_tac|done|]. eapply at_some_mono; [|apply later_refl|done]. later_tac.
Qed.

Lemma hash_password_ensures what password :
  hasher_correct → Ensures (hash_password what password) (λ _ h _, verifies password h).
Proof.
  intros Hc w. unfold hash_password. ok_step. ok_step. unfold passwords_Hash, wp. cbn [fst snd].
  destruct (m_Hash the_manager (W_tick w) password) as [h|e] eqn:Hh; [|done].
  apply ok_ret. split; [apply later_tick|]. by eapply Hc.
Qed.

Lemma rehash_password_ensures user password hash :
  hasher_correct → verifies password hash →
  Ensures (rehash_password user password hash) (λ _ h _, verifies password h).
Proof.
  intros Hc Hv w. unfold rehash_password. ok_step.
  eapply ok_ensures; [by apply hash_password_ensures|]. intros h w1 Hl1 Hh.
  ok_step. apply ok_traced; [traced|]. intros event w2 Hl2.
  ok_step. apply ok_traced; [traced|]. intros meta w3 Hl3. ok_step. ok_step. ok_step. ok_step. ok_step.
  destruct r as [[]|e].
  - ok_step. apply ok_traced; [traced|]. intros [] w5 Hl5. apply ok_ret. split; [later_tac|done].
  - ok_steps. split; [later_tac|done].
Qed.

(** What a password sign-in of [user] proves. *)
Definition password_proved (password : string) (u : UUID) (a : Authentication) (w w' : World) : Prop :=
  ∃ hash t pending,
    a = mkAuthentication u MethodPassword AAL1 t pending Nil [] (CredentialFingerprint hash) ∧
    verifies password hash ∧ at_some w w' (stored_hash u hash) ∧
    (pending = false → at_some w w' (λ s, ¬ has_active_totp u s)).

Lemma complete_password_ensures user password hash rehash :
  hasher_correct → verifies password hash →
  Ensures (complete_password user password hash rehash) (λ w a w',
    password_proved password (User_ID user) a w w').
Proof.
  intros Hc Hv w. unfold complete_password. apply ok_bind.
  assert (Ensures (if rehash then rehash_password user password hash else mret hash)
    (λ _ h _, verifies password h)) as Hre.
  { destruct rehash; [by apply rehash_password_ensures|]. intros w0. by apply ok_ret. }
  eapply ok_ensures; [exact Hre|]. intros current w1 Hl1 Hcur. cbv beta in Hcur. ok_step. ok_step. ok_step.
  assert (wp_ok (match r with
     | Ok f => mret (TOTPFactor_Active f)
     | Error e => if errors_Is e ErrNotFound then mret false else throw e end)
     (λ b w', w' = tick w0 ∧ (b = false → ¬ has_active_totp (User_ID user) (W_store w0))) (tick w0)) as Hpend.
  { unfold answered in Hfound. destruct r as [f|e]; ok_steps; split; try done;
      intros Hb (f' & Hf & Ha); [congruence|]. by rewrite Hfound in Hf. }
  apply ok_bind. eapply wp_mono; [exact Hpend|]. intros [pending|] w2; [|done]. intros [-> Hno]. cbn [on_ok].
  apply ok_bind.
  match goal with |- wp ?p _ _ => assert (Ensures p (λ w r w',
    verifies password r.2 ∧ at_some w w' (stored_hash (User_ID user) r.2))) as Hfin end.
  { destruct pending; [|by apply finalize_password_ensures]. intros wx. ok_step. ok_step.
    eapply wp_ensures; [traced|by apply confirmPasswordCurrent_ensures|].
    intros [h|stale] w3 Hl3 Hh; [|by ok_steps]. destruct Hh as [Hh Hs].
    ok_step. apply ok_traced; [traced|]. intros event w4 Hl4. ok_step. ok_step.
    apply ok_traced; [traced|]. intros [] w5 Hl5. apply ok_ret. split_and!; [later_tac|done|].
    eapply at_some_mono; [apply later_refl| |done]. later_tac. }
  eapply ok_ensures; [exact Hfin|]. intros [audit h] w3 Hl3 [Hh Hs]. ok_step. ok_step. ok_step.
  apply ok_traced; [traced|]. intros [] w4 Hl4. apply ok_ret. split; [later_tac|].
  eexists h, _, pending. split_and!; [done|done| |].
  - eapply at_some_mono; [| |exact Hs]; later_tac.
  - intros Hp. apply (at_some_found w w0); [later_tac|later_tac|auto].
Qed.

(** The address named an account during the call. *)
Definition named_by (email : string) (user : User) (s : Store) : Prop :=
  (λ id, default User_zero (users s !! id)) <$> emails s !! normalizeEmail email = Some user.

(** The account was enabled, and no lockout was in force. *)
Definition account_open (email : string) (user : User) (w w' : World) : Prop :=
  at_some w w' (named_by email user) ∧ User_Disabled user = false ∧
  ((0 < m_maxFailedLogins the_manager)%Z → ∃ throttle,
    at_some w w' (λ s, default LoginThrottle_zero (throttles s !! User_ID user) = throttle) ∧
    ∀ until, LoginThrottle_LockedUntil throttle = Some until →
      clock_showed w w' (λ t, (until ≤ t)%Z)).

Definition lookup_facts (email : string) (l : password_lookup) (w w' : World) : Prop :=
  ∀ user, lookup_user l = Ok user → lookup_infrastructure l = None →
    at_some w w' (named_by email user) ∧
    ((0 < m_maxFailedLogins the_manager)%Z →
      at_some w w' (λ s, default LoginThrottle_zero (throttles s !! User_ID user) = lookup_throttle l)).

Lemma lookup_password_ensures email :
  Ensures (lookup_password (normalizeEmail email)) (λ w l w', lookup_facts email l w w').
Proof.
  intros w. unfold lookup_password. ok_step. ok_step. ok_step.
  destruct r as [user|e]; [|apply ok_ret; split; [later_tac|by intros ? [=]]].
  ok_step. ok_step. ok_step.
  destruct (match r with Ok c => _ | Error e => _ end) as [hash infrastructure]. unfold answered in Hfound.
  assert (∀ w', later (tick w0) w' → at_some w w' (named_by email user)) as Hnamed.
  { intros w' Hl'. apply (at_some_found w w1); [later_tac|later_tac|done]. }
  ok_step; bool_cases.
  - ok_step. ok_step. ok_step. unfold answered in Hfound1. destruct r0 as [thr|e0]; apply ok_ret.
    + split; [later_tac|]. intros user' [= <-] _. split; [apply Hnamed; later_tac|]. intros _.
      apply (at_some_found w w2); [later_tac|later_tac|]. by rewrite Hfound1.
    + split; [later_tac|]. intros user' [= <-] Hinf. split; [apply Hnamed; later_tac|]. intros _.
      apply (at_some_found w w2); [later_tac|later_tac|]. cbn in Hinf. unfold unless_not_found in Hinf.
      destruct (errors_Is e0 ErrNotFound); [|done]. by rewrite Hfound1.
  - apply ok_ret. split; [later_tac|]. intros user' [= <-] Hinf. cbn in Hinf. subst infrastructure.
    split; [apply Hnamed; later_tac|]. intros Hm. exfalso.
    apply andb_false_iff in Hcase as [?|?]; bool_cases; [lia|done].
Qed.

Lemma locked_now_ensures throttle :
  Ensures (locked_now throttle) (λ w b w', b = false →
    ∀ until, LoginThrottle_LockedUntil throttle = Some until →
      clock_showed w w' (λ t, (until ≤ t)%Z)).
Proof.
  intros w. unfold locked_now. destruct (LoginThrottle_LockedUntil throttle) as [u|]; ok_steps.
  - split; [later_tac|]. intros Hb u' [= <-]. apply clock_showed_now; [later_tac|]. cbv beta.
    apply bool_decide_eq_false in Hb. lia.
  - split; [later_tac|done].
Qed.

Lemma AuthenticatePassword_ensures email password :
  hasher_correct →
  Ensures (Manager_AuthenticatePassword email password) (λ w a w',
    ∃ user, account_open email user w w' ∧ password_proved password (User_ID user) a w w').
Proof.
  intros Hc w. unfold Manager_AuthenticatePassword. cbv zeta.
  ok_step. apply ok_traced; [traced|]. intros [] w1 Hl1.
  ok_step. eapply ok_ensures; [apply lookup_password_ensures|]. intros l w2 Hl2 Hfacts.
  destruct (m_Verify the_manager password (lookup_hash l)) as [[matches rehash]|e] eqn:Hv; [|done].
  ok_step. destruct (lookup_infrastructure l) eqn:Hinf; [done|]. apply ok_ret. ok_step.
  eapply ok_ensures; [apply locked_now_ensures|]. intros locked w3 Hl3 Hlocked.
  ok_step; [apply ok_bind, ok_any; intros ??; apply ok_refusal|].
  destruct (lookup_user l) as [user|e] eqn:Huser; [|apply ok_bind, ok_any; intros ??; apply ok_refusal].
  ok_step; [apply ok_bind, ok_any; intros ??; apply ok_refusal|]. bool_cases.
  destruct (Hfacts user Huser Hinf) as [Hnamed Hthr].
  eapply ok_ensures; [apply complete_password_ensures; [done|by eexists; rewrite Hv; subst matches]|].
  intros a w4 Hl4 (hash & t & pending & -> & Hver & Hstored & Htotp).
  assert (later w w3) by later_tac. split; [later_tac|]. exists user. split.
  - split_and!; [|done|].
    + eapply at_some_mono; [| |exact Hnamed]; later_tac.
    + intros Hm. exists (lookup_throttle l). split.
      * eapply at_some_mono; [| |exact (Hthr Hm)]; later_tac.
      * intros u Hu. eapply clock_showed_mono; [| |by apply Hlocked]; later_tac.
  - exists hash, t, pending. split_and!; [done|done| |].
    + eapply at_some_mono; [| |exact Hstored]; later_tac.
    + intros Hp. eapply at_some_mono; [| |exact (Htotp Hp)]; later_tac.
Qed.

(** C3: a password sign-in succeeds only with the account's current password.
    For a hasher that accepts what it derives: when [AuthenticatePassword]
    succeeds, the address named an enabled account during the call whose
    lockout, if any, had ended; the context is of level 1 and its credential
    fingerprint is that of a hash the password verifies against and that was
    the stored one at some point of the call, although hashes are rotated and
    passwords changed concurrently; and a context that does not announce a
    second factor belongs to an account that had no active TOTP factor during
    the call. *)
Theorem password_sign_in_sound email password a w w' :
  hasher_correct → Manager_AuthenticatePassword email password w = (Ok a, w') →
  ∃ user, account_open email user w w' ∧ password_proved password (User_ID user) a w w'.
Proof.
  intros Hc H. by apply (Ensures_run _ _ _ _ _ (AuthenticatePassword_ensures email password Hc)) in H as [].
Qed.
End passwords.

Lemma demo_hasher_correct : @hasher_correct demo.
Proof.
  intros t password hash H.
  assert (m_Hash (@the_manager demo) t password = Ok ("hash:" +:+ password)) as Hh by reflexivity.
  rewrite Hh in H. injection H as <-. exists false.
  change (Ok (bool_decide ("hash:" +:+ password = "hash:" +:+ password), false) = Ok (true, false)).
  by rewrite bool_decide_eq_true_2.
Qed.

Lemma password_sign_in_sound_witness :
  let r := @Manager_AuthenticatePassword demo " Root@Example.com" "correct horse battery" served in
  ∃ user, @account_open demo " Root@Example.com" user served r.2 ∧
    @password_proved demo "correct horse battery" (User_ID user) (ok_of Authentication_zero r) served r.2.
Proof.
  intros r. apply (@password_sign_in_sound demo demo_wf).
  - apply demo_hasher_correct.
  - subst r. apply run_split. vm_compute. reflexivity.
Defined.
