(* ===== verification/ManagerFlows.v ===== *)
(** * Emailed credentials, second factors and federated sign-in

    What the completion of each flow proves, under interference: the one-time
    credential it redeems was live and is spent, the account was enabled, and
    the context it returns says what was proved and nothing more. *)
From stdpp Require Import base gmap sets list strings numbers.
From Stdlib Require Import ZArith Lia Ascii.
From S2P Require Import Prelude Bytes GoText Uuid Types OAuthTypes Roles AuditChain Store StoreUsers StoreTokens StoreWorkspaces StoreScim StoreOAuth StorePages Commit StoreSystem StoreMonotone Tokens Events Manager ManagerGates Config ManagerSession ManagerPAT ManagerPassword ManagerAdmin ManagerEmail ManagerInvite ManagerSeal ManagerFactor ManagerPasskey ManagerSSO ManagerScim ManagerScenario ManagerTrace ManagerSystem ManagerSafety ManagerAuth.

(** ** A host with every provider *)

Definition demo_totp : TOTPProvider :=
  mkTOTPProvider (λ _ account, Ok ("secret of " +:+ account, "otpauth://totp/" +:+ account))
    (λ code secret t, ((t / 10 ^ 6)%Z, bool_decide (code = "code for " +:+ secret))).

(** The provider checks the answer against the stored credentials. *)
Definition known_credential (response : string) (l : list (result Passkey)) : bool :=
  existsb (λ r, match r with Ok p => bool_decide (Passkey_CredentialID p = response) | Error _ => false end) l.
Definition check_response {Q} (response : string) (user : PasskeyUser) : Ceremony Q (string * string) :=
  ReadCredentials user (λ l, Answered
    (if known_credential response l then Ok (response, "counter 1") else Error (Opaque "assertion"))).
Definition demo_passkeys : PasskeyProvider := {|
  passkey_BeginRegistration := λ _ _, Answered (Ok ("options", Some "session"));
  passkey_FinishRegistration := λ _ _ _ response, Answered (Ok (response, "counter 0"));
  passkey_BeginAuthentication := λ _ user, ReadCredentials user (λ l, Answered
    (match l with [] => Error ErrNoPasskey | _ => Ok ("options", Some "session") end));
  passkey_BeginDecoy := λ _ _, Ok ("options", Some "decoy");
  passkey_FinishAuthentication := λ _ user _ response, check_response response user;
  passkey_Discoverable := Some (mkDiscoverablePasskeyProvider
    (λ _, Ok ("options", Some "session"))
    (λ _ _ response, Ask response (λ r,
       match r with Ok user => check_response response user | Error e => Answered (Error e) end))) |}.

Definition idp_id : UUID := match ParseUUID "00e8d4a5-1010-7000-8000-000000000001" with Ok id => id | _ => Nil end.
Definition demo_idp : SSOProvider :=
  mkSSOProvider idp_id SSOProviderOIDC (λ _ _, Ok (mkSSOProviderChallenge "https://idp.example" "session"))
    (λ _ _ response, Ok (mkSSOClaims "https://idp.example" response EmptyString false EmptyString [])).

Definition equipped_config : Config :=
  demo_config <| cfg_TOTP := Some demo_totp |> <| cfg_Passkeys := Some demo_passkeys |>
    <| cfg_SSOProviders := [Some demo_idp] |>.
Definition equipped_manager : Manager := the_ok (New_Manager key_order equipped_config) eq_refl.
Definition equipped : Env := mkEnv equipped_manager background.
#[export] Instance equipped_wf : WfEnv equipped.
Proof. split; intros t; [constructor|exact I]. Qed.

(** ** Lookups of the flows *)
#[export] Instance EmailAuthenticationByID_lookup id :
  Lookup (λ cx, EmailAuthenticationByID cx id) (λ s, emailAuths s !! id).
Proof. solve_lookup. Qed.

Lemma reaches_spent t s s' : reaches s s' → spent t s → spent t s'.
Proof. intros (ops & _ & ->). apply spent_trace. Qed.
Lemma later_spent t w w' : later w w' → spent t (W_store w) → spent t (W_store w').
Proof. intros [H _]. by apply reaches_spent. Qed.
Lemma reaches_emailAuths s s' : reaches s s' → rows_le email_auth_le (emailAuths s) (emailAuths s').
Proof. intros (ops & _ & ->). apply trace_grows; [apply _|apply emailAuths_grow|done|done]. Qed.

Section flows.
Context {E : Env} `{!WfEnv E}.

Lemma refuse_ok {A} u action reason e (Q : A → World → Prop) w : wp_ok (refuse u action reason e) Q w.
Proof. apply ok_refusal. Qed.

Lemma second_factor_due_ensures u :
  Ensures (second_factor_due u) (λ w b w', b = false → at_some w w' (λ s, ¬ has_active_totp u s)).
Proof.
  intros w. unfold second_factor_due. ok_step. ok_step. ok_step. unfold answered in Hfound.
  destruct r as [f|e]; ok_steps; split; try later_tac; intros Hb;
    (eapply at_some_found; [done|apply later_refl|]); intros (f' & Hf & Ha); [congruence|].
  by rewrite Hfound in Hf.
Qed.

Lemma ok_mapped_spent {A} o (p : M World A) Q w : wp_ok p Q w → wp_ok (mapped_spent o p) Q w.
Proof.
  intros Hp. unfold mapped_spent. apply ok_bind, ok_attempt. eapply wp_mono; [exact Hp|].
  intros [a|e] w' H; [by apply ok_ret|]. destruct (errors_Is e ErrConflict); [done|]. apply ok_refusal.
Qed.

Lemma ok_lookup_token {A} (op : Context → M Store A) f `{!Lookup op f} (Q : A → World → Prop) w :
  (∀ w1 a, later w w1 → f (W_store w1) = Some a → Q a (tick w1)) → wp_ok (lookup_token op) Q w.
Proof.
  intros HQ. unfold lookup_token. ok_step. ok_step. eapply wp_lookup; [apply _|].
  intros w1 [a|e] Hl Hf; [apply ok_ret; by apply HQ|done].
Qed.

Lemma ok_ok_or {A} (o : option A) e (Q : A → World → Prop) w :
  (∀ a, o = Some a → Q a w) → wp_ok (ok_or o e) Q w.
Proof. intros H. destruct o; [by apply ok_ret, H|done]. Qed.
End flows.

(** A step whose answer does not matter. *)
Ltac ok_skip w' Hl := apply ok_traced; [traced|]; intros ? w' Hl.

Ltac ok_special ::=
  lazymatch goal with
  | |- wp (refuse _ _ _ _) _ _ => apply refuse_ok
  | |- wp (mapped_spent _ _) _ _ => apply ok_mapped_spent
  | |- wp (ok_or _ _) _ _ => let H := fresh "Hsome" in apply ok_ok_or; intros ? H
  | |- wp (lookup_token _) _ _ => eapply ok_lookup_token; [apply _|]; intros ?w1 ?row ?Hlater ?Hfound
  end.

(** ** Emailed sign-in credentials *)
Section email.
Context {E : Env} `{!WfEnv E}.

(** The stored sign-in credential [id] was redeemed for the context [a] by a
    secret that matches its digest, and the credential [key] of its row spent. *)
Definition redeemed (id : UUID) (secret : EmailAuthenticationCredential → string)
    (key : EmailAuthenticationCredential → UUID) (w : World) (a : Authentication) (w' : World) :
    Prop :=
  ∃ row user t pending,
    at_some w w' (λ s, emailAuths s !! id = Some row) ∧
    EmailAuthenticationCredential_UsedAt row = None ∧
    matchTokenDigest (EmailAuthenticationCredential_Digest row) (secret row) = true ∧
    clock_showed w w' (λ t, (t < EmailAuthenticationCredential_ExpiresAt row)%Z) ∧
    at_some w w' (λ s, users s !! EmailAuthenticationCredential_UserID row = Some user) ∧
    User_Disabled user = false ∧
    a = mkAuthentication (User_ID user) MethodEmail AAL1 t pending Nil [] EmptyString ∧
    (pending = false → at_some w w' (λ s, ¬ has_active_totp (User_ID user) s)) ∧
    spent (TokenEmail (key row)) (W_store w').

Lemma ConsumeEmailAuthentication_store cx id u t b c s s' :
  ConsumeEmailAuthentication cx id u t b c s = (Ok tt, s') → spent (TokenEmail id) s'.
Proof.
  intros H. refine (wp_run _ _ s (Ok true) s'
    (spends_spent (Do_ConsumeEmailAuthentication id u t b) (TokenEmail id) cx c s eq_refl) _ eq_refl).
  cbn [run_mutation]. unfold ran, mbind, M_bind. by rewrite H.
Qed.

(** The end both flows share: the second factor is looked up and the credential
    consumed. *)
Lemma redeem_ensures id u action op target :
  Ensures (requiresSecondFactor ← second_factor_due u;
    now_ ← now;
    event ← newAudit u action "user" target Nil AuditSucceeded EmptyString;
    mapped_spent op (call (λ ctx, ConsumeEmailAuthentication ctx id u now_
      (negb requiresSecondFactor) (audit_commit event)));;
    let authentication := mkAuthentication u MethodEmail AAL1 now_ requiresSecondFactor Nil []
      EmptyString in
    emitAuthenticationSucceeded op event authentication;; mret authentication) (λ w a w',
    (∃ t pending, a = mkAuthentication u MethodEmail AAL1 t pending Nil [] EmptyString ∧
       (pending = false → at_some w w' (λ s, ¬ has_active_totp u s))) ∧
    spent (TokenEmail id) (W_store w')).
Proof.
  intros w. ok_step. eapply ok_ensures; [apply second_factor_due_ensures|]. intros pending w1 Hl1 Hp.
  ok_step. ok_step. ok_step. ok_skip w2 Hl2. do 3 ok_step. destruct r as [[]|]; [|done].
  apply ConsumeEmailAuthentication_store in Hrun. cbn [on_ok]. ok_step. ok_skip w5 Hl5. apply ok_ret.
  split_and!; [later_tac| |by eapply later_spent].
  eexists _, pending. split; [done|]. intros ->.
  eapply at_some_mono; [apply later_refl| |by apply Hp]. later_tac.
Qed.

Lemma open_account (r : result User) user :
  match r with Ok user => if User_Disabled user then None else Some user | Error _ => None end = Some user →
  r = Ok user ∧ User_Disabled user = false.
Proof. destruct r as [v|]; [|done]. destruct (User_Disabled v) eqn:H; [done|]. by intros [= <-]. Qed.

Lemma redeemed_intro id secret key w w1 row user wc w2 wr a w' :
  later w w1 → emailAuths (W_store w1) !! id = Some row →
  not_nil (EmailAuthenticationCredential_UsedAt row) = false →
  later (tick w1) wc →
  Time_Before (m_clock the_manager (W_tick wc)) (EmailAuthenticationCredential_ExpiresAt row) = true →
  matchTokenDigest (EmailAuthenticationCredential_Digest row) (secret row) = true →
  later (tick wc) w2 → users (W_store w2) !! EmailAuthenticationCredential_UserID row = Some user →
  User_Disabled user = false → later (tick w2) wr → later wr w' →
  (∃ t pending, a = mkAuthentication (User_ID user) MethodEmail AAL1 t pending Nil [] EmptyString ∧
     (pending = false → at_some wr w' (λ s, ¬ has_active_totp (User_ID user) s))) →
  spent (TokenEmail (key row)) (W_store w') →
  later w w' ∧ redeemed id secret key w a w'.
Proof.
  intros Hl1 Hrow Hused Hlc Hexp Hd Hl2 Hu Hdis Hlr Hl' (t & pending & -> & Hp) Hs.
  split; [later_tac|]. exists row, user, t, pending. split_and!; try done.
  - apply (at_some_found w w1); [later_tac|later_tac|done].
  - by destruct (EmailAuthenticationCredential_UsedAt row).
  - eapply (clock_showed_mono w wc); [later_tac|apply later_refl|].
    apply clock_showed_now; [later_tac|by apply Time_Before_lt].
  - apply (at_some_found w w2); [later_tac|later_tac|done].
  - intros ->. eapply at_some_mono; [|apply later_refl|by apply Hp]. later_tac.
Qed.

Lemma CompleteEmailAuthentication_ensures raw :
  Ensures (Manager_CompleteEmailAuthentication raw) (λ w a w', ∃ id,
    parseSecretToken emailAuthenticationPrefix raw = Some id ∧
    redeemed id (λ _, "email-authentication:" +:+ raw) (λ _, id) w a w').
Proof.
  intros w. unfold Manager_CompleteEmailAuthentication. cbv zeta. ok_steps. bool_cases.
  apply wp_traced; [traced|]. intros [address|e] w3 Hl3; [|done].
  ok_step. ok_skip w4 Hl4. ok_step. ok_skip w5 Hl5.
  eapply ok_ensures; [apply redeem_ensures|]. intros auth w6 Hl6 [Ha Hs].
  apply open_account in Hcase2 as [-> Hdis].
  edestruct (redeemed_intro a (λ _, "email-authentication:" +:+ raw) (λ _, a) w w1 row u (tick w1) w0 w5
    auth w6) as [Hl Hr]; try done; [later_tac|]. eauto.
Qed.

(** An unexpired continuation of [operation], sealed under a key of the ring. *)
Definition continues (raw operation : string) (state : ceremonyContinuation) (w w' : World) : Prop :=
  (payload ← open_payload raw; ceremony_unmarshal payload) = Some state ∧
  ceremony_Operation state = operation ∧
  clock_showed w w' (λ t, (t < ceremony_ExpiresAt state)%Z).

Lemma decodeContinuation_ensures raw operation :
  Ensures (decodeContinuation raw operation) (λ w state w',
    continues raw operation state w w' ∧
    (operation ≠ passkeyDiscoverable → ceremony_UserID state ≠ Nil)).
Proof.
  intros w. unfold decodeContinuation. ok_steps. bool_cases.
  split_and!; [later_tac| |].
  - split_and!; [done|done|]. apply clock_showed_now; [apply later_refl|by apply Time_Before_lt].
  - intros Hop. apply andb_false_iff in Hguard0 as [?|?]; bool_cases; [done|congruence].
Qed.

Lemma CompleteEmailOTP_ensures continuation code :
  Ensures (Manager_CompleteEmailOTP continuation code) (λ w a w', ∃ state id,
    continues continuation emailOTPOperation state w w' ∧
    ParseUUID (ceremony_Name state) = Ok id ∧
    redeemed id (λ row, otp_secret (EmailAuthenticationCredential_ID row) code)
      EmailAuthenticationCredential_ID w a w').
Proof.
  intros w. unfold Manager_CompleteEmailOTP. cbv zeta. ok_step.
  eapply ok_ensures; [apply decodeContinuation_ensures|]. intros state wd Hld [Hc _]. ok_steps; bool_cases.
  apply wp_traced; [traced|]. intros [address|e] w3 Hl3; [|done].
  ok_step. ok_skip w4 Hl4. ok_step. ok_skip w5 Hl5.
  ok_step; [apply ok_bind, ok_any; intros ??; apply ok_refusal|]. bool_cases.
  eapply ok_ensures; [apply redeem_ensures|]. intros auth w6 Hl6 [Ha Hs].
  apply open_account in Hcase3 as [-> Hdis].
  edestruct (redeemed_intro a (λ row, otp_secret (EmailAuthenticationCredential_ID row) code)
    EmailAuthenticationCredential_ID w w1 a0 u (tick w1) w0 w5 auth w6) as [Hl Hr]; try done; [later_tac..|].
  destruct Hc as (Ho & Hop & Hclock). split; [done|]. exists state, a. split_and!; [|done|done].
  split_and!; [done|done|]. eapply clock_showed_mono; [apply later_refl| |done]. later_tac.
Qed.

Lemma redeemed_unspent id secret key w a w' :
  redeemed id secret key w a w' → ¬ spent (TokenEmail id) (W_store w).
Proof.
  intros (row & user & t & pending & (w1 & Hl & _ & Hrow) & Hused & _) Hs.
  destruct (later_spent _ _ _ Hl Hs) as (row' & Hrow' & [u Hu]). rewrite Hrow in Hrow'.
  injection Hrow' as <-. congruence.
Qed.

(** C5: an emailed link or code signs in once, while it is live. When
    [CompleteEmailAuthentication] or [CompleteEmailOTP] succeeds, the credential
    named by the token (by the sealed, unexpired continuation of this operation
    for a code) was stored and unused during the call, its digest matches the
    secret presented, the clock showed an instant before its expiry, and its
    account was enabled. The context is of level 1, and one that does not
    announce a second factor belongs to an account without an active TOTP
    factor. Afterwards the credential is spent; one already spent before the
    call is refused, whatever runs concurrently. *)
Theorem email_sign_in_sound raw continuation code a w w' :
  (Manager_CompleteEmailAuthentication raw w = (Ok a, w') → ∃ id,
     parseSecretToken emailAuthenticationPrefix raw = Some id ∧
     redeemed id (λ _, "email-authentication:" +:+ raw) (λ _, id) w a w' ∧
     ¬ spent (TokenEmail id) (W_store w)) ∧
  (Manager_CompleteEmailOTP continuation code w = (Ok a, w') → ∃ state id,
     continues continuation emailOTPOperation state w w' ∧
     ParseUUID (ceremony_Name state) = Ok id ∧
     redeemed id (λ row, otp_secret (EmailAuthenticationCredential_ID row) code)
       EmailAuthenticationCredential_ID w a w' ∧
     ¬ spent (TokenEmail id) (W_store w)).
Proof.
  split; intros H.
  - apply (Ensures_run _ _ _ _ _ (CompleteEmailAuthentication_ensures raw)) in H as (_ & id & Hid & Hr).
    exists id. eauto using redeemed_unspent.
  - apply (Ensures_run _ _ _ _ _ (CompleteEmailOTP_ensures continuation code)) in H
      as (_ & state & id & Hc & Hn & Hr).
    exists state, id. eauto using redeemed_unspent.
Qed.
End email.

Definition mailed : result IssuedEmailAuthentication * World :=
  @Manager_BeginEmailAuthentication demo "root@example.com" served.
Definition mailed_token : string :=
  match mailed.1 with Ok i => IssuedEmailAuthentication_Token i | Error _ => EmptyString end.
Definition texted : result IssuedEmailOTP * World := @Manager_BeginEmailOTP demo "root@example.com" served.
Definition texted_code : string * string :=
  match texted.1 with
  | Ok i => (IssuedEmailOTP_Continuation i, IssuedEmailOTP_Code i)
  | Error _ => (EmptyString, EmptyString)
  end.

Lemma email_sign_in_sound_witness :
  let r := @Manager_CompleteEmailAuthentication demo mailed_token mailed.2 in
  let r' := @Manager_CompleteEmailOTP demo texted_code.1 texted_code.2 texted.2 in
  (∃ id, parseSecretToken emailAuthenticationPrefix mailed_token = Some id ∧
    @redeemed demo id (λ _, "email-authentication:" +:+ mailed_token) (λ _, id) mailed.2
      (ok_of Authentication_zero r) r.2 ∧ ¬ spent (TokenEmail id) (W_store mailed.2)) ∧
  ∃ state id, @continues demo texted_code.1 emailOTPOperation state texted.2 r'.2 ∧
    ParseUUID (ceremony_Name state) = Ok id ∧
    @redeemed demo id (λ row, otp_secret (EmailAuthenticationCredential_ID row) texted_code.2)
      EmailAuthenticationCredential_ID texted.2 (ok_of Authentication_zero r') r'.2 ∧
    ¬ spent (TokenEmail id) (W_store texted.2).
Proof.
  intros r r'. split.
  - apply (proj1 (@email_sign_in_sound demo demo_wf mailed_token EmptyString EmptyString _ _ _)).
    subst r. apply run_split. vm_compute. reflexivity.
  - apply (proj2 (@email_sign_in_sound demo demo_wf EmptyString texted_code.1 texted_code.2 _ _ _)).
    subst r'. apply run_split. vm_compute. reflexivity.
Defined.

(** ** The second factor *)
Section totp.
Context {E : Env} `{!WfEnv E}.

(** An unused recovery code of the account has this digest. *)
Definition unused_code (u : UUID) (d : string) (s : Store) : Prop :=
  ∃ c, c ∈ default [] (recovery s !! u) ∧ RecoveryCode_UsedAt c = None ∧ RecoveryCode_Digest c = d.

(** The account's factor is active and did not serve this time step or a later one. *)
Definition unused_step (u : UUID) (step : Z) (s : Store) : Prop :=
  ∃ f, totp s !! u = Some f ∧ TOTPFactor_Active f = true ∧ (TOTPFactor_LastUsedStep f < step)%Z.

Lemma UseTOTP_store cx u step c s s' :
  UseTOTP cx u step c s = (Ok true, s') → unused_step u step s.
Proof.
  intros H. refine (wp_run _ (λ r s', r = Ok true → _) s (Ok true) s' _ H eq_refl).
  unfold UseTOTP, check_ctx. wp_steps; try done. bool_cases.
  apply wp_intro. intros [[]|e] s2 _; [|done]. intros _. eexists. split_and!; [done|done|lia].
Qed.

Lemma consume_code_unused d t codes codes' :
  consume_code d t codes = Some codes' →
  ∃ c, c ∈ codes ∧ RecoveryCode_UsedAt c = None ∧ RecoveryCode_Digest c = d.
Proof.
  revert codes'. induction codes as [|c codes IH]; intros codes'; [done|]. cbn [consume_code].
  destruct (negb (not_nil (RecoveryCode_UsedAt c)) && bool_decide (RecoveryCode_Digest c = d)) eqn:Hc.
  - intros _. apply andb_true_iff in Hc as [Hu Hd]. bool_cases. exists c.
    split_and!; [left|by destruct (RecoveryCode_UsedAt c)|done].
  - destruct (consume_code d t codes) as [l|]; [|done]. intros _.
    destruct (IH l eq_refl) as (c' & ? & ? & ?). exists c'. split_and!; [by right|done|done].
Qed.

Lemma ConsumeRecoveryCode_store cx u d t c s s' :
  ConsumeRecoveryCode cx u d t c s = (Ok true, s') → unused_code u d s.
Proof.
  intros H. refine (wp_run _ (λ r s', r = Ok true → _) s (Ok true) s' _ H eq_refl).
  unfold ConsumeRecoveryCode, check_ctx. wp_steps; try done.
  apply wp_intro. intros [[]|e] s2 _; [|done]. intros _. by eapply consume_code_unused.
Qed.

(** No lockout of the account is in force. *)
Definition unlocked (u : UUID) (w w' : World) : Prop :=
  (0 < m_maxFailedLogins the_manager)%Z → ∃ throttle,
    at_some w w' (λ s, default LoginThrottle_zero (throttles s !! u) = throttle) ∧
    ∀ until, LoginThrottle_LockedUntil throttle = Some until → clock_showed w w' (λ t, (until ≤ t)%Z).

Lemma unlocked_mono u w0 w w' w0' : later w0 w → later w' w0' → unlocked u w w' → unlocked u w0 w0'.
Proof.
  intros H1 H2 Hu Hm. destruct (Hu Hm) as (thr & Ha & Hc). exists thr.
  split; [by eapply at_some_mono|]. intros v Hun. eapply clock_showed_mono; [done|done|by apply Hc].
Qed.

Lemma requireUnlocked_ensures u action :
  Ensures (requireUnlocked u action) (λ w _ w', unlocked u w w').
Proof.
  intros w. unfold requireUnlocked. ok_steps; bool_cases; unfold answered in *; (split; [later_tac|]);
    intros Hm; try lia.
  all: eexists; (split; [eapply at_some_found; [done|later_tac|reflexivity]|]); intros v Hv.
  - rewrite Hfound in Hv. cbn in Hv. simplify_eq. eapply (clock_showed_mono w (tick w1));
      [later_tac|apply later_refl|]. apply clock_showed_now; [apply later_refl|].
    by apply bool_decide_eq_false, Z.nlt_ge in Hcase2.
  - rewrite Hfound in Hv. cbn in Hv. congruence.
  - by rewrite Hfound in Hv.
Qed.

(** The code was accepted as one of the factor, or as a recovery code. *)
Definition factor_presented (u : UUID) (code : string) (w w' : World) : Prop :=
  ∃ provider factor secret,
    m_totp the_manager = Some provider ∧
    at_some w w' (λ s, totp s !! u = Some factor) ∧ TOTPFactor_Active factor = true ∧
    open (TOTPFactor_EncryptedSecret factor) = Ok secret ∧
    ((∃ step, clock_showed w w' (λ t, totp_Validate provider (TrimSpace code) secret t = (step, true)) ∧
        at_some w w' (unused_step u step)) ∨
     (∃ pepper, pepper ∈ m_readRecoveryPeppers the_manager ∧
        at_some w w' (unused_code u (digest pepper (normalizeRecoveryCode (TrimSpace code)))))).

Lemma consume_ring_ensures peppers u code event :
  Ensures (consume_ring peppers u code event) (λ w b w', b = true →
    ∃ pepper, pepper ∈ peppers ∧ at_some w w' (unused_code u (digest pepper (normalizeRecoveryCode code)))).
Proof.
  induction peppers as [|pepper peppers IH]; intros w; cbn [consume_ring]; [by apply ok_ret; split; [later_tac|]|].
  ok_step. ok_step. ok_step. ok_step. ok_step. destruct r as [b|]; [|done]. cbn [on_ok].
  destruct b.
  - apply ok_ret. split; [later_tac|]. intros _. exists pepper. split; [left|].
    apply ConsumeRecoveryCode_store in Hrun. exists w1. split_and!; [later_tac|later_tac|done].
  - eapply ok_ensures; [apply IH|]. intros b w3 Hl3 Hb. split; [later_tac|]. intros ->.
    destruct (Hb eq_refl) as (p & Hp & Ha). exists p. split; [by right|].
    eapply at_some_mono; [|apply later_refl|done]. later_tac.
Qed.

Definition promoted (actor a : Authentication) : Prop :=
  ∃ t, a = mkAuthentication (Authentication_UserID actor) MethodTOTP AAL2 t false Nil []
             (Authentication_CredentialDigest actor).

Lemma totp_verified_ensures actor name event :
  Ensures (totp_verified actor name event) (λ _ a _, promoted actor a).
Proof.
  intros w. unfold totp_verified, promoteTOTP. ok_steps.
  ok_skip w1 Hl1. ok_step. ok_skip w2 Hl2. apply ok_ret. split; [later_tac|]. by eexists.
Qed.

Lemma VerifyTOTP_ensures actor code :
  Ensures (Manager_VerifyTOTP actor code) (λ w a w',
    Authentication_UserID actor ≠ Nil ∧ Interactive actor = true ∧
    unlocked (Authentication_UserID actor) w w' ∧
    at_some w w' (enabled (Authentication_UserID actor)) ∧
    factor_presented (Authentication_UserID actor) code w w' ∧ promoted actor a).
Proof.
  intros w. unfold Manager_VerifyTOTP, requireTOTPProvider, anonymous. cbv zeta. do 4 ok_step. bool_cases.
  ok_step. eapply ok_ensures; [apply requireUnlocked_ensures|]. intros [] w1 Hl1 Hunl.
  ok_step. eapply ok_ensures; [apply requireActiveUser_ensures|]. intros [] w2 Hl2 Hen.
  ok_steps.
  all: assert (open (TOTPFactor_EncryptedSecret a0) = Ok a1) as Hopen
    by (revert Hres; unfold decryptTOTPSecret; by destruct (open _); intros [= <-]).
  all: assert (later w w0) by later_tac.
  all: ok_skip w3 Hl3; ok_step.
  - ok_step. ok_step. destruct r0 as [used|]; [|done]. cbn [on_ok].
    destruct used; [|do 3 (apply ok_bind, ok_any; intros ??); done].
    apply UseTOTP_store in Hrun. eapply ok_ensures; [apply totp_verified_ensures|]. intros auth w' Hl' Hp.
    assert (later (tick (tick w0)) w') by later_tac.
    split; [later_tac|]. split_and!; [done|done| | | |done].
    + eapply unlocked_mono; [| |exact Hunl]; later_tac.
    + eapply at_some_mono; [| |exact Hen]; later_tac.
    + exists a, a0, a1. split_and!; [done| |done|done|left; exists z; split].
      * apply (at_some_found w w0); [done|later_tac|done].
      * eapply (clock_showed_mono w (tick w0)); [later_tac|apply later_refl|]. by apply clock_showed_now.
      * exists w4. split_and!; [later_tac|later_tac|done].
  - eapply ok_ensures; [apply consume_ring_ensures|]. intros used w4 Hl4 Hused.
    destruct used; [|do 2 (apply ok_bind, ok_any; intros ??); done].
    eapply ok_ensures; [apply totp_verified_ensures|]. intros auth w' Hl' Hp.
    assert (later (tick (tick w0)) w') by later_tac.
    split; [later_tac|]. split_and!; [done|done| | | |done].
    + eapply unlocked_mono; [| |exact Hunl]; later_tac.
    + eapply at_some_mono; [| |exact Hen]; later_tac.
    + exists a, a0, a1. split_and!; [done| |done|done|right].
      * apply (at_some_found w w0); [done|later_tac|done].
      * destruct (Hused eq_refl) as (p & Hin & Ha). exists p. split; [done|].
        eapply at_some_mono; [| |exact Ha]; later_tac.
Qed.

(** C6: the second factor is proved, not merely asked for. When [VerifyTOTP]
    succeeds, the caller is an interactive context of an account that was
    enabled and not locked out during the call, with an active factor; and
    either the provider accepted the code for the decrypted secret at an instant
    the clock showed, in a time step later than every one the factor had served,
    or the code is that of a recovery code still unused under a pepper of the
    ring. The context returned is the account's at level 2, with no second
    factor pending, no workspace binding and the password fingerprint it came
    with. *)
Theorem second_factor_sound actor code a w w' :
  Manager_VerifyTOTP actor code w = (Ok a, w') →
  Authentication_UserID actor ≠ Nil ∧ Interactive actor = true ∧
  unlocked (Authentication_UserID actor) w w' ∧
  at_some w w' (enabled (Authentication_UserID actor)) ∧
  factor_presented (Authentication_UserID actor) code w w' ∧ promoted actor a.
Proof. intros H. by apply (Ensures_run _ _ _ _ _ (VerifyTOTP_ensures actor code)) in H as []. Qed.
End totp.

(** The root account enrols a factor, then presents a code. *)
Definition totp_code : string := "code for secret of root@example.com".
Definition enrolling : World := (@Manager_BeginTOTPEnrollment equipped root served).2.
Definition two_factor : World := (@Manager_ConfirmTOTPEnrollment equipped root totp_code enrolling).2.

Lemma second_factor_sound_witness :
  let r := @Manager_VerifyTOTP equipped root totp_code two_factor in
  @factor_presented equipped (Authentication_UserID root) totp_code two_factor r.2 ∧
  promoted root (ok_of Authentication_zero r).
Proof.
  intros r.
  destruct (@second_factor_sound equipped equipped_wf root totp_code (ok_of Authentication_zero r)
    two_factor r.2) as (_ & _ & _ & _ & H); [|exact H].
  subst r. apply run_split. vm_compute. reflexivity.
Defined.
