(* ===== verification/ManagerFederated.v ===== *)
(** * Passkeys and single sign-on

    What a passkey or an identity provider proves when it signs an account in:
    the ceremony was opened by this service, has not expired and is recorded as
    consumed, the
    credential belongs to the account, and the account was enabled. *)
From stdpp Require Import base gmap sets list strings numbers sorting.
From Stdlib Require Import ZArith Lia Ascii.
From S2P Require Import Prelude Bytes GoText Uuid Types OAuthTypes Roles AuditChain Store StoreUsers StoreTokens StoreWorkspaces StoreScim StoreOAuth StorePages Commit StoreSystem StoreOutcomes StoreMonotone Tokens Events Manager ManagerGates Config ManagerSession ManagerPAT ManagerPassword ManagerAdmin ManagerEmail ManagerInvite ManagerSeal ManagerFactor ManagerPasskey ManagerSSO ManagerScim ManagerScenario ManagerTrace ManagerSystem ManagerSafety ManagerAuth ManagerFlows.

#[export] Instance PasskeyByCredentialID_lookup c :
  Lookup (λ cx, PasskeyByCredentialID cx c)
    (λ s, byID ← map_find (λ _, map_existsb (has_credential c)) (passkeys s);
          found ← map_find (has_credential c) byID.2; Some found.2).
Proof.
  intros cx s. destruct cx; [reflexivity|]. unfold PasskeyByCredentialID.
  cbv [check_ctx mbind M_bind get mret M_ret option_bind ok_or].
  by destruct (map_find _ (passkeys s)) as [x|]; [destruct (map_find _ x.2)|].
Qed.
#[export] Instance SSOIdentity_lookup p i u :
  Lookup (λ cx, SSOIdentity_ cx p i u)
    (λ s, (λ id, default SSOIdentity_zero (ssoIdentities s !! id)) <$> ssoKeys s !! ssoKey (UUID_String p) i u).
Proof. solve_lookup. Qed.

#[export] Instance ssoIdentities_view : CommitView ssoIdentities.
Proof. by split; intros; try destruct u. Qed.
#[export] Instance emails_view : CommitView emails.
Proof. by split; intros; try destruct u. Qed.

(** ** Ceremonies *)
Section ceremonies.
Context {E : Env} `{!WfEnv E}.

(** The ceremony [k] was consumed during the interval, by one step of the
    store: whatever consumption of it the store had recorded before the step
    had expired by an instant of the clock in the interval, and the step
    recorded this one. *)
Definition burned (k : option CeremonyConsumption) (w w' : World) : Prop :=
  ∀ c, k = Some c → ∃ w1 w2, later w w1 ∧ later w1 w2 ∧ later w2 w' ∧
    clock_showed w w' (λ t, ∀ e, ceremonies (W_store w1) !! CeremonyConsumption_ID c = Some e → (e < t)%Z) ∧
    ceremonies (W_store w2) !! CeremonyConsumption_ID c = Some (CeremonyConsumption_ExpiresAt c).

Lemma burned_mono k w0 w w' w0' : later w0 w → later w' w0' → burned k w w' → burned k w0 w0'.
Proof.
  intros H1 H2 Hb c Hc. destruct (Hb c Hc) as (w1 & w2 & ? & ? & ? & Ht & ?). exists w1, w2.
  split_and!; [by trans w|done|by trans w'|by eapply clock_showed_mono|done].
Qed.

(** The event was stamped within the interval. *)
Definition stamped (event : AuditEvent) (w w' : World) : Prop :=
  clock_showed w w' (λ t, (AuditEvent_OccurredAt event ≤ t)%Z).

Lemma stamped_mono e w0 w w' w0' : later w0 w → later w' w0' → stamped e w w' → stamped e w0 w0'.
Proof. apply clock_showed_mono. Qed.

Lemma newAudit_stamped actor action rt rid ws outcome reason :
  Ensures (newAudit actor action rt rid ws outcome reason) (λ w e w', stamped e w w').
Proof.
  intros w. unfold newAudit. ok_step. ok_skip w1 Hl1. ok_step. ok_step. ok_step. split; [later_tac|].
  eapply clock_showed_mono; [exact Hl1|apply later_refl|]. apply clock_showed_now; [apply later_refl|].
  cbn. unfold Time_Truncate. pose proof (Z.mod_pos_bound (m_clock the_manager (W_tick w1) - zero_time) 1000). lia.
Qed.

Lemma unreplayed c k e s : replayed c s = false → Commit_Ceremony c = Some k →
  ceremonies s !! CeremonyConsumption_ID k = Some e → (e < AuditEvent_OccurredAt (Commit_Audit c))%Z.
Proof.
  unfold replayed. intros Hr Hk He. rewrite Hk in Hr. apply bool_decide_eq_false, eq_None_not_Some in Hr.
  unfold prune_ceremonies in Hr. apply map_lookup_filter_None in Hr as [Hn|Hn]; [congruence|].
  specialize (Hn _ He). cbn in Hn. apply not_false_is_true in Hn. by apply bool_decide_eq_true in Hn.
Qed.

Lemma burned_mutation mu cx c s s' w w1 w2 w' :
  run_mutation mu cx c s = (Ok true, s') → W_store w1 = s → W_store w2 = s' →
  later w w1 → later w1 w2 → later w2 w' → stamped (Commit_Audit c) w w' → burned (Commit_Ceremony c) w w'.
Proof.
  intros Hr Hs Hs' H1 H2 H3 Ht k Hk. exists w1, w2. split_and!; [done..| |].
  - destruct Ht as (t & Ht & Hle). exists t. split; [done|]. intros e He.
    enough (e < AuditEvent_OccurredAt (Commit_Audit c))%Z by lia.
    apply (unreplayed c k e s); [|done|by subst]. by eapply committed_unreplayed.
  - subst s'. by eapply committed_burns.
Qed.

Lemma ran_ok (p : M Store unit) s s' : p s = (Ok tt, s') → ran p s = (Ok true, s').
Proof. unfold ran, mbind, M_bind. by intros ->. Qed.

Lemma wp_port {A} (f : nat → result A) (Q : result A → World → Prop) w :
  Q (f (W_tick w)) (tick w) → wp (port f) Q w.
Proof. done. Qed.

Lemma enabled_record_ensures u :
  Ensures (enabled_record u) (λ w user w', at_some w w' (λ s, users s !! u = Some user) ∧ User_Disabled user = false).
Proof.
  intros w. unfold enabled_record. ok_steps. split_and!; [later_tac| |done].
  by eapply at_some_found; [done|apply later_refl|].
Qed.
End ceremonies.

(** ** Passkeys *)
Section passkeys.
Context {E : Env} `{!WfEnv E}.




























End passkeys.



(** ** Single sign-on *)
Section sso.
Context {E : Env} `{!WfEnv E}.

(** An unexpired single sign-on continuation, sealed under a key of the ring. *)
Definition sso_continues (raw : string) (state : ssoContinuation) (w w' : World) : Prop :=
  (payload ← open_payload raw; sso_unmarshal payload) = Some state ∧
  sso_Operation state ∈ [ssoLogin; ssoLink; ssoStepUp] ∧
  (sso_Operation state ≠ ssoLogin → sso_UserID state ≠ Nil) ∧
  clock_showed w w' (λ t, (t < sso_ExpiresAt state)%Z).

Lemma decodeSSOContinuation_ensures raw :
  Ensures (decodeSSOContinuation raw) (λ w state w', sso_continues raw state w w').
Proof.
  intros w. unfold decodeSSOContinuation. ok_steps. bool_cases.
  split; [later_tac|]. split_and!; [done|done| |].
  - intros Hop Hn. apply andb_false_iff in Hguard1 as [Hg|Hg]; apply bool_decide_eq_false in Hg; [|done].
    set_solver.
  - apply clock_showed_now; [apply later_refl|by apply Time_Before_lt].
Qed.

(** The three ways a sign-on ends: the identity is known, it is linked to the
    account that asked, or an account is provisioned for it. *)
Definition identity_known (state : ssoContinuation) (claims : SSOClaims) (u : UUID) (w w' : World) : Prop :=
  sso_Operation state ≠ ssoLink ∧ ∃ identity user,
    at_some w w' (λ s, ∃ id,
      ssoKeys s !! ssoKey (UUID_String (sso_ProviderConfigurationID state)) (SSOClaims_Issuer claims)
        (SSOClaims_Subject claims) = Some id ∧
      default SSOIdentity_zero (ssoIdentities s !! id) = identity) ∧
    at_some w w' (λ s, users s !! SSOIdentity_UserID identity = Some user) ∧
    User_Disabled user = false ∧ u = User_ID user ∧
    (sso_Operation state = ssoStepUp → SSOIdentity_UserID identity = sso_UserID state).
Definition identity_linked (state : ssoContinuation) (claims : SSOClaims) (u : UUID) (w w' : World) : Prop :=
  sso_Operation state = ssoLink ∧ u = sso_UserID state ∧
  at_some w w' (λ s, is_Some (users s !! u)) ∧
  at_some w w' (λ s, ∃ identity,
    ssoIdentities s !! SSOIdentity_ID identity = Some identity ∧ SSOIdentity_UserID identity = u ∧
    SSOIdentity_Issuer identity = SSOClaims_Issuer claims ∧
    SSOIdentity_Subject identity = SSOClaims_Subject claims).
Definition account_provisioned (state : ssoContinuation) (claims : SSOClaims) (u : UUID) (w w' : World) : Prop :=
  sso_Operation state = ssoLogin ∧ SSOClaims_EmailVerified claims = true ∧
  ∃ name domain, after_last "@" (SSOClaims_Email claims) = Some name ∧
    at_some w w' (λ s, ∃ id, domainNames s !! name = Some id ∧
      default WorkspaceDomain_zero (domains s !! id) = domain) ∧
    is_Some (WorkspaceDomain_ConfirmedAt domain) ∧ WorkspaceDomain_AutoJoin domain = true ∧
    WorkspaceDomain_SSOProviderConfigurationID domain = sso_ProviderConfigurationID state ∧
    at_some w w' (λ s, emails s !! SSOClaims_Email claims = None) ∧
    at_some w w' (λ s, emails s !! SSOClaims_Email claims = Some u).

#[local] Instance ConfirmedWorkspaceDomainByName_lookup n :
  Lookup (λ cx, ConfirmedWorkspaceDomainByName cx n)
    (λ s, id ← domainNames s !! n; let d := default WorkspaceDomain_zero (domains s !! id) in
          if not_nil (WorkspaceDomain_ConfirmedAt d) then Some d else None).
Proof.
  intros cx s. destruct cx; [reflexivity|]. unfold ConfirmedWorkspaceDomainByName.
  cbv [check_ctx mbind M_bind get mret M_ret option_bind ok_or throw_if].
  destruct (domainNames s !! n) as [id|]; [|done]. cbn.
  by destruct (WorkspaceDomain_ConfirmedAt (default WorkspaceDomain_zero (domains s !! id))).
Qed.

Definition sso_context (u : UUID) (level : AssuranceLevel) (a : Authentication) : Prop :=
  ∃ t, a = mkAuthentication u MethodSSO level t false Nil [] EmptyString.

Lemma finish_known_ensures state identity level :
  Ensures (finish_known state identity level) (λ w a w',
    ∃ user, at_some w w' (λ s, users s !! SSOIdentity_UserID identity = Some user) ∧
      User_Disabled user = false ∧
      (sso_Operation state = ssoStepUp → SSOIdentity_UserID identity = sso_UserID state) ∧
      sso_context (User_ID user) level a ∧ burned (sso_consumption state) w w').
Proof.
  intros w. unfold finish_known. ok_step. ok_step.
  ok_step. eapply ok_ensures; [apply enabled_record_ensures|]. intros user w1 Hl1 [Hu Hdis].
  ok_step. ok_step. ok_step. eapply ok_ensures; [apply newAudit_stamped|]. intros event w2 Hl2 He.
  ok_step. ok_step. ok_step.
  destruct r as [[]|]; [|done]. cbn [on_ok]. ok_step. ok_skip w5 Hl5. ok_step. ok_skip w6 Hl6. apply ok_ret.
  split; [later_tac|]. exists user. split_and!; [|done| |by eexists|].
  - eapply at_some_mono; [| |exact Hu]; later_tac.
  - intros Hop. apply andb_false_iff in Hguard as [?|?]; bool_cases; congruence.
  - match goal with Hrun : TouchSSO ?cx ?u ?i ?t ?c _ = _ |- _ =>
      eapply (burned_mutation (Do_TouchSSO u i t) cx c (W_store w0) (W_store w3) w w0 w3);
        [by apply ran_ok|done|done|later_tac|done|later_tac|eapply stamped_mono; [| |exact He]; later_tac] end.
Qed.

Lemma LinkSSO_store cx identity c s s' :
  LinkSSO cx identity c s = (Ok tt, s') →
  is_Some (users s !! SSOIdentity_UserID identity) ∧
  ssoIdentities s' !! SSOIdentity_ID identity = Some identity.
Proof.
  intros H. refine (wp_run _ (λ r s', r = Ok tt → _ ∧ ssoIdentities s' !! _ = _) s (Ok tt) s' _ H eq_refl).
  unfold LinkSSO. op_success. rewrite view_commitAudit by apply _.
  apply negb_false_iff in Hguard. unfold has in Hguard. split.
  - by destruct (users s !! _).
  - repeat case_match; apply lookup_insert_eq.
Qed.

Lemma JITProvisionSSOUser_store cx user email membership identity c s s' :
  JITProvisionSSOUser cx user email membership identity c s = (Ok tt, s') →
  emails s' !! EmailAddress_Address email = Some (User_ID user).
Proof.
  intros H. refine (wp_run _ (λ r s', r = Ok tt → emails s' !! _ = _) s (Ok tt) s' _ H eq_refl).
  unfold JITProvisionSSOUser. op_success. rewrite view_commitAudit by apply _. cbn. apply lookup_insert_eq.
Qed.

Lemma finishSSOLink_ensures provider state claims level :
  sso_Operation state = ssoLink →
  Ensures (finishSSOLink provider state claims level) (λ w a w',
    identity_linked state claims (sso_UserID state) w w' ∧
    sso_context (sso_UserID state) level a ∧ burned (sso_consumption state) w w').
Proof.
  intros Hop w. unfold finishSSOLink. cbv zeta. ok_step. ok_skip w1 Hl1. ok_step. ok_step.
  ok_step. eapply ok_ensures; [apply newAudit_stamped|]. intros event w2 Hl2 He.
  ok_step. ok_skip w3 Hl3. ok_step. ok_step. ok_step.
  destruct r as [[]|]; [|done]. cbn [on_ok]. ok_step. ok_skip w6 Hl6. apply ok_ret.
  split; [later_tac|]. split_and!; [|by eexists|].
  - apply LinkSSO_store in Hrun as [Hu Hi]. split_and!; [done|done| |].
    + exists w0. split_and!; [later_tac|later_tac|done].
    + exists w4. split_and!; [later_tac|later_tac|]. eexists. by split_and!.
  - match goal with Hrun : LinkSSO ?cx ?i ?c _ = _ |- _ =>
      eapply (burned_mutation (Do_LinkSSO i) cx c (W_store w0) (W_store w4) w w0 w4);
        [by apply ran_ok|done|done|later_tac|done|later_tac|eapply stamped_mono; [| |exact He]; later_tac] end.
Qed.

Lemma finishSSOJIT_ensures provider state claims level :
  sso_Operation state = ssoLogin →
  Ensures (finishSSOJIT provider state claims level) (λ w a w', ∃ u,
    account_provisioned state claims u w w' ∧
    sso_context u level a ∧ burned (sso_consumption state) w w').
Proof.
  intros Hop w. unfold finishSSOJIT. cbv zeta. ok_steps. bool_cases.
  ok_skip w3 Hl3. ok_step. ok_skip w4 Hl4. ok_step. ok_skip w5 Hl5. ok_step. ok_step.
  ok_step. eapply ok_ensures; [apply newAudit_stamped|]. intros event w6 Hl6 He. do 3 (ok_step; apply ok_traced; [traced|]; intros ? ? ?). ok_step. ok_step. ok_step.
  destruct r0 as [[]|]; [|done]. cbn [on_ok].
  do 4 (ok_step; apply ok_traced; [traced|]; intros ? ? ?). apply ok_ret.
  cbv beta in Hfound. apply bind_Some in Hfound as (id & Hid & Hd). cbv zeta in Hd.
  destruct (not_nil (WorkspaceDomain_ConfirmedAt _)) eqn:Hconf in Hd; [|done]. injection Hd as <-.
  assert (later w w7) by later_tac. split; [later_tac|]. exists a0. split_and!; [|by eexists|].
  - split_and!; [done|done|]. exists a, (default WorkspaceDomain_zero (domains (W_store w1) !! id)).
    split_and!; [done| |by destruct (WorkspaceDomain_ConfirmedAt _)|done|done| |].
    + apply (at_some_found w w1); [done|later_tac|by eexists].
    + apply (at_some_found w w2); [later_tac|later_tac|]. apply Hfound1, fmap_None in Hcase0. done.
    + apply JITProvisionSSOUser_store in Hrun. exists w8. split_and!; [later_tac|later_tac|exact Hrun].
  - match goal with Hrun : JITProvisionSSOUser ?cx ?u ?e ?m ?i ?c _ = _ |- _ =>
      eapply (burned_mutation (Do_JITProvisionSSOUser u e m i) cx c (W_store w7) (W_store w8) w w7 w8);
        [by apply ran_ok|done|done|done|done|later_tac|eapply stamped_mono; [| |exact He]; later_tac] end.
Qed.

(** What the provider asserted, as the manager reads it. *)
Definition asserted (raw claims : SSOClaims) : Prop :=
  SSOClaims_Issuer claims = TrimSpace (SSOClaims_Issuer raw) ∧ SSOClaims_Issuer claims ≠ EmptyString ∧
  SSOClaims_Subject claims = TrimSpace (SSOClaims_Subject raw) ∧ SSOClaims_Subject claims ≠ EmptyString ∧
  SSOClaims_EmailVerified claims = SSOClaims_EmailVerified raw ∧
  (SSOClaims_Email raw ≠ EmptyString → validEmail (SSOClaims_Email raw) = Ok (SSOClaims_Email claims)).

(** The level of a sign-on: 2 only where the host's policy is satisfied. *)
Definition assured (provider : UUID) (claims : SSOClaims) (level : AssuranceLevel) : Prop :=
  match m_ssoAssurance the_manager !! provider with
  | None => level = AAL1
  | Some policy => level = AAL2 ∧ SSOAssurancePolicy_satisfiedBy policy claims = true
  end.

Definition signed_on (continuation response : string) (w : World) (a : Authentication) (w' : World) : Prop :=
  ∃ state provider i raw claims level u,
    sso_continues continuation state w w' ∧
    m_ssoProviders the_manager !! sso_ProviderConfigurationID state = Some provider ∧
    sso_Finish provider i (default EmptyString (sso_Session state)) response = Ok raw ∧
    asserted raw claims ∧ assured (sso_ProviderConfigurationID state) claims level ∧
    (identity_known state claims u w w' ∨ identity_linked state claims u w w' ∨
     account_provisioned state claims u w w') ∧
    burned (sso_consumption state) w w' ∧ sso_context u level a.

Lemma sign_on_mono state claims u w0 w w' :
  later w0 w →
  identity_known state claims u w w' ∨ identity_linked state claims u w w' ∨
    account_provisioned state claims u w w' →
  identity_known state claims u w0 w' ∨ identity_linked state claims u w0 w' ∨
    account_provisioned state claims u w0 w'.
Proof.
  intros Hl.
  assert (∀ P, at_some w w' P → at_some w0 w' P) as Hm
    by (intros P; eapply at_some_mono; [done|apply later_refl]).
  intros [(? & i & user & H1 & H2 & ?)|[(? & ? & H1 & H2)|(? & ? & n & d & ? & H1 & ? & ? & ? & H2 & H3)]].
  - left. split; [done|]. exists i, user. split_and!; [apply Hm|apply Hm|..]; tauto.
  - right; left. split_and!; [done|done|apply Hm|apply Hm]; tauto.
  - right; right. split_and!; [done|done|]. exists n, d. split_and!; [|apply Hm|..|apply Hm|apply Hm]; tauto.
Qed.

Lemma reject_sso_ok {A} state reason e (Q : A → World → Prop) w : wp_ok (reject_sso state reason e) Q w.
Proof. apply ok_refusal. Qed.

Lemma bad_claim_false v : bad_claim v = false → v ≠ EmptyString.
Proof. unfold bad_claim. intros [H _]%orb_false_iff. by apply bool_decide_eq_false in H. Qed.

(** The level and the claims a sign-on goes on with. *)
Lemma sso_level_ok state claims (Q : AssuranceLevel → World → Prop) w :
  (∀ level, assured (sso_ProviderConfigurationID state) claims level → Q level w) →
  wp_ok (match m_ssoAssurance the_manager !! sso_ProviderConfigurationID state with
         | None => mret AAL1
         | Some policy =>
             if SSOAssurancePolicy_satisfiedBy policy claims then mret AAL2
             else reject_sso state "assurance_policy" ErrStepUpRequired
         end) Q w.
Proof.
  unfold assured. intros HQ. destruct (m_ssoAssurance the_manager !! _) as [policy|]; [|by apply ok_ret, HQ].
  destruct (SSOAssurancePolicy_satisfiedBy policy claims) eqn:H; [by apply ok_ret, HQ|apply reject_sso_ok].
Qed.

Lemma sso_claims_ok raw (claims : SSOClaims) (Q : SSOClaims → World → Prop) w :
  claims = raw <| SSOClaims_Issuer := TrimSpace (SSOClaims_Issuer raw) |>
    <| SSOClaims_Subject := TrimSpace (SSOClaims_Subject raw) |> →
  bad_claim (SSOClaims_Issuer claims) = false → bad_claim (SSOClaims_Subject claims) = false →
  (∀ c, asserted raw c → (∀ p level, assured p claims level → assured p c level) → Q c w) →
  wp_ok (if bool_decide (SSOClaims_Email claims = EmptyString) then mret claims
         else match validEmail (SSOClaims_Email claims) with
              | Ok email => mret (claims <| SSOClaims_Email := email |>)
              | Error _ => throw ErrInvalidCredentials
              end) Q w.
Proof.
  intros -> Hi%bad_claim_false Hs%bad_claim_false HQ. case_bool_decide as Hm.
  - apply ok_ret, HQ; [|done]. by split_and!.
  - destruct (validEmail _) as [email|] eqn:Hv; [|done]. apply ok_ret, HQ; [|done]. by split_and!.
Qed.

Lemma FinishSSO_ensures continuation response :
  Ensures (Manager_FinishSSO continuation response) (λ w a w', signed_on continuation response w a w').
Proof.
  intros w. unfold Manager_FinishSSO. cbv zeta. ok_step.
  eapply ok_ensures; [apply decodeSSOContinuation_ensures|]. intros state w1 Hl1 Hc.
  ok_step. ok_step. rename a into provider. ok_step. ok_step. apply wp_port.
  destruct (sso_Finish _ _ _ _) as [raw|e] eqn:Hfin; [|by apply reject_sso_ok].
  ok_step. ok_step. bool_cases.
  ok_step. apply sso_level_ok. intros level Hlevel.
  ok_step. apply (sso_claims_ok raw); [done..|]. intros claims Has Hmono. apply Hmono in Hlevel.
  assert (∀ w' a, later (tick w1) w' → (∃ u,
    (identity_known state claims u (tick w1) w' ∨ identity_linked state claims u (tick w1) w' ∨
     account_provisioned state claims u (tick w1) w') ∧ burned (sso_consumption state) (tick w1) w' ∧
    sso_context u level a) → later w w' ∧ signed_on continuation response w a w') as Hdone.
  { intros w' a Hl' (u & Hend & Hburn & Hctx). split; [later_tac|].
    exists state, provider, (W_tick w1), raw, claims, level, u. split_and!; try done.
    - destruct Hc as (? & ? & ? & ?). split_and!; [done|done|done|].
      eapply clock_showed_mono; [apply later_refl| |done]. later_tac.
    - eapply sign_on_mono; [|exact Hend]. later_tac.
    - eapply burned_mono; [|apply later_refl|exact Hburn]. later_tac. }
  ok_step; bool_cases.
  - eapply ok_ensures; [by apply finishSSOLink_ensures|]. intros a w' Hl (H1 & H2 & H3). eauto 10.
  - ok_step. ok_step. ok_step. destruct r as [known|e].
    + eapply ok_ensures; [apply finish_known_ensures|]. intros a w' Hl (user & Hu & Hd & Hst & Hctx & Hburn).
      apply Hdone; [later_tac|]. exists (User_ID user). split_and!; [left|..].
      * split; [done|]. unfold answered in Hfound. apply fmap_Some in Hfound as (id & Hid & ->).
        eexists _, user. split_and!; [|eapply at_some_mono; [|apply later_refl|exact Hu]; later_tac|done|done|done].
        apply (at_some_found _ w0); [done|done|by eexists].
      * eapply burned_mono; [|apply later_refl|exact Hburn]. later_tac.
      * done.
    + ok_step; [done|]. ok_step; [|done]. bool_cases.
      eapply ok_ensures; [by apply finishSSOJIT_ensures|]. intros a w' Hl (u & Hprov & Hctx & Hburn).
      apply Hdone; [later_tac|]. exists u. split_and!; [|..|done].
      * eapply sign_on_mono; [|by right; right]. later_tac.
      * eapply burned_mono; [|apply later_refl|exact Hburn]. later_tac.
Qed.

(** C8: single sign-on signs in the account the identity belongs to. When
    [FinishSSO] succeeds, the continuation is an unexpired one this service
    sealed, its provider is configured and accepted the response, issuer and
    subject are not blank, and the level is 2 only where the host's assurance
    policy for the provider is satisfied (a provider with a policy never signs
    in below it). Then one of three: the identity is linked to an enabled
    account, which is the one that asked when the operation is a step-up; the
    operation is a link and the identity is now linked to the account that
    asked; or the operation is a sign-in, the address is verified by the
    provider and its confirmed domain admits accounts from this provider, and
    the address, which named no account, names the new one. A ceremony with an
    identifier is consumed: one step of the store found no unexpired record of
    it and recorded it. *)
Theorem sso_sign_in_sound continuation response a w w' :
  Manager_FinishSSO continuation response w = (Ok a, w') → signed_on continuation response w a w'.
Proof. intros H. by apply (Ensures_run _ _ _ _ _ (FinishSSO_ensures continuation response)) in H as []. Qed.
End sso.

Definition sso_challenge_of (r : result SSOChallenge * World) : string :=
  match r.1 with Ok c => SSOChallenge_Continuation c | Error _ => EmptyString end.
Definition linking := @Manager_BeginSSOLink equipped root idp_id served.
Definition linked : World := (@Manager_FinishSSO equipped (sso_challenge_of linking) "subject" linking.2).2.
Definition signing_on := @Manager_BeginSSO equipped idp_id linked.

Lemma sso_sign_in_sound_witness :
  let r := @Manager_FinishSSO equipped (sso_challenge_of signing_on) "subject" signing_on.2 in
  @signed_on equipped (sso_challenge_of signing_on) "subject" signing_on.2 (ok_of Authentication_zero r) r.2.
Proof.
  intros r. apply (@sso_sign_in_sound equipped equipped_wf).
  subst r. apply run_split. vm_compute. reflexivity.
Defined.
