(* ===== verification/ManagerOAuthSafety.v ===== *)
(** * What OAuth credentials prove

    Soundness of bearer validation, of the code exchange and of the consent
    ceremony, under interference: a token is accepted only on the strength of
    a live grant of an enabled client, user, workspace, resource and issuer. *)
From stdpp Require Import base gmap sets list strings numbers.
From Stdlib Require Import ZArith Lia Ascii.
From S2P Require Import Prelude Bytes GoText GoUrl Uuid Types OAuthTypes Roles AuditChain Store StoreUsers StoreTokens StoreWorkspaces StoreScim StoreOAuth StorePages Commit StoreSystem StoreMonotone StoreRevocation Tokens Events Manager ManagerGates Config ManagerEmail ManagerSeal OAuthPolicy ManagerOAuth ManagerOAuthTokens ManagerOAuthAdmin ManagerScenario ManagerTrace OAuthScenario ManagerSystem ManagerSafety ManagerAuth ManagerFlows ManagerFederated.

(** ** Lookups *)

(** The row an index leads to. *)
Definition by_key {K V} `{Countable K} (keys : gmap K UUID) (rows : gmap UUID V) (zero : V) (k : K) : option V :=
  (λ id, default zero (rows !! id)) <$> keys !! k.

#[export] Instance OAuthIssuerByID_lookup id : Lookup (λ cx, OAuthIssuerByID cx id) (λ s, oauthIssuers s !! id).
Proof. solve_lookup. Qed.
#[export] Instance OAuthIssuerByURL_lookup u :
  Lookup (λ cx, OAuthIssuerByURL cx u) (λ s, by_key (oauthIssuerURLs s) (oauthIssuers s) OAuthIssuer_zero u).
Proof. unfold by_key. solve_lookup. Qed.
#[export] Instance OAuthProtectedResourceByID_lookup id :
  Lookup (λ cx, OAuthProtectedResourceByID cx id) (λ s, oauthResources s !! id).
Proof. solve_lookup. Qed.
#[export] Instance OAuthProtectedResourceByURI_lookup u :
  Lookup (λ cx, OAuthProtectedResourceByURI cx u)
    (λ s, by_key (oauthResourceURIs s) (oauthResources s) OAuthProtectedResource_zero u).
Proof. unfold by_key. solve_lookup. Qed.
#[export] Instance OAuthClientByID_lookup id : Lookup (λ cx, OAuthClientByID cx id) (λ s, oauthClients s !! id).
Proof. solve_lookup. Qed.
#[export] Instance OAuthClientByClientID_lookup i c :
  Lookup (λ cx, OAuthClientByClientID cx i c)
    (λ s, by_key (oauthClientKeys s) (oauthClients s) OAuthClient_zero (oauthClientKey i c)).
Proof. unfold by_key. solve_lookup. Qed.
#[export] Instance OAuthGrant_lookup id : Lookup (λ cx, OAuthGrant_ cx id) (λ s, oauthGrants s !! id).
Proof. solve_lookup. Qed.
#[export] Instance OAuthAuthorizationCodeByPrefix_lookup p :
  Lookup (λ cx, OAuthAuthorizationCodeByPrefix cx p)
    (λ s, by_key (oauthCodeKeys s) (oauthCodes s) OAuthAuthorizationCode_zero p).
Proof. unfold by_key. solve_lookup. Qed.
#[export] Instance OAuthAccessTokenByPrefix_lookup p :
  Lookup (λ cx, OAuthAccessTokenByPrefix cx p)
    (λ s, by_key (oauthAccessKeys s) (oauthAccessTokens s) OAuthAccessToken_zero p).
Proof. unfold by_key. solve_lookup. Qed.
#[export] Instance OAuthClientAccessTokenByPrefix_lookup p :
  Lookup (λ cx, OAuthClientAccessTokenByPrefix cx p)
    (λ s, by_key (oauthClientTokenKeys s) (oauthClientTokens s) OAuthClientAccessToken_zero p).
Proof. unfold by_key. solve_lookup. Qed.
#[export] Instance OAuthRefreshTokenByPrefix_lookup p :
  Lookup (λ cx, OAuthRefreshTokenByPrefix cx p)
    (λ s, by_key (oauthRefreshKeys s) (oauthRefreshTokens s) OAuthRefreshToken_zero p).
Proof. unfold by_key. solve_lookup. Qed.

#[export] Instance oauthClients_view : CommitView oauthClients.
Proof. by split; intros; try destruct u. Qed.

Lemma not_nil_false {A} (o : option A) : not_nil o = false → o = None.
Proof. by destruct o. Qed.

Lemma reaches_grants s s' : reaches s s' → rows_le grant_le (oauthGrants s) (oauthGrants s').
Proof. intros (ops & _ & ->). apply trace_grows; [apply _|apply oauthGrants_grow|done|done]. Qed.

(** A grant seen unrevoked was not revoked before. *)
Lemma unrevoked_before w w' id grant old :
  at_some w w' (λ s, oauthGrants s !! id = Some grant) → OAuthGrant_RevokedAt grant = None →
  oauthGrants (W_store w) !! id = Some old → OAuthGrant_RevokedAt old = None.
Proof.
  intros (w1 & [Hl _] & _ & Hg) Hr Ho.
  destruct (reaches_grants _ _ Hl _ _ Ho) as (y & Hy & u & r & -> & Hs). rewrite Hg in Hy.
  injection Hy as ->. cbn in Hr. destruct (OAuthGrant_RevokedAt old) as [t|]; [|done].
  destruct Hs as [x ->]; [by eexists|done].
Qed.

Section lookups.
Context {E : Env} `{!WfEnv E}.

Lemma ok_lookup_valid {A} (op : Context → M Store A) f `{!Lookup op f} bad e (Q : A → World → Prop) w :
  (∀ w1 a, later w w1 → f (W_store w1) = Some a → bad a = false → Q a (tick w1)) →
  wp_ok (lookup_valid op bad e) Q w.
Proof.
  intros HQ. unfold lookup_valid. ok_step. ok_step. eapply wp_lookup; [apply _|].
  intros w1 [a|err] Hl Hf; [|done]. ok_step. ok_step. apply ok_ret. by apply HQ.
Qed.
End lookups.

Ltac ok_special ::=
  lazymatch goal with
  | |- wp (refuse _ _ _ _) _ _ => apply refuse_ok
  | |- wp (mapped_spent _ _) _ _ => apply ok_mapped_spent
  | |- wp (ok_or _ _) _ _ => let H := fresh "Hsome" in apply ok_ok_or; intros ? H
  | |- wp requireOAuth _ _ => let H := fresh "Hsome" in unfold requireOAuth; apply ok_ok_or; intros ? H
  | |- wp (lookup_token _) _ _ => eapply ok_lookup_token; [apply _|]; intros ?w1 ?row ?Hlater ?Hfound
  | |- wp (lookup_valid _ _ _) _ _ =>
      eapply ok_lookup_valid; [apply _|]; intros ?w1 ?row ?Hlater ?Hfound ?Hvalid
  end.

(** What a lookup found, seen from the whole interval. *)
Ltac seen H :=
  lazymatch type of H with
  | context [W_store ?w1] => apply (at_some_found _ w1); [later_tac|later_tac|]
  end.

(** ** Grants *)
Section grants.
Context {E : Env} `{!WfEnv E}.

(** The actor holds every permission behind a scope of the resource. *)
Definition scope_held (actor : Authentication) (resource : OAuthProtectedResource) (w w' : World)
    (scope : string) : Prop :=
  oauthReservedScope scope = true ∨
  ∃ definition,
    oauthScopeDefinition (OAuthProtectedResource_Scopes resource) scope = Some definition ∧
    ∀ p, p ∈ OAuthScopeDefinition_Permissions definition →
      permission_held actor (OAuthProtectedResource_WorkspaceID resource) p w w'.

Lemma scope_held_mono a r w0 w w' w0' scope :
  later w0 w → later w' w0' → scope_held a r w w' scope → scope_held a r w0 w0' scope.
Proof.
  intros H1 H2 [?|(d & Hd & Hp)]; [by left|]. right. exists d. split; [done|]. intros p Hin.
  by eapply permission_held_mono, Hp.
Qed.

Lemma authorize_permissions_ensures a id l :
  Ensures (authorize_permissions a id l) (λ w _ w', ∀ p, p ∈ l → permission_held a id p w w').
Proof.
  induction l as [|p l IH]; intros w; cbn [authorize_permissions].
  { apply ok_ret. split; [apply later_refl|]. by intros p ?%not_elem_of_nil. }
  ok_step. ok_step. eapply wp_ensures; [traced|apply AuthorizePermission_ensures|].
  intros [[]|e] w1 Hl1 Hp; [|done]. eapply ok_ensures; [apply IH|]. intros [] w2 Hl2 Hps.
  split; [later_tac|]. intros q [->|Hq]%elem_of_cons.
  - eapply permission_held_mono; [apply later_refl|done|done].
  - eapply permission_held_mono; [done|apply later_refl|by apply Hps].
Qed.

Lemma grant_permissions_ensures a resource l :
  Ensures (grant_permissions a resource l) (λ w _ w', ∀ scope, scope ∈ l → scope_held a resource w w' scope).
Proof.
  induction l as [|scope l IH]; intros w; cbn [grant_permissions].
  { apply ok_ret. split; [apply later_refl|]. by intros p ?%not_elem_of_nil. }
  apply ok_bind. destruct (oauthReservedScope scope) eqn:Hres.
  - apply ok_ret. eapply ok_ensures; [apply IH|]. intros [] w1 Hl1 Hs. split; [done|].
    intros q [->|Hq]%elem_of_cons; [by left|by apply Hs].
  - ok_step. ok_step. eapply ok_ensures; [apply authorize_permissions_ensures|]. intros [] w1 Hl1 Hp.
    eapply ok_ensures; [apply IH|]. intros [] w2 Hl2 Hs. split; [later_tac|].
    intros q [->|Hq]%elem_of_cons.
    + right. exists a0. split; [done|]. intros p Hin.
      eapply permission_held_mono; [apply later_refl|done|by apply Hp].
    + eapply scope_held_mono; [done|apply later_refl|by apply Hs].
Qed.

(** The user a grant speaks for. *)
Definition grantee (grant : OAuthGrant) : Authentication :=
  Authentication_zero <| Authentication_UserID := OAuthGrant_UserID grant |>
    <| Authentication_WorkspaceID := OAuthGrant_WorkspaceID grant |>.

(** [grant] delegates to [client] the use of [resource], and everything it
    depends on was found in force during the interval. *)
Record delegation (grantID : UUID) (client : OAuthClient) (resourceURI : string) (grant : OAuthGrant)
    (resource : OAuthProtectedResource) (w w' : World) : Prop := mkDelegation {
  delegation_client : OAuthClient_DisabledAt client = None;
  delegation_stored : at_some w w' (λ s, oauthGrants s !! grantID = Some grant);
  delegation_unrevoked : OAuthGrant_RevokedAt grant = None;
  delegation_holder : OAuthGrant_ClientRecordID grant = OAuthClient_ID client;
  delegation_metadata : OAuthGrant_MetadataHash grant = OAuthClient_MetadataHash client;
  delegation_resource : at_some w w' (λ s, oauthResources s !! OAuthGrant_ResourceID grant = Some resource);
  delegation_open : OAuthProtectedResource_DisabledAt resource = None;
  delegation_workspace : OAuthProtectedResource_WorkspaceID resource = OAuthGrant_WorkspaceID grant;
  delegation_target :
    resourceURI = EmptyString ∨ validateResourceURL resourceURI = Ok (OAuthProtectedResource_Resource resource);
  delegation_issuer : at_some w w' (λ s, ∃ issuer,
    oauthIssuers s !! OAuthGrant_IssuerID grant = Some issuer ∧ OAuthIssuer_DisabledAt issuer = None ∧
    OAuthIssuer_ID issuer = OAuthProtectedResource_IssuerID resource);
  delegation_user : at_some w w' (enabled (OAuthGrant_UserID grant));
  delegation_tenant : at_some w w' (λ s, ∃ workspace,
    workspaces s !! OAuthGrant_WorkspaceID grant = Some workspace ∧ Workspace_DisabledAt workspace = None);
  delegation_scopes : ∀ scope, scope ∈ OAuthGrant_Scopes grant → scope_held (grantee grant) resource w w' scope }.

Lemma delegation_mono g c u grant resource w0 w w' w0' :
  later w0 w → later w' w0' → delegation g c u grant resource w w' → delegation g c u grant resource w0 w0'.
Proof.
  intros H1 H2 []. split; try done; try (by eapply at_some_mono).
  intros scope Hs. by eapply scope_held_mono; eauto.
Qed.

Lemma other_resource_false u resource :
  other_resource u resource = false →
  u = EmptyString ∨ validateResourceURL u = Ok (OAuthProtectedResource_Resource resource).
Proof.
  unfold other_resource, empty_string. case_bool_decide; [by left|]. cbn.
  destruct (validateResourceURL u) as [n|]; [|done]. intros H'. bool_cases. by right; f_equal.
Qed.

Lemma activeOAuthGrant_ensures g c u :
  Ensures (activeOAuthGrant g c u) (λ w p w', delegation g c u p.1 p.2 w w').
Proof.
  intros w. unfold activeOAuthGrant. ok_steps.
  eapply ok_ensures; [apply grant_permissions_ensures|]. intros [] w' Hl Hs. apply ok_ret.
  bool_cases. split; [later_tac|]. cbn [fst snd].
  split; try done; try (by apply not_nil_false); try (by apply other_resource_false).
  - by seen Hfound.
  - by seen Hfound0.
  - seen Hfound1. exists row1. eauto using not_nil_false.
  - seen Hfound2. by exists row2.
  - seen Hfound3. exists row3. eauto using not_nil_false.
  - intros scope Hin. eapply scope_held_mono; [|apply later_refl|by apply Hs]. later_tac.
Qed.

Lemma active_grant_ensures g c u bad :
  Ensures (active_grant g c u bad) (λ w p w', delegation g c u p.1 p.2 w w' ∧ bad p.1 p.2 = false).
Proof.
  intros w. unfold active_grant. ok_step. ok_step. eapply wp_ensures; [traced|apply activeOAuthGrant_ensures|].
  intros [[grant resource]|e] w' Hl Hd; [|done]. ok_step. ok_step. apply ok_ret. by split.
Qed.

(** ** Bearer tokens *)

(** A stored access token, live and of this secret. *)
Definition token_live (oauth : OAuthConfig) (prefix raw : string) (token : OAuthAccessToken) (w w' : World) :
    Prop :=
  at_some w w' (λ s, by_key (oauthAccessKeys s) (oauthAccessTokens s) OAuthAccessToken_zero prefix = Some token) ∧
  OAuthAccessToken_RevokedAt token = None ∧
  OAuthAccessToken_Digest token = oauthDigest oauth "access-token" raw ∧
  clock_showed w w' (λ t, (t < OAuthAccessToken_ExpiresAt token)%Z).

Lemma live_token_ensures oauth raw token :
  Ensures (live_token oauth raw token) (λ w _ w',
    OAuthAccessToken_RevokedAt token = None ∧
    OAuthAccessToken_Digest token = oauthDigest oauth "access-token" raw ∧
    clock_showed w w' (λ t, (t < OAuthAccessToken_ExpiresAt token)%Z)).
Proof.
  intros w. unfold live_token. ok_steps. bool_cases. split_and!; [later_tac|by apply not_nil_false|done|].
  apply clock_showed_now; [apply later_refl|by apply Time_Before_lt].
Qed.

(** What a user's token authenticates. *)
Definition user_bearer (oauth : OAuthConfig) (prefix raw resourceURI : string) (a : OAuthAuthentication)
    (w w' : World) : Prop :=
  ∃ token client grant resource t,
    token_live oauth prefix raw token w w' ∧
    at_some w w' (λ s, oauthClients s !! OAuthAccessToken_ClientRecordID token = Some client) ∧
    delegation (OAuthAccessToken_GrantID token) client resourceURI grant resource w w' ∧
    (∀ old, oauthGrants (W_store w) !! OAuthAccessToken_GrantID token = Some old →
       OAuthGrant_RevokedAt old = None) ∧
    OAuthAccessToken_ResourceID token = OAuthProtectedResource_ID resource ∧
    OAuthAccessToken_UserID token = OAuthGrant_UserID grant ∧
    OAuthAccessToken_WorkspaceID token = OAuthGrant_WorkspaceID grant ∧
    (∀ scope, scope ∈ OAuthAccessToken_Scopes token → scope ∈ OAuthGrant_Scopes grant) ∧
    a = mkOAuthAuthentication (OAuthAccessToken_ID token) (OAuthGrant_ID grant) (OAuthClient_ID client)
      (OAuthClient_ClientID client) (OAuthAccessToken_UserID token) (OAuthAccessToken_WorkspaceID token)
      (OAuthProtectedResource_Resource resource) (OAuthAccessToken_Scopes token) t.

(** What a client's own token authenticates: an allowlisted resource, no user. *)
Definition machine_bearer (oauth : OAuthConfig) (prefix raw resourceURI : string) (a : OAuthAuthentication)
    (w w' : World) : Prop :=
  ∃ token client resource t,
    at_some w w' (λ s,
      by_key (oauthClientTokenKeys s) (oauthClientTokens s) OAuthClientAccessToken_zero prefix = Some token) ∧
    OAuthClientAccessToken_RevokedAt token = None ∧
    OAuthClientAccessToken_Digest token = oauthDigest oauth "access-token" raw ∧
    clock_showed w w' (λ t, (t < OAuthClientAccessToken_ExpiresAt token)%Z) ∧
    at_some w w' (λ s, oauthClients s !! OAuthClientAccessToken_ClientRecordID token = Some client) ∧
    OAuthClient_DisabledAt client = None ∧ OAuthClient_Source client = OAuthClientPreRegistered ∧
    OAuthClient_IssuerID client = OAuthClientAccessToken_IssuerID token ∧
    at_some w w' (λ s, ∃ issuer, oauthIssuers s !! OAuthClientAccessToken_IssuerID token = Some issuer ∧
      OAuthIssuer_DisabledAt issuer = None ∧ OAuthProtectedResource_IssuerID resource = OAuthIssuer_ID issuer) ∧
    at_some w w' (λ s, oauthResources s !! OAuthClientAccessToken_ResourceID token = Some resource) ∧
    OAuthProtectedResource_DisabledAt resource = None ∧
    OAuthProtectedResource_WorkspaceID resource = OAuthClientAccessToken_WorkspaceID token ∧
    OAuthProtectedResource_Resource resource ∈ OAuthClient_ClientCredentialsResources client ∧
    (resourceURI = EmptyString ∨ validateResourceURL resourceURI = Ok (OAuthProtectedResource_Resource resource)) ∧
    at_some w w' (λ s, ∃ workspace, workspaces s !! OAuthClientAccessToken_WorkspaceID token = Some workspace ∧
      Workspace_DisabledAt workspace = None) ∧
    a = mkOAuthAuthentication (OAuthClientAccessToken_ID token) Nil (OAuthClient_ID client)
      (OAuthClient_ClientID client) Nil (OAuthClientAccessToken_WorkspaceID token)
      (OAuthProtectedResource_Resource resource) (OAuthClientAccessToken_Scopes token) t.

Lemma authenticateOAuthClientToken_ensures oauth prefix raw u :
  Ensures (authenticateOAuthClientToken oauth prefix raw u) (λ w a w', machine_bearer oauth prefix raw u a w w').
Proof.
  intros w. unfold authenticateOAuthClientToken, contains. ok_steps. bool_cases. split; [later_tac|].
  eexists row, row0, row2, _. split_and!; try done; try (by apply not_nil_false);
    try (by apply other_resource_false).
  - by seen Hfound.
  - eapply (clock_showed_mono _ (tick w1)); [later_tac|apply later_refl|].
    apply clock_showed_now; [later_tac|by apply Time_Before_lt].
  - by seen Hfound0.
  - seen Hfound1. exists row1. eauto using not_nil_false.
  - by seen Hfound2.
  - seen Hfound3. exists row3. eauto using not_nil_false.
Qed.

Lemma machine_bearer_mono oauth prefix raw u a w0 w w' :
  later w0 w → machine_bearer oauth prefix raw u a w w' → machine_bearer oauth prefix raw u a w0 w'.
Proof.
  intros Hl (token & client & resource & t & H). exists token, client, resource, t.
  destruct_and! H. split_and!; try done;
    first [eapply at_some_mono|eapply clock_showed_mono]; [exact Hl|apply later_refl|done|
      exact Hl|apply later_refl|done..].
Qed.

Lemma scopesSubset_spec requested available :
  scopesSubset requested available = true → ∀ scope, scope ∈ requested → scope ∈ available.
Proof.
  unfold scopesSubset, contains. rewrite forallb_forall. intros H scope Hin.
  apply list_elem_of_In, H in Hin. by apply bool_decide_eq_true in Hin.
Qed.

Lemma AuthenticateOAuthAccessToken_ensures u raw :
  Ensures (Manager_AuthenticateOAuthAccessToken u raw) (λ w a w', ∃ oauth prefix,
    m_oauth the_manager = Some oauth ∧ parseOAuthBearer "cba" raw = Some prefix ∧
    (user_bearer oauth prefix raw u a w w' ∨ machine_bearer oauth prefix raw u a w w')).
Proof.
  intros w. unfold Manager_AuthenticateOAuthAccessToken. do 7 ok_step.
  destruct r as [token|e]; cbn in Hfound.
  - ok_step. eapply ok_ensures; [apply live_token_ensures|]. intros [] w2 Hl2 (Hr & Hd & Hc). ok_step. ok_step.
    ok_step. eapply ok_ensures; [apply active_grant_ensures|]. intros [grant resource] w4 Hl4 [Hg Hbad].
    cbn [fst snd] in *. ok_steps. bool_cases. split; [later_tac|].
    eexists _, _. split_and!; [done|done|]. left. eexists token, row, grant, resource, _.
    split_and!; try done.
    + split_and!; try done; [by seen Hfound|]. eapply clock_showed_mono; [| |exact Hc]; later_tac.
    + by seen Hfound0.
    + eapply delegation_mono; [| |exact Hg]; later_tac.
    + intros old Ho. eapply (unrevoked_before w w4); [|exact (delegation_unrevoked _ _ _ _ _ _ _ Hg)|exact Ho].
      eapply at_some_mono; [| |exact (delegation_stored _ _ _ _ _ _ _ Hg)]; later_tac.
    + by apply scopesSubset_spec.
  - ok_step; [|done]. eapply ok_ensures; [apply authenticateOAuthClientToken_ensures|].
    intros auth w' Hl Hm. split; [later_tac|]. eexists _, _. split_and!; [done|done|]. right.
    eapply machine_bearer_mono; [|exact Hm]. later_tac.
Qed.

(** C9: an access token authenticates only what is still delegated. When
    [AuthenticateOAuthAccessToken] succeeds, either the token is a user's: its
    row is live, its digest is that of the presented secret, and during the
    call its grant was stored and unrevoked, of an enabled client whose
    metadata is that of the consent, for the resource asked for, with the
    issuer, the user and the workspace enabled and every permission behind
    every consented scope held by the user; a grant revoked before the call is
    refused. Or the token is a client's own: it carries no user, and its client
    is pre-registered, enabled and allowed this resource. The answer names the
    token's own scopes, a subset of the grant's. *)
Theorem oauth_bearer_sound u raw a w w' :
  Manager_AuthenticateOAuthAccessToken u raw w = (Ok a, w') →
  ∃ oauth prefix,
    m_oauth the_manager = Some oauth ∧ parseOAuthBearer "cba" raw = Some prefix ∧
    (user_bearer oauth prefix raw u a w w' ∨ machine_bearer oauth prefix raw u a w w').
Proof. intros H. by apply (Ensures_run _ _ _ _ _ (AuthenticateOAuthAccessToken_ensures u raw)) in H as []. Qed.
End grants.

(** ** Clients *)

Lemma newOAuthChange_ensures {E : Env} `{!WfEnv E} a b c d e f g h i :
  Ensures (newOAuthChange a b c d e f g h i) (λ _ p _, Commit_Unchained p.2 = false).
Proof.
  intros w. apply wp_intro. intros [p|err] w' Hw; [|done]. split.
  - pose proof (Traced_newOAuthChange a b c d e f g h i w) as Hl. by rewrite Hw in Hl.
  - by eapply Answers_newOAuthChange.
Qed.

(** Steps through a computation, skipping what only has to be later. *)
Ltac ok_walk :=
  repeat (first [ok_step|apply ok_traced; [solve [traced]|]; intros ? ?w ?Hl]; cbv beta iota zeta).

(** A failure that is refused afterwards need not be followed. *)
Lemma ok_attempted {E : Env} {A} (p : M World A) (Q : result A → World → Prop) w :
  (∀ e w', Q (Error e) w') → wp_ok p (λ a, Q (Ok a)) w → wp_ok (attempt p) Q w.
Proof. intros He H. apply ok_attempt. eapply wp_mono; [exact H|]. intros [a|e] w' Hr; [done|apply He]. Qed.

Section clients.
Context {E : Env} `{!WfEnv E}.

(** The client a request names is stored under its issuer. *)
Definition registered (issuerID : UUID) (clientID : string) (client : OAuthClient) (s : Store) : Prop :=
  by_key (oauthClientKeys s) (oauthClients s) OAuthClient_zero (oauthClientKey issuerID clientID) = Some client.

Lemma commitAudit_clientKeys a u s : oauthClientKeys (commitAudit a u s) = oauthClientKeys s.
Proof. by destruct u. Qed.

Lemma UpsertOAuthCIMDClient_store cx client c s s' :
  UpsertOAuthCIMDClient cx client c s = (Ok tt, s') →
  registered (OAuthClient_IssuerID client) (OAuthClient_ClientID client) client s'.
Proof.
  intros H. refine (wp_run _ (λ r s', r = Ok tt → _) s (Ok tt) s' _ H eq_refl).
  unfold UpsertOAuthCIMDClient. op_success. unfold registered, by_key.
  change (oauthClientKey _ _) with (client_key client).
  rewrite commitAudit_clientKeys, view_commitAudit. cbn. rewrite lookup_insert_eq. cbn.
  by rewrite lookup_insert_eq.
Qed.

Lemma newOAuthClient_ensures oauth issuer source input allow :
  Ensures (newOAuthClient oauth issuer source input allow) (λ _ p _,
    OAuthClient_IssuerID p.1 = OAuthIssuer_ID issuer ∧ OAuthClient_Source p.1 = source ∧
    OAuthClient_DisabledAt p.1 = None).
Proof.
  intros w. unfold newOAuthClient. ok_walk; (split; [later_tac|done]).
Qed.

Lemma oauthClientFromMetadata_ensures oauth issuer document :
  Ensures (oauthClientFromMetadata oauth issuer document) (λ _ c _,
    OAuthClient_IssuerID c = OAuthIssuer_ID issuer ∧ OAuthClient_DisabledAt c = None).
Proof.
  intros w. unfold oauthClientFromMetadata. cbv zeta. do 9 ok_step.
  eapply ok_ensures; [apply newOAuthClient_ensures|]. intros [c secret] w2 Hl2 (Hi & _ & Hd).
  ok_walk. split; [later_tac|]. by destruct c.
Qed.

Lemma refresh_client_ensures oauth issuer clientID client :
  Ensures (refresh_client oauth issuer clientID client) (λ w c w',
    at_some w w' (registered (OAuthIssuer_ID issuer) clientID c)).
Proof.
  intros w. unfold refresh_client. cbv zeta. ok_step. ok_step. ok_step. ok_step; [|by ok_step].
  ok_step. ok_step. apply ok_attempted; [intros; ok_step; by ok_step|]. ok_skip w1 Hl1. ok_step. ok_step.
  ok_step. apply ok_attempted; [intros; ok_step; by ok_step|].
  eapply ok_ensures; [apply oauthClientFromMetadata_ensures|]. intros c w2 Hl2 [Hi Hd].
  ok_step. ok_step; [|by ok_step]. ok_step. ok_step. ok_skip w3 Hl3. ok_step.
  eapply ok_ensures; [apply newOAuthChange_ensures|]. intros change w4 Hl4 Hc.
  do 3 ok_step. destruct r as [[]|]; [|done]. cbn [on_ok]. ok_step. ok_skip w7 Hl7. ok_step.
  split; [later_tac|]. exists w5. split_and!; [later_tac..|].
  apply UpsertOAuthCIMDClient_store in Hrun. apply bool_decide_eq_true in Hcase0 as <-. rewrite <- Hi.
  revert Hrun. destruct (bool_decide (OAuthClient_ID client ≠ Nil)); intros Hrun; exact Hrun.
Qed.

Lemma resolveOAuthClient_ensures oauth issuer clientID :
  Ensures (resolveOAuthClient oauth issuer clientID) (λ w c w',
    at_some w w' (registered (OAuthIssuer_ID issuer) (TrimSpace clientID) c)).
Proof.
  intros w. unfold resolveOAuthClient. cbv zeta. do 5 ok_step. destruct r as [client|e]; cbn in Hfound.
  - ok_step. ok_skip w2 Hl2. ok_step.
    + apply ok_ret. split; [later_tac|]. by seen Hfound.
    + eapply ok_ensures; [apply refresh_client_ensures|]. intros c w3 Hl3 Hc. split; [later_tac|].
      eapply at_some_mono; [|apply later_refl|exact Hc]. later_tac.
  - ok_step; [|done]. eapply ok_ensures; [apply refresh_client_ensures|]. intros c w3 Hl3 Hc.
    split; [later_tac|]. eapply at_some_mono; [|apply later_refl|exact Hc]. later_tac.
Qed.

(** The request proved to come from [client], by the method it registered. *)
Definition client_proof (oauth : OAuthConfig) (issuer : OAuthIssuer) (client : OAuthClient)
    (input : client_credentials) : Prop :=
  let method := OAuthClient_TokenEndpointAuthMethod client in
  (method = OAuthAuthNone ∧ cc_Secret input = EmptyString ∧ cc_Assertion input = EmptyString) ∨
  (method = OAuthAuthClientSecretBasic ∧ cc_SecretInBody input = false ∧
   OAuthClient_SecretDigest client = oauthDigest oauth "client-secret" (cc_Secret input)) ∨
  (method = OAuthAuthPrivateKeyJWT ∧ ∃ verify i t, OAuthConfig_VerifyAssertion oauth = Some verify ∧
   verify i client (OAuthIssuer_Issuer issuer +:+ "/token") (cc_Assertion input) t = None).

Lemma proves_client_ensures oauth issuer client input :
  Ensures (proves_client oauth issuer client input) (λ _ _ _, client_proof oauth issuer client input).
Proof.
  intros w. unfold proves_client, client_proof. cbv zeta. ok_step; [|ok_step; [|ok_step; [|ok_step; done]]].
  - ok_step. bool_cases. split; [apply later_refl|]. left.
    by apply bool_decide_eq_true in H, H0.
  - ok_step. bool_cases. split; [apply later_refl|]. by right; left.
  - do 7 ok_step. apply wp_port. cbn [on_ok]. ok_step. bool_cases. split; [later_tac|]. right; right.
    split; [done|]. eexists _, _, _. eauto using not_nil_false.
Qed.

(** The enabled client a token request authenticates as, of an enabled issuer. *)
Record authenticated (oauth : OAuthConfig) (input : client_credentials) (issuer : OAuthIssuer)
    (client : OAuthClient) (w w' : World) : Prop := mkAuthenticated {
  authenticated_issuer : ∃ issuerURL, validateIssuerURL (cc_Issuer input) = Ok issuerURL ∧
    at_some w w' (λ s, by_key (oauthIssuerURLs s) (oauthIssuers s) OAuthIssuer_zero issuerURL = Some issuer);
  authenticated_open : OAuthIssuer_DisabledAt issuer = None;
  authenticated_client :
    at_some w w' (registered (OAuthIssuer_ID issuer) (TrimSpace (cc_ClientID input)) client);
  authenticated_enabled : OAuthClient_DisabledAt client = None;
  authenticated_proof : client_proof oauth issuer client input }.

Lemma authenticated_mono oauth input issuer client w0 w w' w0' :
  later w0 w → later w' w0' → authenticated oauth input issuer client w w' →
  authenticated oauth input issuer client w0 w0'.
Proof.
  intros H1 H2 [(u & Hu & Hi)]. split; try done; [exists u; split; [done|]|]; by eapply at_some_mono.
Qed.

Lemma authenticateOAuthClient_ensures oauth input :
  Ensures (authenticateOAuthClient oauth input) (λ w p w', authenticated oauth input p.1 p.2 w w').
Proof.
  intros w. unfold authenticateOAuthClient, enabled_issuer. cbv zeta. do 7 ok_step.
  apply ok_attempted; [intros; ok_step; by ok_step|].
  eapply ok_ensures; [apply resolveOAuthClient_ensures|]. intros client w2 Hl2 Hc.
  do 5 ok_step. eapply ok_ensures; [apply proves_client_ensures|]. intros [] w3 Hl3 Hp. apply ok_ret.
  apply (inj Some) in Hsome0 as <-. split; [later_tac|]. cbn [fst snd]. split; try by apply not_nil_false.
  - exists a. destruct (validateIssuerURL _) as [u|]; [|done]. apply (inj Some) in Hsome as <-.
    split; [done|]. by seen Hfound.
  - eapply at_some_mono; [| |exact Hc]; later_tac.
  - done.
Qed.
End clients.

(** ** The code exchange *)
Section exchange.
Context {E : Env} `{!WfEnv E}.

Definition exchange_credentials (input : ExchangeOAuthAuthorizationCodeInput) : client_credentials :=
  mkClientCredentials (ExchangeOAuthAuthorizationCodeInput_Issuer input)
    (ExchangeOAuthAuthorizationCodeInput_ClientID input) (ExchangeOAuthAuthorizationCodeInput_ClientSecret input)
    (ExchangeOAuthAuthorizationCodeInput_ClientSecretInBody input)
    (ExchangeOAuthAuthorizationCodeInput_ClientAssertion input)
    (ExchangeOAuthAuthorizationCodeInput_ClientAssertionType input).

(** The code [raw] of [client], live, with the verifier of its challenge and
    the redirect URI it was issued for. *)
Record redeemable (oauth : OAuthConfig) (client : OAuthClient) (prefix raw verifier redirectURI : string)
    (code : OAuthAuthorizationCode) (w w' : World) : Prop := mkRedeemable {
  redeemable_stored : at_some w w' (λ s,
    by_key (oauthCodeKeys s) (oauthCodes s) OAuthAuthorizationCode_zero prefix = Some code);
  redeemable_holder : OAuthAuthorizationCode_ClientRecordID code = OAuthClient_ID client;
  redeemable_digest : OAuthAuthorizationCode_Digest code = oauthDigest oauth "authorization-code" raw;
  redeemable_unused : OAuthAuthorizationCode_UsedAt code = None;
  redeemable_redirect : OAuthAuthorizationCode_RedirectURI code = redirectURI;
  redeemable_pkce : verifyPKCE verifier (OAuthAuthorizationCode_CodeChallenge code) = true;
  redeemable_live : clock_showed w w' (λ t, (t < OAuthAuthorizationCode_ExpiresAt code)%Z) }.

(** The access token handed out is that of the grant, and was stored. *)
Record handed_out (oauth : OAuthConfig) (grant : OAuthGrant) (ttl : Z) (raw : string)
    (access : OAuthAccessToken) (w w' : World) : Prop := mkHandedOut {
  handed_stored : at_some w w' (λ s, oauthAccessTokens s !! OAuthAccessToken_ID access = Some access);
  handed_digest : OAuthAccessToken_Digest access = oauthDigest oauth "access-token" raw;
  handed_grant : OAuthAccessToken_GrantID access = OAuthGrant_ID grant;
  handed_client : OAuthAccessToken_ClientRecordID access = OAuthGrant_ClientRecordID grant;
  handed_user : OAuthAccessToken_UserID access = OAuthGrant_UserID grant;
  handed_resource : OAuthAccessToken_ResourceID access = OAuthGrant_ResourceID grant;
  handed_scopes : OAuthAccessToken_Scopes access = OAuthGrant_Scopes grant;
  handed_live : OAuthAccessToken_RevokedAt access = None;
  handed_until : clock_showed w w' (λ t, OAuthAccessToken_ExpiresAt access = (t + ttl)%Z) }.

Lemma handed_out_mono oauth grant ttl raw access w0 w w' :
  later w0 w → handed_out oauth grant ttl raw access w w' → handed_out oauth grant ttl raw access w0 w'.
Proof.
  intros Hl []. split; try done;
    [eapply at_some_mono|eapply clock_showed_mono]; [exact Hl|apply later_refl|done|exact Hl|apply later_refl|done].
Qed.

Lemma newOAuthAccessToken_ensures oauth grant ttl :
  Ensures (newOAuthAccessToken oauth grant ttl) (λ w p w',
    ∀ w'', later w' w'' → at_some w w'' (λ s, oauthAccessTokens s !! OAuthAccessToken_ID p.1 = Some p.1) →
    handed_out oauth grant ttl p.2 p.1 w w'').
Proof.
  intros w. unfold newOAuthAccessToken. ok_step. ok_skip w1 Hl1. ok_step. ok_skip w2 Hl2. ok_steps.
  split; [later_tac|]. intros w'' Hl Hs. split; try done.
  apply (clock_showed_mono w w2 (tick w2) w''); [later_tac|done|].
  by apply clock_showed_now; [apply later_refl|].
Qed.

Lemma ConsumeOAuthAuthorizationCode_store cx id t access refresh c s s' :
  ConsumeOAuthAuthorizationCode cx id t access refresh c s = (Ok tt, s') →
  ¬ spent (TokenCode id) s ∧ spent (TokenCode id) s' ∧
  oauthAccessTokens s' !! OAuthAccessToken_ID access = Some access.
Proof.
  intros H. split_and!.
  - intros Hs. destruct (spent_refuses (Do_ConsumeOAuthAuthorizationCode id t access refresh) (TokenCode id) cx c s
      eq_refl Hs) as [e He]. cbn in He. unfold ran, mbind, M_bind in He. by rewrite H in He.
  - refine (wp_run _ _ s (Ok true) s'
      (spends_spent (Do_ConsumeOAuthAuthorizationCode id t access refresh) (TokenCode id) cx c s eq_refl) _ eq_refl).
    cbn. unfold ran, mbind, M_bind. by rewrite H.
  - refine (wp_run _ (λ r s', r = Ok tt → _) s (Ok tt) s' _ H eq_refl).
    unfold ConsumeOAuthAuthorizationCode. op_success. rewrite view_commitAudit.
    destruct refresh; cbn; by rewrite lookup_insert_eq.
Qed.

Lemma ok_mapped_credential {A} o (p : M World A) Q w : wp_ok p Q w → wp_ok (mapped_credential o p) Q w.
Proof.
  intros Hp. unfold mapped_credential. apply ok_bind, ok_attempt. eapply wp_mono; [exact Hp|].
  intros [a|e] w' H; [by apply ok_ret|]. destruct (_ || _); [done|]. apply ok_refusal.
Qed.

(** What an exchange of a code answers. *)
Definition exchanged (input : ExchangeOAuthAuthorizationCodeInput) (response : OAuthTokenResponse)
    (w w' : World) : Prop :=
  ∃ oauth prefix issuer client code grant resource access,
    m_oauth the_manager = Some oauth ∧
    parseOAuthBearer "cbc" (ExchangeOAuthAuthorizationCodeInput_Code input) = Some prefix ∧
    authenticated oauth (exchange_credentials input) issuer client w w' ∧
    redeemable oauth client prefix (ExchangeOAuthAuthorizationCodeInput_Code input)
      (ExchangeOAuthAuthorizationCodeInput_CodeVerifier input)
      (ExchangeOAuthAuthorizationCodeInput_RedirectURI input) code w w' ∧
    delegation (OAuthAuthorizationCode_GrantID code) client (ExchangeOAuthAuthorizationCodeInput_Resource input)
      grant resource w w' ∧
    OAuthProtectedResource_ID resource = OAuthAuthorizationCode_ResourceID code ∧
    OAuthGrant_Scopes grant = OAuthAuthorizationCode_Scopes code ∧
    handed_out oauth grant (OAuthIssuer_AccessTokenTTL issuer) (OAuthTokenResponse_AccessToken response)
      access w w' ∧
    ¬ spent (TokenCode (OAuthAuthorizationCode_ID code)) (W_store w) ∧
    spent (TokenCode (OAuthAuthorizationCode_ID code)) (W_store w').

Lemma ExchangeOAuthAuthorizationCode_ensures input :
  Ensures (Manager_ExchangeOAuthAuthorizationCode input) (λ w r w', exchanged input r w w').
Proof.
  intros w. unfold Manager_ExchangeOAuthAuthorizationCode. cbv zeta. do 3 ok_step.
  eapply ok_ensures; [apply authenticateOAuthClient_ensures|]. intros [issuer client] w1 Hl1 Ha.
  cbn [fst snd] in Ha. do 7 ok_step. ok_step; [by ok_step|]. ok_step. do 7 ok_step. 
  eapply ok_ensures; [apply active_grant_ensures|]. intros [grant resource] w4 Hl4 [Hg Hbad].
  cbn [fst snd] in *. ok_step.
  eapply ok_ensures; [apply newOAuthAccessToken_ensures|]. intros [access raw] w5 Hl5 Hm. ok_step.
  ok_skip w6 Hl6. ok_step. ok_step. ok_skip w7 Hl7. ok_step.
  eapply ok_ensures; [apply newOAuthChange_ensures|]. intros change w8 Hl8 Hc. do 3 ok_step.
  apply ok_mapped_credential. ok_step. destruct r as [[]|]; [|done]. cbn [on_ok]. ok_step. ok_skip w11 Hl11.
  ok_step. ok_skip w12 Hl12. ok_step.
  apply ConsumeOAuthAuthorizationCode_store in Hrun as (Hfresh & Hspent & Hstored). bool_cases.
  split; [later_tac|]. exists a, a0, issuer, client, row, grant, resource, access.
  split_and!; try done.
  - eapply authenticated_mono; [| |exact Ha]; later_tac.
  - split; try done; [by seen Hfound|by apply not_nil_false|].
    apply (clock_showed_mono w (tick w0) (tick (tick w0)) w12); [later_tac..|].
    apply clock_showed_now; [apply later_refl|by apply Time_Before_lt].
  - eapply delegation_mono; [| |exact Hg]; later_tac.
  - eapply (handed_out_mono _ _ _ _ _ _ w4); [later_tac|]. apply Hm; [later_tac|].
    exists w3. split; [later_tac|split; [later_tac|done]].
  - intros Hs. apply Hfresh. eapply later_spent; [|exact Hs]. later_tac.
  - eapply later_spent; [|exact Hspent]. later_tac.
Qed.

(** An authorization code buys one access token, for its own client. When
    [ExchangeOAuthAuthorizationCode] succeeds, the request proved to come from
    an enabled client of an enabled issuer; the code was stored, unused and
    unexpired, was issued to this client for this redirect URI, and its
    challenge is that of the verifier presented; during the call the grant
    behind it was in force with everything it depends on; the token stored and
    handed out is of that grant, with its scopes and the lifetime of the
    issuer; the code was not spent before the call and is spent after it. *)
Theorem oauth_exchange_sound input response w w' :
  Manager_ExchangeOAuthAuthorizationCode input w = (Ok response, w') → exchanged input response w w'.
Proof. intros H. by apply (Ensures_run _ _ _ _ _ (ExchangeOAuthAuthorizationCode_ensures input)) in H as []. Qed.
End exchange.

(** ** The consent *)
Section consent.
Context {E : Env} `{!WfEnv E}.

(** The authentication of the actor met an age limit during the interval. *)
Definition recent (a : Authentication) (maxAge : Z) (w w' : World) : Prop :=
  (0 < maxAge)%Z → clock_showed w w' (λ t,
    freshAuthentication t (Authentication_AuthenticatedAt a) maxAge = true).
(** What a scope demands of the authentication itself. *)
Definition assured (a : Authentication) (d : OAuthScopeDefinition) (w w' : World) : Prop :=
  (OAuthScopeDefinition_MinimumAAL d ≤ Authentication_Level a)%Z ∧
  recent a (OAuthScopeDefinition_MaxAuthAge d) w w'.

Lemma recent_mono a n w0 w w' w0' : later w0 w → later w' w0' → recent a n w w' → recent a n w0 w0'.
Proof. intros H1 H2 H Hn. eapply clock_showed_mono; [exact H1|exact H2|by apply H]. Qed.

Lemma too_old_ensures a n : Ensures (too_old a n) (λ w b w', b = false → recent a n w w').
Proof.
  intros w. unfold too_old, recent. ok_step; ok_steps; bool_cases; (split; [later_tac|]); intros Hf Hn.
  - apply clock_showed_now; [apply later_refl|]. by apply negb_false_iff in Hf.
  - lia.
Qed.

Lemma require_step_up_ensures a l :
  Ensures (require_step_up a l) (λ w _ w', ∀ d, d ∈ l → assured a d w w').
Proof.
  induction l as [|d l IH]; intros w; cbn [require_step_up].
  { apply ok_ret. split; [apply later_refl|]. by intros p ?%not_elem_of_nil. }
  ok_step. eapply (ok_ensures _ (λ w b w', b = false → assured a d w w')).
  { intros w0. unfold demands_step_up. ok_step; [by apply ok_ret; split; [apply later_refl|]|].
    eapply ok_ensures; [apply too_old_ensures|]. intros b w1 Hl Hb. split; [done|]. intros ->.
    bool_cases. split; [lia|by apply Hb]. }
  intros b w1 Hl1 Hb. ok_step. ok_step. eapply ok_ensures; [apply IH|]. intros [] w2 Hl2 Hs.
  split; [later_tac|]. intros q [->|Hq]%elem_of_cons.
  - destruct (Hb Hguard). split; [done|]. eapply recent_mono; [apply later_refl|exact Hl2|done].
  - destruct (Hs _ Hq). split; [done|]. eapply recent_mono; [exact Hl1|apply later_refl|done].
Qed.

(** A requested scope the actor may delegate, and that is claimable here. *)
Definition delegable (a : Authentication) (issuer : OAuthIssuer) (resource : OAuthProtectedResource)
    (scopes : list string) (w w' : World) (scope : string) : Prop :=
  scope_held a resource w w' scope ∧ (oauthReservedScope scope = true → check_reserved issuer scopes scope = Ok tt).

Lemma authorize_scopes_ensures a issuer resource scopes l :
  Ensures (authorize_scopes a issuer resource scopes l) (λ w ds w',
    (∀ scope, scope ∈ l → delegable a issuer resource scopes w w' scope) ∧
    (∀ scope d, scope ∈ l → oauthReservedScope scope = false →
       oauthScopeDefinition (OAuthProtectedResource_Scopes resource) scope = Some d → d ∈ ds)).
Proof.
  induction l as [|scope l IH]; intros w; cbn [authorize_scopes].
  { apply ok_ret. split_and!; [apply later_refl|..]; by intros p **; exfalso; eapply not_elem_of_nil. }
  destruct (oauthReservedScope scope) eqn:Hres.
  - do 2 ok_step. eapply ok_ensures; [apply IH|]. intros ds w1 Hl1 [Hs Hd]. split_and!; [done|..].
    + intros q [->|Hq]%elem_of_cons; [|by apply Hs]. split; [by left|]. intros _. by destruct a0.
    + intros q d [->|Hq]%elem_of_cons Hr; [congruence|by apply Hd].
  - do 3 ok_step. eapply ok_ensures; [apply authorize_permissions_ensures|]. intros [] w1 Hl1 Hp. ok_step.
    eapply ok_ensures; [apply IH|]. intros ds w2 Hl2 [Hs Hd]. apply ok_ret. split_and!; [later_tac|..].
    + intros q [->|Hq]%elem_of_cons.
      * split; [|congruence]. right. exists a0. split; [done|]. intros p Hin.
        eapply permission_held_mono; [apply later_refl|done|by apply Hp].
      * destruct (Hs _ Hq). split; [|done]. by eapply scope_held_mono; [done|apply later_refl|].
    + intros q d [->|Hq]%elem_of_cons Hr Hq'; [|apply elem_of_cons; right; by eapply Hd].
      rewrite Hsome in Hq'. apply (inj Some) in Hq' as <-. apply elem_of_cons. by left.
Qed.

Lemma authorizedOAuthScopes_ensures a issuer resource requested :
  Ensures (authorizedOAuthScopes a issuer resource requested) (λ w p w',
    normalizeOptionalOAuthScopes requested = Ok p.1 ∧ p.1 ≠ [] ∧
    (∀ scope, scope ∈ p.1 → delegable a issuer resource p.1 w w' scope) ∧
    (∀ scope d, scope ∈ p.1 → oauthReservedScope scope = false →
       oauthScopeDefinition (OAuthProtectedResource_Scopes resource) scope = Some d → d ∈ p.2)).
Proof.
  intros w. unfold authorizedOAuthScopes. do 3 ok_step.
  eapply ok_ensures; [apply authorize_scopes_ensures|]. intros ds w1 Hl1 [Hs Hd]. apply ok_ret.
  split; [done|]. cbn [fst snd]. destruct (normalizeOptionalOAuthScopes requested) as [[|x l]|]; [done| |done].
  by apply (inj Some) in Hsome as <-.
Qed.

(** The sealed request the consent answers, still open. *)
Definition consent_open (raw : string) (c : oauthAuthorizationContinuation) (w w' : World) : Prop :=
  (payload ← open_payload raw; consent_unmarshal payload) = Some c ∧
  clock_showed w w' (λ t, (t < consent_ExpiresAt c)%Z).

Lemma decodeOAuthContinuation_ensures raw :
  Ensures (decodeOAuthContinuation raw) (λ w c w', consent_open raw c w w').
Proof.
  intros w. unfold decodeOAuthContinuation. ok_steps. bool_cases. split; [later_tac|]. split; [done|].
  apply clock_showed_now; [apply later_refl|by apply Time_Before_lt].
Qed.

(** The grant and the code stored for an answer. *)
Definition granted (oauth : OAuthConfig) (actor : Authentication) (issuer : OAuthIssuer) (client : OAuthClient)
    (resource : OAuthProtectedResource) (c : oauthAuthorizationContinuation) (raw : string) (w w' : World) :
    Prop :=
  ∃ grantID codeID prefix t,
    at_some w w' (λ s,
      oauthGrants s !! grantID = Some (mkOAuthGrant grantID (OAuthIssuer_ID issuer) (OAuthClient_ID client)
        (Authentication_UserID actor) (OAuthProtectedResource_WorkspaceID resource)
        (OAuthProtectedResource_ID resource) (consent_Scopes c) (OAuthClient_MetadataHash client)
        (Authentication_AuthenticatedAt actor) (Authentication_Method actor) (Authentication_Level actor)
        t t None) ∧
      oauthCodes s !! codeID = Some (mkOAuthAuthorizationCode codeID prefix
        (oauthDigest oauth "authorization-code" raw) grantID (OAuthClient_ID client) (consent_RedirectURI c)
        (OAuthProtectedResource_ID resource) (consent_Scopes c) (consent_CodeChallenge c) (consent_Nonce c)
        t (t + OAuthIssuer_CodeTTL issuer)%Z None)).

Lemma CreateOAuthGrantAndCode_store cx grant code c s s' :
  CreateOAuthGrantAndCode cx grant code c s = (Ok tt, s') →
  oauthGrants s' !! OAuthGrant_ID grant = Some grant ∧
  oauthCodes s' !! OAuthAuthorizationCode_ID code = Some code.
Proof.
  intros H. refine (wp_run _ (λ r s', r = Ok tt → _) s (Ok tt) s' _ H eq_refl).
  unfold CreateOAuthGrantAndCode. op_success. rewrite !view_commitAudit. cbn.
  by rewrite !lookup_insert_eq.
Qed.

Lemma grant_authorization_ensures oauth actor issuer client resource c :
  Ensures (grant_authorization oauth actor issuer client resource c) (λ w raw w',
    granted oauth actor issuer client resource c raw w w').
Proof.
  intros w. unfold grant_authorization. cbv zeta. ok_step. ok_skip w1 Hl1. ok_step. ok_skip w2 Hl2. ok_step.
  ok_skip w3 Hl3. do 4 ok_step. ok_skip w4 Hl4. ok_step.
  eapply ok_ensures; [apply newOAuthChange_ensures|]. intros change w5 Hl5 Hc. do 3 ok_step.
  destruct r as [[]|]; [|done]. cbn [on_ok]. ok_step. ok_skip w8 Hl8. ok_step. split; [later_tac|].
  apply CreateOAuthGrantAndCode_store in Hrun as [Hg Hcode]. eexists _, _, _, _.
  exists w6. split; [later_tac|split; [later_tac|]]. by split.
Qed.

(** The parties of a consent, each found enabled, and the demands met. *)
Record consented (actor : Authentication) (raw : string) (c : oauthAuthorizationContinuation)
    (client : OAuthClient) (resource : OAuthProtectedResource) (issuer : OAuthIssuer) (w w' : World) : Prop :=
mkConsented {
  consented_request : consent_open raw c w w';
  consented_user : Authentication_UserID actor = consent_UserID c ∧ Authentication_UserID actor ≠ Nil;
  consented_interactive : Interactive actor = true;
  consented_client : at_some w w' (λ s, oauthClients s !! consent_ClientRecordID c = Some client);
  consented_client_enabled : OAuthClient_DisabledAt client = None;
  consented_metadata : OAuthClient_MetadataHash client = default EmptyString (consent_MetadataHash c);
  consented_resource : at_some w w' (λ s, oauthResources s !! consent_ResourceID c = Some resource);
  consented_resource_enabled : OAuthProtectedResource_DisabledAt resource = None;
  consented_issuer : at_some w w' (λ s, oauthIssuers s !! OAuthProtectedResource_IssuerID resource = Some issuer);
  consented_issuer_enabled : OAuthIssuer_DisabledAt issuer = None;
  consented_audience : OAuthClient_IssuerID client = OAuthIssuer_ID issuer;
  consented_scopes : ∃ scopes, normalizeOptionalOAuthScopes (consent_Scopes c) = Ok scopes ∧ scopes ≠ [] ∧
    ∀ scope, scope ∈ scopes → delegable actor issuer resource scopes w w' scope ∧
      ∀ d, oauthReservedScope scope = false →
        oauthScopeDefinition (OAuthProtectedResource_Scopes resource) scope = Some d → assured actor d w w';
  consented_recent : recent actor (consent_MaxAge c) w w' }.

Lemma delegable_mono a issuer resource scopes w0 w w' w0' scope :
  later w0 w → later w' w0' → delegable a issuer resource scopes w w' scope →
  delegable a issuer resource scopes w0 w0' scope.
Proof. intros H1 H2 [Hs Hr]. split; [|done]. by eapply scope_held_mono; eauto. Qed.

Lemma CompleteOAuthAuthorization_ensures actor raw approved :
  Ensures (Manager_CompleteOAuthAuthorization actor raw approved) (λ w a w', ∃ oauth c client resource issuer,
    m_oauth the_manager = Some oauth ∧ consented actor raw c client resource issuer w w' ∧
    if approved
    then ∃ code, granted oauth actor issuer client resource c code w w' ∧
      a = mkOAuthAuthorizationResult (consent_RedirectURI c) code (consent_State c) (OAuthIssuer_Issuer issuer)
            EmptyString
    else a = mkOAuthAuthorizationResult (consent_RedirectURI c) EmptyString (consent_State c)
            (OAuthIssuer_Issuer issuer) "access_denied").
Proof.
  intros w. unfold Manager_CompleteOAuthAuthorization. cbv zeta. do 3 ok_step.
  eapply ok_ensures; [apply decodeOAuthContinuation_ensures|]. intros c w1 Hl1 [Ho Ht]. do 9 ok_step.
  eapply ok_ensures; [apply authorizedOAuthScopes_ensures|]. intros [scopes ds] w5 Hl5 (Hn & Hne & Hs & Hd).
  cbn [fst snd] in *. ok_step. eapply ok_ensures; [apply require_step_up_ensures|]. intros [] w6 Hl6 Ha.
  ok_step. eapply ok_ensures; [apply too_old_ensures|]. intros b w7 Hl7 Hm. ok_step. ok_step. bool_cases.
  assert (∀ w', later w7 w' → consented actor raw c row row0 row1 w w') as Hparties.
  { intros w' Hl. split; try done; try (by apply not_nil_false).
    - split; [done|]. eapply clock_showed_mono; [| |exact Ht]; later_tac.
    - by seen Hfound.
    - by seen Hfound0.
    - by seen Hfound1.
    - exists scopes. split_and!; [done|done|]. intros scope Hin. split.
      + eapply delegable_mono; [| |by apply Hs]; later_tac.
      + intros d Hr Hdef. destruct (Ha d (Hd scope d Hin Hr Hdef)). split; [done|].
        eapply recent_mono; [| |done]; later_tac.
    - eapply recent_mono; [| |by apply Hm]; later_tac. }
  ok_step.
  - ok_step. eapply ok_ensures; [apply grant_authorization_ensures|]. intros code w8 Hl8 Hg. apply ok_ret.
    split; [later_tac|]. exists a, c, row, row0, row1. split_and!; [done|by apply Hparties|].
    exists code. split; [|done]. destruct Hg as (g & k & p & t & Hg). exists g, k, p, t.
    eapply at_some_mono; [|apply later_refl|exact Hg]. later_tac.
  - ok_step. ok_skip w8 Hl8. apply ok_ret. split; [later_tac|]. exists a, c, row, row0, row1.
    split_and!; [done|by apply Hparties|done].
Qed.

(** C13: a consent delegates only what its user could. When
    [CompleteOAuthAuthorization] answers, the continuation opens under the
    sealing keys, is unexpired and names the interactive actor as its user; during the
    call its client was enabled with the metadata that was shown, its resource
    and issuer were enabled and belong together; for every scope but the
    reserved ones the actor held each permission behind it, at the assurance
    level and freshness the scope demands; and the [max_age] of the request was
    met. An approval stores a grant of exactly that actor, client, resource and
    scopes with one code for the redirect URI and challenge of the request, and
    hands out that code; a refusal hands out none. *)
Theorem oauth_consent_sound actor raw approved a w w' :
  Manager_CompleteOAuthAuthorization actor raw approved w = (Ok a, w') →
  ∃ oauth c client resource issuer,
    m_oauth the_manager = Some oauth ∧ consented actor raw c client resource issuer w w' ∧
    if approved
    then ∃ code, granted oauth actor issuer client resource c code w w' ∧
      a = mkOAuthAuthorizationResult (consent_RedirectURI c) code (consent_State c) (OAuthIssuer_Issuer issuer)
            EmptyString
    else a = mkOAuthAuthorizationResult (consent_RedirectURI c) EmptyString (consent_State c)
            (OAuthIssuer_Issuer issuer) "access_denied".
Proof.
  intros H. by apply (Ensures_run _ _ _ _ _ (CompleteOAuthAuthorization_ensures actor raw approved)) in H as [].
Qed.
End consent.

(** ** Refresh *)
Section refresh.
Context {E : Env} `{!WfEnv E}.

Definition refresh_credentials (input : RefreshOAuthTokenInput) : client_credentials :=
  mkClientCredentials (RefreshOAuthTokenInput_Issuer input) (RefreshOAuthTokenInput_ClientID input)
    (RefreshOAuthTokenInput_ClientSecret input) (RefreshOAuthTokenInput_ClientSecretInBody input)
    (RefreshOAuthTokenInput_ClientAssertion input) (RefreshOAuthTokenInput_ClientAssertionType input).

(** One store step replaces the live token [previous] by [next]. *)
Definition rotated (previousID : UUID) (next : OAuthRefreshToken) (s s' : Store) : Prop :=
  ∃ old used,
    oauthRefreshTokens s !! previousID = Some old ∧
    OAuthRefreshToken_UsedAt old = None ∧ OAuthRefreshToken_RevokedAt old = None ∧
    (used < OAuthRefreshToken_ExpiresAt old)%Z ∧
    OAuthRefreshToken_FamilyID old = OAuthRefreshToken_FamilyID next ∧
    OAuthRefreshToken_GrantID old = OAuthRefreshToken_GrantID next ∧
    oauthRefreshTokens s' !! OAuthRefreshToken_ID next = Some next ∧
    (previousID ≠ OAuthRefreshToken_ID next →
     oauthRefreshTokens s' !! previousID =
       Some (old <| OAuthRefreshToken_UsedAt := Some used |>
                 <| OAuthRefreshToken_ReplacedByID := OAuthRefreshToken_ID next |>)).

Lemma RotateOAuthRefreshToken_store cx id t access next c s s' :
  RotateOAuthRefreshToken cx id t access next c s = (Ok tt, s') →
  rotated id next s s' ∧ oauthAccessTokens s' !! OAuthAccessToken_ID access = Some access.
Proof.
  intros H. refine (wp_run _ (λ r s', r = Ok tt → _) s (Ok tt) s' _ H eq_refl).
  unfold RotateOAuthRefreshToken, spent_refresh. op_success. bool_cases.
  apply dec_stable in H3, H4. split; [exists v, t|by rewrite view_commitAudit; cbn; rewrite lookup_insert_eq].
  split_and!; try done; try (by apply not_nil_false).
  - by apply Time_Before_lt.
  - rewrite view_commitAudit. cbn. by rewrite lookup_insert_eq.
  - intros Hne. rewrite view_commitAudit. cbn. rewrite lookup_insert_ne by done. by rewrite lookup_insert_eq.
Qed.

Lemma newOAuthRefreshToken_ensures oauth grant family ttl :
  Ensures (newOAuthRefreshToken oauth grant family ttl) (λ _ p _,
    OAuthRefreshToken_Scopes p.1 = OAuthGrant_Scopes grant ∧
    OAuthRefreshToken_Digest p.1 = oauthDigest oauth "refresh-token" p.2).
Proof.
  intros w. unfold newOAuthRefreshToken. ok_step. ok_skip w1 Hl1. ok_step. ok_skip w2 Hl2. ok_step.
  ok_skip w3 Hl3. ok_steps. split; [later_tac|]. by split.
Qed.

Lemma refresh_scopes_ensures requested available :
  Ensures (refresh_scopes requested available) (λ _ scopes _,
    ∀ scope, scope ∈ scopes → scope ∈ available).
Proof.
  intros w. unfold refresh_scopes. cbv zeta. ok_steps; (split; [later_tac|]); [done|].
  bool_cases. by apply scopesSubset_spec.
Qed.

(** What a refresh answers. *)
Definition refreshed (input : RefreshOAuthTokenInput) (response : OAuthTokenResponse) (w w' : World) : Prop :=
  ∃ oauth prefix issuer client previous next grant resource scopes access,
    m_oauth the_manager = Some oauth ∧
    parseOAuthBearer "cbr" (RefreshOAuthTokenInput_RefreshToken input) = Some prefix ∧
    authenticated oauth (refresh_credentials input) issuer client w w' ∧
    at_some w w' (λ s,
      by_key (oauthRefreshKeys s) (oauthRefreshTokens s) OAuthRefreshToken_zero prefix = Some previous) ∧
    OAuthRefreshToken_ClientRecordID previous = OAuthClient_ID client ∧
    OAuthRefreshToken_Digest previous =
      oauthDigest oauth "refresh-token" (RefreshOAuthTokenInput_RefreshToken input) ∧
    delegation (OAuthRefreshToken_GrantID previous) client (RefreshOAuthTokenInput_Resource input)
      grant resource w w' ∧
    OAuthProtectedResource_ID resource = OAuthRefreshToken_ResourceID previous ∧
    (∀ scope, scope ∈ scopes → scope ∈ OAuthRefreshToken_Scopes previous) ∧
    handed_out oauth (grant <| OAuthGrant_Scopes := scopes |>) (OAuthIssuer_AccessTokenTTL issuer)
      (OAuthTokenResponse_AccessToken response) access w w' ∧
    OAuthRefreshToken_Scopes next = scopes ∧
    OAuthRefreshToken_Digest next =
      oauthDigest oauth "refresh-token" (OAuthTokenResponse_RefreshToken response) ∧
    ∃ w1 w2, later w w1 ∧ later w1 w2 ∧ later w2 w' ∧
      rotated (OAuthRefreshToken_ID previous) next (W_store w1) (W_store w2).

Lemma RefreshOAuthToken_ensures input :
  Ensures (Manager_RefreshOAuthToken input) (λ w r w', refreshed input r w w').
Proof.
  intros w. unfold Manager_RefreshOAuthToken. cbv zeta. do 3 ok_step.
  eapply ok_ensures; [apply authenticateOAuthClient_ensures|]. intros [issuer client] w1 Hl1 Ha.
  cbn [fst snd] in Ha. do 5 ok_step. ok_step; [unfold reuse_detected; apply ok_refusal|]. ok_step. do 5 ok_step.
  eapply ok_ensures; [apply active_grant_ensures|]. intros [grant resource] w4 Hl4 [Hg Hbad].
  cbn [fst snd] in *. ok_step.
  eapply ok_ensures; [apply refresh_scopes_ensures|]. intros scopes w5 Hl5 Hsub. ok_step.
  eapply ok_ensures; [apply newOAuthAccessToken_ensures|]. intros [access raw] w6 Hl6 Hm. ok_step.
  eapply ok_ensures; [apply newOAuthRefreshToken_ensures|]. intros [next rawNext] w7 Hl7 [Hns Hnd].
  cbn [fst snd] in *. ok_step. ok_skip w8 Hl8. ok_step.
  eapply ok_ensures; [apply newOAuthChange_ensures|]. intros change w9 Hl9 Hc. do 3 ok_step.
  apply ok_attempted; [intros e w'; ok_step; ok_step; [apply ok_refusal|apply ok_refusal]|]. ok_step.
  destruct r as [[]|]; [|done]. cbn [on_ok]. ok_step. ok_step. ok_step. ok_skip w12 Hl12. ok_step.
  ok_skip w13 Hl13. ok_step. apply RotateOAuthRefreshToken_store in Hrun as [Hrot Hstored]. bool_cases.
  split; [later_tac|]. exists a, a0, issuer, client, row, next, grant, resource, scopes, access.
  split_and!; try done.
  - eapply authenticated_mono; [| |exact Ha]; later_tac.
  - by seen Hfound.
  - eapply delegation_mono; [| |exact Hg]; later_tac.
  - eapply (handed_out_mono _ _ _ _ _ _ w5); [later_tac|]. apply Hm; [later_tac|].
    exists w3. split; [later_tac|split; [later_tac|done]].
  - exists w2, w3. split; [later_tac|split; [done|split; [later_tac|done]]].
Qed.

(** A refresh token rotates once. When [RefreshOAuthToken] succeeds, the
    request proved to come from an enabled client, the token presented is a
    stored one of that client and its grant is in force with everything it
    depends on; the new tokens carry a subset of its scopes; and one store
    step found the presented token unused, unrevoked and unexpired and
    replaced it, within the same family and grant, by the token handed out. *)
Theorem oauth_refresh_sound input response w w' :
  Manager_RefreshOAuthToken input w = (Ok response, w') → refreshed input response w w'.
Proof. intros H. by apply (Ensures_run _ _ _ _ _ (RefreshOAuthToken_ensures input)) in H as []. Qed.

(** No token of the family, nor any access token of a grant of the family, is
    live. *)
Definition family_dead (family : UUID) (s : Store) : Prop :=
  (∀ id t, oauthRefreshTokens s !! id = Some t → OAuthRefreshToken_FamilyID t = family →
     is_Some (OAuthRefreshToken_RevokedAt t)) ∧
  (∀ id t rid r, oauthAccessTokens s !! id = Some t → oauthRefreshTokens s !! rid = Some r →
     OAuthRefreshToken_FamilyID r = family → OAuthRefreshToken_GrantID r = OAuthAccessToken_GrantID t →
     is_Some (OAuthAccessToken_RevokedAt t)).

Lemma family_grants_spec s family rid r :
  oauthRefreshTokens s !! rid = Some r → OAuthRefreshToken_FamilyID r = family →
  UUID_String (OAuthRefreshToken_GrantID r) ∈ family_grants s family.
Proof.
  intros Hr Hf. unfold family_grants. rewrite elem_of_list_to_set. apply list_elem_of_fmap.
  exists (rid, r). split; [done|]. apply list_elem_of_filter. split; [done|]. by apply elem_of_map_to_list.
Qed.

Lemma burn_tokens c s :
  oauthRefreshTokens (burn c s) = oauthRefreshTokens s ∧ oauthAccessTokens (burn c s) = oauthAccessTokens s.
Proof. unfold burn. by destruct (Commit_Ceremony c). Qed.

Lemma RevokeOAuthRefreshFamily_store cx family t c s s' :
  RevokeOAuthRefreshFamily cx family t c s = (Ok tt, s') → family_dead family s'.
Proof.
  intros H. refine (wp_run _ (λ r s', r = Ok tt → _) s (Ok tt) s' _ H eq_refl).
  unfold RevokeOAuthRefreshFamily. op_success. unfold family_dead. rewrite !view_commitAudit. cbn.
  destruct (burn_tokens c s) as [-> ->]. unfold update_where. clear Hguard. split.
  - intros id x. rewrite lookup_fmap. intros (y & Hy & ->)%fmap_Some.
    destruct (OAuthRefreshToken_RevokedAt y) eqn:Hr; cbn [not_nil negb].
    + rewrite andb_false_r, Hr. by eexists.
    + rewrite andb_true_r. case_bool_decide; [by eexists|done].
  - intros id x rid r. rewrite !lookup_fmap. intros (y & Hy & ->)%fmap_Some (z & Hz & ->)%fmap_Some Hf Hg.
    assert (OAuthRefreshToken_FamilyID z = family) as Hzf by (revert Hf; by destruct (_ && _)).
    assert (OAuthRefreshToken_GrantID z = OAuthAccessToken_GrantID y) as Hzg.
    { revert Hg. by do 2 destruct (_ && _). }
    clear Hf Hg. destruct (OAuthAccessToken_RevokedAt y) eqn:Hr; cbn [not_nil negb].
    + rewrite andb_false_r, Hr. by eexists.
    + rewrite andb_true_r, bool_decide_true; [by eexists|]. rewrite <- Hzg. by eapply family_grants_spec.
Qed.

Lemma revokeOAuthRefreshFamily_ensures token client reason :
  Ensures (revokeOAuthRefreshFamily token client reason) (λ w _ w',
    at_some w w' (family_dead (OAuthRefreshToken_FamilyID token))).
Proof.
  intros w. unfold revokeOAuthRefreshFamily. cbv zeta. ok_step. ok_skip w1 Hl1. ok_step.
  eapply ok_ensures; [apply newOAuthChange_ensures|]. intros change w2 Hl2 Hc. do 5 ok_step.
  destruct r as [[]|]; [|done]. cbn [on_ok]. ok_skip w5 Hl5. apply RevokeOAuthRefreshFamily_store in Hrun.
  split; [later_tac|]. exists w3. split; [later_tac|split; [later_tac|done]].
Qed.

(** A refresh token presented after its use: the client of the request proves
    itself, and the store answers a token of that client with the digest
    presented, which is used or revoked. *)
Record presented_again (oauth : OAuthConfig) (input : RefreshOAuthTokenInput) (client : OAuthClient)
    (token : OAuthRefreshToken) (w w2 : World) : Prop := mkPresentedAgain {
  again_oauth : m_oauth the_manager = Some oauth;
  again_found : ∃ issuer prefix w1,
    authenticateOAuthClient oauth (refresh_credentials input) w = (Ok (issuer, client), w1) ∧
    parseOAuthBearer "cbr" (RefreshOAuthTokenInput_RefreshToken input) = Some prefix ∧
    call (λ ctx, OAuthRefreshTokenByPrefix ctx prefix) w1 = (Ok token, w2);
  again_holder : OAuthRefreshToken_ClientRecordID token = OAuthClient_ID client;
  again_digest : OAuthRefreshToken_Digest token =
    oauthDigest oauth "refresh-token" (RefreshOAuthTokenInput_RefreshToken input);
  again_spent : is_Some (OAuthRefreshToken_UsedAt token) ∨ is_Some (OAuthRefreshToken_RevokedAt token) }.

Lemma bind_run {A B} (p : M World A) (k : A → M World B) w a w1 : p w = (Ok a, w1) → (p ≫= k) w = k a w1.
Proof. intros H. unfold mbind, M_bind. by rewrite H. Qed.

Lemma RefreshOAuthToken_again oauth input client token w w2 :
  presented_again oauth input client token w w2 →
  Manager_RefreshOAuthToken input w = reuse_detected token client w2.
Proof.
  intros [Ho (issuer & prefix & w1 & Ha & Hp & Hf) Hc Hd Hs].
  unfold Manager_RefreshOAuthToken, requireOAuth. rewrite Ho. unfold refresh_credentials in Ha.
  rewrite (bind_run _ _ w oauth w), (bind_run _ _ _ _ _ Ha) by done. cbv beta iota zeta. rewrite Hp.
  rewrite (bind_run _ _ w1 prefix w1) by done.
  rewrite (bind_run _ _ w1 token w2); [|by unfold lookup_valid; rewrite (bind_run _ _ w1 (Ok token) w2);
    [rewrite Hc, Hd, !bool_decide_eq_true_2|unfold attempt; rewrite Hf]].
  replace (not_nil (OAuthRefreshToken_UsedAt token) || not_nil (OAuthRefreshToken_RevokedAt token)) with true
    by (destruct Hs as [[? ->]|[? ->]]; [done|by rewrite orb_true_r]).
  unfold reuse_detected, mbind, M_bind, attempt. by destruct (revokeOAuthRefreshFamily _ _ _ _).
Qed.

(** C14: a refresh token presented again burns its family. Whenever the client
    of a [RefreshOAuthToken] request proves itself and the store answers the
    presented token as one of its own that is already used or revoked, the
    request is refused with the error of invalid credentials; and unless the
    store or a hook refuses the revocation (its audit event included), there is
    a moment of the request at which no refresh token of the family and no
    access token of a grant of the family is live. *)
Theorem oauth_reuse_burns oauth input client token w w2 :
  presented_again oauth input client token w w2 →
  let r := Manager_RefreshOAuthToken input w in
  r.1 = Error ErrInvalidCredentials ∧
  (is_ok (revokeOAuthRefreshFamily token client "reuse_detected" w2).1 = true →
   at_some w2 r.2 (family_dead (OAuthRefreshToken_FamilyID token))).
Proof.
  intros H. rewrite (RefreshOAuthToken_again _ _ _ _ _ _ H). unfold reuse_detected, mbind, M_bind, attempt.
  destruct (revokeOAuthRefreshFamily token client "reuse_detected" w2) as [[[]|e] w3] eqn:Hr; [|done].
  split; [done|]. intros _.
  by apply (Ensures_run _ _ _ _ _ (revokeOAuthRefreshFamily_ensures token client "reuse_detected")) in Hr as [].
Qed.
End refresh.

Lemma oauth_consent_sound_witness : ∃ oauth c client resource issuer,
  m_oauth (@the_manager server) = Some oauth ∧
  @consented server root demo_continuation c client resource issuer asking.2 consenting.2 ∧
  ∃ code, granted oauth root issuer client resource c code asking.2 consenting.2 ∧
    ok_of OAuthAuthorizationResult_zero consenting =
      mkOAuthAuthorizationResult (consent_RedirectURI c) code (consent_State c) (OAuthIssuer_Issuer issuer)
        EmptyString.
Proof.
  apply (@oauth_consent_sound server server_wf _ _ true). apply run_ok.
  exact (proj1 (andb_prop _ _ flow_succeeds)).
Defined.

Lemma oauth_exchange_sound_witness :
  @exchanged server demo_exchange demo_tokens consenting.2 exchanging.2.
Proof.
  apply (@oauth_exchange_sound server server_wf). apply run_ok.
  destruct (andb_prop _ _ flow_succeeds) as [_ H]. exact (proj1 (andb_prop _ _ H)).
Defined.

Lemma oauth_refresh_sound_witness :
  @refreshed server demo_refresh (ok_of OAuthTokenResponse_zero refreshing) exchanging.2 refreshing.2.
Proof.
  apply (@oauth_refresh_sound server server_wf). apply run_ok.
  destruct (andb_prop _ _ flow_succeeds) as [_ H]. destruct (andb_prop _ _ H) as [_ H'].
  exact (proj1 (andb_prop _ _ H')).
Defined.

Lemma oauth_bearer_sound_witness :
  let raw := OAuthTokenResponse_AccessToken demo_tokens in
  let a := ok_of OAuthAuthentication_zero accepting in
  ∃ oauth prefix,
    m_oauth (@the_manager server) = Some oauth ∧ parseOAuthBearer "cba" raw = Some prefix ∧
    (@user_bearer server oauth prefix raw "https://api.example" a exchanging.2 accepting.2 ∨
     @machine_bearer server oauth prefix raw "https://api.example" a exchanging.2 accepting.2).
Proof.
  intros raw a. apply (@oauth_bearer_sound server server_wf). apply run_ok.
  destruct (andb_prop _ _ flow_succeeds) as [_ H]. destruct (andb_prop _ _ H) as [_ H'].
  exact (proj2 (andb_prop _ _ H')).
Defined.

(** The same refresh token a second time. *)
Definition reproved := @authenticateOAuthClient server demo_oauth (refresh_credentials demo_refresh) refreshing.2.
Definition presented_prefix : string :=
  default EmptyString (parseOAuthBearer "cbr" (RefreshOAuthTokenInput_RefreshToken demo_refresh)).
Definition answered_again := @call server _ (λ ctx, OAuthRefreshTokenByPrefix ctx presented_prefix) reproved.2.
Definition reused_token : OAuthRefreshToken := ok_of OAuthRefreshToken_zero answered_again.
Definition reusing_client : OAuthClient := (ok_of (OAuthIssuer_zero, OAuthClient_zero) reproved).2.
Definition reuse_check (proved : result (OAuthIssuer * OAuthClient)) (found : result OAuthRefreshToken)
    (prefix : option string) (raw : string) (revoked : result unit) : bool :=
  match proved, found with
  | Ok (_, c), Ok t =>
      not_nil prefix && bool_decide (OAuthRefreshToken_ClientRecordID t = OAuthClient_ID c) &&
      bool_decide (OAuthRefreshToken_Digest t = oauthDigest demo_oauth "refresh-token" raw) &&
      not_nil (OAuthRefreshToken_UsedAt t) && is_ok revoked
  | _, _ => false
  end.
Lemma reuse_facts :
  reuse_check reproved.1 answered_again.1 (parseOAuthBearer "cbr" (RefreshOAuthTokenInput_RefreshToken demo_refresh))
    (RefreshOAuthTokenInput_RefreshToken demo_refresh)
    (@revokeOAuthRefreshFamily server reused_token reusing_client "reuse_detected" answered_again.2).1 = true.
Proof. vm_compute. reflexivity. Qed.

Lemma reuse_check_spec (proved : result (OAuthIssuer * OAuthClient) * World) (found : result OAuthRefreshToken * World)
    prefix raw revoked :
  reuse_check proved.1 found.1 prefix raw revoked = true →
  let c := (ok_of (OAuthIssuer_zero, OAuthClient_zero) proved).2 in
  let t := ok_of OAuthRefreshToken_zero found in
  is_ok proved.1 = true ∧ is_ok found.1 = true ∧ prefix = Some (default EmptyString prefix) ∧
  OAuthRefreshToken_ClientRecordID t = OAuthClient_ID c ∧
  OAuthRefreshToken_Digest t = oauthDigest demo_oauth "refresh-token" raw ∧
  is_Some (OAuthRefreshToken_UsedAt t) ∧ is_ok revoked = true.
Proof.
  unfold reuse_check, ok_of. destruct proved as [[[i c]|] w1], found as [[t|] w2]; cbn [fst snd]; try done.
  rewrite !andb_true_iff, !bool_decide_eq_true. intros ((((Hp & Hc) & Hd) & Hu) & Hr).
  split_and!; try done; [by destruct prefix|by destruct (OAuthRefreshToken_UsedAt t); [eexists|]].
Qed.

Lemma oauth_reuse_burns_witness :
  at_some answered_again.2 (@Manager_RefreshOAuthToken server demo_refresh refreshing.2).2
    (family_dead (OAuthRefreshToken_FamilyID reused_token)).
Proof.
  destruct (reuse_check_spec _ _ _ _ _ reuse_facts) as (Ha & Hf & Hp & Hc & Hd & Hu & Hr).
  pose proof (@oauth_reuse_burns server server_wf demo_oauth demo_refresh reusing_client reused_token refreshing.2
    answered_again.2) as H.
  apply H; [|exact Hr]. split; [reflexivity| |exact Hc|exact Hd|left; exact Hu].
  exists (ok_of (OAuthIssuer_zero, OAuthClient_zero) reproved).1, presented_prefix, reproved.2.
  split; [|split; [exact Hp|]].
  - unfold reusing_client. rewrite <- surjective_pairing. exact (run_ok _ _ _ Ha).
  - exact (run_ok _ _ _ Hf).
Defined.
