(* ===== verification/OAuthHttpSafety.v ===== *)
(** * The OAuth endpoints are sound

    What an answer of the HTTP layer implies: a protected handler is reached,
    a token handed out, a browser redirected only when the manager's own
    guarantees hold of the request as it was read from the wire. *)
From stdpp Require Import base gmap sets list strings numbers.
From Stdlib Require Import ZArith Lia Ascii.
From S2P Require Import Prelude Bytes GoText GoNet GoJson GoUrl GoRunes GoHttp Uuid Types OAuthTypes Roles AuditChain Store StoreUsers StoreTokens StoreWorkspaces StoreScim StoreOAuth StorePages Commit StoreSystem StoreOutcomes StoreMonotone Tokens Events Manager ManagerGates Config ManagerEmail ManagerSeal OAuthPolicy ManagerOAuth ManagerOAuthTokens ManagerOAuthAdmin OAuthHttp ManagerScenario ManagerTrace OAuthScenario ManagerSystem ManagerSafety ManagerAuth ManagerFlows ManagerFederated ManagerOAuthSafety.

(** ** Machine tokens *)
#[export] Instance oauthClientTokens_view : CommitView oauthClientTokens.
Proof. by split; intros; try destruct u. Qed.

Lemma CreateOAuthClientAccessToken_store cx token c s s' :
  CreateOAuthClientAccessToken cx token c s = (Ok tt, s') →
  oauthClientTokens s' !! OAuthClientAccessToken_ID token = Some token.
Proof.
  intros H. refine (wp_run _ (λ r s', r = Ok tt → _) s (Ok tt) s' _ H eq_refl).
  unfold CreateOAuthClientAccessToken. op_success. rewrite view_commitAudit. cbn. by rewrite lookup_insert_eq.
Qed.

Section machine.
Context {E : Env} `{!WfEnv E}.

Definition machine_credentials (input : OAuthClientCredentialsInput) : client_credentials :=
  mkClientCredentials (OAuthClientCredentialsInput_Issuer input) (OAuthClientCredentialsInput_ClientID input)
    (OAuthClientCredentialsInput_ClientSecret input) (OAuthClientCredentialsInput_ClientSecretInBody input)
    (OAuthClientCredentialsInput_ClientAssertion input) (OAuthClientCredentialsInput_ClientAssertionType input).

(** The token of a client's own: of a pre-registered client that authenticated,
    for an enabled resource on its allowlist, with no user behind it. *)
Definition machine_issued (input : OAuthClientCredentialsInput) (response : OAuthTokenResponse) (w w' : World) :
    Prop :=
  ∃ oauth issuer client resource resourceURL token,
    m_oauth the_manager = Some oauth ∧
    authenticated oauth (machine_credentials input) issuer client w w' ∧
    OAuthClient_Source client = OAuthClientPreRegistered ∧
    OAuthClient_TokenEndpointAuthMethod client ≠ OAuthAuthNone ∧
    "client_credentials" ∈ OAuthClient_GrantTypes client ∧
    validateResourceURL (OAuthClientCredentialsInput_Resource input) = Ok resourceURL ∧
    resourceURL ∈ OAuthClient_ClientCredentialsResources client ∧
    at_some w w' (λ s, by_key (oauthResourceURIs s) (oauthResources s) OAuthProtectedResource_zero resourceURL =
                       Some resource) ∧
    OAuthProtectedResource_IssuerID resource = OAuthIssuer_ID issuer ∧
    OAuthProtectedResource_DisabledAt resource = None ∧
    clientCredentialsScopes client resource (OAuthClientCredentialsInput_Scopes input) =
      Ok (OAuthClientAccessToken_Scopes token) ∧
    at_some w w' (λ s, oauthClientTokens s !! OAuthClientAccessToken_ID token = Some token) ∧
    OAuthClientAccessToken_Digest token = oauthDigest oauth "access-token" (OAuthTokenResponse_AccessToken response) ∧
    OAuthClientAccessToken_ClientRecordID token = OAuthClient_ID client ∧
    OAuthClientAccessToken_ResourceID token = OAuthProtectedResource_ID resource.

Lemma IssueOAuthClientCredentials_ensures input :
  Ensures (Manager_IssueOAuthClientCredentials input) (λ w r w', machine_issued input r w w').
Proof.
  intros w. unfold Manager_IssueOAuthClientCredentials. cbv zeta. do 3 ok_step.
  eapply ok_ensures; [apply authenticateOAuthClient_ensures|]. intros [issuer client] w1 Hl1 Ha. cbn [fst snd] in Ha.
  do 9 ok_step. ok_step. ok_step. ok_skip w3 Hl3. ok_step. ok_skip w4 Hl4. do 4 ok_step. ok_skip w5 Hl5. ok_step.
  apply ok_mapped_credential. ok_step. destruct r as [[]|]; [|done]. cbn [on_ok]. ok_step.
  apply CreateOAuthClientAccessToken_store in Hrun. cbn [OAuthClientAccessToken_ID] in Hrun. bool_cases.
  split; [later_tac|]. set (token := mkOAuthClientAccessToken _ _ _ _ _ _ _ _ _ _ _) in Hrun.
  exists a, issuer, client, row, a0, token. unfold contains in *.
  apply bool_decide_eq_true in H2, Hguard0. split_and!; try done.
  - eapply authenticated_mono; [apply later_refl| |exact Ha]. later_tac.
  - by seen Hfound.
  - by apply not_nil_false.
  - exists w6. split_and!; [later_tac..|done].
Qed.
End machine.

(** ** Answers *)
Section answers.
Context {E : Env} `{!WfEnv E}.

Lemma answer_run {A} (p : M World A) f w reply w' :
  answer p f w = (Ok reply, w') →
  ∃ x, p w = (x, w') ∧ reply = Answered (match x with Ok a => f a | Error e => writeError e end).
Proof.
  unfold answer, attempt, mbind, M_bind, mret, M_ret. destruct (p w) as [x w1]. cbn. intros [= <- <-]. by exists x.
Qed.
Lemma only_run methods r p w reply w' : only methods r p w = (Ok reply, w') →
  Method r ∈ methods ∧ p w = (Ok reply, w') ∨ reply = Answered (methodNotAllowed methods).
Proof.
  unfold only, contains. case_bool_decide; [by left|]. intros [= <- _]. by right.
Qed.
Lemma writeError_problem e : ∃ c d, Payload (writeError e) = Problem c d.
Proof. unfold writeError. repeat case_match; by eexists _, _. Qed.

Lemma Ensures_ok {A} (p : M World A) Q w a w' : Ensures p Q → p w = (Ok a, w') → Q w a w'.
Proof. intros H Hr. by apply (Ensures_run _ _ _ _ _ H) in Hr as []. Qed.

(** No answer of [p] is one of [bad]. *)
Definition avoids (bad : Response → Prop) (p : M World Reply) : Prop := ∀ w resp w',
  p w = (Ok (Answered resp), w') → ¬ bad resp.
(** What errors never answer. *)
Class Unusual (bad : Response → Prop) := {
  unusual_error e : ¬ bad (writeError e);
  unusual_method methods : ¬ bad (methodNotAllowed methods) }.

Section avoiding.
Context (bad : Response → Prop) `{!Unusual bad}.
Lemma avoids_ret resp : ¬ bad resp → avoids bad (mret (Answered resp)).
Proof. intros H w resp' w' [= <- _]. apply H. Qed.
Lemma avoids_answer {A} (p : M World A) f : (∀ a, ¬ bad (f a)) → avoids bad (answer p f).
Proof. intros H w resp w' ([a|e] & _ & [= ->])%answer_run; [apply H|apply unusual_error]. Qed.
Lemma avoids_only methods r p : avoids bad p → avoids bad (only methods r p).
Proof. intros H w resp w' [[_ Hr]|[= ->]]%only_run; [by eapply H|apply unusual_method]. Qed.
Lemma avoids_bind {A} (p : M World A) k : (∀ a, avoids bad (k a)) → avoids bad (p ≫= k).
Proof. intros H w resp w'. unfold mbind, M_bind. destruct (p w) as [[a|e] w1]; [|done]. apply H. Qed.
Lemma avoids_consent consent : avoids bad (mret (PresentConsent consent)).
Proof. by intros w resp w'. Qed.
End avoiding.

(** Splits a handler into its answers. *)
Ltac avoids :=
  repeat (cbv beta zeta; first
    [ apply avoids_ret; (apply unusual_error || idtac) | apply avoids_only; [apply _|]
    | apply avoids_answer; [apply _|]; intros ? | apply avoids_consent | apply avoids_bind; intros ?
    | lazymatch goal with
      | |- avoids _ (match ?x with _ => _ end) => destruct x
      | |- ¬ _ (if ?x then _ else _) => destruct x
      | |- ¬ _ (writeError _) => apply unusual_error
      end ]).

Definition hands_tokens (resp : Response) : Prop := ∃ tokens, Payload resp = TokenDocument tokens.
Definition redirects (resp : Response) : Prop := Status resp = 302%Z.
#[export] Instance hands_tokens_unusual : Unusual hands_tokens.
Proof. split; [|by intros ? [? ?]]. intros e [tokens H]. by destruct (writeError_problem e) as (? & ? & He); rewrite He in H. Qed.
#[export] Instance redirects_unusual : Unusual redirects.
Proof. split; [|done]. intros e. unfold redirects, writeError. repeat case_match; done. Qed.

Lemma redirect_tokenless i u s c d : ¬ hands_tokens (writeAuthorizationError i u s c d).
Proof. intros [tokens H]. unfold writeAuthorizationError in H. by destruct (url_Parse u). Qed.

Lemma tokenless_others config r :
  avoids hands_tokens (Handler_discovery config r) ∧ avoids hands_tokens (Handler_resourceMetadata config r) ∧
  avoids hands_tokens (Handler_jwks config r) ∧ avoids hands_tokens (Handler_authorize config r) ∧
  avoids hands_tokens (Handler_revoke config r) ∧ avoids hands_tokens (Handler_register config r) ∧
  avoids hands_tokens (Handler_userInfo config r).
Proof.
  unfold Handler_discovery, Handler_resourceMetadata, Handler_jwks, Handler_authorize, Handler_revoke,
    Handler_register, Handler_userInfo.
  split_and!; avoids; try by intros [? ?].
  all: apply redirect_tokenless.
Qed.
Lemma redirectless_others config r :
  avoids redirects (Handler_discovery config r) ∧ avoids redirects (Handler_resourceMetadata config r) ∧
  avoids redirects (Handler_jwks config r) ∧ avoids redirects (Handler_token config r) ∧
  avoids redirects (Handler_revoke config r) ∧ avoids redirects (Handler_register config r) ∧
  avoids redirects (Handler_userInfo config r).
Proof.
  unfold Handler_discovery, Handler_resourceMetadata, Handler_jwks, Handler_token, Handler_revoke,
    Handler_register, Handler_userInfo.
  split_and!; avoids; done.
Qed.

Definition code_input (config : HandlerConfig) (form : Values) (clientID secret : string) (secretInBody : bool) :
    ExchangeOAuthAuthorizationCodeInput :=
  mkExchangeOAuthAuthorizationCodeInput (hc_Issuer config) clientID secret secretInBody
    (Values_Get form "client_assertion") (Values_Get form "client_assertion_type") (Values_Get form "code")
    (Values_Get form "redirect_uri") (Values_Get form "code_verifier") (Values_Get form "resource").
Definition refresh_input (config : HandlerConfig) (form : Values) (clientID secret : string) (secretInBody : bool) :
    RefreshOAuthTokenInput :=
  mkRefreshOAuthTokenInput (hc_Issuer config) clientID secret secretInBody
    (Values_Get form "client_assertion") (Values_Get form "client_assertion_type") (Values_Get form "refresh_token")
    (Values_Get form "resource") (Fields (Values_Get form "scope")).
Definition machine_input (config : HandlerConfig) (form : Values) (clientID secret : string) (secretInBody : bool) :
    OAuthClientCredentialsInput :=
  mkOAuthClientCredentialsInput (hc_Issuer config) clientID secret secretInBody
    (Values_Get form "client_assertion") (Values_Get form "client_assertion_type") (Values_Get form "resource")
    (Fields (Values_Get form "scope")).

(** What the manager guarantees of the tokens of each grant type. *)
Definition granted_tokens (config : HandlerConfig) (form : Values) (clientID secret : string) (secretInBody : bool)
    (tokens : OAuthTokenResponse) (w w' : World) : Prop :=
  (Values_Get form "grant_type" = "authorization_code" ∧
   exchanged (code_input config form clientID secret secretInBody) tokens w w') ∨
  (Values_Get form "grant_type" = "refresh_token" ∧
   refreshed (refresh_input config form clientID secret secretInBody) tokens w w') ∨
  (Values_Get form "grant_type" = "client_credentials" ∧
   machine_issued (machine_input config form clientID secret secretInBody) tokens w w').

Lemma tokens_answered (p : M World OAuthTokenResponse) header status Q w resp w' tokens :
  Ensures p Q → answer p (λ a, writeJSON header status (TokenDocument a)) w = (Ok (Answered resp), w') →
  Payload resp = TokenDocument tokens →
  Q w tokens w' ∧ Status resp = status ∧ ∀ h, h ∈ header → h ∈ Header resp.
Proof.
  intros HQ ([a|e] & Hr & [= ->])%answer_run Hp.
  - injection Hp as ->. split_and!; [by eapply Ensures_ok|done|]. intros h Hh. cbn. set_solver.
  - by destruct (writeError_problem e) as (? & ? & He); rewrite He in Hp.
Qed.

(** C10: the token endpoint hands out tokens only for what it was given. When
    the handler answers a request with a token document, the request was a
    POST of a well-formed form of at most 64 KiB with one way of authenticating
    the client, the answer is a 200 that must not be stored, and, with the
    parameters of that form: for a code, the exchange was that of its client,
    redirect URI and verifier, spending it; for a refresh token, the rotation of
    a live token of the client; for client credentials, a token of a
    pre-registered client for a resource on its allowlist. *)
Theorem token_endpoint_sound config r resp tokens w w' :
  Handler_ServeHTTP config r w = (Ok (Answered resp), w') → Payload resp = TokenDocument tokens →
  Method r = "POST" ∧ Status resp = 200%Z ∧ ("Cache-Control", "no-store") ∈ Header resp ∧
  ∃ form clientID secret secretInBody,
    protocolForm r = Ok form ∧ clientCredentials r form = Ok (clientID, secret, secretInBody) ∧
    granted_tokens config form clientID secret secretInBody tokens w w'.
Proof.
  destruct (tokenless_others config r) as (H1 & H2 & H3 & H4 & H5 & H6 & H7). intros Hrun Hp.
  assert (hands_tokens resp) as Hbad by by exists tokens.
  assert (Handler_token config r w = (Ok (Answered resp), w')) as Ht.
  { revert Hrun. unfold Handler_ServeHTTP. cbv zeta.
    repeat (case_match; [intros Hr; first [done|exfalso; first [exact (H1 _ _ _ Hr Hbad)|exact (H2 _ _ _ Hr Hbad)|exact (H3 _ _ _ Hr Hbad)|
      exact (H4 _ _ _ Hr Hbad)|exact (H5 _ _ _ Hr Hbad)|exact (H6 _ _ _ Hr Hbad)|exact (H7 _ _ _ Hr Hbad)]]|]).
    intros [= <- _]. by destruct (unusual_error (bad := hands_tokens) ErrNotFound). }
  clear - Ht Hp Hbad WfEnv0. apply only_run in Ht as [[Hm Ht]|[= ->]]; [|done]. apply list_elem_of_singleton in Hm.
  split; [done|]. destruct (protocolForm r) as [form|e]; [|by destruct (avoids_ret hands_tokens _ (unusual_error e) _ _ _ Ht)].
  destruct (clientCredentials r form) as [[[clientID secret] inBody]|e] eqn:Hc; [|by destruct (avoids_ret hands_tokens _ (unusual_error e) _ _ _ Ht)].
  cbv zeta in Ht. unfold granted_tokens. revert Ht. case_bool_decide as Hg1; [|case_bool_decide as Hg2; [|case_bool_decide as Hg3]].
  - intros Ht. eapply tokens_answered in Ht as (HQ & Hs & Hh); [|apply ExchangeOAuthAuthorizationCode_ensures|done].
    split; [done|]. split; [apply Hh; set_solver|]. eexists form, _, _, _. split_and!; [done..|]. by left.
  - intros Ht. eapply tokens_answered in Ht as (HQ & Hs & Hh); [|apply RefreshOAuthToken_ensures|done].
    split; [done|]. split; [apply Hh; set_solver|]. eexists form, _, _, _. split_and!; [done..|]. by right; left.
  - intros Ht. eapply tokens_answered in Ht as (HQ & Hs & Hh); [|apply IssueOAuthClientCredentials_ensures|done].
    split; [done|]. split; [apply Hh; set_solver|]. eexists form, _, _, _. split_and!; [done..|]. by right; right.
  - intros Ht. exfalso. revert Ht. by intros [= <- _].
Qed.

(** ** Redirections *)
Lemma ValidateOAuthAuthorizationRedirect_ensures issuerURL clientID redirectURI :
  Ensures (Manager_ValidateOAuthAuthorizationRedirect issuerURL clientID redirectURI) (λ w _ w', ∃ issuer client,
    OAuthIssuer_DisabledAt issuer = None ∧
    at_some w w' (registered (OAuthIssuer_ID issuer) (TrimSpace clientID) client) ∧
    OAuthClient_DisabledAt client = None ∧ redirectURI ∈ OAuthClient_RedirectURIs client).
Proof.
  intros w. unfold Manager_ValidateOAuthAuthorizationRedirect, enabled_issuer. do 7 ok_step.
  apply ok_attempted; [intros; by ok_step|].
  eapply ok_ensures; [apply resolveOAuthClient_ensures|]. intros client w2 Hl2 Hc. ok_steps.
  unfold contains in *. bool_cases. split; [later_tac|]. eexists _, client.
  split_and!; [by apply not_nil_false| |by apply not_nil_false|done].
  eapply at_some_mono; [| |exact Hc]; later_tac.
Qed.

(** The registered URI with the parameters of an error. *)
Definition error_location (config : HandlerConfig) (state : string) (target : URL) (location : string) : Prop :=
  ∃ query, Values_Get query "iss" = hc_Issuer config ∧ Values_Get query "error" ≠ EmptyString ∧
    (state ≠ EmptyString → Values_Get query "state" = state) ∧
    location = URL_String (mkURL (URL_Scheme target) (URL_Opaque target) (URL_User target) (URL_Host target)
      (URL_Path target) (URL_RawPath target) (URL_ForceQuery target) (Values_Encode query) (URL_Fragment target)).

Lemma writeAuthorizationError_location config u state c d : c ≠ EmptyString →
  redirects (writeAuthorizationError (hc_Issuer config) u state c d) →
  ∃ target location, url_Parse u = Some target ∧ error_location config state target location ∧
    Header (writeAuthorizationError (hc_Issuer config) u state c d) =
      [("Location", location); ("Cache-Control", "no-store")].
Proof.
  unfold writeAuthorizationError. destruct (url_Parse u) as [target|]; [|done]. intros Hc _. cbn [Header].
  eexists target, _. split; [done|]. split; [|reflexivity]. eexists. split_and!; [..|reflexivity].
  - apply Values_Get_Set.
  - rewrite Values_Get_Set_ne by done. case_bool_decide; [|rewrite Values_Get_Set_ne by done];
      rewrite Values_Get_Set_ne by done; by rewrite Values_Get_Set.
  - intros Hs. rewrite Values_Get_Set_ne, bool_decide_false by done. by rewrite Values_Get_Set.
Qed.

Lemma authorizationError_code e : (authorizationError e).1 ≠ EmptyString.
Proof. unfold authorizationError. by repeat case_match. Qed.

(** The registration behind a redirection. *)
Definition sent_back (config : HandlerConfig) (r : HTTPRequest) (resp : Response) (w w' : World) : Prop :=
  let query := (ParseQuery (RawQuery r)).1 in
  ∃ issuer client target location,
    at_some w w' (registered (OAuthIssuer_ID issuer) (TrimSpace (Values_Get query "client_id")) client) ∧
    OAuthClient_DisabledAt client = None ∧
    Values_Get query "redirect_uri" ∈ OAuthClient_RedirectURIs client ∧
    url_Parse (Values_Get query "redirect_uri") = Some target ∧
    error_location config (Values_Get query "state") target location ∧
    Header resp = [("Location", location); ("Cache-Control", "no-store")].

Lemma authorize_redirects config r w :
  wp_ok (Handler_authorize config r) (λ reply w', ∀ resp, reply = Answered resp → redirects resp →
    sent_back config r resp w w') w.
Proof.
  unfold Handler_authorize, only. cbv zeta.
  ok_step; [|apply ok_ret; by intros ? [= <-] ?].
  destruct (hc_Authenticate config) as [authenticate|]; [|apply ok_ret; by intros ? [= <-] ?%unusual_error].
  ok_step; [apply ok_ret; by intros ? [= <-] ?%unusual_error|]. ok_step.
  apply ok_attempted; [intros e w'; apply ok_ret; by intros ? [= <-] ?%unusual_error|].
  eapply ok_ensures; [apply ValidateOAuthAuthorizationRedirect_ensures|].
  intros [] w1 Hl1 (issuer & client & _ & Hc & Hd & Hin).
  assert (∀ c d w2, later w1 w2 → c ≠ EmptyString →
    wp_ok (mret (Answered (writeAuthorizationError (hc_Issuer config)
      (Values_Get (ParseQuery (RawQuery r)).1 "redirect_uri") (Values_Get (ParseQuery (RawQuery r)).1 "state") c d)))
      (λ reply w', ∀ resp, reply = Answered resp → redirects resp → sent_back config r resp w w') w2) as Hback.
  { intros c d w2 Hl2 Hne. apply ok_ret. intros ? [= <-] Hr.
    apply writeAuthorizationError_location in Hr as (target & location & Hu & Hloc & Hh); [|done].
    exists issuer, client, target, location. split_and!; try done.
    eapply at_some_mono; [apply later_refl| |exact Hc]. exact Hl2. }
  ok_step; [by apply Hback; [apply later_refl|]|]. ok_step. ok_skip w2 Hl2. destruct a as [actor|e]; [|by apply Hback].
  destruct (parseMaxAge _) as [maxAge|]; [|by apply Hback]. ok_step. ok_skip w3 Hl3.
  destruct a as [consent|e]; [by apply ok_ret|]. apply Hback; [later_tac|apply authorizationError_code].
Qed.

(** C12: no open redirect. Whatever the query of a request, the handler sends a
    browser elsewhere only to a redirect URI that, during the call, was
    registered by an enabled client of the issuer under the client identifier
    of the request; only the query of that URI is extended, with the issuer,
    an error code and the state of the request. *)
Theorem redirects_registered config r resp w w' :
  Handler_ServeHTTP config r w = (Ok (Answered resp), w') → Status resp = 302%Z → sent_back config r resp w w'.
Proof.
  destruct (redirectless_others config r) as (H1 & H2 & H3 & H4 & H5 & H6 & H7). intros Hrun Hbad.
  assert (Handler_authorize config r w = (Ok (Answered resp), w')) as Ht.
  { revert Hrun. unfold Handler_ServeHTTP. cbv zeta.
    repeat (case_match; [intros Hr; first [done|exfalso; first [exact (H1 _ _ _ Hr Hbad)|exact (H2 _ _ _ Hr Hbad)|
      exact (H3 _ _ _ Hr Hbad)|exact (H4 _ _ _ Hr Hbad)|exact (H5 _ _ _ Hr Hbad)|exact (H6 _ _ _ Hr Hbad)|
      exact (H7 _ _ _ Hr Hbad)]]|]).
    intros [= <- _]. by destruct (unusual_error (bad := redirects) ErrNotFound). }
  exact (wp_run _ _ _ _ _ (authorize_redirects config r w) Ht resp eq_refl Hbad).
Qed.

(** ** Protected resources *)

(** C11: a protected handler is reached only with a bearer token that still
    carries its delegation. When [Protect] lets a request through, the token of
    its Authorization header is a user's or a client's own in the sense of
    [user_bearer] and [machine_bearer] for that resource, and has the scope the
    route requires; every other request is answered 401 or 403 with a
    challenge. *)
Theorem protect_sound resource scope metadataURL r (x : result Protected) w w' :
  Protect resource scope metadataURL r w = (x, w') →
  (∃ a oauth prefix, x = Ok (Served a) ∧ m_oauth the_manager = Some oauth ∧
     parseOAuthBearer "cba" (bearerToken r) = Some prefix ∧
     (user_bearer oauth prefix (bearerToken r) resource a w w' ∨
      machine_bearer oauth prefix (bearerToken r) resource a w w') ∧
     (scope = EmptyString ∨ scope ∈ OAuthAuthentication_Scopes a)) ∨
  (∃ resp challenge, x = Ok (Refused resp) ∧ (Status resp = 401%Z ∨ Status resp = 403%Z) ∧
     Header resp = [("WWW-Authenticate", challenge)] ∧ Payload resp = NoContent).
Proof.
  unfold Protect, attempt, mbind, M_bind, mret, M_ret.
  destruct (Manager_AuthenticateOAuthAccessToken resource (bearerToken r) w) as [[a|e] w1] eqn:Ha.
  - destruct (token_has_scope a scope) eqn:Hs; cbn [fst snd]; rewrite Hs; cbn [negb]; intros [= <- <-].
    + left. apply (Ensures_ok _ _ _ _ _ (AuthenticateOAuthAccessToken_ensures _ _)) in Ha as (oauth & prefix & Hm & Hp & Hb).
      exists a, oauth, prefix. split_and!; try done. unfold token_has_scope, contains in Hs.
      by apply orb_true_iff in Hs as [?%bool_decide_eq_true|?%bool_decide_eq_true]; [left|right].
    + right. eexists _, _. split_and!; [done|by right|done..].
  - intros [= <- <-]. right. eexists _, _. split_and!; [done|by left|done..].
Qed.
End answers.

(** An issuer whose path holds an escape is accepted, and none of its endpoints
    can be reached: a request for its token endpoint arrives with the decoded
    path. *)
Definition escaped_handler : HandlerConfig := mkHandlerConfig "https://auth.example/a%20b" EmptyString None false.
Example escaped_issuer_unreachable {E : Env} w body :
  New_Handler escaped_handler = Ok escaped_handler ∧
  (URL_Path <$> url_Parse "https://auth.example/a%20b/token") = Some "/a b/token" ∧
  Handler_ServeHTTP escaped_handler (mkHTTPRequest "POST" "/a b/token" EmptyString EmptyString EmptyString body) w =
    (Ok (Answered (writeError ErrNotFound)), w).
Proof. split_and!; by vm_compute. Qed.

(** ** A client at the endpoints *)
Definition demo_handler : HandlerConfig :=
  mkHandlerConfig "https://auth.example" "https://api.example" (Some (λ _ _, Ok root)) true.
Definition basic_header : string :=
  "Basic " +:+ Z_string (GoEncoding.base64_Std_encode (string_Z (OAuthClient_ClientID demo_client +:+ ":" +:+ demo_secret))).
Definition token_form : string := Values_Encode
  [("grant_type", "authorization_code"); ("code", demo_code); ("redirect_uri", "https://app.example/callback");
   ("code_verifier", demo_verifier); ("resource", "https://api.example")].
Definition token_request : HTTPRequest :=
  mkHTTPRequest "POST" "/token" EmptyString basic_header "application/x-www-form-urlencoded; charset=utf-8" token_form.
Definition posting := @Handler_ServeHTTP server demo_handler token_request consenting.2.
Definition implicit_request : HTTPRequest :=
  mkHTTPRequest "GET" "/authorize" (Values_Encode [("client_id", OAuthClient_ClientID demo_client);
    ("redirect_uri", "https://app.example/callback"); ("response_type", "token"); ("state", "s 1")])
    EmptyString EmptyString EmptyString.
Definition authorizing := @Handler_ServeHTTP server demo_handler implicit_request registering_client.2.

Definition response_of (x : result Reply) : Response :=
  match x with Ok (Answered resp) => resp | _ => mkResponse 0 [] NoContent end.
Definition tokens_of (resp : Response) : OAuthTokenResponse :=
  match Payload resp with TokenDocument tokens => tokens | _ => OAuthTokenResponse_zero end.
Definition is_tokens (x : result Reply) : bool :=
  match x with
  | Ok (Answered resp) => match Payload resp with TokenDocument _ => true | _ => false end
  | _ => false
  end.
Definition call_request (posted : result Reply * World) : HTTPRequest :=
  mkHTTPRequest "GET" "/notes" EmptyString
    ("bearer " +:+ OAuthTokenResponse_AccessToken (tokens_of (response_of posted.1))) EmptyString EmptyString.
Definition call_with (posted : result Reply * World) : result Protected * World :=
  @Protect server "https://api.example" "notes" "https://api.example/.well-known/oauth-protected-resource"
    (call_request posted) posted.2.

(** The code is exchanged, the token it bought opens the route, and a request
    for another response type goes back to the client. *)
Definition endpoints_work (posted authorized : result Reply * World) : bool :=
  bool_decide (Status (response_of posted.1) = 200%Z) &&
  is_tokens posted.1 &&
  match (call_with posted).1 with Ok (Served _) => true | _ => false end &&
  bool_decide (Status (response_of authorized.1) = 302%Z) &&
  bool_decide (Header (response_of authorized.1) =
    [("Location", "https://app.example/callback?error=unsupported_response_type&error_description=only+response_type%3Dcode+is+supported&iss=https%3A%2F%2Fauth.example&state=s+1");
     ("Cache-Control", "no-store")]).
Lemma endpoints_answer : endpoints_work posting authorizing = true.
Proof. vm_compute. reflexivity. Qed.

Lemma is_tokens_run (p : M World Reply) w : is_tokens (p w).1 = true →
  p w = (Ok (Answered (response_of (p w).1)), (p w).2) ∧
  Payload (response_of (p w).1) = TokenDocument (tokens_of (response_of (p w).1)).
Proof.
  destruct (p w) as [[[resp|]|] w']; try done. cbn. unfold tokens_of. by destruct (Payload resp).
Qed.
Lemma status_run (p : M World Reply) w : Status (response_of (p w).1) ≠ 0%Z →
  p w = (Ok (Answered (response_of (p w).1)), (p w).2).
Proof. by destruct (p w) as [[[resp|]|] w']. Qed.

Lemma token_endpoint_sound_witness :
  let resp := response_of posting.1 in
  Method token_request = "POST" ∧ Status resp = 200%Z ∧ ("Cache-Control", "no-store") ∈ Header resp ∧
  ∃ form clientID secret secretInBody,
    @protocolForm server token_request = Ok form ∧
    clientCredentials token_request form = Ok (clientID, secret, secretInBody) ∧
    @granted_tokens server demo_handler form clientID secret secretInBody (tokens_of resp) consenting.2 posting.2.
Proof.
  pose proof endpoints_answer as H. unfold endpoints_work in H. do 3 apply andb_true_iff, proj1 in H.
  apply andb_true_iff, proj2 in H.
  destruct (is_tokens_run (@Handler_ServeHTTP server demo_handler token_request) consenting.2 H) as [Hr Hp].
  exact (@token_endpoint_sound server _ demo_handler token_request (response_of posting.1)
    (tokens_of (response_of posting.1)) consenting.2 posting.2 Hr Hp).
Defined.

Lemma redirects_registered_witness :
  sent_back demo_handler implicit_request (response_of authorizing.1) registering_client.2 authorizing.2.
Proof.
  pose proof endpoints_answer as H. unfold endpoints_work in H. apply andb_true_iff, proj1, andb_true_iff, proj2 in H.
  apply bool_decide_eq_true in H.
  assert (Status (response_of authorizing.1) ≠ 0%Z) as Hs by (rewrite H; lia).
  exact (@redirects_registered server _ demo_handler implicit_request (response_of authorizing.1)
    registering_client.2 authorizing.2
    (status_run (@Handler_ServeHTTP server demo_handler implicit_request) registering_client.2 Hs) H).
Defined.

Lemma protect_sound_witness : ∃ a oauth prefix,
  (call_with posting).1 = Ok (Served a) ∧ m_oauth (@the_manager server) = Some oauth ∧
  parseOAuthBearer "cba" (bearerToken (call_request posting)) = Some prefix ∧ "notes" ∈ OAuthAuthentication_Scopes a.
Proof.
  pose proof endpoints_answer as H. unfold endpoints_work in H. do 2 apply andb_true_iff, proj1 in H.
  apply andb_true_iff, proj2 in H.
  destruct (call_with posting) as [x w'] eqn:Hx. cbn [fst] in H |- *. unfold call_with in Hx.
  pose proof (@protect_sound server _ "https://api.example" "notes"
    "https://api.example/.well-known/oauth-protected-resource" (call_request posting) x posting.2 w' Hx) as HP.
  clear Hx. destruct HP as [(a & oauth & prefix & Hs & Hm & Hp & _ & Hn)|(resp & challenge & Hs & _)];
    rewrite Hs in H; [|discriminate H].
  exists a, oauth, prefix. split; [exact Hs|]. split; [exact Hm|]. split; [exact Hp|].
  destruct Hn as [Hn|Hn]; [discriminate Hn|exact Hn].
Defined.
