(* ===== verification/ManagerQuiet.v ===== *)
(** * Requests that run alone

    With no interference and a live context, the operations of the manager
    are functions of the store: authorization is exactly the reference
    predicate, an issued session authenticates and is touched, and sign-in answers the same
    error whatever is wrong. *)
From stdpp Require Import base gmap sets list strings numbers.
From Stdlib Require Import ZArith Lia Ascii.
From S2P Require Import Prelude Bytes Uuid Types OAuthTypes Roles AuditChain Store StoreUsers StoreTokens StoreWorkspaces StoreScim StoreOAuth Commit StoreSystem StoreMonotone GoText Tokens Events Manager ManagerGates Config ManagerSession ManagerPAT ManagerPassword ManagerAdmin ManagerScenario ManagerTrace ManagerSystem ManagerSafety ManagerAuth.

Class Quiet (E : Env) : Prop := {
  quiet_interference t : m_interference the_manager t = [];
  quiet_ctx t : Ctx_Err the_ctx t = None }.

#[export] Instance quiet_wf (E : Env) : Quiet E → WfEnv E.
Proof.
  intros HE. split; intros t; [rewrite quiet_interference; constructor|by rewrite quiet_ctx].
Qed.
#[export] Instance demo_quiet : Quiet demo.
Proof. by split. Qed.

Section quiet.
Context {E : Env} `{!Quiet E}.

Lemma interfere_quiet w : interfere w = (Ok tt, w).
Proof. unfold interfere. by rewrite quiet_interference. Qed.

Lemma wp_call_quiet {A} (f : Context → M Store A) Q w :
  wp (f None) (λ r s', Q r (tick (w <| W_store := s' |>))) (W_store w) → wp (call f) Q w.
Proof.
  intros H. apply wp_bind. unfold wp at 1. rewrite interfere_quiet. cbn [fst snd].
  unfold wp, store_step. rewrite quiet_ctx. exact H.
Qed.

Lemma wp_lookup_quiet {A} (op : Context → M Store A) f `{!Lookup op f} Q w :
  Q (match f (W_store w) with Some a => Ok a | None => Error ErrNotFound end) (tick w) →
  wp (call op) Q w.
Proof.
  intros H. apply wp_call_quiet. unfold wp. rewrite lookup_spec. cbn [fst snd]. by rewrite tick_same.
Qed.

Lemma wp_now Q w : Q (Ok (m_clock the_manager (W_tick w))) (tick w) → wp now Q w.
Proof. done. Qed.
End quiet.

Lemma W_store_tick w : W_store (tick w) = W_store w.
Proof. done. Qed.

Ltac quiet_step :=
  lazymatch goal with
  | |- wp (call _) _ _ => eapply wp_lookup_quiet; [apply _|]
  | |- wp now _ _ => apply wp_now
  | |- wp _ _ _ => wp_step
  end.
Ltac quiet_steps := repeat (quiet_step; cbv beta iota zeta).

(** ** A session is accepted until it ends *)

Lemma matchDigestRing_in stored keys key value :
  key ∈ keys → stored = digest key value → matchDigestRing stored keys value = true.
Proof.
  intros Hk ->. apply existsb_exists. exists key. split; [by apply list_elem_of_In|].
  by apply bool_decide_eq_true.
Qed.

(** The session has not ended on any clock reading of the environment. *)
Definition ongoing {E : Env} (row : Session) : Prop :=
  Session_RevokedAt row = None ∧
  ∀ t, let now_ := m_clock the_manager t in
    (now_ < Session_ExpiresAt row)%Z ∧
    ((0 < m_sessionIdleTimeout the_manager)%Z →
      (now_ < Session_LastSeenAt row + m_sessionIdleTimeout the_manager)%Z).

(** The moment [AuthenticateSession] decides whether the use is recorded: it has
    looked up the session and the user and read the clock twice. *)
Definition deciding (w : World) : World := Nat.iter 4 tick w.
Definition touch_time {E : Env} (w : World) : Z := m_clock the_manager (W_tick (deciding w)).
(** The last use is not recent enough to be left as it is. *)
Definition touch_due {E : Env} (row : Session) (w : World) : bool :=
  negb (bool_decide (0 < m_sessionTouchInterval the_manager)%Z &&
        Time_Before (touch_time w) (Session_LastSeenAt row + m_sessionTouchInterval the_manager)).
(** The event of the use can be made, and the audit trail accepts it. *)
Definition touch_audited {E : Env} (row : Session) (w : World) (event : AuditEvent) : Prop :=
  (newAudit (Session_UserID row) "session.authenticate" "session" (UUID_String (Session_ID row)) Nil
    AuditSucceeded EmptyString (tick (deciding w))).1 = Ok event ∧
  canAudit (W_store w) event = None.
(** What recording the use changes: when the session and its user were last seen. *)
Definition touched (row : Session) (at_ : Z) (event : AuditEvent) (s : Store) : Store :=
  commitAudit event false (touchLastSeenLocked (Session_UserID row) at_
    (s <| sessions ::= <[Session_ID row := row <| Session_LastSeenAt := at_ |>]> |>)).

Lemma newAudit_quiet {E : Env} `{!Quiet E} actor action rt rid ws outcome reason w :
  W_store (newAudit actor action rt rid ws outcome reason w).2 = W_store w.
Proof.
  unfold newAudit, newID, mbind, M_bind. rewrite interfere_quiet. cbn. unfold randomBytes.
  by destruct (m_random_error _ _).
Qed.

Lemma TouchSession_live id at_ event row s :
  sessions s !! id = Some row → Session_RevokedAt row = None → Session_ID row = id → canAudit s event = None →
  TouchSession None id at_ (audit_commit event) s = (Ok tt, touched row at_ event s).
Proof.
  intros Hrow Hrev Hid Hcan. unfold TouchSession, commit_update, commit_with, prepareCommitLocked.
  cbv [check_ctx mbind M_bind get mret M_ret throw_if ok_or]. rewrite Hrow. cbv beta iota. rewrite Hrev.
  cbn. rewrite Hcan. unfold touched. by rewrite Hid.
Qed.

Lemma AuthenticateSession_ongoing {E : Env} `{!Quiet E} raw id row user w :
  m_sessionStore the_manager = true → parseSecretToken sessionTokenPrefix raw = Some id →
  sessions (W_store w) !! id = Some row → Session_ID row = id →
  matchTokenDigest (Session_Digest row) (session_secret raw) = true → ongoing row →
  users (W_store w) !! Session_UserID row = Some user → User_Disabled user = false →
  wp (Manager_AuthenticateSession raw) (λ r w',
    if touch_due row w
    then ∀ event, touch_audited row w event →
      r = Ok (session_context row,
              row <| Session_LastSeenAt := touch_time w |> <| Session_Digest := EmptyString |>) ∧
      W_store w' = touched row (touch_time w) event (W_store w)
    else r = Ok (session_context row, row <| Session_Digest := EmptyString |>) ∧ W_store w' = W_store w) w.
Proof.
  intros Hstore Hid Hrow Hkey Hdigest [Hrev Hclock] Huser Hdis.
  assert (∀ t, Time_Before (m_clock the_manager t) (Session_ExpiresAt row) = true) as Hexp.
  { intros t. by apply bool_decide_eq_true, Hclock. }
  assert (∀ t, bool_decide (0 < m_sessionIdleTimeout the_manager)%Z &&
    negb (Time_Before (m_clock the_manager t)
            (Session_LastSeenAt row + m_sessionIdleTimeout the_manager)) = false) as Hidle.
  { intros t. case_bool_decide; [|done]. by apply negb_false_iff, bool_decide_eq_true, Hclock. }
  unfold Manager_AuthenticateSession, session_of_token. rewrite Hstore, Hid. cbn [negb throw_if].
  repeat first
    [ progress rewrite ?W_store_tick, ?Hrow, ?Hdigest, ?Hrev, ?Hexp, ?Hidle, ?Huser, ?Hdis;
      change (not_nil None) with false; cbn [negb] | quiet_step; cbv beta iota zeta ].
  - unfold touch_due, touch_time. change (deciding w) with (tick (tick (tick (tick w)))). by rewrite Hcase.
  - assert (touch_due row w = true) as ->.
    { unfold touch_due, touch_time. change (deciding w) with (tick (tick (tick (tick w)))). by rewrite Hcase. }
    unfold touch_audited. change (tick (deciding w)) with (tick (tick (tick (tick (tick w))))).
    pose proof (newAudit_quiet (Session_UserID row) "session.authenticate" "session" (UUID_String (Session_ID row)) Nil
      AuditSucceeded EmptyString (tick (tick (tick (tick (tick w)))))) as Hs.
    apply wp_intro. intros r w6 Hn. rewrite Hn in Hs |- *. cbn [fst snd] in Hs. destruct r as [event|e].
    + destruct (decide (canAudit (W_store w) event = None)) as [Hcan|Hcan];
        [|by apply wp_intro; intros r w' _ event' [[= <-] ?]].
      apply wp_bind, wp_attempt, wp_call_quiet. subst id.
      unfold wp at 1. rewrite Hs, !W_store_tick, (TouchSession_live _ _ _ row) by done. cbn [fst snd].
      apply wp_ret. by intros event' [[= <-] _].
    + by intros event' [[=] _].
Qed.

(** C26: sessions round-trip. The token [CreateSession] returns authenticates,
    in every later state of the store and under every configuration that still
    reads the key it was digested with, to exactly the context it was created
    from, until the session is revoked, expires or idles out or the account is
    disabled; the token carries neither a workspace binding nor scopes. The
    request that authenticates runs alone. Within the touch interval it leaves
    the store as it is; otherwise (always, where no interval is configured) it
    records when the session and its user were last seen and nothing else,
    provided the audit trail accepts the event of that use. *)
Theorem session_round_trip {E1 E2 : Env} `{!WfEnv E1, !Quiet E2} actor issued w w' w2 :
  id_range w → @Manager_CreateSession E1 actor w = (Ok issued, w') →
  m_sessionStore (@the_manager E2) = true →
  m_digestKey (@the_manager E1) ∈ m_readDigestKeys (@the_manager E2) →
  reaches (W_store w') (W_store w2) →
  (∀ row, sessions (W_store w2) !! Session_ID (IssuedSession_Session issued) = Some row → @ongoing E2 row) →
  enabled (Authentication_UserID actor) (W_store w2) →
  ∃ row, sessions (W_store w2) !! Session_ID (IssuedSession_Session issued) = Some row ∧
    let r := @Manager_AuthenticateSession E2 (IssuedSession_Token issued) w2 in
    if @touch_due E2 row w2
    then ∀ event, @touch_audited E2 row w2 event →
      r.1 = Ok (session_part actor, row <| Session_LastSeenAt := @touch_time E2 w2 |>
                                        <| Session_Digest := EmptyString |>) ∧
      W_store r.2 = touched row (@touch_time E2 w2) event (W_store w2)
    else r.1 = Ok (session_part actor, row <| Session_Digest := EmptyString |>) ∧ W_store r.2 = W_store w2.
Proof.
  intros Hr Hc Hstore Hkey Hreach Hon (user & Huser & Hdis).
  apply (Ensures_run _ _ _ _ _ (CreateSession_ensures actor)) in Hc as [_ Hi].
  destruct (Hi Hr) as [_ _ _ (row & Hrow & Hs & Hparse & Hdigest & Hctx & _)].
  destruct (reaches_sessions _ _ Hreach _ _ Hrow) as (row' & Hrow' & Hle).
  rewrite Hs in Hon |- *. specialize (Hon row' Hrow').
  assert (session_context row' = session_part actor ∧ Session_Digest row' = Session_Digest row ∧
    Session_ID row' = Session_ID row) as (Hctx' & Hd & Hid).
  { rewrite <- Hctx. by destruct Hle as (? & ? & ? & ? & -> & _). }
  assert (Session_UserID row' = Authentication_UserID actor) as Hu by by injection Hctx'.
  rewrite <- Hu in Huser. exists row'. split; [done|].
  assert (@matchTokenDigest E2 (Session_Digest row')
    (session_secret (IssuedSession_Token issued)) = true) as Hm.
  { rewrite Hd, Hdigest. by eapply matchDigestRing_in. }
  pose proof (@AuthenticateSession_ongoing E2 _ _ _ row' user w2 Hstore Hparse Hrow' Hid Hm Hon Huser Hdis) as Hwp.
  unfold wp in Hwp. rewrite Hctx' in Hwp. exact Hwp.
Qed.

(** The same host ten seconds after the deployment, recording every use. *)
Definition demo_later : Env :=
  mkEnv (demo_manager <| m_clock := λ _, (10 ^ 18 + 10 * 10 ^ 9)%Z |> <| m_sessionTouchInterval := 0%Z |>) background.
#[export] Instance demo_later_quiet : Quiet demo_later.
Proof. by split. Qed.

Definition root_issued : IssuedSession := ok_of (mkIssuedSession Session_zero EmptyString) root_session.
Definition root_row (w : World) : Session :=
  default Session_zero (sessions (W_store w) !! Session_ID (IssuedSession_Session root_issued)).
Definition root_use (w : World) : result AuditEvent :=
  (@newAudit demo_later (Session_UserID (root_row w)) "session.authenticate" "session"
    (UUID_String (Session_ID (root_row w))) Nil AuditSucceeded EmptyString (tick (deciding w))).1.
Definition use_check (w : World) (use : result AuditEvent) : bool :=
  match sessions (W_store w) !! Session_ID (IssuedSession_Session root_issued), use with
  | Some row, Ok event =>
      negb (not_nil (Session_RevokedAt row)) &&
      bool_decide (10 ^ 18 + 10 * 10 ^ 9 < Session_ExpiresAt row)%Z &&
      negb (not_nil (canAudit (W_store w) event))
  | _, _ => false
  end.
Lemma use_facts : use_check root_session.2 (root_use root_session.2) = true.
Proof. vm_compute. reflexivity. Qed.

Lemma use_check_spec w use : use_check w use = true →
  ∃ row event, sessions (W_store w) !! Session_ID (IssuedSession_Session root_issued) = Some row ∧
    row = root_row w ∧ use = Ok event ∧ @ongoing demo_later row ∧ canAudit (W_store w) event = None.
Proof.
  unfold use_check, root_row. destruct (sessions (W_store w) !! _) as [row|]; [|done].
  destruct use as [event|]; [|done]. rewrite !andb_true_iff, bool_decide_eq_true, !negb_true_iff.
  intros ((Hr & He) & Hc). exists row, event. split_and!; [done..| |by destruct (canAudit _ _)].
  split; [by destruct (Session_RevokedAt row)|]. intros t.
  change (m_clock (@the_manager demo_later) t) with (10 ^ 18 + 10 * 10 ^ 9)%Z. split; [done|].
  assert (m_sessionIdleTimeout (@the_manager demo_later) = 0%Z) as -> by (vm_compute; reflexivity). lia.
Qed.

Lemma session_round_trip_witness :
  ∃ row event, (@Manager_AuthenticateSession demo_later (IssuedSession_Token root_issued) root_session.2).1 =
    Ok (session_part root, row <| Session_LastSeenAt := (10 ^ 18 + 10 * 10 ^ 9)%Z |>
                               <| Session_Digest := EmptyString |>) ∧
    W_store (@Manager_AuthenticateSession demo_later (IssuedSession_Token root_issued) root_session.2).2 =
      touched row (10 ^ 18 + 10 * 10 ^ 9) event (W_store root_session.2).
Proof.
  destruct (use_check_spec _ _ use_facts) as (row & event & Hrow & Hdef & Huse & Hon & Hcan).
  destruct (@session_round_trip demo demo_later _ _ root root_issued served root_session.2 root_session.2)
    as (row' & Hrow' & H).
  - split; vm_compute; congruence.
  - apply run_split. vm_compute. reflexivity.
  - reflexivity.
  - apply list_elem_of_here.
  - apply reaches_refl.
  - intros row'. rewrite Hrow. intros [= <-]. exact Hon.
  - assert (User_Disabled <$> users (W_store root_session.2) !! Authentication_UserID root = Some false)
      as H by (vm_compute; reflexivity).
    destruct (users (W_store root_session.2) !! Authentication_UserID root) as [user|] eqn:Hu; [|done].
    exists user. split; [done|]. by injection H.
  - rewrite Hrow in Hrow'. injection Hrow' as <-. exists row, event.
    apply H. split; [|exact Hcan]. rewrite Hdef. exact Huse.
Defined.

(** ** Authorization is exactly the reference predicate *)
Section authorization.
Context {E : Env} `{!Quiet E}.

(** The specification of [AuthorizePermission]. *)
Definition permitted (s : Store) (a : Authentication) (id : UUID)
    (permission : WorkspacePermission) : Prop :=
  Authentication_UserID a ≠ Nil ∧ Authentication_SecondFactorRequired a = false ∧
  id ≠ Nil ∧ workspacePermissionPattern permission = true ∧
  credential_covers a id permission ∧
  enabled (Authentication_UserID a) s ∧ open_workspace a id s ∧
  member_allowed id (Authentication_UserID a) permission s.

(** A computation that only tests the store: it passes exactly when [P] holds,
    and then leaves the store as it is. *)
Definition Tests (p : M World unit) (P : Store → Prop) : Prop :=
  ∀ w, wp p (λ r w', (r = Ok tt ↔ P (W_store w)) ∧ (r = Ok tt → W_store w' = W_store w)) w.

Lemma Tests_bind p q P Q : Tests p P → Tests q Q → Tests (p;; q) (λ s, P s ∧ Q s).
Proof.
  intros Hp Hq w. apply wp_bind. eapply wp_mono; [apply Hp|]. intros [[]|e] w1 [HP Hs].
  - eapply wp_mono; [apply Hq|]. rewrite Hs by done. intros r w2 [HQ Hs2]. tauto.
  - split; [|done]. split; [done|]. intros [H _]. by apply HP in H.
Qed.
Lemma Tests_throw_if b e : Tests (throw_if b e) (λ _, b = false).
Proof. intros w. by destruct b. Qed.
Lemma Tests_denied (b : bool) (p : M World unit) e :
  Tests (if b then p;; throw e else mret tt) (λ _, b = false).
Proof.
  intros w. destruct b; [|done]. apply wp_intro. unfold mbind, M_bind. intros r w'.
  by destruct (p w) as [[] ?]; intros [= <- _].
Qed.
Lemma Tests_lookup {A} (op : Context → M Store A) f `{!Lookup op f} absent k
    (K : A → Store → Prop) :
  (∀ a, Tests (k a) (K a)) →
  Tests (a ← lookup_or_forbidden op absent; k a) (λ s, ∃ a, f s = Some a ∧ K a s).
Proof.
  intros Hk w. unfold lookup_or_forbidden. do 3 quiet_step. eapply wp_lookup_quiet; [done|].
  destruct (f (W_store w)) as [a|] eqn:Ha.
  - cbv iota. apply wp_ret. eapply wp_mono; [apply Hk|]. intros r w' [HK Hs]. split; [|done].
    rewrite HK, W_store_tick. split; [by exists a|]. intros (a' & [= <-] & H). done.
  - cbn [errors_Is]. rewrite bool_decide_eq_true_2 by done. apply wp_intro. intros r w'.
    unfold mbind, M_bind. destruct (absent (tick w)) as [[] ?]; intros [= <- _];
      (split; [|done]); (split; [done|]); by intros (? & ? & _).
Qed.
Lemma Tests_active u : Tests (requireActiveUser u) (enabled u).
Proof.
  intros w. unfold requireActiveUser. do 2 quiet_step. eapply wp_lookup_quiet; [apply _|]. cbv beta.
  destruct (users (W_store w) !! u) as [user|] eqn:Hu.
  - eapply wp_mono; [apply Tests_throw_if|]. cbv beta. intros r w' [H Hs].
    split; [|exact Hs]. rewrite H. split; [by exists user|].
    intros (user' & Hu' & Hd). congruence.
  - apply wp_throw. split; [|done]. split; [done|]. intros (? & ? & _). congruence.
Qed.
Lemma Tests_equiv p P Q : Tests p P → (∀ s, P s ↔ Q s) → Tests p Q.
Proof. intros Hp HPQ w. eapply wp_mono; [apply Hp|]. intros r w' [H Hs]. split; [|done]. rewrite H. apply HPQ. Qed.

Lemma credential_covers_spec a id permission :
  credential_covers a id permission ↔
  negb (bool_decide (Authentication_Scopes a = [])) && negb (HasScope a permission) = false ∧
  bound_elsewhere a id = false.
Proof.
  unfold credential_covers. rewrite bound_elsewhere_false, andb_false_iff, !negb_false_iff.
  by rewrite bool_decide_eq_true.
Qed.

Lemma Tests_AuthorizePermission a id permission :
  Tests (AuthorizePermission a id permission) (λ s, permitted s a id permission).
Proof.
  unfold AuthorizePermission. eapply Tests_equiv.
  { repeat first [apply Tests_bind|apply Tests_throw_if|apply Tests_denied|apply Tests_active
                 |apply Tests_lookup; [apply _|intros ?]]. }
  intros s. unfold permitted, anonymous, open_workspace, member_allowed. cbv beta.
  rewrite credential_covers_spec, bool_decide_eq_false, orb_false_iff, bool_decide_eq_false, negb_false_iff.
  setoid_rewrite orb_false_iff. setoid_rewrite negb_false_iff. setoid_rewrite bool_decide_eq_false.
  setoid_rewrite <- eq_None_not_Some.
  assert (∀ m, ¬ Membership_Status m ≠ MembershipActive ↔ Membership_Status m = MembershipActive) as Hst
    by (intros m; destruct (decide (Membership_Status m = MembershipActive)); tauto).
  setoid_rewrite Hst. split.
  - intros (? & ? & (? & ?) & ? & ? & ? & w & ? & ? & ? & Hm).
    split_and!; [done..|by exists w|exact Hm].
  - intros (? & ? & ? & ? & (? & ?) & ? & (w & ? & ? & ?) & Hm).
    split_and!; [done..|]. exists w. split_and!; [done..|exact Hm].
Qed.

(** C17: authorization decides its specification. For a request that runs alone
    under a live context, [AuthorizePermission] passes exactly when the context
    is signed in and complete, the credential's scopes and binding cover the
    permission in this workspace, the account is enabled, the workspace exists,
    is enabled and its MFA policy is met, and an active membership has a role
    that grants the permission; nothing else matters, and passing changes
    nothing. *)
Theorem authorize_permission_exact a id permission w :
  ((AuthorizePermission a id permission w).1 = Ok tt ↔ permitted (W_store w) a id permission) ∧
  ((AuthorizePermission a id permission w).1 = Ok tt →
    W_store (AuthorizePermission a id permission w).2 = W_store w).
Proof. apply (Tests_AuthorizePermission a id permission w). Qed.
End authorization.

Lemma authorize_permission_exact_witness :
  permitted (E := demo) (W_store served) root (Workspace_ID acme) PermissionWorkspaceUsersWrite.
Proof.
  apply (proj1 (@authorize_permission_exact demo demo_quiet root (Workspace_ID acme)
    PermissionWorkspaceUsersWrite served)).
  vm_compute. reflexivity.
Defined.
