(* ===== verification/ManagerGated.v ===== *)
(** * What each request demands of its actor

    Every request of the manager is classified: the changes that need a
    complete interactive context, those that accept one whose second factor is
    pending, those that any signed-in credential may make, those that carry
    their own proof, and the reads. *)
From stdpp Require Import base gmap sets list strings numbers.
From Stdlib Require Import ZArith Lia Ascii.
From S2P Require Import Prelude Bytes GoText Uuid Types OAuthTypes Roles AuditChain Store StoreUsers StoreTokens StoreWorkspaces StoreScim StoreOAuth StorePages Commit StoreSystem StoreMonotone Tokens Events Manager ManagerGates Config ManagerSession ManagerPAT ManagerPassword ManagerAdmin ManagerEmail ManagerInvite ManagerSeal ManagerFactor ManagerPasskey ManagerSSO ManagerScim OAuthPolicy ManagerOAuth ManagerOAuthTokens ManagerOAuthAdmin ManagerListings ManagerScenario ManagerTrace ManagerSystem ManagerSafety ManagerAuth ManagerQuiet.

(** ** Reads *)

(** The store without the trail of what happened. *)
Definition besides_trail (s : Store) : Store :=
  s <| audits := [] |> <| auditIDs := ∅ |> <| auditSequence := 0%Z |> <| auditHead := EmptyString |>.

(** A computation that leaves the store as it is, apart from the trail. *)
Definition Still {E : Env} {A} (p : M World A) : Prop :=
  ∀ w, besides_trail (W_store (p w).2) = besides_trail (W_store w).

Section still.
Context {E : Env} `{!Quiet E}.

Lemma Still_bind {A B} (p : M World A) (k : A → M World B) : Still p → (∀ a, Still (k a)) → Still (p ≫= k).
Proof.
  intros Hp Hk w. unfold mbind, M_bind. specialize (Hp w). destruct (p w) as [[a|e] w1]; [|done].
  cbn in Hp. by rewrite Hk.
Qed.
Lemma Still_attempt {A} (p : M World A) : Still p → Still (attempt p).
Proof. intros Hp w. apply Hp. Qed.
Lemma Still_call {A} (f : Context → M Store A) : (∀ ctx, ReadOnly (f ctx)) → Still (call f).
Proof.
  intros Hf w. unfold call, mbind, M_bind. rewrite interfere_quiet. cbn [store_step snd].
  f_equal. apply (Hf _ (W_store w)).
Qed.
Lemma Still_AppendAudit e : Still (call (λ ctx, AppendAudit ctx (audit_commit e))).
Proof.
  intros w. unfold call, mbind, M_bind. rewrite interfere_quiet. cbn [store_step snd]. rewrite quiet_ctx.
  unfold AppendAudit, prepareCommitLocked, check_ctx, mbind, M_bind, get, mret, M_ret. cbn [audit_commit].
  by destruct (canAudit _ _).
Qed.
Lemma Still_interfere : Still interfere.
Proof. intros w. by rewrite interfere_quiet. Qed.
Lemma Still_iterate {A B} (body : A → M World (A + B)) n a : (∀ a, Still (body a)) → Still (iterate body n a).
Proof.
  intros Hb. revert a. induction n as [n IH|n IH|]; intros a; cbn [iterate]; [| |apply Hb];
    (apply Still_bind; [done|]); intros [a'|b]; [|by intros ?|done|by intros ?].
  apply Still_bind; [done|]. intros [a''|b]; [done|by intros ?].
Qed.
Lemma Still_loop {A B} (body : A → M World (A + B)) a : (∀ a, Still (body a)) → Still (loop body a).
Proof.
  intros Hb. unfold loop. apply Still_bind; [by apply Still_iterate|]. by intros [|] w.
Qed.
End still.

Ltac still_call :=
  apply Still_call; intros ?;
  lazymatch goal with
  | |- ReadOnly (_ ≫= _) => idtac
  | |- ReadOnly ?op => let h := get_head op in unfold h
  end; readonly.
Ltac still :=
  repeat (cbv zeta beta;
    lazymatch goal with
    | |- Still (_ ≫= _) => apply Still_bind; [|intros ?]
    | |- Still (match ?x with _ => _ end) => destruct x
    | |- Still (attempt _) => apply Still_attempt
    | |- Still (mret _) => by intros ?
    | |- Still (throw _) => by intros ?
    | |- Still (throw_if ?b _) => destruct b; by intros ?
    | |- Still (modify _) => by intros ?
    | |- Still get => by intros ?
    | |- Still now => by intros ?
    | |- Still (port _) => by intros ?
    | |- Still interfere => apply Still_interfere
    | |- Still (call (λ _, AppendAudit _ _)) => apply Still_AppendAudit
    | |- Still (call _) => still_call
    | |- Still (loop _ _) => apply Still_loop; intros ?
    | |- Still ?p => first [solve [eauto with cb_still]|let h := get_head p in unfold h]
    end).

Create HintDb cb_still.

Section reads.
Context {E : Env} `{!Quiet E}.

Lemma Still_randomBytes n : Still (randomBytes n).
Proof. intros w. unfold randomBytes. by destruct (m_random_error _ _). Qed.
Lemma Still_map_first n : Still (map_first n).
Proof. by intros w. Qed.
Lemma Still_joined {T U} b owner (join : T → User → U) events : Still (joined b owner join events).
Proof.
  induction events as [|[[e|item]|e] events IH]; cbn [joined]; [by intros ?| | |by intros ?]; still.
Qed.
Lemma Still_affiliations u l : Still (affiliations u l).
Proof. induction l as [|x l IH]; cbn [affiliations]; still. Qed.
End reads.
#[export] Hint Resolve Still_randomBytes Still_map_first Still_joined Still_affiliations : cb_still.

(** ** The demand of a request *)
Inductive Demand :=
| Complete (actor : Authentication) (local : bool)
| Present (actor : Authentication)
| SignedIn (actor : Authentication)
| OwnProof
| Reading.

Definition demand (r : Request) : Demand :=
  match r with
  (* changes to accounts, credentials, workspaces, directories and clients *)
  | Req_RevokeSession a _ | Req_CreatePAT a _ | Req_RevokePAT a _ | Req_RevokeWorkspacePAT a _ _
  | Req_CreateUser a _ _ | Req_ChangePassword a _ _ | Req_GrantRole a _ _ _
  | Req_CreateWorkspace a _ | Req_UpdateWorkspace a _ _ | Req_DisableWorkspace a _
  | Req_EnableWorkspace a _ | Req_UpdateUser a _ | Req_AddMembership a _ _ _
  | Req_SetMembershipStatus a _ _ _ | Req_RemoveMembership a _ _ | Req_BeginEmailAddition a _
  | Req_SetPrimaryEmail a _ | Req_RemoveEmail a _ | Req_InviteToWorkspace a _ _
  | Req_AcceptInvitation a _ | Req_RevokeInvitation a _ _ | Req_CreateWorkspaceDomain a _ _
  | Req_ConfirmWorkspaceDomain a _ | Req_UpdateWorkspaceDomainPolicy a _ _
  | Req_RemoveWorkspaceDomain a _ | Req_BeginTOTPEnrollment a | Req_ConfirmTOTPEnrollment a _
  | Req_RegenerateRecoveryCodes a | Req_BeginPasskeyRegistration a _
  | Req_FinishPasskeyRegistration a _ _ | Req_DeletePasskey a _ | Req_BeginSSOLink a _
  | Req_BeginSSOStepUp a _ | Req_UnlinkSSO a _ | Req_CreateSCIMConfiguration a _ _
  | Req_UpdateSCIMConfiguration a _ _ | Req_RotateSCIMCredential a _ _ | Req_RevokeSCIMCredential a _ _
  | Req_DisableSCIMConfiguration a _ | Req_AdoptSCIMUser a _ _ _ | Req_CreateOAuthProtectedResource a _ _
  | Req_DisableOAuthProtectedResource a _ _ | Req_EnableOAuthProtectedResource a _ _
  | Req_RevokeOAuthGrant a _ => Complete a false
  (* administration of the instance, which the host may vouch to be local *)
  | Req_RevokeUserSessions a q _ | Req_SetInstanceRole a q _ _ | Req_RemoveInstanceRole a q _
  | Req_AdminUpdateWorkspace a q _ _ | Req_AdminDisableWorkspace a q _
  | Req_AdminEnableWorkspace a q _ | Req_setUserDisabled a q _ _ | Req_AdminUpdateUser a q _ _
  | Req_RevokeUserCredentials a q _ | Req_AdminResetSecondFactor a q _
  | Req_AnonymizeUser a q _ | Req_CreateOAuthIssuer a q _ | Req_UpdateOAuthIssuer a q _ _
  | Req_PreRegisterOAuthClient a q _ _ | Req_CreateOAuthInitialAccessToken a q _ _
  | Req_RevokeOAuthInitialAccessToken a q _ | Req_DisableOAuthIssuer a q _ | Req_EnableOAuthIssuer a q _
  | Req_DisableOAuthClient a q _ | Req_EnableOAuthClient a q _ | Req_RotateOAuthClientSecret a q _
  | Req_ReplaceOAuthClientJWKS a q _ _ => Complete a (TrustedRequest_Local q)
  (* what a context whose second factor is pending may do *)
  | Req_CreateSession a | Req_VerifyTOTP a _ | Req_DisableTOTP a _ | Req_BeginOAuthAuthorization a _
  | Req_CompleteOAuthAuthorization a _ _ => Present a
  (* a note in the trail *)
  | Req_RecordAudit a _ => SignedIn a
  (* sign-in, registration, recovery, and the SCIM and OAuth protocols *)
  | Req_AuthenticateSession _ | Req_SignOut _ | Req_AuthenticatePAT _ | Req_Bootstrap _
  | Req_AuthenticatePassword _ _ | Req_ResendEmailVerification _ | Req_ConfirmEmail _
  | Req_BeginPasswordReset _ | Req_CompletePasswordReset _ _ | Req_BeginEmailAuthentication _
  | Req_CompleteEmailAuthentication _ | Req_RegisterFromInvitation _ _ | Req_SignUp _
  | Req_BeginEmailOTP _ | Req_CompleteEmailOTP _ _ | Req_BeginPasskeyAuthentication _
  | Req_FinishPasskeyAuthentication _ _ | Req_BeginDiscoverablePasskeyAuthentication
  | Req_FinishDiscoverablePasskeyAuthentication _ _ | Req_BeginSSO _ | Req_FinishSSO _ _
  | Req_AuthenticateSCIM _ | Req_ProvisionSCIMUser _ _ | Req_ReplaceSCIMUser _ _ _
  | Req_DeprovisionSCIMUser _ _ | Req_UpsertSCIMGroup _ _ _ | Req_DeleteSCIMGroup _ _
  | Req_RegisterOAuthClient _ _ _ | Req_ValidateOAuthAuthorizationRedirect _ _ _
  | Req_ExchangeOAuthAuthorizationCode _ | Req_IssueOAuthClientCredentials _
  | Req_RefreshOAuthToken _ | Req_RevokeOAuthToken _ | Req_AuthenticateOAuthAccessToken _ _ => OwnProof
  | Req_InstanceAdministrator _ _ | Req_User _ _ | Req_Workspace _ _ | Req_Membership _ _ _
  | Req_VerifyAuditChainFrom _ _ | Req_Emails _ _ _ | Req_WorkspaceInvitations _ _ _
  | Req_WorkspaceDomains _ _ _ _ | Req_TOTPStatus _ _ | Req_Passkeys _ _ | Req_SSOIdentities _ _ _ _
  | Req_SCIMConfigurations _ _ | Req_SCIMCredentials _ _ | Req_SCIMUser _ _ | Req_SCIMUsers _ _ _ _
  | Req_SCIMGroup _ _ | Req_SCIMGroups _ _ _ _ | Req_OAuthInitialAccessTokens _ _ | Req_OAuthUserInfo _ _
  | Req_OAuthAuthorizationServerMetadata _ | Req_OAuthProtectedResourceMetadata _ | Req_OAuthJWKS _
  | Req_OAuthIssuers _ _ | Req_OAuthProtectedResources _ _ _ | Req_OAuthClients _ _ _
  | Req_OAuthGrants _ _ _ | Req_Sessions _ _ _ _ | Req_PATs _ _ _ _ | Req_WorkspacePATs _ _ _
  | Req_Users _ _ | Req_Workspaces _ _ | Req_UserWorkspaces _ _ | Req_Memberships _ _ _
  | Req_WorkspaceMembers _ _ _ | Req_InstanceAdministrators _ | Req_AuditEvents _ _ _
  | Req_InstanceAuditEvents _ _ | Req_ExportUserData _ _ => Reading
  end.

Lemma reading_still {E : Env} `{!Quiet E} r : demand r = Reading → Still (run_request r).
Proof. intros Hr. destruct r; try discriminate Hr; clear Hr; cbn [run_request]; still. Qed.

(** What a successful request shows of its actor. *)
Definition meets (d : Demand) : Prop :=
  match d with
  | Complete a local => admitted a local
  | Present a => Authentication_UserID a ≠ Nil ∧ Interactive a = true
  | SignedIn a => Authentication_UserID a ≠ Nil
  | OwnProof | Reading => True
  end.

Ltac find_gate :=
  cbv beta iota zeta;
  lazymatch goal with
  | |- wp (requireScopedStepUp _ _ _ ≫= _) _ _ =>
      apply ok_bind; eapply ok_ensures; [apply requireScopedStepUp_ensures|];
      intros [] ? _ ?; repeat (apply ok_any; intros ? ?); by eapply gate_admits
  | |- wp (authorizeWorkspaceMutation _ _ _ _ ≫= _) _ _ =>
      apply ok_bind; eapply ok_ensures; [apply authorizeWorkspaceMutation_ensures|];
      intros [] ? _ [? _]; repeat (apply ok_any; intros ? ?); by eapply gate_admits
  | |- wp (requireAdminMutation _ _ _ ≫= _) _ _ =>
      apply ok_bind; eapply ok_ensures; [apply requireAdminMutation_ensures|];
      intros [] ? _ ?; repeat (apply ok_any; intros ? ?); assumption
  | |- wp (requireRecentInteractive _ ≫= _) _ _ =>
      apply ok_bind; eapply ok_ensures; [apply requireRecentInteractive_ensures|];
      intros [] ? _ ((? & ? & ?) & _); repeat (apply ok_any; intros ? ?); split_and!; auto
  | |- wp (AuthorizeAdmin _ _ ≫= _) _ _ =>
      apply ok_bind, ok_traced; [traced|]; intros [] ? _; find_gate
  | |- wp (ok_or _ _ ≫= _) _ _ => apply ok_bind, ok_traced; [traced|]; intros ? ? _; find_gate
  | |- wp (call _ ≫= _) _ _ => apply ok_bind, ok_any; intros ? ?; find_gate
  | |- wp (throw_if _ _ ≫= _) _ _ => ok_step; ok_step; find_gate
  | |- wp ((if ?b then _ else _) ≫= _) _ _ => destruct b; find_gate
  | |- wp ((_ ≫= _) ≫= _) _ _ => apply ok_bind; find_gate
  | |- wp (?p ≫= _) _ _ => let h := get_head p in unfold h; find_gate
  | |- wp (requireAdminMutation _ _ _) _ _ =>
      eapply ok_ensures; [apply requireAdminMutation_ensures|];
      intros [] ? _ ?; repeat (apply ok_any; intros ? ?); assumption
  | |- wp (requireScopedStepUp _ _ _) _ _ =>
      eapply ok_ensures; [apply requireScopedStepUp_ensures|];
      intros [] ? _ ?; repeat (apply ok_any; intros ? ?); by eapply gate_admits
  | |- wp ?p _ _ => let h := get_head p in unfold h; find_gate
  end.

Section demands.
Context {E : Env} `{!WfEnv E}.

Lemma complete_admitted r a local w :
  demand r = Complete a local → wp_ok (run_request r) (λ _ _, admitted a local) w.
Proof.
  intros Hg. destruct r; inversion Hg; subst; clear Hg; cbn [run_request]; unfold done_;
    apply ok_bind;
    lazymatch goal with |- wp ?p _ _ => let h := get_head p in unfold h end; find_gate.
Qed.

Lemma VerifyTOTP_present a code w :
  wp_ok (Manager_VerifyTOTP a code) (λ _ _, meets (Present a)) w.
Proof.
  unfold Manager_VerifyTOTP, anonymous. ok_step. apply ok_any. intros provider w1.
  ok_step. ok_step. bool_cases. apply ok_any. by intros.
Qed.

Lemma present_interactive r a w : demand r = Present a → wp_ok (run_request r) (λ _ _, meets (Present a)) w.
Proof.
  intros Hg. destruct r; inversion Hg; subst; clear Hg; cbn [run_request]; unfold done_; apply ok_bind.
  - unfold Manager_CreateSession, anonymous. do 6 ok_step. bool_cases. apply ok_any. intros. by apply ok_any.
  - eapply wp_mono; [apply VerifyTOTP_present|]. intros [] w' H; [|done]. by apply ok_any.
  - unfold Manager_DisableTOTP. ok_step. apply ok_any. intros ? w1. ok_step.
    eapply wp_mono; [apply VerifyTOTP_present|]. intros [] w' H; [|done]. apply ok_any. intros. by apply ok_any.
  - unfold Manager_BeginOAuthAuthorization. ok_step. apply ok_any. intros ? w1. do 2 ok_step. bool_cases.
    apply ok_any. intros. by apply ok_any.
  - unfold Manager_CompleteOAuthAuthorization. ok_step. apply ok_any. intros ? w1. ok_step. apply ok_any. intros ? w2.
    cbv zeta. do 2 ok_step. bool_cases. apply ok_any. intros. by apply ok_any.
Qed.

Lemma demand_met r w : wp_ok (run_request r) (λ _ _, meets (demand r)) w.
Proof.
  destruct (demand r) as [a local|a|a| |] eqn:Hd; [by apply complete_admitted|by apply present_interactive| | |];
    [|by apply ok_any..].
  destruct r; inversion Hd; subst; clear Hd. cbn [run_request]. unfold done_, Manager_RecordAudit, anonymous.
  apply ok_bind. do 2 ok_step. bool_cases. apply ok_any. intros. by apply ok_any.
Qed.
End demands.

(** C18: every request is classified by what it demands of its actor, and a
    request that succeeds met its demand, whatever the policies, the roles and
    the interleaving. A change to accounts, credentials, factors, workspaces,
    memberships, invitations, domains, identity links, SCIM configurations or
    the OAuth registry ([Complete]) is refused to an anonymous context, to a
    non-interactive credential such as a personal access token, and to a
    context whose second factor is pending unless it is an administrative
    request the host vouches to be local. Opening a session, verifying or
    disabling TOTP and the two steps of an OAuth consent ([Present]) need an
    interactive context that may still be pending; recording a note in the
    audit trail ([SignedIn]) needs a signed-in one. Sign-in, registration,
    recovery and the SCIM and OAuth protocol requests ([OwnProof]) have no
    actor and nothing is claimed of them here. Every remaining request
    ([Reading]), run alone and whatever it answers, leaves the store as it is
    apart from the audit trail. *)
Theorem mutations_gated {E : Env} `{!WfEnv E} r w res w' :
  run_request r w = (res, w') →
  (res = Ok tt → meets (demand r)) ∧
  (demand r = Reading → Quiet E → besides_trail (W_store w') = besides_trail (W_store w)).
Proof.
  intros H. split.
  - intros ->. exact (ok_run _ _ _ _ _ (demand_met r w) H).
  - intros Hr HE. pose proof (reading_still r Hr w) as Hs. by rewrite H in Hs.
Qed.

Lemma mutations_gated_witness : admitted root false.
Proof.
  apply (@mutations_gated demo demo_wf
    (Req_CreateWorkspace root (mkCreateWorkspaceInput "Beta" false)) served (Ok tt)
    (@run_request demo (Req_CreateWorkspace root (mkCreateWorkspaceInput "Beta" false)) served).2);
    [|reflexivity].
  apply run_split. vm_compute. reflexivity.
Defined.
