(* ===== verification/ManagerOAuthLive.v ===== *)
(** * Delegated access that runs alone

    With no interference and a live context, an access token in force is
    accepted: the checks of the bearer path are not only necessary (see
    ManagerOAuthSafety) but together sufficient. *)
From stdpp Require Import base gmap sets list strings numbers.
From Stdlib Require Import ZArith Lia Ascii.
From S2P Require Import Prelude Bytes GoText GoUrl Uuid Types OAuthTypes Roles AuditChain Store StoreUsers StoreTokens StoreWorkspaces StoreScim StoreOAuth StorePages Commit StoreSystem StoreMonotone Tokens Events Manager ManagerGates Config ManagerEmail ManagerSeal OAuthPolicy ManagerOAuth ManagerOAuthTokens ManagerOAuthAdmin ManagerScenario ManagerTrace OAuthScenario ManagerSystem ManagerSafety ManagerAuth ManagerFlows ManagerFederated ManagerOAuthSafety ManagerQuiet.

Section live.
Context {E : Env} `{!Quiet E}.

(** A computation succeeds with [a] and leaves the store alone. *)
Definition Yields {A} (p : M World A) (a : A) (w : World) : Prop :=
  wp p (λ r w', r = Ok a ∧ W_store w' = W_store w) w.

Lemma Yields_bind {A B} (p : M World A) (k : A → M World B) a b w :
  Yields p a w → (∀ w', W_store w' = W_store w → Yields (k a) b w') → Yields (p ≫= k) b w.
Proof.
  unfold Yields. intros Hp Hk. apply wp_bind. eapply wp_mono; [exact Hp|]. cbv beta. intros r w1 [-> Hs].
  eapply wp_mono; [by apply Hk|]. cbv beta. intros r w2 [-> Hs2]. split; [done|congruence].
Qed.
Lemma wp_yields {A} (p : M World A) a (Q : result A → World → Prop) w :
  Yields p a w → (∀ w', W_store w' = W_store w → Q (Ok a) w') → wp p Q w.
Proof. unfold Yields. intros Hp HQ. eapply wp_mono; [exact Hp|]. cbv beta. intros r w' [-> Hs]. by apply HQ. Qed.
Lemma Yields_throw_if b e w : b = false → Yields (throw_if b e) tt w.
Proof. by intros ->. Qed.
Lemma Yields_ok_or {A} (o : option A) e a w : o = Some a → Yields (ok_or o e) a w.
Proof. by intros ->. Qed.
Lemma Yields_now w : Yields now (m_clock the_manager (W_tick w)) w.
Proof. by apply wp_now. Qed.
Lemma Yields_ret {A} (a : A) w : Yields (mret a) a w.
Proof. done. Qed.
Lemma Yields_attempt {A} (p : M World A) a w : Yields p a w → Yields (attempt p) (Ok a) w.
Proof.
  intros H. unfold Yields, wp, attempt in *. destruct (p w) as [r w1]. cbn in *.
  destruct H as [-> ?]. done.
Qed.
Lemma Yields_lookup {A} (op : Context → M Store A) f `{!Lookup op f} a w :
  f (W_store w) = Some a → Yields (call op) a w.
Proof. intros H. eapply wp_lookup_quiet; [done|]. by rewrite H. Qed.
Lemma Yields_lookup_valid {A} (op : Context → M Store A) f `{!Lookup op f} bad e a w :
  f (W_store w) = Some a → bad a = false → Yields (lookup_valid op bad e) a w.
Proof.
  intros H Hb. unfold lookup_valid.
  eapply Yields_bind; [by eapply Yields_attempt, Yields_lookup|]. intros w' Hs. cbv iota.
  by rewrite Hb.
Qed.

Lemma authorize_permissions_live a id l w :
  (∀ p, p ∈ l → permitted (W_store w) a id p) → Yields (authorize_permissions a id l) tt w.
Proof.
  revert w. induction l as [|p l IH]; intros w H; cbn [authorize_permissions]; [done|].
  eapply Yields_bind.
  { eapply Yields_attempt. eapply wp_mono; [apply Tests_AuthorizePermission|]. intros r w' [Hr Hs].
    assert (r = Ok tt) as Hok by (apply Hr, H; by left). by split; [|apply Hs]. }
  intros w' Hs. apply IH. intros q Hq. rewrite Hs. apply H. by right.
Qed.

(** A scope of the resource is reserved, or every permission behind it is the
    user's. *)
Definition scope_permitted (s : Store) (a : Authentication) (resource : OAuthProtectedResource)
    (scope : string) : Prop :=
  oauthReservedScope scope = true ∨
  ∃ definition, oauthScopeDefinition (OAuthProtectedResource_Scopes resource) scope = Some definition ∧
    ∀ p, p ∈ OAuthScopeDefinition_Permissions definition →
      permitted s a (OAuthProtectedResource_WorkspaceID resource) p.

Lemma grant_permissions_live a resource l w :
  (∀ scope, scope ∈ l → scope_permitted (W_store w) a resource scope) →
  Yields (grant_permissions a resource l) tt w.
Proof.
  revert w. induction l as [|scope l IH]; intros w H; cbn [grant_permissions]; [done|].
  eapply (Yields_bind _ _ tt).
  - destruct (oauthReservedScope scope) eqn:Hr; [done|].
    destruct (H scope) as [?|(d & Hd & Hp)]; [by left|congruence|].
    eapply Yields_bind; [by apply Yields_ok_or|]. intros w' Hs. apply authorize_permissions_live. by rewrite Hs.
  - intros w' Hs. apply IH. intros q Hq. rewrite Hs. apply H. by right.
Qed.

(** Everything the grant [grantID] depends on is in force. *)
Record in_force (s : Store) (grantID : UUID) (client : OAuthClient) (resourceURI : string) (grant : OAuthGrant)
    (resource : OAuthProtectedResource) : Prop := mkInForce {
  force_client : OAuthClient_DisabledAt client = None;
  force_grant : oauthGrants s !! grantID = Some grant;
  force_unrevoked : OAuthGrant_RevokedAt grant = None;
  force_holder : OAuthGrant_ClientRecordID grant = OAuthClient_ID client;
  force_metadata : OAuthGrant_MetadataHash grant = OAuthClient_MetadataHash client;
  force_resource : oauthResources s !! OAuthGrant_ResourceID grant = Some resource;
  force_open : OAuthProtectedResource_DisabledAt resource = None;
  force_workspace : OAuthProtectedResource_WorkspaceID resource = OAuthGrant_WorkspaceID grant;
  force_target :
    resourceURI = EmptyString ∨ validateResourceURL resourceURI = Ok (OAuthProtectedResource_Resource resource);
  force_issuer : ∃ issuer, oauthIssuers s !! OAuthGrant_IssuerID grant = Some issuer ∧
    OAuthIssuer_DisabledAt issuer = None ∧ OAuthIssuer_ID issuer = OAuthProtectedResource_IssuerID resource;
  force_user : enabled (OAuthGrant_UserID grant) s;
  force_tenant : ∃ workspace, workspaces s !! OAuthGrant_WorkspaceID grant = Some workspace ∧
    Workspace_DisabledAt workspace = None;
  force_scopes : ∀ scope, scope ∈ OAuthGrant_Scopes grant →
    scope_permitted s (grantee grant) resource scope }.

Lemma activeOAuthGrant_live grantID client resourceURI grant resource w :
  in_force (W_store w) grantID client resourceURI grant resource →
  Yields (activeOAuthGrant grantID client resourceURI) (grant, resource) w.
Proof.
  intros []. destruct force_issuer0 as (issuer & Hi & Hid & Heq).
  destruct force_user0 as (user & Hu & Hd). destruct force_tenant0 as (tenant & Ht & Htd).
  assert (other_resource resourceURI resource = false) as Hother.
  { unfold other_resource. destruct force_target0 as [->| ->]; [done|]. rewrite bool_decide_true by done.
    by rewrite andb_false_r. }
  unfold activeOAuthGrant. cbv zeta. rewrite force_client0.
  eapply Yields_bind; [by apply Yields_throw_if|]. intros w1 H1.
  eapply Yields_bind; [eapply Yields_lookup_valid; [apply _|by rewrite H1|]|].
  { rewrite force_unrevoked0, force_holder0, force_metadata0. by rewrite !bool_decide_true. }
  intros w2 H2. eapply Yields_bind; [eapply Yields_lookup_valid; [apply _|rewrite H2, H1; done|]|].
  { rewrite force_open0, force_workspace0. by rewrite bool_decide_true. }
  intros w3 H3. eapply Yields_bind; [by apply Yields_throw_if|]. intros w4 H4.
  eapply Yields_bind; [eapply Yields_lookup_valid; [apply _|by rewrite H4, H3, H2, H1|]|].
  { rewrite Hid, Heq. by rewrite bool_decide_true. }
  intros w5 H5. eapply Yields_bind; [eapply Yields_lookup_valid; [apply _|by rewrite H5, H4, H3, H2, H1|done]|].
  intros w6 H6. eapply Yields_bind; [eapply Yields_lookup_valid; [apply _|by rewrite H6, H5, H4, H3, H2, H1|]|].
  { by rewrite Htd. }
  intros w7 H7. eapply Yields_bind; [apply grant_permissions_live|by intros].
  by rewrite H7, H6, H5, H4, H3, H2, H1.
Qed.

(** A stored access token [raw] that has not ended on any clock reading. *)
Definition unended (oauth : OAuthConfig) (s : Store) (prefix raw : string) (token : OAuthAccessToken) : Prop :=
  by_key (oauthAccessKeys s) (oauthAccessTokens s) OAuthAccessToken_zero prefix = Some token ∧
  OAuthAccessToken_RevokedAt token = None ∧
  OAuthAccessToken_Digest token = oauthDigest oauth "access-token" raw ∧
  ∀ t, (m_clock the_manager t < OAuthAccessToken_ExpiresAt token)%Z.

(** The token was issued for this grant. *)
Definition token_of (grant : OAuthGrant) (resource : OAuthProtectedResource) (token : OAuthAccessToken) : Prop :=
  OAuthAccessToken_ResourceID token = OAuthProtectedResource_ID resource ∧
  OAuthAccessToken_UserID token = OAuthGrant_UserID grant ∧
  OAuthAccessToken_WorkspaceID token = OAuthGrant_WorkspaceID grant ∧
  scopesSubset (OAuthAccessToken_Scopes token) (OAuthGrant_Scopes grant) = true.

Lemma live_token_live oauth prefix raw token w :
  unended oauth (W_store w) prefix raw token → Yields (live_token oauth raw token) tt w.
Proof.
  intros (_ & Hr & Hd & Hc). unfold live_token. rewrite Hr.
  eapply Yields_bind; [by apply Yields_throw_if|]. intros w1 _.
  eapply Yields_bind; [apply Yields_now|]. intros w2 _. apply Yields_throw_if. rewrite Hd.
  rewrite (bool_decide_true (oauthDigest _ _ _ = _)) by done. unfold Time_Before.
  by rewrite bool_decide_true by apply Hc.
Qed.

(** C27: an access token in force is accepted. For a request that runs alone
    under a live context, a stored token whose digest is that of the secret,
    unrevoked and unexpired, whose client is enabled and unchanged since the
    consent, whose grant is unrevoked, and whose resource, issuer, user and
    workspace are enabled, with every permission behind every consented scope
    still the user's, authenticates to its own client, user, workspace,
    resource and scopes, and nothing is changed. Nothing else is demanded. *)
Theorem oauth_bearer_live oauth resourceURI raw prefix token client grant resource w :
  m_oauth the_manager = Some oauth → parseOAuthBearer "cba" raw = Some prefix →
  unended oauth (W_store w) prefix raw token →
  oauthClients (W_store w) !! OAuthAccessToken_ClientRecordID token = Some client →
  in_force (W_store w) (OAuthAccessToken_GrantID token) client resourceURI grant resource →
  token_of grant resource token →
  ∃ t w', Manager_AuthenticateOAuthAccessToken resourceURI raw w =
    (Ok (mkOAuthAuthentication (OAuthAccessToken_ID token) (OAuthGrant_ID grant) (OAuthClient_ID client)
      (OAuthClient_ClientID client) (OAuthAccessToken_UserID token) (OAuthAccessToken_WorkspaceID token)
      (OAuthProtectedResource_Resource resource) (OAuthAccessToken_Scopes token) t), w') ∧
    W_store w' = W_store w.
Proof.
  intros Ho Hp Hu Hc Hf (Hr & Hus & Hw & Hs).
  enough (wp (Manager_AuthenticateOAuthAccessToken resourceURI raw) (λ r w', (∃ t,
    r = Ok (mkOAuthAuthentication (OAuthAccessToken_ID token) (OAuthGrant_ID grant) (OAuthClient_ID client)
      (OAuthClient_ClientID client) (OAuthAccessToken_UserID token) (OAuthAccessToken_WorkspaceID token)
      (OAuthProtectedResource_Resource resource) (OAuthAccessToken_Scopes token) t)) ∧ W_store w' = W_store w) w)
    as H.
  { destruct (Manager_AuthenticateOAuthAccessToken resourceURI raw w) as [r w'] eqn:Hrun.
    unfold wp in H. rewrite Hrun in H. destruct H as [[t Ht] Hst]. cbn in Ht. subst r. by exists t, w'. }
  unfold Manager_AuthenticateOAuthAccessToken, requireOAuth. rewrite Ho, Hp.
  apply wp_bind, wp_ret, wp_bind, wp_ret, wp_bind.
  eapply wp_yields; [eapply Yields_attempt, Yields_lookup; [apply _|apply Hu]|]. intros w1 H1. apply wp_bind.
  eapply wp_yields; [eapply live_token_live; rewrite H1; exact Hu|]. intros w2 H2. apply wp_bind.
  eapply wp_yields; [eapply Yields_lookup_valid; [apply _|by rewrite H2, H1|done]|]. intros w3 H3.
  apply wp_bind. unfold active_grant. apply wp_bind.
  eapply wp_yields; [eapply Yields_attempt, activeOAuthGrant_live; by rewrite H3, H2, H1|]. intros w4 H4.
  cbv beta iota. rewrite Hr, Hus, Hw, Hs, !bool_decide_true by done. cbn [negb orb throw_if].
  apply wp_bind, wp_ret, wp_ret, wp_bind, wp_now, wp_ret. split; [by eexists|]. by rewrite W_store_tick, H4, H3, H2, H1.
Qed.
End live.

(** The authorization server while its clock stands, just after the exchange. *)
Definition server_later : Env :=
  mkEnv (server_manager <| m_clock := λ _, (10 ^ 18 + 10 * 10 ^ 9)%Z |>) background.
#[export] Instance server_later_quiet : Quiet server_later.
Proof. by split. Qed.

Definition held {A} (o : option A) (d : A) : A := default d o.
(** What an exchange left behind. *)
Section exchanged_token.
Context (x : result OAuthTokenResponse * World).
Definition its_bearer : string := OAuthTokenResponse_AccessToken (ok_of OAuthTokenResponse_zero x).
Definition its_prefix : string := held (parseOAuthBearer "cba" its_bearer) EmptyString.
Definition after : Store := W_store x.2.
Definition its_token : OAuthAccessToken :=
  held (by_key (oauthAccessKeys after) (oauthAccessTokens after) OAuthAccessToken_zero its_prefix)
    OAuthAccessToken_zero.
Definition its_client : OAuthClient :=
  held (oauthClients after !! OAuthAccessToken_ClientRecordID its_token) OAuthClient_zero.
Definition its_grant : OAuthGrant :=
  held (oauthGrants after !! OAuthAccessToken_GrantID its_token) OAuthGrant_zero.

Definition its_resource : OAuthProtectedResource :=
  held (oauthResources after !! OAuthGrant_ResourceID its_grant) OAuthProtectedResource_zero.
Definition its_issuer : OAuthIssuer :=
  held (oauthIssuers after !! OAuthGrant_IssuerID its_grant) OAuthIssuer_zero.
Definition its_user : User := held (users after !! OAuthGrant_UserID its_grant) User_zero.
Definition its_workspace : Workspace :=
  held (workspaces after !! OAuthGrant_WorkspaceID its_grant) Workspace_zero.

(** Everything the acceptance of the token depends on, evaluated at once. *)
Definition token_facts : list bool :=
  let found {A} (o : option A) := bool_decide (is_Some o) in
  [found (parseOAuthBearer "cba" its_bearer);
   found (by_key (oauthAccessKeys after) (oauthAccessTokens after) OAuthAccessToken_zero its_prefix);
   negb (not_nil (OAuthAccessToken_RevokedAt its_token));
   bool_decide (OAuthAccessToken_Digest its_token = oauthDigest demo_oauth "access-token" its_bearer);
   bool_decide (OAuthAccessToken_ExpiresAt its_token = 1000000900113000000%Z);
   found (oauthClients after !! OAuthAccessToken_ClientRecordID its_token);
   found (oauthGrants after !! OAuthAccessToken_GrantID its_token);
   found (oauthResources after !! OAuthGrant_ResourceID its_grant);
   found (oauthIssuers after !! OAuthGrant_IssuerID its_grant);
   found (users after !! OAuthGrant_UserID its_grant);
   found (workspaces after !! OAuthGrant_WorkspaceID its_grant);
   negb (not_nil (OAuthClient_DisabledAt its_client));
   negb (not_nil (OAuthGrant_RevokedAt its_grant));
   bool_decide (OAuthGrant_ClientRecordID its_grant = OAuthClient_ID its_client);
   bool_decide (OAuthGrant_MetadataHash its_grant = OAuthClient_MetadataHash its_client);
   negb (not_nil (OAuthProtectedResource_DisabledAt its_resource));
   bool_decide (OAuthProtectedResource_WorkspaceID its_resource = OAuthGrant_WorkspaceID its_grant);
   negb (other_resource "https://api.example" its_resource);
   negb (not_nil (OAuthIssuer_DisabledAt its_issuer));
   bool_decide (OAuthIssuer_ID its_issuer = OAuthProtectedResource_IssuerID its_resource);
   negb (User_Disabled its_user);
   negb (not_nil (Workspace_DisabledAt its_workspace));
   bool_decide (OAuthGrant_Scopes its_grant = ["notes"; "offline_access"; "openid"]);
   bool_decide ((λ d, (OAuthScopeDefinition_Permissions d)) <$>
     oauthScopeDefinition (OAuthProtectedResource_Scopes its_resource) "notes" = Some [PermissionWorkspaceAccess]);
   is_ok (@AuthorizePermission server_later (grantee its_grant) (OAuthProtectedResource_WorkspaceID its_resource)
     PermissionWorkspaceAccess x.2).1;
   bool_decide (OAuthAccessToken_ResourceID its_token = OAuthProtectedResource_ID its_resource);
   bool_decide (OAuthAccessToken_UserID its_token = OAuthGrant_UserID its_grant);
   bool_decide (OAuthAccessToken_WorkspaceID its_token = OAuthGrant_WorkspaceID its_grant);
   scopesSubset (OAuthAccessToken_Scopes its_token) (OAuthGrant_Scopes its_grant)].
End exchanged_token.

Lemma demo_facts_hold : forallb id (token_facts exchanging) = true.
Proof. vm_compute. reflexivity. Qed.

Lemma held_some {A} (o : option A) (d : A) : bool_decide (is_Some o) = true → o = Some (held o d).
Proof. by destruct o. Qed.
Lemma not_nil_negb {A} (o : option A) : negb (not_nil o) = true → o = None.
Proof. by destruct o. Qed.

Lemma token_facts_accepted x :
  forallb id (token_facts x) = true →
  parseOAuthBearer "cba" (its_bearer x) = Some (its_prefix x) ∧
  @unended server_later demo_oauth (after x) (its_prefix x) (its_bearer x) (its_token x) ∧
  oauthClients (after x) !! OAuthAccessToken_ClientRecordID (its_token x) = Some (its_client x) ∧
  @in_force server_later (after x) (OAuthAccessToken_GrantID (its_token x)) (its_client x) "https://api.example"
    (its_grant x) (its_resource x) ∧
  token_of (its_grant x) (its_resource x) (its_token x).
Proof.
  unfold token_facts. cbn [forallb]. unfold id. rewrite !andb_true_iff.
  intros (Hparse & Htoken & Hrev & Hdig & Hexp & Hclient & Hgrant & Hres & Hiss & Huser & Hwork & Hdis & Hgrev &
    Hholder & Hmeta & Hrdis & Hrwork & Hother & Hidis & Hrid & Hudis & Hwdis & Hscopes & Hdef & Hperm & Htr & Htu &
    Htw & Hts & _).
  repeat match goal with
  | H : bool_decide (is_Some _) = true |- _ => fail
  | H : bool_decide (_ = _) = true |- _ => apply bool_decide_eq_true in H
  | H : negb (not_nil _) = true |- _ => apply not_nil_negb in H
  | H : negb _ = true |- _ => apply negb_true_iff in H
  end.
  split_and!; try by apply held_some.
  - split_and!; [by apply held_some|done..|]. intros t. rewrite Hexp. vm_compute. reflexivity.
  - split; try done; try by apply held_some.
    + by apply other_resource_false.
    + exists (its_issuer x). split_and!; [by apply held_some|done..].
    + exists (its_user x). split; [by apply held_some|done].
    + exists (its_workspace x). split; [by apply held_some|done].
    + rewrite Hscopes. intros scope Hs. apply list_elem_of_In in Hs as [<-|[<-|[<-|[]]]]; [|by left..].
      right. apply fmap_Some in Hdef as (d & Hd & Hps). exists d. split; [done|]. rewrite <- Hps. intros p Hp.
      apply list_elem_of_In in Hp as [<-|[]].
      apply (@Tests_AuthorizePermission server_later server_later_quiet (grantee (its_grant x)) _ _ x.2).
      by destruct (AuthorizePermission _ _ _ _).1 as [[]|].
  - by split_and!.
Qed.

Lemma oauth_bearer_live_witness :
  let x := exchanging in
  ∃ t w', @Manager_AuthenticateOAuthAccessToken server_later "https://api.example" (its_bearer x) x.2 =
    (Ok (mkOAuthAuthentication (OAuthAccessToken_ID (its_token x)) (OAuthGrant_ID (its_grant x))
      (OAuthClient_ID (its_client x)) (OAuthClient_ClientID (its_client x)) (OAuthAccessToken_UserID (its_token x))
      (OAuthAccessToken_WorkspaceID (its_token x)) (OAuthProtectedResource_Resource (its_resource x))
      (OAuthAccessToken_Scopes (its_token x)) t), w') ∧
    W_store w' = W_store x.2.
Proof.
  intros x. destruct (token_facts_accepted x demo_facts_hold) as (Hp & Hu & Hc & Hf & Ht).
  exact (@oauth_bearer_live server_later server_later_quiet demo_oauth "https://api.example" _ _ _ _ _ _ _
    eq_refl Hp Hu Hc Hf Ht).
Defined.
