(* ===== verification/ManagerExport.v ===== *)
(** * The data export is complete

    With no interference and a live context, [ExportUserData] terminates and
    returns every row its sections have of the user, and no secret. *)
From stdpp Require Import base gmap sets list strings numbers sorting.
From Stdlib Require Import ZArith Lia Ascii.
From S2P Require Import Prelude Bytes GoText GoUrl Uuid Types OAuthTypes Roles AuditChain Store StoreUsers StoreTokens StoreWorkspaces StoreScim StoreOAuth StorePages Commit StoreSystem StoreMonotone Tokens Events Manager ManagerGates Config ManagerEmail ManagerListings ManagerScenario ManagerTrace OAuthScenario ManagerSystem ManagerSafety ManagerAuth ManagerFlows ManagerFederated ManagerOAuthSafety ManagerQuiet ManagerGated ManagerOAuthLive.

(** ** Whole listings *)

Lemma bounded_length (l : list Z) n : NoDup l → Forall (λ x, 0 ≤ x < n)%Z l → (Z.of_nat (length l) ≤ Z.max 0 n)%Z.
Proof.
  intros Hnd Hl. assert (l ⊆+ seqZ 0 n) as Hs.
  { apply NoDup_submseteq; [done|]. intros x Hx. apply elem_of_seqZ. rewrite Forall_forall in Hl.
    specialize (Hl x Hx). lia. }
  apply submseteq_length in Hs. rewrite length_seqZ in Hs. lia.
Qed.

Section drain.
Context {A : Type} (created : A → Z) (ident : A → UUID).

Lemma yield_items_live during i (values : list A) e :
  (∀ j, during j = None) → yield_items during i values e = yield_items unwatched i values e.
Proof. intros H. revert i. induction values as [|v l IH]; intros i; cbn; [done|]. by rewrite H, IH. Qed.

Lemma paged_live during rows cx page s :
  (∀ j, during j = None) →
  paged created ident rows cx during page s = paged created ident rows cx unwatched page s.
Proof.
  intros H. unfold paged, paged_with. destruct (decodeCursor _); [|done]. destruct cx; [done|].
  unfold yield_page. cbv [mbind M_bind get mret M_ret]. by rewrite !(yield_items_live during) by done.
Qed.

Lemma paged_run rows page c s :
  decodeCursor (PageRequest_Cursor page) = Ok c →
  paged created ident rows None unwatched page s =
    (Ok (yield_page created ident true unwatched (PageRequest_Limit page)
           (page_values created ident (rows s) c)), s).
Proof. intros H. unfold paged, paged_with. by rewrite H. Qed.

Lemma pageable_length rows : pageable created ident rows → (Z.of_nat (length rows) < Zpos rounds)%Z.
Proof.
  intros [Hnd _]. apply (NoDup_fmap_2 UUID_value) in Hnd. apply (bounded_length _ (2 ^ 128)) in Hnd.
  - rewrite !length_fmap in Hnd. unfold rounds. lia.
  - rewrite !Forall_fmap. apply Forall_true. intros a. apply UUID_value_range.
Qed.

Context {E : Env} `{!Quiet E}.
Abbreviation sort := (merge_sort (newest_first created ident)).

(** Page after page, a listing is read to its end. *)
Lemma drainPages_complete query rows w :
  (∀ page during s, (∀ j, during j = None) →
     query page during None s = paged created ident rows None unwatched page s) →
  pageable created ident (rows (W_store w)) →
  Yields (drainPages query) (sort (rows (W_store w))) w.
Proof.
  intros Hq Hrows. unfold Yields, drainPages.
  set (all := sort (rows (W_store w))).
  apply (wp_loop _ (λ a w', W_store w' = W_store w ∧ ∃ c post, all = a.2 ++ post ∧
      decodeCursor a.1 = Ok c ∧ page_values created ident (rows (W_store w)) c = post)
    (λ a, Z.of_nat (length all) - Z.of_nat (length a.2))%Z).
  - intros [cursor acc] w1 (Hs & c & post & Hall & Hc & Hv). cbn [fst snd] in *. unfold drain_page.
    apply wp_bind, wp_get, wp_bind, wp_call_quiet. cbn [fst snd]. unfold wp at 1.
    rewrite Hq by (intros; apply quiet_ctx). rewrite (paged_run _ _ c) by done.
    cbn [fst snd PageRequest_Limit]. rewrite Hs, Hv.
    destruct (page_step created ident (rows (W_store w)) 100 acc post) as (e & He & Hrest); [done..|].
    apply wp_bind. rewrite He. apply wp_lift_result. cbv beta iota zeta.
    destruct (PageEnd_HasMore e); cbn [negb orb].
    + destruct Hrest as (Hlen & Hne & c' & Hc' & Hv'). rewrite bool_decide_false by done. apply wp_ret.
      cbn [fst snd]. split_and!; [by rewrite W_store_tick| | |].
      * exists c', (drop (Z.to_nat 100) post). split_and!; [|done|done]. by rewrite <- app_assoc, take_drop.
      * rewrite Hall, !length_app, length_take. lia.
      * rewrite Hall, !length_app, length_take. lia.
    + apply wp_ret. rewrite Hrest, Hall. by rewrite W_store_tick.
  - split; [done|]. exists pageCursor_zero, all. split_and!; [done|done|]. apply page_values_start.
  - cbn [fst snd length]. subst all. rewrite merge_sort_Permutation. pose proof (pageable_length _ Hrows). lia.
Qed.
End drain.

(** ** The rows of a user *)
Definition scrubbed_pat (p : PAT) : PAT := p <| PAT_Digest := EmptyString |>.
Definition scrubbed_session (x : Session) : Session := x <| Session_Digest := EmptyString |>.
Definition user_emails (u : UUID) (s : Store) : list EmailAddress :=
  rows_where (λ e, bool_decide (EmailAddress_UserID e = u)) (emailAddresses s).
Definition user_workspaces (u : UUID) (s : Store) : list Workspace :=
  (base.filter (λ kv, has u (members_of s kv.1) = true) (map_to_list (workspaces s))).*2.
Definition user_identities (u : UUID) (s : Store) : list SSOIdentity :=
  rows_where (λ i, bool_decide (SSOIdentity_UserID i = u)) (ssoIdentities s).
Definition user_pats (u : UUID) (s : Store) : list PAT :=
  scrubbed_pat <$> rows_where (λ p, bool_decide (PAT_UserID p = u)) (pats s).
Definition user_sessions (u : UUID) (s : Store) : list Session :=
  scrubbed_session <$> rows_where (λ x, bool_decide (Session_UserID x = u)) (sessions s).
Definition user_links (u : UUID) (s : Store) : list SCIMUser :=
  rows_where (λ l, bool_decide (SCIMUser_UserID l = u)) (scimUsers s).
Definition user_invitations (u : UUID) (s : Store) : list WorkspaceInvitation :=
  rows_where (λ i, bool_decide (WorkspaceInvitation_AcceptedUserID i = u)) (invitations s).
Definition user_grants (u : UUID) (s : Store) : list OAuthGrant :=
  rows_where (λ g, bool_decide (OAuthGrant_UserID g = u)) (oauthGrants s).
(** A workspace with the membership of the user. *)
Definition affiliation (s : Store) (u : UUID) (workspace : Workspace) : option WorkspaceMembership :=
  mkWorkspaceMembership workspace ∘ normalizeMembership <$> members_of s (Workspace_ID workspace) !! u.

Definition scrubbed_passkey (p : Passkey) : Passkey := p <| Passkey_CredentialJSON := EmptyString |>.
Definition scrubbed_invitation (i : WorkspaceInvitation) : WorkspaceInvitation :=
  i <| WorkspaceInvitation_Digest := EmptyString |>.

(** Identifiers and creation times that cursors can carry. *)
Definition export_pageable (u : UUID) (s : Store) : Prop :=
  pageable EmailAddress_CreatedAt EmailAddress_ID (user_emails u s) ∧
  pageable Workspace_CreatedAt Workspace_ID (user_workspaces u s) ∧
  pageable SSOIdentity_CreatedAt SSOIdentity_ID (user_identities u s) ∧
  pageable PAT_CreatedAt PAT_ID (user_pats u s) ∧
  pageable Session_CreatedAt Session_ID (user_sessions u s) ∧
  pageable OAuthGrant_CreatedAt OAuthGrant_ID (user_grants u s).

(** The document holds every row of the user, and no secret. *)
Record exported {E : Env} (u : UUID) (s : Store) (x : UserDataExport) : Prop := mkExported {
  exported_user : users s !! u = Some (UserDataExport_User x);
  exported_emails : UserDataExport_Emails x ≡ₚ user_emails u s;
  exported_workspaces : UserDataExport_Workspaces x ≡ₚ omap (affiliation s u) (user_workspaces u s);
  exported_identities : UserDataExport_SSOIdentities x ≡ₚ user_identities u s;
  exported_passkeys : UserDataExport_Passkeys x ≡ₚ scrubbed_passkey <$> (map_to_list (passkeys_of s u)).*2;
  exported_pats : UserDataExport_PATs x ≡ₚ user_pats u s;
  exported_sessions :
    UserDataExport_Sessions x ≡ₚ (if m_sessionStore the_manager then user_sessions u s else []);
  exported_links : UserDataExport_SCIMUsers x ≡ₚ (if m_privacyStore the_manager then user_links u s else []);
  exported_invitations : UserDataExport_Invitations x ≡ₚ
    (if m_privacyStore the_manager then scrubbed_invitation <$> user_invitations u s else []);
  exported_grants :
    UserDataExport_OAuthGrants x ≡ₚ (if not_nil (m_oauth the_manager) then user_grants u s else []) }.

Section export.
Context {E : Env} `{!Quiet E}.

Lemma drained_ok {T} (l : list T) : drained (Ok <$> l) = Ok l.
Proof. induction l as [|x l IH]; [done|]. cbn [fmap list_fmap drained]. by rewrite IH. Qed.

Lemma affiliations_live u l w : Yields (affiliations u l) (omap (affiliation (W_store w) u) l) w.
Proof.
  revert w. induction l as [|workspace l IH]; intros w; cbn [affiliations]; [done|].
  unfold Yields. apply wp_bind, wp_attempt. eapply wp_lookup_quiet; [apply _|]. cbv beta.
  cbn [omap list_omap]. unfold affiliation at 1.
  destruct (members_of (W_store w) (Workspace_ID workspace) !! u) as [membership|]; cbn.
  - apply wp_bind. eapply wp_yields; [apply IH|]. intros w' Hs. apply wp_ret. by rewrite Hs, W_store_tick.
  - eapply wp_mono; [apply IH|]. cbv beta. by rewrite W_store_tick.
Qed.

Lemma listed_live {T} (created : T → Z) (ident : T → UUID) (op : Context → M Store (Stream T)) rows w :
  (∀ cx s, op cx s = listed created ident rows cx s) →
  Yields (events ← call op; lift_result (drained events))
    (merge_sort (oldest_first created ident) (rows (W_store w))) w.
Proof.
  intros Hop. unfold Yields. apply wp_bind, wp_call_quiet. unfold wp at 1. rewrite Hop. cbn.
  apply wp_lift_result. rewrite drained_ok. done.
Qed.

Lemma user_grants_rows u s : u ≠ Nil →
  rows_where (λ g, (bool_decide (u = Nil) || bool_decide (OAuthGrant_UserID g = u)) &&
    (bool_decide (Nil = Nil) || bool_decide (OAuthGrant_WorkspaceID g = Nil))) (oauthGrants s) = user_grants u s.
Proof.
  intros Hu. unfold user_grants, rows_where. apply list_filter_iff. intros g.
  rewrite (bool_decide_false (u = Nil)) by done. rewrite (bool_decide_true (Nil = Nil)) by done. by rewrite andb_true_r.
Qed.
Lemma user_workspaces_rows u s : u ≠ Nil →
  (base.filter (λ kv, bool_decide (u = Nil) || has u (members_of s kv.1) = true) (map_to_list (workspaces s))).*2 =
  user_workspaces u s.
Proof.
  intros Hu. unfold user_workspaces. f_equal. apply list_filter_iff. intros g.
  by rewrite (bool_decide_false (u = Nil)) by done.
Qed.

(** The steps of the export, each on the store [s] it leaves as it is. *)
Lemma wp_drain {T} (created : T → Z) (ident : T → UUID) query rows (k : list T → M World UserDataExport) Q s w :
  (∀ page during s, (∀ j, during j = None) →
     query page during None s = paged created ident rows None unwatched page s) →
  pageable created ident (rows s) → W_store w = s →
  (∀ l w', l ≡ₚ rows s → W_store w' = s → wp (k l) Q w') → wp (drainPages query ≫= k) Q w.
Proof.
  intros Hq Hp <- Hk. apply wp_bind. eapply wp_yields; [by eapply drainPages_complete|]. intros w' Hs.
  apply Hk; [apply merge_sort_Permutation|done].
Qed.
Lemma wp_step_live {T U} (p : M World T) a (k : T → M World U) Q s w :
  Yields p a w → W_store w = s → (∀ w', W_store w' = s → wp (k a) Q w') → wp (p ≫= k) Q w.
Proof. intros Hp <- Hk. apply wp_bind. by eapply wp_yields. Qed.

(** A section of a capability the store may lack. *)
Lemma wp_section {T U} (b : bool) (p : M World (list T)) rows (k : list T → M World U) Q s w :
  (W_store w = s → ∃ l, l ≡ₚ rows ∧ Yields p l w) → W_store w = s →
  (∀ l w', l ≡ₚ (if b then rows else []) → W_store w' = s → wp (k l) Q w') →
  wp ((if b then p else mret []) ≫= k) Q w.
Proof.
  intros Hp Hs Hk. destruct b; apply wp_bind; [|by apply wp_ret, Hk].
  destruct (Hp Hs) as (l & Hl & Hy). eapply wp_yields; [exact Hy|]. intros w' Hw. apply Hk; congruence.
Qed.

Lemma sessions_live u w : pageable Session_CreatedAt Session_ID (user_sessions u (W_store w)) →
  ∃ l, l ≡ₚ user_sessions u (W_store w) ∧
    Yields (drainPages (λ page during ctx, Sessions ctx during u page)) l w.
Proof.
  intros Hp. eexists. split; [|apply (drainPages_complete Session_CreatedAt Session_ID _ (user_sessions u));
    [intros; by apply paged_live|done]]. by rewrite merge_sort_Permutation.
Qed.
Lemma links_live u w : ∃ l, l ≡ₚ user_links u (W_store w) ∧
  Yields (events ← call (λ ctx, SCIMUsersByUser ctx u); lift_result (drained events)) l w.
Proof.
  eexists. split; [|by apply (listed_live SCIMUser_CreatedAt SCIMUser_ID _ (user_links u))].
  by rewrite merge_sort_Permutation.
Qed.
Lemma invitations_live u w : ∃ l, l ≡ₚ user_invitations u (W_store w) ∧
  Yields (events ← call (λ ctx, AcceptedWorkspaceInvitations ctx u); lift_result (drained events)) l w.
Proof.
  eexists. split; [|by apply (listed_live WorkspaceInvitation_CreatedAt WorkspaceInvitation_ID _
    (user_invitations u))]. by rewrite merge_sort_Permutation.
Qed.
Lemma grants_live u w : u ≠ Nil → pageable OAuthGrant_CreatedAt OAuthGrant_ID (user_grants u (W_store w)) →
  ∃ l, l ≡ₚ user_grants u (W_store w) ∧
    Yields (drainPages (λ page _ ctx, OAuthGrants ctx u Nil page)) l w.
Proof.
  intros Hu Hp. eexists. split; [|apply (drainPages_complete OAuthGrant_CreatedAt OAuthGrant_ID _ (user_grants u));
    [|done]]; [by rewrite merge_sort_Permutation|].
  intros page during s0 _. unfold OAuthGrants, paged, paged_with. destruct (decodeCursor _); [|done].
  unfold mbind, M_bind, get. by rewrite user_grants_rows.
Qed.

Lemma export_gate_signed_in actor userID w w' :
  export_gate actor (or_actor actor userID) w = (Ok tt, w') → or_actor actor userID ≠ Nil.
Proof.
  unfold export_gate, anonymous, or_actor, mbind, M_bind. repeat case_bool_decide; try done.
Qed.

(** Past the gate. *)
Lemma export_past_gate actor userID w w1 :
  let u := or_actor actor userID in
  export_gate actor u w = (Ok tt, w1) → is_Some (users (W_store w1) !! u) → export_pageable u (W_store w1) →
  ∃ x w', Manager_ExportUserData actor userID w = (Ok x, w') ∧ exported u (W_store w1) x ∧
    W_store w' = W_store w1.
Proof.
  intros u Hgate [user Hu] (Hp1 & Hp2 & Hp3 & Hp4 & Hp5 & Hp6).
  assert (u ≠ Nil) as Hnil by (by eapply export_gate_signed_in).
  enough (wp (Manager_ExportUserData actor userID) (λ r w', (∃ x, r = Ok x ∧ exported u (W_store w1) x) ∧
    W_store w' = W_store w1) w) as H.
  { unfold wp in H. destruct (Manager_ExportUserData actor userID w) as [r w']. destruct H as [(x & Hx & He) Hs].
    cbn in Hx. subst r. eauto. }
  unfold Manager_ExportUserData. fold u. cbv zeta. apply wp_bind. unfold wp at 1. rewrite Hgate. cbn [fst snd].
  set (s := W_store w1) in *. assert (W_store w1 = s) as Hs1 by done. clearbody s.
  eapply wp_step_live; [eapply Yields_lookup; [apply _|by rewrite Hs1]|exact Hs1|]. intros w2 H2.
  eapply (wp_drain EmailAddress_CreatedAt EmailAddress_ID _ (user_emails u)); [done|done|done|].
  intros emails w3 He H3.
  eapply (wp_drain Workspace_CreatedAt Workspace_ID _ (user_workspaces u)); [|done|done|].
  { intros page during s0 _. unfold UserWorkspaces, workspacesPage, paged, paged_with.
    destruct (decodeCursor _); [|done]. unfold mbind, M_bind, get. by rewrite user_workspaces_rows. }
  intros all w4 Ha H4. eapply wp_step_live; [apply affiliations_live|exact H4|]. intros w5 H5. rewrite H4.
  eapply (wp_drain SSOIdentity_CreatedAt SSOIdentity_ID _ (user_identities u));
    [intros; by apply paged_live|done|done|].
  intros identities w6 Hi H6.
  eapply wp_step_live; [eapply Yields_lookup; [apply _|reflexivity]|exact H6|]. intros w7 H7.
  eapply (wp_drain PAT_CreatedAt PAT_ID _ (user_pats u));
    [intros; by apply paged_live|done|done|]. intros tokens w8 Ht H8.
  eapply (wp_section _ _ (user_sessions u s));
    [intros <-; apply sessions_live; by rewrite H8|exact H8|].
  intros live w9 Hl H9. eapply (wp_section _ _ (user_links u s)); [intros <-; apply links_live|exact H9|].
  intros links w10 Hk H10.
  eapply (wp_section _ _ (user_invitations u s)); [intros <-; apply invitations_live|exact H10|].
  intros accepted w11 Hv H11.
  eapply (wp_section _ _ (user_grants u s)); [intros <-; apply grants_live; [done|by rewrite H11]|exact H11|].
  intros grants w12 Hg H12. apply wp_ret. split; [|exact H12]. eexists. split; [done|]. split; cbn; try done.
  - by rewrite Ha.
  - by rewrite H6, merge_sort_Permutation.
  - rewrite Ht. unfold user_pats. by rewrite <- list_fmap_compose.
  - rewrite Hl. destruct (m_sessionStore _); [|done]. unfold user_sessions. by rewrite <- list_fmap_compose.
  - rewrite Hv. by destruct (m_privacyStore _).
Qed.

Lemma Still_export_gate actor u : Still (export_gate actor u).
Proof. still. Qed.

(** The export and its conditions look at nothing but the tables. *)
Lemma exported_tables u s s' x : besides_trail s' = besides_trail s → exported u s x → exported u s' x.
Proof.
  intros H []. assert (exported u (besides_trail s) x) as [] by by split. rewrite <- H in *. by split.
Qed.
Lemma export_pageable_tables u s s' : besides_trail s' = besides_trail s → export_pageable u s → export_pageable u s'.
Proof.
  intros H Hp. assert (export_pageable u (besides_trail s)) as Hp' by done. rewrite <- H in Hp'. done.
Qed.

(** C32: the data export is complete over its sections and holds no secret.
    When the gate passes for the actor, the user is stored and the request runs
    alone, [ExportUserData] terminates: page after page it returns the user
    record and every email address, workspace affiliation, linked identity,
    passkey and personal access token of the user, every session where the
    store keeps sessions, every directory profile and accepted invitation where
    it is privacy-capable, and every OAuth grant where OAuth is configured,
    each row exactly once and without its digest or sealed credential. It
    changes nothing but the audit trail, to which the gate of an administrator
    appends. The identifiers and creation times of the rows are such that
    cursors carry them. TOTP factors, recovery codes, the instance role, and the
    codes and tokens of OAuth and email are not among the sections. *)
Theorem export_complete actor userID w :
  let u := or_actor actor userID in
  (export_gate actor u w).1 = Ok tt → is_Some (users (W_store w) !! u) → export_pageable u (W_store w) →
  ∃ x w', Manager_ExportUserData actor userID w = (Ok x, w') ∧ exported u (W_store w) x ∧
    besides_trail (W_store w') = besides_trail (W_store w).
Proof.
  intros u Hgate Hu Hp. pose proof (Still_export_gate actor u w) as Hs.
  destruct (export_gate actor u w) as [r w1] eqn:Hg. cbn [fst snd] in *. subst r.
  destruct (export_past_gate actor userID w w1 Hg) as (x & w' & Hx & He & Hw).
  - change (is_Some (users (besides_trail (W_store w1)) !! u)). by rewrite Hs.
  - by eapply export_pageable_tables.
  - exists x, w'. split_and!; [done|by eapply exported_tables; [symmetry|]|by rewrite Hw].
Qed.
End export.

Lemma export_complete_witness :
  ∃ x w', @Manager_ExportUserData demo root Nil served = (Ok x, w') ∧
    @exported demo (or_actor root Nil) (W_store served) x ∧
    besides_trail (W_store w') = besides_trail (W_store served).
Proof.
  apply (@export_complete demo demo_quiet).
  - vm_compute. reflexivity.
  - apply (bool_decide_unpack _). vm_compute. exact I.
  - apply (bool_decide_unpack _). vm_compute. exact I.
Defined.
