(* ===== verification/ManagerKeys.v ===== *)
(** * Identifiers, configuration and key rotation

    The identifiers a process mints increase strictly; what [New] accepts is
    well formed; a rotation that retires keys keeps the credentials issued
    under them valid. *)
From stdpp Require Import base gmap sets list strings numbers sorting.
From Stdlib Require Import ZArith Lia Ascii.
From S2P Require Import Prelude Bytes Uuid Types OAuthTypes Roles Store StoreSystem GoText Tokens Events Manager ManagerGates Config ManagerScenario.

(** ** The generator *)

(** One identifier: the clock in milliseconds, the random bytes, the state. *)
Definition mint (now : Z) (random : UUID) (st : Z * Z) : UUID * (Z * Z) :=
  let st' := next_id now st.1 st.2 in (v7_bytes st'.1 st'.2 random, st').
(** The identifiers of a process, in the order the generator's mutex gives. *)
Fixpoint mint_all (l : list (Z * UUID)) (st : Z * Z) : list UUID :=
  match l with
  | [] => []
  | (now, random) :: l' => let p := mint now random st in p.1 :: mint_all l' p.2
  end.

(** [newID] is one step of the generator. *)
Lemma newID_mint {E : Env} w id w' :
  newID w = (Ok id, w') →
  let w1 := (interfere w).2 in
  ∃ random, mint (UnixMilli (m_clock the_manager (W_tick w1))) random
      (W_idUnixMilli w1, W_idSequence w1) = (id, (W_idUnixMilli w', W_idSequence w')).
Proof.
  unfold newID, mbind, M_bind. change (interfere w) with (Ok tt, (interfere w).2). cbv beta iota.
  cbn [fst snd]. generalize (interfere w).2. intros w1. unfold now. cbv beta iota.
  unfold modify, randomBytes, get, mret, M_ret.
  destruct (m_random_error _ _); [done|]. intros [= <- <-]. eexists.
  apply pair_equal_spec. split; [reflexivity|apply surjective_pairing].
Qed.

Definition state_lt (a b : Z * Z) : Prop := (a.1 < b.1 ∨ a.1 = b.1 ∧ a.2 < b.2)%Z.
Definition in_range (bound : Z) (st : Z * Z) : Prop :=
  (0 ≤ st.1 < bound)%Z ∧ (0 ≤ st.2 < 4096)%Z.

Lemma next_id_step now st bound :
  (bound ≤ 2 ^ 48)%Z → in_range bound st → (0 ≤ now < bound)%Z →
  in_range (bound + 1) (next_id now st.1 st.2) ∧ state_lt st (next_id now st.1 st.2).
Proof.
  intros Hb [H1 H2] Hn. unfold next_id, in_range, state_lt.
  rewrite (wrap64_id (st.1 + 1)) by (unfold int64_min, int64_max; lia).
  repeat case_bool_decide; cbn [fst snd]; lia.
Qed.

Lemma mint_all_above l st bound :
  (bound + Z.of_nat (length l) ≤ 2 ^ 48)%Z → in_range bound st →
  Forall (λ x, 0 ≤ x.1 < bound)%Z l →
  Forall (λ id, ∃ st' r, id = v7_bytes st'.1 st'.2 r ∧ in_range (2 ^ 48) st' ∧ state_lt st st')
    (mint_all l st).
Proof.
  revert st bound. induction l as [|[now r] l IH]; intros st bound Hb Hst Hl; [constructor|].
  apply Forall_cons_1 in Hl as [Hn Hl]. cbn [length fst] in *.
  destruct (next_id_step now st bound) as [Hr Hlt]; [lia|done|done|].
  cbn [mint_all mint fst snd]. constructor.
  - exists (next_id now st.1 st.2), r. split_and!; [done| |done].
    destruct Hr. split; [lia|done].
  - eapply Forall_impl; [apply (IH _ (bound + 1)%Z); [lia|done|]|].
    + eapply Forall_impl; [exact Hl|]. cbn. intros. lia.
    + intros id (st' & r' & -> & Hr' & Hlt'). exists st', r'. split_and!; [done|done|].
      unfold state_lt in *. lia.
Qed.

Lemma mint_all_sorted l st bound :
  (bound + Z.of_nat (length l) ≤ 2 ^ 48)%Z → in_range bound st →
  Forall (λ x, 0 ≤ x.1 < bound)%Z l →
  StronglySorted (λ a b, UUID_Compare a b = -1)%Z (mint_all l st) ∧
  Forall (λ id, validUUIDv7 id = true) (mint_all l st).
Proof.
  revert st bound. induction l as [|[now r] l IH]; intros st bound Hb Hst Hl; [split; constructor|].
  apply Forall_cons_1 in Hl as [Hn Hl]. cbn [length fst] in *.
  destruct (next_id_step now st bound) as [Hr Hlt]; [lia|done|done|].
  assert (Forall (λ x, 0 ≤ x.1 < bound + 1)%Z l) as Hl'.
  { eapply Forall_impl; [exact Hl|]. cbn. intros. lia. }
  destruct (IH (next_id now st.1 st.2) (bound + 1)%Z) as [Hs Hv]; [lia|done|done|].
  cbn [mint_all mint fst snd]. split; constructor; [done| |by apply v7_bytes_valid, Hr|done].
  eapply Forall_impl; [apply (mint_all_above l _ (bound + 1)%Z); [lia|done|done]|].
  intros id (st' & r' & -> & [? ?] & Hlt'). destruct Hr. apply v7_bytes_lt; [lia|done..].
Qed.

(** Identifiers are unique and sort by creation. Over any sequence of
    calls of [newID] in a process, whatever the clock does (it may stand still
    or go back) and whatever the random bytes are, the identifiers minted are
    version 7 and strictly increase, as long as the clock stays below the
    48-bit timestamp by the number of identifiers minted. *)
Theorem minted_identifiers_increase l bound :
  (0 < bound)%Z → (bound + Z.of_nat (length l) ≤ 2 ^ 48)%Z → Forall (λ x, 0 ≤ x.1 < bound)%Z l →
  StronglySorted (λ a b, UUID_Compare a b = -1)%Z (mint_all l (0, 0)%Z) ∧
  Forall (λ id, validUUIDv7 id = true) (mint_all l (0, 0)%Z).
Proof. intros Hb Hl H. apply (mint_all_sorted l _ bound); [done|split; cbn; lia|done]. Qed.

(** A clock that stands still, then goes back. *)
Lemma minted_identifiers_increase_witness :
  let l := [(1700000000000, Nil); (1700000000000, Nil); (1699999999999, Nil)]%Z in
  StronglySorted (λ a b, UUID_Compare a b = -1)%Z (mint_all l (0, 0)%Z) ∧
  Forall (λ id, validUUIDv7 id = true) (mint_all l (0, 0)%Z).
Proof.
  apply (minted_identifiers_increase [(1700000000000, Nil); (1700000000000, Nil); (1699999999999, Nil)]%Z
    (2 ^ 47)%Z); [lia|cbn; lia|].
  repeat constructor; cbn; lia.
Defined.

(** ** Configurations *)
Lemma result_bind_ok {A B} (r : result A) (k : A → result B) b :
  (r ≫= k) = Ok b → ∃ a, r = Ok a ∧ k a = Ok b.
Proof. destruct r; [by eexists|done]. Qed.
Lemma invalid_when_ok b s u : invalid_when b s = Ok u → b = false.
Proof. by destruct b. Qed.
Lemma each_ok {A} (f : A → result unit) l u : each f l = Ok u → Forall (λ a, f a = Ok tt) l.
Proof.
  induction l as [|a l IH]; [constructor|]. cbn. destruct (f a) as [[]|] eqn:Hf; [|done].
  intros H. constructor; [done|auto].
Qed.

Ltac New_inv H :=
  repeat lazymatch type of H with
  | (_ ≫= _) = Ok _ =>
      let Hc := fresh "Hcheck" in apply result_bind_ok in H as (? & Hc & H); cbv beta zeta in H
  end.

Definition positive_policy (p : StepUpPolicy) : Prop :=
  p ∈ [StepUpPolicyRequired; StepUpPolicyUserCapable; StepUpPolicyNone].

(** What the operations rely on. *)
Record valid_manager (m : Manager) : Prop := {
  valid_prefix : validTokenMarker (m_patPrefix m) = true;
  valid_password_len : (10 ≤ m_minPasswordLen m)%Z;
  valid_lockout : (0 ≤ m_maxFailedLogins m ∧ 0 < m_lockoutDuration m)%Z;
  valid_lifetimes : (0 < m_sessionTTL m ∧ 0 < m_stepUpMaxAge m ∧ 0 < m_ceremonyTTL m ∧
    0 < m_emailVerificationTTL m ∧ 0 < m_passwordResetTTL m ∧ 0 < m_emailAuthTTL m ∧
    0 < m_invitationTTL m ∧ 0 < m_domainClaimTTL m)%Z;
  valid_touch : (0 ≤ m_sessionTouchInterval m ∧ 0 ≤ m_patTouchInterval m)%Z ∧
    ((0 < m_sessionIdleTimeout m)%Z → (m_sessionTouchInterval m < m_sessionIdleTimeout m)%Z);
  valid_policies : ∀ scope, positive_policy (policyFor (m_stepUp m) scope);
  valid_keys : m_digestKey m ∈ m_readDigestKeys m ∧ m_sealKey m ∈ m_readSealKeys m ∧
    m_patPepper m ∈ m_readPATPeppers m ∧ m_recoveryPepper m ∈ m_readRecoveryPeppers m;
  valid_pepper : 32 ≤ str_len (m_patPepper m) ∧ 32 ≤ str_len (m_recoveryPepper m);
  valid_assurance : ∀ id p, m_ssoAssurance m !! id = Some p →
    is_Some (m_ssoProviders m !! id) ∧ SSOAssurancePolicy_empty p = false;
  valid_cooldown : (0 < m_emailIssuanceCooldown m)%Z → m_emailThrottle m = true;
  valid_signup : is_Some (m_signup m) → m_signupStore m = true }.

Lemma positive_or_pos d v : (0 < d)%Z → (0 < positive_or d v)%Z.
Proof. unfold positive_or. case_bool_decide; lia. Qed.

Lemma resolved_policies p scope :
  Forall (λ f, f.2 = EmptyString ∨ StepUpPolicy_valid f.2 = true) (StepUpPolicies_fields p) →
  positive_policy (policyFor (StepUpPolicies_resolve p) scope).
Proof.
  intros H. unfold StepUpPolicies_fields in H.
  apply Forall_cons_1 in H as [Hd H]. apply Forall_cons_1 in H as [Hp H].
  apply Forall_cons_1 in H as [Hw H]. apply Forall_cons_1 in H as [Ha H].
  apply Forall_cons_1 in H as [Hi _]. cbn [snd] in *.
  assert (∀ q, StepUpPolicy_valid q = true → positive_policy q) as Hv.
  { intros q. unfold StepUpPolicy_valid, positive_policy.
    rewrite !orb_true_iff, !bool_decide_eq_true, !elem_of_cons. tauto. }
  set (d := if bool_decide (StepUpPolicies_Default p = EmptyString) then StepUpPolicyRequired
            else StepUpPolicies_Default p).
  assert (positive_policy d) as Hpd.
  { unfold d. case_bool_decide; [by left|]. destruct Hd; [done|auto]. }
  assert (∀ f, f = EmptyString ∨ StepUpPolicy_valid f = true →
    positive_policy (if bool_decide (f = EmptyString) then d else f)) as Hfill.
  { intros f Hf. case_bool_decide; [done|]. destruct Hf; [done|auto]. }
  unfold policyFor, StepUpPolicies_resolve. cbn [StepUpPolicies_PAT StepUpPolicies_Workspace
    StepUpPolicies_Account StepUpPolicies_Admin]. fold d.
  repeat (destruct (bool_decide (scope = _)); [by apply Hfill|]). by left.
Qed.

Lemma check_keys_ok cfg u : check_keys cfg = Ok u →
  32 ≤ str_len (cfg_PATPepper cfg) ∧ 32 ≤ str_len (cfg_RecoveryPepper cfg).
Proof.
  intros H. unfold check_keys in H. New_inv H. apply invalid_when_ok in Hcheck0. bool_cases. lia.
Qed.
Lemma check_intervals_ok cfg u : check_intervals cfg = Ok u →
  (0 ≤ cfg_SessionTouchInterval cfg ∧ 0 ≤ cfg_PATTouchInterval cfg)%Z ∧
  ((0 < cfg_SessionIdleTimeout cfg)%Z →
    (cfg_SessionTouchInterval cfg < cfg_SessionIdleTimeout cfg)%Z).
Proof.
  intros H. unfold check_intervals in H. New_inv H.
  apply invalid_when_ok in Hcheck, Hcheck0, H. bool_cases. split; [lia|]. intros Hi.
  rewrite !andb_false_iff, !bool_decide_eq_false in H. lia.
Qed.
Lemma check_capabilities_ok cfg store u : check_capabilities cfg store = Ok u →
  ((0 < cfg_EmailIssuanceCooldown cfg)%Z → implements_EmailThrottleStore store = true) ∧
  (is_Some (cfg_SignUp cfg) → implements_SignupStore store = true).
Proof.
  intros H. unfold check_capabilities in H. New_inv H. apply invalid_when_ok in Hcheck, Hcheck0.
  rewrite andb_false_iff, negb_false_iff in Hcheck, Hcheck0. unfold not_nil in *.
  split; intros Hx; [destruct Hcheck as [Hc|?]|destruct Hcheck0 as [Hc|?]]; try done;
    by apply bool_decide_eq_false in Hc.
Qed.

(** C38: what [New] accepts is well formed: the marker of the tokens can be
    parsed, passwords have ten characters at least, lifetimes are positive, a
    session cannot idle out between two recorded uses, every family of guarded
    operations has one of the three documented step-up policies, the keys and
    peppers that write are among those that read, an assurance policy names a
    registered provider and demands something, and no configured protection
    lacks the store that backs it. *)
Theorem New_valid order cfg m : New_Manager order cfg = Ok m → valid_manager m.
Proof.
  unfold New_Manager. destruct (cfg_Store cfg) as [store|]; [|done].
  destruct (cfg_Passwords cfg) as [passwords|]; [|done]. intros H. New_inv H.
  injection H as <-.
  apply check_keys_ok in Hcheck. apply invalid_when_ok, negb_false_iff in Hcheck0.
  apply each_ok in Hcheck1. apply check_intervals_ok in Hcheck2. apply invalid_when_ok in Hcheck3.
  apply each_ok in Hcheck7. apply check_capabilities_ok in Hcheck10. bool_cases.
  split; cbn -[Z.lt Z.le positive_or Z.max]; try done.
  - lia.
  - split; [|by apply positive_or_pos]. destruct (bool_decide (cfg_MaxFailedLogins cfg = 0)%Z); lia.
  - split_and!; by apply positive_or_pos.
  - intros scope. apply resolved_policies. eapply Forall_impl; [exact Hcheck1|].
    intros f Hf. cbv beta in Hf. apply invalid_when_ok in Hf.
    apply andb_false_iff in Hf as [Hf|Hf]; bool_cases; [left; by apply dec_stable|by right].
  - split_and!; apply list_elem_of_here.
  - intros id p Hp. apply elem_of_map_to_list in Hp.
    rewrite Forall_forall in Hcheck7. specialize (Hcheck7 _ Hp). cbn in Hcheck7.
    unfold check_assurance in Hcheck7.
    destruct (negb (bool_decide _)) eqn:Hreg; [done|].
    destruct (SSOAssurancePolicy_empty p) eqn:Hempty; [done|]. bool_cases. by split.
  - apply Hcheck10.
  - apply Hcheck10.
Qed.

Lemma New_valid_witness : valid_manager demo_manager.
Proof. exact (New_valid key_order demo_config _ demo_built). Defined.

(** ** Rotation *)

(** Every key and pepper of [cfg], active or retired, is still read under
    [cfg']. *)
Definition rotated (cfg cfg' : Config) : Prop :=
  cfg_SecretKey cfg :: cfg_RetiredSecretKeys cfg ⊆ cfg_SecretKey cfg' :: cfg_RetiredSecretKeys cfg' ∧
  cfg_PATPepper cfg :: cfg_RetiredPATPeppers cfg ⊆ cfg_PATPepper cfg' :: cfg_RetiredPATPeppers cfg' ∧
  cfg_RecoveryPepper cfg :: cfg_RetiredRecoveryPeppers cfg ⊆
    cfg_RecoveryPepper cfg' :: cfg_RetiredRecoveryPeppers cfg'.

(** The rings [New] builds. *)
Lemma New_rings order cfg m :
  New_Manager order cfg = Ok m →
  m_readDigestKeys m = digest_key <$> cfg_SecretKey cfg :: cfg_RetiredSecretKeys cfg ∧
  (∀ k, k ∈ m_readSealKeys m ↔ k ∈ seal_key <$> cfg_SecretKey cfg :: cfg_RetiredSecretKeys cfg ∨
    k ∈ cfg_SecretKey cfg :: cfg_RetiredSecretKeys cfg) ∧
  m_readPATPeppers m = cfg_PATPepper cfg :: cfg_RetiredPATPeppers cfg ∧
  m_readRecoveryPeppers m = cfg_RecoveryPepper cfg :: cfg_RetiredRecoveryPeppers cfg ∧
  m_digestKey m = digest_key (cfg_SecretKey cfg) ∧ m_sealKey m = seal_key (cfg_SecretKey cfg) ∧
  m_patPepper m = cfg_PATPepper cfg ∧ m_recoveryPepper m = cfg_RecoveryPepper cfg.
Proof.
  unfold New_Manager. destruct (cfg_Store cfg) as [store|]; [|done].
  destruct (cfg_Passwords cfg) as [passwords|]; [|done]. intros H. New_inv H.
  injection H as <-. split_and!; try done. intros k. cbn [m_readSealKeys app].
  rewrite fmap_cons, elem_of_cons, elem_of_app, !elem_of_cons. tauto.
Qed.

Lemma matchDigestRing_mono stored keys keys' value :
  keys ⊆ keys' → matchDigestRing stored keys value = true → matchDigestRing stored keys' value = true.
Proof.
  intros Hsub (k & Hk & Hd)%existsb_exists. apply existsb_exists. exists k. split; [|done].
  apply list_elem_of_In, Hsub. by apply list_elem_of_In.
Qed.

(** C33: rotating keys loses no credential and keeps no old key for writing.
    When a configuration retires the keys and peppers of another one, every
    token digest, PAT digest and recovery-code digest that was accepted is
    still accepted, and every key that could open sealed data is still tried;
    what is written is keyed by the active keys alone. *)
Theorem rotation_keeps_credentials order order' cfg cfg' m m' stored value :
  New_Manager order cfg = Ok m → New_Manager order' cfg' = Ok m' → rotated cfg cfg' →
  (matchDigestRing stored (m_readDigestKeys m) value = true →
    matchDigestRing stored (m_readDigestKeys m') value = true) ∧
  (matchDigestRing stored (m_readPATPeppers m) value = true →
    matchDigestRing stored (m_readPATPeppers m') value = true) ∧
  (matchDigestRing stored (m_readRecoveryPeppers m) value = true →
    matchDigestRing stored (m_readRecoveryPeppers m') value = true) ∧
  m_readSealKeys m ⊆ m_readSealKeys m' ∧
  m_digestKey m' = digest_key (cfg_SecretKey cfg') ∧ m_sealKey m' = seal_key (cfg_SecretKey cfg').
Proof.
  intros Hm Hm' (Hs & Hp & Hr).
  destruct (New_rings _ _ _ Hm) as (Hd1 & Hs1 & Hp1 & Hr1 & _).
  destruct (New_rings _ _ _ Hm') as (Hd2 & Hs2 & Hp2 & Hr2 & Hk & Hk' & _).
  assert (∀ f : string → string, f <$> cfg_SecretKey cfg :: cfg_RetiredSecretKeys cfg ⊆
    f <$> cfg_SecretKey cfg' :: cfg_RetiredSecretKeys cfg') as Hf.
  { intros f k (k0 & -> & Hk0)%list_elem_of_fmap. apply list_elem_of_fmap_2, Hs, Hk0. }
  split_and!; [| | | |done|done].
  - rewrite Hd1, Hd2. by apply matchDigestRing_mono.
  - rewrite Hp1, Hp2. by apply matchDigestRing_mono.
  - rewrite Hr1, Hr2. by apply matchDigestRing_mono.
  - intros k. rewrite Hs1, Hs2. intros [Hk0|Hk0]; [left; by apply Hf|right; by apply Hs].
Qed.

Lemma rotation_keeps_credentials_witness :
  let token := "session:x" in
  matchDigestRing (digest (m_digestKey demo_manager) token) (m_readDigestKeys rotated_manager) token = true.
Proof.
  intros token.
  refine (proj1 (rotation_keeps_credentials key_order key_order demo_config rotated_config demo_manager
    rotated_manager (digest (m_digestKey demo_manager) token) token demo_built
    rotated_built _) _).
  - split_and!; intros k; cbn; set_solver.
  - vm_compute. reflexivity.
Defined.
