(* ===== verification/ManagerContinuation.v ===== *)
(** * Sealed continuations

    The state a ceremony leaves with the client comes back unchanged as
    far as it is UTF-8, serves
    the operation it was sealed for and no other, and only until it expires. *)
From stdpp Require Import base gmap sets list strings numbers.
From Stdlib Require Import ZArith Lia Ascii.
From S2P Require Import Prelude Bytes GoText GoJson GoCrypto GoTime GoEncoding GoRunes Uuid Types OAuthTypes Roles Store StoreSystem Tokens Events Manager ManagerGates Config ManagerSeal ManagerScenario ManagerKeys.

Lemma New_seal order cfg m :
  New_Manager order cfg = Ok m →
  ∃ keys gcm, m_readSealKeys m = m_sealKey m :: keys ∧ newGCM (m_sealKey m) = Ok gcm.
Proof.
  unfold New_Manager. destruct (cfg_Store cfg) as [store|]; [|done].
  destruct (cfg_Passwords cfg) as [passwords|]; [|done]. intros H. New_inv H. injection H as <-.
  eexists _, _. split; [reflexivity|]. cbn [m_sealKey]. unfold newGCM, aes_NewCipher, seal_key, hkdf_Key.
  rewrite hmac_sha256_len. reflexivity.
Qed.

Section continuation.
Context {E : Env} (order : IterationOrder) (cfg : Config).
Context (Hnew : New_Manager order cfg = Ok the_manager).

(** What is sealed opens. *)
Lemma seal_opens plaintext w sealed w' :
  seal plaintext w = (Ok sealed, w') →
  open_payload (base64_RawURL_EncodeToString sealed) = Some plaintext.
Proof.
  destruct (New_seal _ _ _ Hnew) as (keys & gcm & Hring & Hgcm).
  unfold seal, mbind, M_bind. rewrite Hgcm. unfold lift_result, mret, M_ret, randomBytes, ok_or.
  destruct (m_random_error the_manager (W_tick w)); [done|].
  set (nonce := of_bytes _). assert (str_len nonce = gcm_NonceSize) as Hn
    by (by unfold nonce; rewrite <- bytes_of_length, bytes_of_of, length_fmap, length_seq).
  clearbody nonce. destruct (gcm_Seal gcm nonce plaintext) as [body|] eqn:Hs; [|done]. intros [= <- _].
  unfold open_payload. rewrite base64_Decode_Encode. cbn [mbind option_bind]. unfold open. rewrite Hring.
  by rewrite (open_ring_seal _ keys gcm nonce plaintext body).
Qed.

Lemma seal_total plaintext w :
  (Z.of_nat (str_len plaintext) ≤ gcm_max_text)%Z → m_random_error the_manager (W_tick w) = None →
  ∃ sealed, seal plaintext w = (Ok sealed, tick w).
Proof.
  intros Hlen Hr. destruct (New_seal _ _ _ Hnew) as (keys & gcm & _ & Hgcm).
  unfold seal, mbind, M_bind. rewrite Hgcm. unfold lift_result, mret, M_ret, randomBytes. rewrite Hr.
  unfold gcm_Seal. rewrite bool_decide_false by lia. by eexists.
Qed.

Lemma encodeContinuation_opens c w raw w' :
  encodeContinuation c w = (Ok raw, w') →
  ∃ payload, ceremony_json c = Some payload ∧ open_payload raw = Some payload.
Proof.
  unfold encodeContinuation. destruct (ceremony_json c) as [payload|]; [|done].
  unfold ok_or, mbind, M_bind, mret, M_ret. destruct (seal payload w) as [[sealed|e] w1] eqn:Hs; [|done].
  intros [= <- _]. exists payload. split; [done|]. by eapply seal_opens.
Qed.
Lemma encodeSSOContinuation_opens c w raw w' :
  encodeSSOContinuation c w = (Ok raw, w') →
  ∃ payload, sso_json c = Some payload ∧ open_payload raw = Some payload.
Proof.
  unfold encodeSSOContinuation. destruct (sso_json c) as [payload|]; [|done].
  unfold ok_or, mbind, M_bind, mret, M_ret. destruct (seal payload w) as [[sealed|e] w1] eqn:Hs; [|done].
  intros [= <- _]. exists payload. split; [done|]. by eapply seal_opens.
Qed.

(** The verdict on an opened continuation. *)
Definition ceremony_verdict (c : ceremonyContinuation) (operation : string) (t : Z) :
    result ceremonyContinuation :=
  if negb (bool_decide (ceremony_Operation c = operation)) then Error ErrInvalidCredentials
  else if bool_decide (ceremony_UserID c = Nil) && negb (bool_decide (operation = passkeyDiscoverable))
  then Error ErrInvalidCredentials
  else if bool_decide (t < ceremony_ExpiresAt c)%Z then Ok c else Error ErrExpired.

Lemma ceremony_round_trip c w raw w1 operation w2 :
  encodeContinuation c w = (Ok raw, w1) →
  (decodeContinuation raw operation w2).1 = ceremony_verdict (ceremony_utf8 c) operation (m_clock the_manager (W_tick w2)) ∧
  (decodeSSOContinuation raw w2).1 = Error ErrInvalidCredentials.
Proof.
  intros Henc. destruct (encodeContinuation_opens _ _ _ _ Henc) as (payload & Hj & Ho). split.
  - unfold decodeContinuation. rewrite Ho. cbn [mbind option_bind].
    rewrite (ceremony_unmarshal_json c payload) by done. generalize (ceremony_utf8 c) as v. intros v. unfold ceremony_verdict.
    unfold mbind, M_bind, ok_or, throw_if, throw, now, mret, M_ret, Time_Before.
    repeat (case_bool_decide; cbn [negb andb fst]; try done).
  - unfold decodeSSOContinuation. rewrite Ho. cbn [mbind option_bind].
    destruct (sso_unmarshal payload) as [v|] eqn:Hv; [|done].
    apply (sso_unmarshal_ceremony c) in Hv; [|done..]. unfold mbind, M_bind, ok_or, mret, M_ret. by rewrite Hv.
Qed.

Definition sso_verdict (c : ssoContinuation) (t : Z) : result ssoContinuation :=
  if negb (validUUIDv7 (sso_ProviderConfigurationID c)) || empty_slice (sso_Session c) ||
     negb (bool_decide (sso_Operation c ∈ [ssoLogin; ssoLink; ssoStepUp])) ||
     bool_decide (sso_Operation c ∈ [ssoLink; ssoStepUp]) && bool_decide (sso_UserID c = Nil)
  then Error ErrInvalidCredentials
  else if bool_decide (t < sso_ExpiresAt c)%Z then Ok c else Error ErrExpired.

Lemma sso_round_trip c w raw w1 operation w2 :
  operation ≠ EmptyString → encodeSSOContinuation c w = (Ok raw, w1) →
  (decodeSSOContinuation raw w2).1 = sso_verdict (sso_utf8 c) (m_clock the_manager (W_tick w2)) ∧
  (decodeContinuation raw operation w2).1 = Error ErrInvalidCredentials.
Proof.
  intros Hne Henc. destruct (encodeSSOContinuation_opens _ _ _ _ Henc) as (payload & Hj & Ho). split.
  - unfold decodeSSOContinuation. rewrite Ho. cbn [mbind option_bind].
    rewrite (sso_unmarshal_json c payload) by done. generalize (sso_utf8 c) as v. intros v. unfold sso_verdict.
    unfold mbind, M_bind, ok_or, throw_if, throw, now, mret, M_ret, Time_Before.
    destruct (validUUIDv7 _), (empty_slice _); cbn [negb orb]; try done.
    repeat (case_bool_decide; cbn [negb andb orb fst]; try done).
  - unfold decodeContinuation. rewrite Ho. cbn [mbind option_bind].
    destruct (ceremony_unmarshal payload) as [v|] eqn:Hv; [|done].
    apply (ceremony_unmarshal_sso c) in Hv; [|done..]. unfold mbind, M_bind, ok_or, mret, M_ret, throw_if.
    rewrite Hv. by rewrite bool_decide_false.
Qed.
End continuation.

(** C28: the state of a ceremony survives its trip through the client, and
    serves nothing else. For every manager [New] builds: sealing a passkey or
    email state succeeds while entropy is available, the expiry has a
    four-digit year and the payload is within the limit of the cipher;
    decoding what was sealed gives back exactly the state before its expiry and
    [ErrExpired] from then on, its name and operation being any UTF-8 text (a
    byte that is not UTF-8 comes back as U+FFFD); any other operation, or a
    state bound to no account outside a discoverable ceremony, is
    [ErrInvalidCredentials]; and a passkey or email continuation is never
    accepted as a single sign-on one, nor the converse. *)
Theorem continuation_round_trip {E : Env} order cfg :
  New_Manager order cfg = Ok the_manager →
  (∀ c w raw w1 operation w2, encodeContinuation c w = (Ok raw, w1) →
     (decodeContinuation raw operation w2).1 =
       ceremony_verdict (ceremony_utf8 c) operation (m_clock the_manager (W_tick w2)) ∧
     (decodeSSOContinuation raw w2).1 = Error ErrInvalidCredentials) ∧
  (∀ c w raw w1 operation w2, operation ≠ EmptyString → encodeSSOContinuation c w = (Ok raw, w1) →
     (decodeSSOContinuation raw w2).1 = sso_verdict (sso_utf8 c) (m_clock the_manager (W_tick w2)) ∧
     (decodeContinuation raw operation w2).1 = Error ErrInvalidCredentials) ∧
  (∀ c w payload, ceremony_json c = Some payload → (Z.of_nat (str_len payload) ≤ gcm_max_text)%Z →
     m_random_error the_manager (W_tick w) = None → ∃ raw, encodeContinuation c w = (Ok raw, tick w)) ∧
  (∀ id user op name provider expires session,
     forallb is_scalar op = true → forallb is_scalar name = true →
     let c := mkCeremonyContinuation id user (string_of_runes op) (string_of_runes name) expires session in
     let d := mkSSOContinuation id provider (string_of_runes op) user expires session in
     ceremony_utf8 c = c ∧ sso_utf8 d = d).
Proof.
  intros Hnew. split_and!.
  - intros c w raw w1 operation w2. by apply (ceremony_round_trip order cfg).
  - intros c w raw w1 operation w2. by apply (sso_round_trip order cfg).
  - intros c w payload Hj Hlen Hr. destruct (seal_total order cfg Hnew payload w Hlen Hr) as [sealed Hs].
    unfold encodeContinuation, mbind, M_bind, ok_or. rewrite Hj. unfold mret, M_ret. rewrite Hs. by eexists.
  - intros id user op name provider expires session Hop Hname. cbv zeta.
    unfold ceremony_utf8, sso_utf8. cbn [ceremony_ID ceremony_UserID ceremony_Operation ceremony_Name
      ceremony_ExpiresAt ceremony_Session sso_ID sso_ProviderConfigurationID sso_Operation sso_UserID sso_ExpiresAt
      sso_Session]. by rewrite !to_valid_utf8.
Qed.

Definition demo_continuation : ceremonyContinuation :=
  mkCeremonyContinuation (Authentication_UserID root) (Authentication_UserID root) passkeyRegistration "R&D laptop"
    (2 * 10 ^ 18) (Some "session").
Definition demo_sealed : string :=
  match (@encodeContinuation demo demo_continuation empty_world).1 with Ok s => s | Error _ => EmptyString end.

Lemma continuation_round_trip_witness :
  (@decodeContinuation demo demo_sealed passkeyRegistration empty_world).1 = Ok demo_continuation ∧
  (@decodeContinuation demo demo_sealed passkeyAuthentication empty_world).1 = Error ErrInvalidCredentials ∧
  (@decodeSSOContinuation demo demo_sealed empty_world).1 = Error ErrInvalidCredentials.
Proof.
  destruct (@continuation_round_trip demo key_order demo_config demo_built) as (H & _ & _ & _).
  assert (@encodeContinuation demo demo_continuation empty_world = (Ok demo_sealed, tick empty_world)) as Henc
    by (vm_compute; reflexivity).
  destruct (H _ _ _ _ passkeyRegistration empty_world Henc) as [-> ->].
  destruct (H _ _ _ _ passkeyAuthentication empty_world Henc) as [-> _].
  split_and!; reflexivity.
Defined.
