(* ===== verification/ManagerScimRoles.v ===== *)
(** * Roles of provisioned members

    The role a directory's groups give a member, against its specification:
    the role of the mappings of highest priority among those of the member's
    groups, the default role where there is none. *)
From stdpp Require Import base gmap sets list strings numbers.
From Stdlib Require Import ZArith Lia Ascii.
From S2P Require Import Prelude Bytes Uuid Types ManagerScim.

Section roles.
Context (configuration : SCIMConfiguration) (groups : list SCIMGroup) (linkID : UUID).

(** A mapping applies through a live group the member belongs to. *)
Definition applies (mapping : SCIMGroupRoleMapping) : Prop :=
  mapping ∈ SCIMConfiguration_GroupRoleMappings configuration ∧
  ∃ group, group ∈ groups ∧ SCIMGroup_DeletedAt group = None ∧ linkID ∈ SCIMGroup_MemberIDs group ∧
    SCIMGroupRoleMapping_ExternalID mapping = SCIMGroup_ExternalID group.

(** No other mapping that applies has a higher priority. *)
Definition highest (mapping : SCIMGroupRoleMapping) : Prop :=
  applies mapping ∧
  ∀ other, applies other → (SCIMGroupRoleMapping_Priority other ≤ SCIMGroupRoleMapping_Priority mapping)%Z.

Lemma applicable_spec mapping : mapping ∈ applicable configuration groups linkID ↔ applies mapping.
Proof.
  unfold applicable, applies, group_member. rewrite list_elem_of_In, in_concat. split.
  - intros (l & Hl%list_elem_of_In & Hin%list_elem_of_In). apply list_elem_of_fmap in Hl as (group & -> & Hg).
    apply list_elem_of_filter in Hin as [He Hm]. apply list_elem_of_filter in Hg as [Hmem Hg].
    apply andb_true_iff in Hmem as [Hd Hl]. bool_cases. split; [done|]. exists group.
    split_and!; [done|by destruct (SCIMGroup_DeletedAt group)|done|done].
  - intros (Hm & group & Hg & Hd & Hl & He).
    eexists. split; apply list_elem_of_In; [apply list_elem_of_fmap_2, list_elem_of_filter; split; [|exact Hg]|].
    + by rewrite Hd, bool_decide_true.
    + by apply list_elem_of_filter.
Qed.

(** The state of the selection after the mappings [l]. *)
Definition selects (l : list SCIMGroupRoleMapping) (selected : Role * option Z) : Prop :=
  match selected.2 with
  | None => l = [] ∧ selected.1 = SCIMConfiguration_DefaultRole configuration
  | Some p =>
      (∃ m, m ∈ l ∧ SCIMGroupRoleMapping_Role m = selected.1 ∧ SCIMGroupRoleMapping_Priority m = p) ∧
      ∀ m, m ∈ l → (SCIMGroupRoleMapping_Priority m ≤ p)%Z ∧
        (SCIMGroupRoleMapping_Priority m = p → SCIMGroupRoleMapping_Role m = selected.1)
  end.

(** Two mappings of [l] clash. *)
Definition clash (l : list SCIMGroupRoleMapping) : Prop :=
  ∃ m1 m2, m1 ∈ l ∧ m2 ∈ l ∧ SCIMGroupRoleMapping_Priority m1 = SCIMGroupRoleMapping_Priority m2 ∧
    SCIMGroupRoleMapping_Role m1 ≠ SCIMGroupRoleMapping_Role m2.

Lemma select_mapping_spec l selected m :
  selects l selected →
  match select_mapping selected m with
  | Ok selected' => selects (l ++ [m]) selected'
  | Error e => e = Wrapped "ambiguous SCIM group role mapping" ErrConflict ∧ clash (l ++ [m])
  end.
Proof.
  destruct selected as [role [p|]]; unfold selects, select_mapping; cbn [fst snd].
  - intros [(m0 & Hm0 & Hr & Hp) Hall].
    assert (∀ x, x ∈ l ++ [m] ↔ x ∈ l ∨ x = m) as Hin by (intros x; set_solver).
    case_bool_decide as Hlt; cbn [fst snd].
    + split; [exists m; rewrite Hin; by eauto|]. intros x [Hx| ->]%Hin; [|done].
      destruct (Hall x Hx). split; [lia|lia].
    + case_bool_decide as Heq; case_bool_decide as Hrole; cbn [andb negb fst snd].
      2: { split; [done|]. exists m0, m. rewrite !Hin. split_and!; [by left|by right|congruence|congruence]. }
      all: (split; [exists m0; rewrite Hin; by eauto|]); intros x [Hx| ->]%Hin;
        [by apply Hall|split; [lia|intros ?; congruence || lia]].
  - intros [-> ->]. cbn [app fst snd]. split; [exists m; split_and!; [by left|done|done]|].
    intros x ->%list_elem_of_singleton. done.
Qed.

Lemma select_mappings_spec l done_ selected :
  selects done_ selected →
  match select_mappings selected l with
  | Ok selected' => selects (done_ ++ l) selected'
  | Error e => e = Wrapped "ambiguous SCIM group role mapping" ErrConflict ∧ clash (done_ ++ l)
  end.
Proof.
  revert done_ selected. induction l as [|m l IH]; intros done_ selected Hs; cbn [select_mappings].
  - by rewrite app_nil_r.
  - pose proof (select_mapping_spec _ _ m Hs) as H. destruct (select_mapping selected m) as [s'|e].
    + specialize (IH _ _ H). rewrite <- app_assoc in IH. exact IH.
    + destruct H as [-> (m1 & m2 & H1 & H2 & H3)]. split; [done|]. exists m1, m2. set_solver.
Qed.

Lemma scimRoleForUser_spec :
  match scimRoleForUser configuration groups linkID with
  | Ok role => (role = SCIMConfiguration_DefaultRole configuration ∧ ∀ m, ¬ applies m) ∨
      (∃ m, highest m) ∧ ∀ m, highest m → SCIMGroupRoleMapping_Role m = role
  | Error e => e = Wrapped "ambiguous SCIM group role mapping" ErrConflict ∧
      ∃ m1 m2, applies m1 ∧ applies m2 ∧
        SCIMGroupRoleMapping_Priority m1 = SCIMGroupRoleMapping_Priority m2 ∧
        SCIMGroupRoleMapping_Role m1 ≠ SCIMGroupRoleMapping_Role m2
  end.
Proof.
  unfold scimRoleForUser, highest.
  pose proof (select_mappings_spec (applicable configuration groups linkID) []
    (SCIMConfiguration_DefaultRole configuration, None)) as H.
  destruct (select_mappings _ _) as [[role [p|]]|e]; specialize (H (conj eq_refl eq_refl));
    cbn [app selects fst snd] in H.
  - right. destruct H as [(m & Hm & Hr & Hp) Hall]. setoid_rewrite applicable_spec in Hall.
    apply applicable_spec in Hm. split.
    + exists m. split; [done|]. intros o Ho. rewrite Hp. by apply Hall.
    + intros m' [Hm' Hmax]. apply Hall; [done|]. specialize (Hmax m Hm). destruct (Hall m' Hm'). lia.
  - left. destruct H as [Hnil ->]. split; [done|]. intros m Hm%applicable_spec. rewrite Hnil in Hm. set_solver.
  - destruct H as [-> (m1 & m2 & H1 & H2 & H3)]. rewrite applicable_spec in H1, H2. eauto 10.
Qed.
End roles.

Lemma applies_groups configuration groups groups' linkID m :
  groups ≡ₚ groups' → applies configuration groups linkID m → applies configuration groups' linkID m.
Proof. intros Hp (Hm & g & Hg & Hr). split; [done|]. exists g. by rewrite <- Hp. Qed.

(** The role of a member. *)
Definition role_given (configuration : SCIMConfiguration) (groups : list SCIMGroup) (linkID : UUID)
    (role : Role) : Prop :=
  (role = SCIMConfiguration_DefaultRole configuration ∧ ∀ m, ¬ applies configuration groups linkID m) ∨
  (∃ m, highest configuration groups linkID m) ∧
    ∀ m, highest configuration groups linkID m → SCIMGroupRoleMapping_Role m = role.

Lemma role_given_unique configuration groups groups' linkID role role' :
  groups ≡ₚ groups' → role_given configuration groups linkID role →
  role_given configuration groups' linkID role' → role = role'.
Proof.
  intros Hp. assert (∀ m, applies configuration groups linkID m ↔ applies configuration groups' linkID m) as Ha
    by (intros m; split; apply applies_groups; [done|by symmetry]).
  assert (∀ m, highest configuration groups linkID m ↔ highest configuration groups' linkID m) as Hh
    by (intros m; unfold highest; rewrite Ha; split; (intros [? H]; split; [done|]; intros o Ho;
        apply H; by apply Ha)).
  intros [[-> Hn]|[[m Hm] Hr]] [[-> Hn']|[[m' Hm'] Hr']]; [done| | |].
  - destruct Hm' as [Hm' _]. by apply Ha, Hn in Hm'.
  - destruct Hm as [Hm _]. by apply Ha, Hn' in Hm.
  - rewrite <- (Hr m Hm). by apply Hr', Hh.
Qed.

(** C29: the directory's groups decide a member's role by priority. A mapping
    applies when it names a live group the member belongs to. The role computed
    is the connection's default when no mapping applies, and otherwise the one
    role all the applying mappings of highest priority have; the computation
    fails only with a conflict between two applying mappings of one priority,
    hence never when mappings of one priority agree; and two successful
    computations over the same groups in any order give the same role. *)
Theorem scim_role_selection configuration groups linkID :
  (∀ role, scimRoleForUser configuration groups linkID = Ok role →
     role_given configuration groups linkID role) ∧
  (∀ e, scimRoleForUser configuration groups linkID = Error e →
     e = Wrapped "ambiguous SCIM group role mapping" ErrConflict ∧
     ∃ m1 m2, applies configuration groups linkID m1 ∧ applies configuration groups linkID m2 ∧
       SCIMGroupRoleMapping_Priority m1 = SCIMGroupRoleMapping_Priority m2 ∧
       SCIMGroupRoleMapping_Role m1 ≠ SCIMGroupRoleMapping_Role m2) ∧
  (∀ groups' role role', groups ≡ₚ groups' → scimRoleForUser configuration groups linkID = Ok role →
     scimRoleForUser configuration groups' linkID = Ok role' → role = role').
Proof.
  pose proof (scimRoleForUser_spec configuration) as H. split_and!.
  - intros role Hr. specialize (H groups linkID). by rewrite Hr in H.
  - intros e He. specialize (H groups linkID). by rewrite He in H.
  - intros groups' role role' Hp Hr Hr'. pose proof (H groups linkID) as H1. pose proof (H groups' linkID) as H2.
    rewrite Hr in H1. rewrite Hr' in H2. by eapply role_given_unique.
Qed.

(** Whether a tie that a higher priority overrides is reported depends on the
    order of the groups. *)
Definition tied_configuration : SCIMConfiguration :=
  SCIMConfiguration_zero <| SCIMConfiguration_DefaultRole := RoleMember |>
    <| SCIMConfiguration_GroupRoleMappings :=
         [mkSCIMGroupRoleMapping "a" RoleMember 1; mkSCIMGroupRoleMapping "b" RoleAdmin 1;
          mkSCIMGroupRoleMapping "c" RoleAdmin 2] |>.
Definition group_named (id : string) : SCIMGroup :=
  SCIMGroup_zero <| SCIMGroup_ExternalID := id |> <| SCIMGroup_MemberIDs := [Nil] |>.

Example tie_depends_on_order :
  scimRoleForUser tied_configuration (group_named <$> ["c"; "a"; "b"]) Nil = Ok RoleAdmin ∧
  scimRoleForUser tied_configuration (group_named <$> ["a"; "b"; "c"]) Nil =
    Error (Wrapped "ambiguous SCIM group role mapping" ErrConflict).
Proof. split; vm_compute; reflexivity. Qed.

Lemma scim_role_selection_witness :
  role_given tied_configuration (group_named <$> ["c"; "a"; "b"]) Nil RoleAdmin.
Proof.
  apply (proj1 (scim_role_selection tied_configuration (group_named <$> ["c"; "a"; "b"]) Nil)).
  exact (proj1 tie_depends_on_order).
Defined.
