(* ===== verification/ManagerFindings.v ===== *)
(** * Where the code and its documentation part

    Behaviours of the manager that its documentation excludes, for every
    environment or on the small service: a verification of the audit chain that a concurrent commit makes
    report a compromise, the MFA policy of a workspace that a relaxed step-up
    policy bypasses, instance administration by a context whose second factor is
    pending, and a disabled OAuth client that a request enables again once its
    cached document has expired. *)
From stdpp Require Import base gmap sets list strings numbers.
From Stdlib Require Import ZArith Lia Ascii.
From S2P Require Import Prelude Bytes Uuid Types OAuthTypes Roles AuditChain Store StoreUsers StoreTokens StoreWorkspaces StoreScim StoreOAuth Commit StoreSystem StoreMonotone Scenario GoText Tokens Events Manager ManagerGates Config ManagerSession ManagerPAT ManagerPassword ManagerAdmin OAuthPolicy ManagerOAuth ManagerOAuthTokens ManagerOAuthAdmin ManagerScenario ManagerTrace OAuthScenario ManagerSystem ManagerSafety ManagerAuth ManagerFlows ManagerFederated ManagerOAuthSafety ManagerQuiet ManagerGated.

(** ** Verifying the audit chain while the service runs *)

(** The verification of a state of the store from the genesis. *)
Definition verify_state (s : Store) : result AuditChainReport :=
  verify_chain_from (mkAuditChainCheckpoint 0 EmptyString) (ChainedAuditEvents s)
    (auditSequence s) (auditHead s).

(** Another request appends one event between the two reads of the
    verification. *)
Definition racing : Env :=
  demo_with (W_tick served + 7) [ForeignOp (op_at 9 Do_AppendAudit)].
Definition verified : result AuditChainReport * World :=
  @Manager_VerifyAuditChainFrom racing root (mkAuditChainCheckpoint 0 EmptyString) served.

Lemma racing_wf : WfEnv racing.
Proof. split; intros t; [|exact I]. cbn. destruct (_ =? t)%nat; repeat constructor. Qed.

(** The verification streams the events and then reads the head of the chain
    under another lock. When an ordinary commit lands in between, the answer
    is [ErrAuditCompromised], although the chain verifies in the state before
    and in the state after. *)
Theorem verification_race :
  WfEnv racing ∧
  is_ok (verify_state (W_store served)) = true ∧
  is_ok (verify_state (W_store verified.2)) = true ∧
  match verified.1 with Error e => errors_Is e ErrAuditCompromised = true | Ok _ => False end.
Proof. split; [apply racing_wf|]. by vm_compute. Qed.

(** ** The MFA policy of a workspace *)
Definition set_mfa (b : bool) : UpdateWorkspaceInput := mkUpdateWorkspaceInput "Acme" (Some b).
Definition mfa_required : World :=
  (@Manager_UpdateWorkspace demo root (Workspace_ID acme) (set_mfa true) served).2.

(** A workspace requires MFA: its administrator, signed in with a password
    alone, is refused by [AuthorizePermission] with [ErrStepUpRequired].  Under
    a step-up policy "none" for workspaces, the same context still updates the
    workspace, and turns the policy off. *)
Theorem relaxed_step_up_bypasses_mfa :
  Authentication_Level root = AAL1 ∧
  Workspace_RequireMFA <$> workspaces (W_store mfa_required) !! Workspace_ID acme = Some true ∧
  (@AuthorizePermission demo root (Workspace_ID acme) PermissionWorkspaceSettingsWrite
     mfa_required).1 = Error ErrStepUpRequired ∧
  let r := @Manager_UpdateWorkspace demo root (Workspace_ID acme) (set_mfa false) mfa_required in
  is_ok r.1 = true ∧
  Workspace_RequireMFA <$> workspaces (W_store r.2) !! Workspace_ID acme = Some false.
Proof. by vm_compute. Qed.

(** ** A pending second factor *)
Definition pending : Authentication := root <| Authentication_SecondFactorRequired := true |>.

(** [AuthorizeAdmin] never looks at the pending second factor of a context:
    the first factor alone authorizes the reads of an instance administrator,
    and, for a local request, the mutations too. *)
Theorem pending_context_administers :
  (∀ (E : Env) actor permission b,
    AuthorizeAdmin (actor <| Authentication_SecondFactorRequired := b |>) permission =
    AuthorizeAdmin actor permission) ∧
  (@AuthorizePermission demo pending (Workspace_ID acme) PermissionWorkspaceAccess served).1 =
    Error ErrStepUpRequired ∧
  is_ok (@Manager_AdminUpdateWorkspace demo pending (mkTrustedRequest true) (Workspace_ID acme)
           (set_mfa true) served).1 = true.
Proof. split; [done|]. by vm_compute. Qed.

(** ** A disabled client whose metadata expires *)
Definition cimd_id : string := "https://app.example/client".
Definition visit : World → result unit * World :=
  @Manager_ValidateOAuthAuthorizationRedirect server "https://auth.example" cimd_id "https://app.example/callback".
Definition cimd_record (s : Store) : UUID :=
  default Nil (oauthClientKeys s !! oauthClientKey (OAuthIssuer_ID demo_issuer) cimd_id).
Definition known : result unit * World := visit issuing.2.
Definition banned : result unit * World :=
  @Manager_DisableOAuthClient server root demo_request (cimd_record (W_store known.2)) known.2.
(** The cached document expires. *)
Definition expired : World := banned.2 <| W_tick ::= Nat.add 100 |>.

(** The stored record of a client of the issuer of a URL. *)
Record recorded (issuerURL clientID : string) (issuer : OAuthIssuer) (client : OAuthClient) (s : Store) : Prop :=
  mkRecorded {
  recorded_issuer : ∃ url, validateIssuerURL issuerURL = Ok url ∧
    by_key (oauthIssuerURLs s) (oauthIssuers s) OAuthIssuer_zero url = Some issuer;
  recorded_client : registered (OAuthIssuer_ID issuer) (TrimSpace clientID) client s;
  recorded_id : OAuthClient_ID client ≠ Nil }.

(** The cached document of the client is not expired at a reading of the clock. *)
Definition document_fresh {E : Env} (client : OAuthClient) (t : nat) : Prop :=
  ∀ expires, OAuthClient_MetadataExpiresAt client = Some expires → OAuthClient_Source client = OAuthClientCIMD →
    (m_clock the_manager t < expires)%Z.

Lemma UpsertOAuthCIMDClient_row cx client c s s' :
  UpsertOAuthCIMDClient cx client c s = (Ok tt, s') → oauthClients s' !! OAuthClient_ID client = Some client.
Proof.
  intros H. refine (wp_run _ (λ r s', r = Ok tt → _) s (Ok tt) s' _ H eq_refl).
  unfold UpsertOAuthCIMDClient. op_success. rewrite view_commitAudit. apply lookup_insert_eq.
Qed.

Lemma ok_fst {E : Env} {A} (p : M World A) Q w a : wp_ok p Q w → (p w).1 = Ok a → Q a (p w).2.
Proof. unfold wp. by destruct (p w) as [[] ?]; [intros ? [= <-]|]. Qed.

Section returns.
Context {E : Env} `{!Quiet E, !WfEnv E}.

Lemma refresh_client_enables oauth issuer clientID client w : OAuthClient_ID client ≠ Nil →
  wp_ok (refresh_client oauth issuer clientID client) (λ c w',
    OAuthClient_ID c = OAuthClient_ID client ∧ OAuthClient_DisabledAt c = None ∧
    oauthClients (W_store w') !! OAuthClient_ID client = Some c) w.
Proof.
  intros Hid. unfold refresh_client. cbv zeta. rewrite bool_decide_eq_true_2 by done.
  ok_step. ok_step. ok_step. ok_step; [|by ok_step].
  ok_step. ok_step. apply ok_attempted; [intros; ok_step; by ok_step|]. ok_skip w1 Hl1. ok_step. ok_step.
  ok_step. apply ok_attempted; [intros; ok_step; by ok_step|].
  eapply ok_ensures; [apply oauthClientFromMetadata_ensures|]. intros c w2 Hl2 [Hi Hd].
  ok_step. ok_step; [|by ok_step]. ok_step. ok_step. ok_skip w3 Hl3. ok_step.
  eapply ok_ensures; [apply newOAuthChange_ensures|]. intros change w4 Hl4 Hc.
  do 3 ok_step. destruct r as [[]|]; [|done]. cbn [on_ok]. ok_step.
  unfold emitOAuthChange, emit. eapply wp_modify. cbn [on_ok]. apply ok_ret. split_and!; [done|done|].
  by apply UpsertOAuthCIMDClient_row in Hrun.
Qed.

Lemma still_cached_fresh client w : (∀ t, W_tick w ≤ t → document_fresh client t) →
  wp_ok (still_cached client) (λ b w', b = true ∧ W_store w' = W_store w) w.
Proof.
  intros Hf. unfold still_cached, document_fresh in *. destruct (OAuthClient_MetadataExpiresAt client) as [expires|];
    [|by apply ok_ret]. case_bool_decide as Hs; [|by apply ok_ret]. ok_step. apply ok_ret. split; [|done].
  apply bool_decide_eq_true. by apply (Hf (W_tick w)).
Qed.
Lemma still_cached_stale client w : (∀ t, W_tick w ≤ t → ¬ document_fresh client t) →
  wp_ok (still_cached client) (λ b w', b = false) w.
Proof.
  intros Hf. specialize (Hf (W_tick w) (le_n _)). unfold still_cached, document_fresh in *.
  destruct (OAuthClient_MetadataExpiresAt client) as [expires|]; [|by destruct Hf].
  case_bool_decide as Hs; [|by destruct Hf]. ok_step. apply ok_ret. unfold Time_Before.
  apply bool_decide_eq_false. intros Hlt. by destruct Hf; intros ? [= <-].
Qed.

(** The redirect check asks the stored record, through its cache. *)
Lemma redirect_check issuerURL clientID redirectURI issuer client (Q : World → Prop) w :
  recorded issuerURL clientID issuer client (W_store w) →
  (∀ oauth w1, W_tick w ≤ W_tick w1 → W_store w1 = W_store w →
    wp_ok (cached ← still_cached client;
           if cached : bool then mret client else refresh_client oauth issuer (TrimSpace clientID) client)
      (λ c w', OAuthClient_DisabledAt c = None → Q w') w1) →
  wp_ok (Manager_ValidateOAuthAuthorizationRedirect issuerURL clientID redirectURI) (λ _, Q) w.
Proof.
  intros [(url & Hu & Hi) Hc Hid] HQ. unfold Manager_ValidateOAuthAuthorizationRedirect, requireOAuth.
  ok_step. ok_step. rename a into oauth. ok_step. rewrite Hu. apply ok_ret.
  unfold enabled_issuer, lookup_valid. ok_step. ok_step. apply ok_attempt. eapply wp_lookup_quiet; [apply _|].
  cbv beta. rewrite Hi. cbv beta iota. ok_step. ok_step. apply ok_ret. ok_step.
  apply ok_attempted; [intros; by ok_step|]. unfold resolveOAuthClient. cbv zeta. ok_step. ok_step. ok_step.
  apply ok_attempt. eapply wp_lookup_quiet; [apply _|]. cbv beta. rewrite W_store_tick.
  unfold registered in Hc. rewrite Hc. cbv beta iota.
  eapply wp_mono; [apply (HQ oauth); [cbn; lia|done]|]. intros [c|e] w' Hw; [|done]. cbn [on_ok] in *.
  ok_step. ok_step. ok_step. apply Hw. by apply not_nil_false.
Qed.
End returns.

(** C40: a ban on a client known by its metadata URL does not outlive the
    cache. For every environment in which the redirect check of an authorization
    request runs alone, and every disabled record of a client: while its cached
    document is fresh the check never passes; once the document has expired, the
    check, a request without any credential, passes only by leaving the record
    of the client enabled, under the same identifier. *)
Theorem disabled_client_returns {E : Env} `{!Quiet E} issuerURL clientID redirectURI issuer client w :
  recorded issuerURL clientID issuer client (W_store w) → OAuthClient_DisabledAt client ≠ None →
  let r := Manager_ValidateOAuthAuthorizationRedirect issuerURL clientID redirectURI w in
  ((∀ t, W_tick w ≤ t → document_fresh client t) → r.1 ≠ Ok tt) ∧
  ((∀ t, W_tick w ≤ t → ¬ document_fresh client t) → r.1 = Ok tt →
     ∃ client', oauthClients (W_store r.2) !! OAuthClient_ID client = Some client' ∧
       OAuthClient_ID client' = OAuthClient_ID client ∧ OAuthClient_DisabledAt client' = None).
Proof.
  intros Hr Hd. pose proof (quiet_wf E _) as HE. cbv zeta. split; intros Hf Hok.
  - refine (ok_fst _ _ _ _ (redirect_check issuerURL clientID redirectURI issuer client (λ _, False) w Hr _) Hok).
    intros oauth w1 Ht Hs. ok_step. eapply wp_mono; [apply still_cached_fresh; intros; apply Hf; lia|].
    intros [b|e] w2 Hb; [|done]. destruct Hb as [-> _]. by apply ok_ret.
  - refine (ok_fst _ _ _ _ (redirect_check issuerURL clientID redirectURI issuer client
      (λ w', ∃ c, oauthClients (W_store w') !! _ = Some c ∧ _) w Hr _) Hok).
    intros oauth w1 Ht Hs. ok_step. eapply wp_mono; [apply still_cached_stale; intros; apply Hf; lia|].
    intros [b|e] w2 Hb; [|done]. cbn [on_ok] in Hb. subst b. eapply wp_mono; [apply refresh_client_enables, Hr|].
    intros [c|e] w3 Hc; [|done]. cbn [on_ok] in *. intros _. destruct Hc as (? & ? & ?). by exists c.
Qed.

#[export] Instance server_quiet : Quiet server.
Proof. by split. Qed.

Lemma server_clock t : m_clock (@the_manager server) t = (10 ^ 18 + Z.of_nat t * 10 ^ 6)%Z.
Proof. reflexivity. Qed.

(** The record of the client in a world, and the facts of the ban. *)
Definition cimd_issuer (s : Store) : OAuthIssuer :=
  default OAuthIssuer_zero (by_key (oauthIssuerURLs s) (oauthIssuers s) OAuthIssuer_zero "https://auth.example").
Definition cimd_client (s : Store) : OAuthClient :=
  default OAuthClient_zero (by_key (oauthClientKeys s) (oauthClients s) OAuthClient_zero
    (oauthClientKey (OAuthIssuer_ID (cimd_issuer s)) cimd_id)).
Definition ban_check (w : World) (r : result unit) : bool :=
  let s := W_store w in
  let c := cimd_client s in
  not_nil (by_key (oauthIssuerURLs s) (oauthIssuers s) OAuthIssuer_zero "https://auth.example") &&
  not_nil (by_key (oauthClientKeys s) (oauthClients s) OAuthClient_zero
    (oauthClientKey (OAuthIssuer_ID (cimd_issuer s)) cimd_id)) &&
  bool_decide (OAuthClient_ID c ≠ Nil) && not_nil (OAuthClient_DisabledAt c) &&
  bool_decide (OAuthClient_Source c = OAuthClientCIMD) &&
  match OAuthClient_MetadataExpiresAt c with
  | Some expires => bool_decide (expires ≤ 10 ^ 18 + Z.of_nat (W_tick w) * 10 ^ 6)%Z
  | None => false
  end && is_ok r.

Lemma ban_check_spec w r : ban_check w r = true →
  recorded "https://auth.example" cimd_id (cimd_issuer (W_store w)) (cimd_client (W_store w)) (W_store w) ∧
  OAuthClient_DisabledAt (cimd_client (W_store w)) ≠ None ∧
  (∀ t, W_tick w ≤ t → ¬ document_fresh (E := server) (cimd_client (W_store w)) t) ∧ r = Ok tt.
Proof.
  unfold ban_check. cbv zeta. rewrite !andb_true_iff, !bool_decide_eq_true.
  intros ((((((Hi & Hc) & Hid) & Hd) & Hs) & He) & Hr).
  split_and!.
  - split; [|unfold registered|done].
    + exists "https://auth.example". split; [reflexivity|]. unfold cimd_issuer. by destruct (by_key _ _ _ _).
    + change (TrimSpace cimd_id) with cimd_id. unfold cimd_client. revert Hc. by destruct (by_key (oauthClientKeys _) _ _ _).
  - intros Hn. by rewrite Hn in Hd.
  - intros t Ht Hf. destruct (OAuthClient_MetadataExpiresAt _) as [expires|] eqn:Hx; [|done].
    apply bool_decide_eq_true in He. specialize (Hf _ Hx Hs). rewrite server_clock in Hf. lia.
  - by destruct r as [[]|].
Qed.

Lemma ban_facts : is_ok known.1 && is_ok banned.1 && ban_check expired (visit expired).1 = true.
Proof. by vm_compute. Qed.

Lemma disabled_client_returns_witness :
  ∃ client', oauthClients (W_store (visit expired).2) !! OAuthClient_ID (cimd_client (W_store expired)) = Some client' ∧
    OAuthClient_ID client' = OAuthClient_ID (cimd_client (W_store expired)) ∧ OAuthClient_DisabledAt client' = None.
Proof.
  pose proof ban_facts as Hb. apply andb_true_iff in Hb. destruct Hb as [_ Hb].
  apply ban_check_spec in Hb. destruct Hb as (Hr & Hd & Hf & Hok).
  pose proof (@disabled_client_returns server server_quiet "https://auth.example" cimd_id
    "https://app.example/callback" (cimd_issuer (W_store expired)) (cimd_client (W_store expired)) expired Hr Hd) as H.
  exact (proj2 H Hf Hok).
Defined.
